(* ===== verification/_CoqProject ===== *)
-Q . S2P
Prelude.v
Kernel.v
State.v
CStr.v
Fibers.v
Heap.v
Runs.v
Kprobes.v
Safety.v
Fls.v
Outcome.v
System.v
Views.v
Scenario.v
Exclusion.v
Switching.v
Creation.v
FlsContract.v
Lifecycle.v
Spec.v
Refinement.v
Client.v
FiberLogic.v
MainProgram.v
Multithread.v
UserMem.v
Ioctl.v
Device.v
FiberLib.v
Proc.v
Module.v
Parallel.v
ParallelSpec.v
ParallelSim.v
ParallelHandlers.v
ParallelFls.v
ParallelRefinement.v
Jmp.v
Ult.v
Double.v
Trace.v
Numerical.v
Calqueue.v
CalqueueInv.v
CalqueueProps.v
Channel.v
ChannelInv.v
Simulation.v
SimulationProps.v
Threads.v
Benchmark.v
BenchmarkJobs.v
BenchmarkProps.v
