(* ===== verification/Prelude.v ===== *)
(** * Verification of the AOSV Fibers kernel module

    AOSV Fibers gives Linux the fibers of another operating system: a thread
    converts itself to a fiber, makes more, and switches between them; every
    fiber has local storage.  The repository has a kernel module
    ([src/module]), a library that calls it ([src/fiberlib]) with two
    demonstration programs, and a benchmark ([src/benchmark]) that compares it
    with fibers of user level: every fiber simulates a cell of a mobile network.

    ** The parts of the program

    The module keeps, per process that uses fibers, its fibers and its
    converted threads in hash tables (fibers.c, fibers.h, init.h).  It is
    entered by the system call [ioctl] on its device (ioctl.c), by [read] and
    [close] of the device (device.c), and by probes on kernel functions: on
    [do_exit], to take a dead thread off its fiber; on the scheduler, to count
    time; on two functions of /proc, to show the fibers as files (kprobes.c,
    proc.c).  module.c loads and unloads all of it.  The library reads the
    command numbers from the device when a program starts, and packs the
    arguments of the calls (fiberlib.c).

    A switch is all in the registers the kernel has saved for the task: the
    module stores them in the fiber that is left and overwrites them with those
    of the fiber that is entered, and the task returns there.

    ** The files

    Foundations.
    - Prelude: machine integers, the state monad with faults, notations, tactics.
    - Kernel: the kernel services the module calls ([Kernel], with the laws
      [KernelOk], and a concrete instance [Reference]).
    - State: the structures of fibers.h, the state of the module, the memory
      accesses.
    - CStr: decimal text and [strtol]; UserMem: user memory and its layout.

    The module.
    - Fibers: fibers.c with init.h; Kprobes: [exit_cleanup] and [fiber_timer].
    - Ioctl: ioctl.c; Device: device.c, over the driver core of the kernel
      ([DriverCore] with [DriverCoreOk]); Proc: proc.c and the handlers of the
      probes on /proc, over its functions for directories ([ProcFS] with
      [ProcFSOk]); Module: module.c, the registration of the probes, and
      functions run with their probes.
    - FiberLib: fiberlib.c, down to the bytes it passes.

    Its theory.
    - Heap: tables and objects agree, keys are unique; Runs: the exact run of
      every handler on every branch; Safety: the invariant is preserved; Fls:
      the storage implements a partial map.
    - Outcome: what every event returns and leaves, branch by branch; System:
      the module as a transition system; Views: lookups by id; Scenario:
      concrete runs.
    - Exclusion, Switching, Creation, FlsContract, Lifecycle: the properties of
      the handlers in every reachable state.
    - Spec: the module without tables, pointers, locks and counters;
      Refinement: the module implements it.

    Handlers in parallel.
    - Parallel: the handlers as sequences of accesses to shared memory, the
      machine that interleaves them, and three races.
    - ParallelSpec: what switches and storage operations promise in parallel;
      ParallelSim: the simulation and the rely and guarantee conditions;
      ParallelHandlers, ParallelFls: the handlers satisfy them;
      ParallelRefinement: the theorems.

    Programs on the module.
    - Client: threads that compute and call; their fibers as continuations.
    - FiberLogic: assertions about one fiber or thread at a time, beside an
      assertion on what they share that may use ghost state.
    - MainProgram: fiberlib/main.c; Multithread: fiberlib/multithread.c.

    Fibers of user level.
    - Jmp: benchmark/2018-fibers/src/jmp.S, instruction by instruction; Ult:
      ult.c and ult.h, with threads interleaved step by step.

    The application of the benchmark (benchmark/2018-fibers/src).
    - Double: binary64 numbers, their order, rounding, and exact cases; Trace:
      the state monad with faults and a trace.
    - Calqueue: calqueue.c; CalqueueInv: its invariant, insertion and removal;
      CalqueueProps: resizing, and the queue as a bag.
    - Numerical: numerical.c, access by access to the thread's seed; Channel: channel.c over a heap of list nodes and
      the bitmap of model.h; ChannelInv: its invariant and operations.
    - Simulation: model.c and the loop of main.c, one fiber alone;
      SimulationProps: its invariant.
    - Threads: thread.c access by access.
    - Benchmark: main.c and thread.c as a program on the module: main, the worker
      threads, the loop of a fiber, the alarm that switches to a random fiber;
      BenchmarkJobs: the simulations in its memory; BenchmarkProps: its theorems.

    A definition has the name of the C function, structure or field where there
    is one.  A handler is a command of the monad [kM] over [kstate]; its guards
    and early returns stand in the order of the code.

    ** What the theorems show

    - The module refines its specification, and every handler returns exactly
      the outcome listed for its event, on every branch ([Refinement],
      [Exclusion]).  With memory, and freed objects still readable, no handler
      faults or spins.
    - In every reachable state a fiber is run by at most one thread and is
      locked exactly then.
    - A fiber that is left is resumed with the registers, the FPU state and the
      storage it had, by whatever thread and after whatever happened in between
      ([Switching]).
    - Handlers that interleave access by access: each, run alone from a reachable
      state, has exactly the outcomes listed for its event ([handlers_alone]).
      Switches and storage operations
      in any interleaving refine a specification in which a switch takes the new
      fiber in one step and leaves the old one in another; they exclude each
      other, never wait, and end within 17 steps.  Conversion, creation and exit
      do not have this: runs show what can go wrong ([published_too_early],
      [exit_race]).
    - Storage: the contract of a map, capacity, round trips, and the stale value
      a re-used slot shows ([FlsContract]).
    - Exit and close free what they should and nothing else; they read freed
      objects on the way ([Lifecycle]).
    - The system call and the library in front of it deliver the arguments and
      results of the handlers ([ioctl_runs_handler], [library_calls]); the device
      and the files under /proc deliver their text within bounds or, where they
      do not, what they read instead ([Device], [Proc]).
    - Loading registers the device and the probes and unloading removes them;
      where the device could not be registered, unloading uses a class that is
      an error pointer or has been destroyed ([module_lifecycle]).  The directory
      of the fibers is found in /proc, and both probes read before its array in
      the cases listed ([probed_directory]).
    - Programs: a program whose threads use fibers on the module behaves as one
      whose fibers are continuations ([Client]); main.c terminates with a known
      output, on a stack that is large enough; multithread.c counts without gap
      in every fiber, under every interleaving of threads, migration of fibers
      and delivery of the alarm between the calls of the module.
    - User-level fibers: the two context routines are inverse; no two threads
      are on one stack, but for the window after a release, and after
      [completed_fibers] has dropped to 0 ([Jmp], [Ult]).

    - The application of the benchmark: its calendar queue loses no event and
      stays in its bounds as long as no bucket width it computes is negative,
      which can happen; it is no priority queue ([CalqueueProps]).  Under the
      same condition the simulation never faults or aborts, and events, channels
      and counters agree ([ChannelInv], [SimulationProps]).
    - The benchmark on the module, whatever the interleaving of its threads and
      wherever the alarm comes outside calls of the module and the C library: a
      fiber finds its own queue and state in its storage and its simulation
      stays consistent ([benchmark_isolation]); once [main] has set it,
      [completed_fibers] is the number of the fibers that have not counted
      themselves, which they do after the end of their simulations, and the end
      is reported when there is none ([benchmark_completion]).  The numbers of its
      threads are distinct, and the argument block the threads share would be
      freed twice if their routines returned ([helper_threads]).

    ** Assumptions, bounds and fuel

    - Kernel services obey [KernelOk]; [UserAccessOk] for user memory;
      [DriverCoreOk] and [ProcFSOk] for devices and directories.  That the use of
      a class that is destroyed or an error pointer faults is a hypothesis of
      the clauses that say so.  Freed
      objects may be readable ([stale_reads]); where that matters it is a
      hypothesis, and the opposite case is a theorem.
    - Handlers run one after the other, but for the Parallel files.  There
      memory is sequentially consistent; an access is a read or write of a
      field, an atomic operation, a lock operation, or a read-modify-write of a
      field that only its owner changes; a lookup in a hash table, and an
      addition to it, are one access each, which is more than
      [linux/hashtable.h] gives to callers that do not exclude each other.  The
      races found need no more than this.
    - Fiber ids are C ints: runs are shorter than 2^31 steps, where a step gives
      out at most one id; a step of a program counts for two, hence the bound
      [2 * n < INT_MAX] there.
    - Loops over tables recurse on the list of objects.  The reading loop of the
      library has fuel, and 2 is enough: the second read returns 0.  Decimal
      text is made with 20 digits, which is enough for 64 bits.
    - In Client a local state stands for the stack and the registers of a fiber.
      That the stacks of a program are large enough and do not overlap is left
      to it: main.c gives its fiber 6 bytes, so that what is proved of it holds
      for a stack that is large enough.  The token that a call leaves as its
      instruction pointer stands for all of them: that the stack pointer, the
      other registers and the FPU state come back with it is
      [context_round_trip] and [switch_success].  The calls there are those of
      the module, each a step: a switch to a fiber that is still being created
      ([published_too_early]) is not among the runs.  FiberLib connects them with the functions of the library, whose
      own failures (no memory for a stack, a device that is not there) are not
      in Client.
    - In Multithread the alarm may come at any point, which includes all points
      it can come at.
    - In Benchmark what a fiber does with its own objects takes any number of
      steps, at each of which the alarm may come, and the seed of the thread it
      is on is arbitrary before every access.  The result does not depend on
      the steps otherwise, because no one else has a pointer to these objects.
      The functions of the C library are one step each: it is assumed that the
      alarm does not come inside [malloc], [free], [random], [puts] and
      [printf], which take locks; that the program does not see to it is a
      finding.  The clock gives any number.  A simulation that faults, aborts or
      follows a pointer that is not its own ends the program there.  Its calls
      are those of the module; the variant of the benchmark with fibers of user
      level calls the functions of Ult.  Allocations and [pthread_create]
      succeed.
    - Doubles are binary64, rounded to nearest; a conversion to an integer that
      does not fit gives the least integer, as on x86-64.  The C library is a
      parameter ([Libc]): [random] is below 2^31, the logarithm of a number in
      (0, 1] is not positive, [malloc] gives fresh memory.  [resize] has fuel for
      its nested calls, and 2 is enough: the inner one is disabled.  The scan of
      the queue has the number of buckets as fuel; loops over the list of
      channels have the number of nodes.

    ** Not modelled

    - RCU and the inner steps of the hash tables: the kernel primitives are not
      in the repository, and the module uses them without the grace periods and
      the locks that would give them a sequential meaning.  The scheduler probe
      in parallel: it works on variables of its processor.
    - Of the benchmark: the clocks, and how often the alarm comes; an alarm in
      the middle of a call of the C library; allocations that fail.  The
      tests; dumps of disassembly; plots and report.
    - Macros that only build tables for the kernel (kprobes.h, proc.h) beyond
      the entries the code reads; includes, licences and module parameters. *)

From stdpp Require Export base tactics numbers list strings gmap sets fin_maps.
From Stdlib Require Export Lia.

#[export] Set Default Goal Selector "!".

Open Scope Z_scope.

(** ** Machine-width integers

    A C integer of [w] bits is a [Z]; conversions wrap modulo [2^w].  [uw] is
    the conversion to an unsigned type, [sw] the (gcc, two's complement)
    conversion to a signed type. *)

Definition uw (w x : Z) : Z := x mod 2 ^ w.
Definition sw (w x : Z) : Z := (x + 2 ^ (w - 1)) mod 2 ^ w - 2 ^ (w - 1).

Abbreviation u32 := (uw 32).
Abbreviation u64 := (uw 64).
Abbreviation s32 := (sw 32).
Abbreviation s64 := (sw 64).
Abbreviation INT_MAX := (2 ^ 31 - 1).

Lemma uw_small w x : 0 <= x < 2 ^ w -> uw w x = x.
Proof. apply Z.mod_small. Qed.

Lemma uw_range w x : 0 <= w -> 0 <= uw w x < 2 ^ w.
Proof. intros. apply Z.mod_pos_bound. lia. Qed.

Lemma sw_small w x : - 2 ^ (w - 1) <= x < 2 ^ (w - 1) -> 1 <= w -> sw w x = x.
Proof.
  intros Hx Hw. unfold sw.
  assert (2 ^ w = 2 * 2 ^ (w - 1)).
  { rewrite <- Z.pow_succ_r by lia. f_equal; lia. }
  rewrite Z.mod_small; lia.
Qed.

Lemma sw_range w x : 1 <= w -> - 2 ^ (w - 1) <= sw w x < 2 ^ (w - 1).
Proof.
  intros Hw. unfold sw.
  assert (2 ^ w = 2 * 2 ^ (w - 1)).
  { rewrite <- Z.pow_succ_r by lia. f_equal; lia. }
  pose proof (Z.mod_pos_bound (x + 2 ^ (w - 1)) (2 ^ w)). lia.
Qed.

Lemma s32_small x : - 2 ^ 31 <= x < 2 ^ 31 -> s32 x = x.
Proof. intros. apply sw_small; lia. Qed.

Lemma s64_small x : - 2 ^ 63 <= x < 2 ^ 63 -> s64 x = x.
Proof. intros. apply sw_small; lia. Qed.

Lemma u64_small x : 0 <= x < 2 ^ 64 -> u64 x = x.
Proof. apply uw_small. Qed.

Lemma uw_add_idemp_l w x y : uw w (uw w x + y) = uw w (x + y).
Proof. apply Zplus_mod_idemp_l. Qed.

(** ** A state monad whose computations may fault

    [stM S A] is a computation that reads and writes a state [S] and returns an
    [A]; the outcome [None] is a run that does not return: a dereference of
    NULL, of a freed object or out of the bounds of an array (a kernel oops),
    or a spin on a lock nobody will release. *)

Definition stM (S A : Type) : Type := S -> option (A * S).

Section StM.
Context {S : Type}.

Definition mret {A} (a : A) : stM S A := fun s => Some (a, s).
Definition mthen {A B} (m : stM S A) (f : A -> stM S B) : stM S B :=
  fun s => match m s with Some (a, s') => f a s' | None => None end.
Definition mfault {A} : stM S A := fun _ => None.
Definition mget : stM S S := fun s => Some (s, s).
Definition mput (s : S) : stM S unit := fun _ => Some (tt, s).
Definition mmodify (f : S -> S) : stM S unit := fun s => Some (tt, f s).
Definition mreads {A} (f : S -> A) : stM S A := fun s => Some (f s, s).
(** Dereference: the value of an option read from the state, or a fault. *)
Definition mderef {A} (f : S -> option A) : stM S A :=
  fun s => match f s with Some a => Some (a, s) | None => None end.

Lemma mthen_ret_l {A B} (a : A) (f : A -> stM S B) s : mthen (mret a) f s = f a s.
Proof. done. Qed.

Lemma mthen_modify {A} (g : S -> S) (f : unit -> stM S A) s :
  mthen (mmodify g) f s = f tt (g s).
Proof. done. Qed.

Lemma mthen_reads {A B} (g : S -> A) (f : A -> stM S B) s :
  mthen (mreads g) f s = f (g s) s.
Proof. done. Qed.

Lemma mthen_ret_r {A} (m : stM S A) s : mthen m mret s = m s.
Proof. unfold mthen, mret. by destruct (m s) as [[]|]. Qed.

Lemma mthen_assoc {A B C} (m : stM S A) (f : A -> stM S B) (g : B -> stM S C) s :
  mthen (mthen m f) g s = mthen m (fun a => mthen (f a) g) s.
Proof. unfold mthen. by destruct (m s) as [[]|]. Qed.

Lemma mthen_eq {A B} (m : stM S A) (f : A -> stM S B) s a s' :
  m s = Some (a, s') -> mthen m f s = f a s'.
Proof. unfold mthen. by intros ->. Qed.

Lemma mthen_None {A B} (m : stM S A) (f : A -> stM S B) s :
  m s = None -> mthen m f s = None.
Proof. unfold mthen. by intros ->. Qed.

Lemma mthen_inv {A B} (m : stM S A) (f : A -> stM S B) s b s'' :
  mthen m f s = Some (b, s'') ->
  exists a s', m s = Some (a, s') /\ f a s' = Some (b, s'').
Proof. unfold mthen. destruct (m s) as [[a s']|]; [eauto|done]. Qed.

Lemma mderef_eq {A} (f : S -> option A) s a :
  f s = Some a -> mderef f s = Some (a, s).
Proof. unfold mderef. by intros ->. Qed.
End StM.

Declare Scope fiber_scope.
Delimit Scope fiber_scope with fiber.
Notation "'let!' x ':=' m 'in' k" := (mthen m (fun x => k))
  (at level 10, x pattern, m at level 100, k at level 200) : fiber_scope.
Notation "'do!' m ; k" := (mthen m (fun _ => k))
  (at level 10, m at level 100, k at level 200) : fiber_scope.
Open Scope fiber_scope.

Create HintDb fibers.
Create Rewrite HintDb fibers.
#[export] Hint Rewrite @mthen_ret_l : fibers.

(** [mstep] runs the first command of a monadic run whose result is known from
    a hypothesis; [minv] inverts a successful run into its commands. *)
Ltac mstep :=
  first
    [ erewrite mthen_eq by eassumption
    | erewrite mthen_eq by (apply mderef_eq; eassumption)
    | rewrite mthen_ret_l ];
  cbv beta iota.

Ltac minv :=
  repeat match goal with
  | H : mthen _ _ _ = Some _ |- _ =>
      let a := fresh "r" in let s := fresh "s" in
      let H1 := fresh "Hrun" in
      apply mthen_inv in H as (a & s & H1 & H)
  | H : mret _ _ = Some _ |- _ => unfold mret in H; simplify_eq
  | H : mfault _ = Some _ |- _ => discriminate H
  end.

(** ** Generic facts on lists and options *)

Lemma list_lookup_insert_Z {A} (l : list A) (i j : Z) (x : A) :
  0 <= i < Z.of_nat (length l) -> 0 <= j ->
  <[Z.to_nat i := x]> l !! Z.to_nat j = if decide (i = j) then Some x else l !! Z.to_nat j.
Proof.
  intros Hi Hj. case_decide as H.
  - subst. apply list_lookup_insert_eq. lia.
  - apply list_lookup_insert_ne. lia.
Qed.

Lemma length_omap_le {A B} (f : A -> option B) (l : list A) : (length (omap f l) <= length l)%nat.
Proof. induction l as [|x l IH]; csimpl; [lia|]. destruct (f x); simpl; lia. Qed.

Lemma lookup_Z_Some {A} (l : list A) (i : Z) :
  0 <= i < Z.of_nat (length l) -> exists x, l !! Z.to_nat i = Some x.
Proof. intros. apply lookup_lt_is_Some_2. lia. Qed.
