(* ===== verification/Kernel.v ===== *)
(** * The kernel services the module is written against

    The module calls kernel code that is not part of the repository: the slab
    allocator, the spinlocks, [linux/hashtable.h], [linux/bitmap.h] and the
    layout of [struct pt_regs] and of the FX save area.  [Kernel] is the
    interface to them: every component is defined over an arbitrary instance.
    [KernelOk] states the documented behaviour of these services, and nothing
    else is assumed of them.  [Reference.kernel] is a concrete instance on which the
    components run, and [Reference.kernel_ok] shows that it satisfies the laws. *)

From S2P Require Import Prelude.

(** Kernel addresses of the objects the module allocates; a pointer that may
    be NULL is an [option ptr]. *)
Abbreviation ptr := positive.

Class Kernel : Type := {
  (** The registers of [struct pt_regs] the module copies but never names. *)
  other_regs : Type;
  (** The FX save area ([struct fxregs_state]). *)
  fx_regs : Type;
  (** The user memory of the running process. *)
  user_mem : Type;

  (** [kmalloc allocated]: the object returned when [allocated] are in use. *)
  kmalloc : gset ptr -> option ptr;
  (** Whether a read of an object that was just freed still yields its old
      contents.  The slab allocator promises nothing; both answers are allowed. *)
  stale_reads : bool;

  (** [linux/spinlock.h] *)
  spinlock_t : Type;
  SPIN_LOCK_UNLOCKED : spinlock_t;
  spin_is_locked : spinlock_t -> bool;
  spin_trylock : spinlock_t -> bool * spinlock_t;
  spin_unlock : spinlock_t -> spinlock_t;

  (** [linux/hashtable.h]: a table of intrusive nodes, seen as the objects
      that contain them. *)
  hlists : Type;
  hash_init : hlists;
  hash_add_rcu : hlists -> ptr -> Z -> hlists;
  hash_del_rcu : hlists -> ptr -> hlists;
  (** The objects [hash_for_each_possible_rcu] visits for a key, in order. *)
  hash_possible : hlists -> Z -> list ptr;
  (** The objects [hash_for_each_rcu] visits, in order. *)
  hash_each : hlists -> list ptr;

  (** [linux/bitmap.h] *)
  bitmap : Type;
  bitmap_zero : Z -> bitmap;
  test_bit : Z -> bitmap -> bool;
  change_bit : Z -> bitmap -> bitmap;
  find_first_zero_bit : bitmap -> Z -> Z
}.

(** The documented behaviour of the services. *)
Class KernelOk (K : Kernel) : Prop := {
  kmalloc_fresh (used : gset ptr) p : kmalloc used = Some p -> p ∉ used;

  spin_unlocked_free : spin_is_locked SPIN_LOCK_UNLOCKED = false;
  spin_unlock_free l : spin_is_locked (spin_unlock l) = false;
  spin_trylock_result l : (spin_trylock l).1 = negb (spin_is_locked l);
  spin_trylock_locks l : spin_is_locked (spin_trylock l).2 = true;

  hash_init_each : hash_each hash_init = [];
  hash_add_each h p k : hash_each (hash_add_rcu h p k) ≡ₚ p :: hash_each h;
  hash_del_each h p :
    p ∈ hash_each h -> p :: hash_each (hash_del_rcu h p) ≡ₚ hash_each h;
  hash_possible_each h k p : p ∈ hash_possible h k -> p ∈ hash_each h;
  hash_add_possible h p k q k' :
    q ∈ hash_possible (hash_add_rcu h p k) k' ->
    q = p \/ q ∈ hash_possible h k';
  hash_add_possible_new h p k : p ∈ hash_possible (hash_add_rcu h p k) k;
  hash_add_possible_old h p k q k' :
    q ∈ hash_possible h k' -> q ∈ hash_possible (hash_add_rcu h p k) k';
  hash_del_possible_old h p q k :
    q <> p -> q ∈ hash_possible h k -> q ∈ hash_possible (hash_del_rcu h p) k;

  bitmap_zero_test n i : 0 <= i < n -> test_bit i (bitmap_zero n) = false;
  change_bit_same i b : 0 <= i -> test_bit i (change_bit i b) = negb (test_bit i b);
  change_bit_other i j b :
    0 <= i -> 0 <= j -> i <> j -> test_bit j (change_bit i b) = test_bit j b;
  find_first_zero_range b n : 0 <= n -> 0 <= find_first_zero_bit b n <= n;
  find_first_zero_free b n :
    0 <= n -> find_first_zero_bit b n < n ->
    test_bit (find_first_zero_bit b n) b = false;
  find_first_zero_least b n i :
    0 <= n -> 0 <= i < find_first_zero_bit b n -> test_bit i b = true
}.

(** ** Facts shared by the clients of the interface *)

Section KernelFacts.
Context {K : Kernel} {KOk : KernelOk K}.

Lemma spin_trylock_free (l : spinlock_t) :
  spin_is_locked l = false -> exists l', spin_trylock l = (true, l') /\ spin_is_locked l' = true.
Proof.
  intros Hl. pose proof (spin_trylock_result l) as H1.
  pose proof (spin_trylock_locks l) as H2.
  destruct (spin_trylock l) as [b l']; simpl in *. rewrite Hl in H1. subst b. eauto.
Qed.

Lemma spin_trylock_busy (l : spinlock_t) :
  spin_is_locked l = true -> exists l', spin_trylock l = (false, l') /\ spin_is_locked l' = true.
Proof.
  intros Hl. pose proof (spin_trylock_result l) as H1.
  pose proof (spin_trylock_locks l) as H2.
  destruct (spin_trylock l) as [b l']; simpl in *. rewrite Hl in H1. subst b. eauto.
Qed.

Lemma hash_init_possible k : hash_possible hash_init k = [].
Proof.
  destruct (hash_possible hash_init k) as [|p l] eqn:E; [done|].
  assert (p ∈ hash_each hash_init) as H.
  { apply (hash_possible_each _ k). rewrite E. left. }
  rewrite hash_init_each in H. inversion H.
Qed.

Lemma hash_add_each_elem h p k q :
  q ∈ hash_each (hash_add_rcu h p k) <-> q = p \/ q ∈ hash_each h.
Proof. rewrite hash_add_each. apply elem_of_cons. Qed.

Lemma hash_add_NoDup h p k :
  p ∉ hash_each h -> NoDup (hash_each h) -> NoDup (hash_each (hash_add_rcu h p k)).
Proof. intros. rewrite hash_add_each. by constructor. Qed.

Lemma hash_add_length h p k :
  length (hash_each (hash_add_rcu h p k)) = S (length (hash_each h)).
Proof. by rewrite hash_add_each. Qed.

Lemma hash_del_NoDup h p :
  p ∈ hash_each h -> NoDup (hash_each h) -> NoDup (hash_each (hash_del_rcu h p)).
Proof. intros Hp. rewrite <- (hash_del_each h p) by done. by intros [_ ?]%NoDup_cons. Qed.

Lemma hash_del_each_elem h p q :
  p ∈ hash_each h -> NoDup (hash_each h) ->
  q ∈ hash_each (hash_del_rcu h p) <-> q <> p /\ q ∈ hash_each h.
Proof.
  intros Hp Hnd. rewrite <- (hash_del_each h p) in Hnd by done.
  apply NoDup_cons in Hnd as [Hn _].
  assert (q ∈ hash_each h <-> q ∈ p :: hash_each (hash_del_rcu h p)) as ->.
  { by rewrite (hash_del_each h p). }
  rewrite elem_of_cons. split; [|by intros [Hne [?|?]]; auto].
  intros Hq. split; [by intros ->|auto].
Qed.

Lemma hash_del_length h p :
  p ∈ hash_each h -> length (hash_each h) = S (length (hash_each (hash_del_rcu h p))).
Proof. intros Hp. by rewrite <- (hash_del_each h p) by done. Qed.
End KernelFacts.

(** ** A reference instance

    The spinlock is its flag, a hash table the list of its objects with their
    keys (in buckets modulo 1024), a bitmap an integer, and an allocation the
    first address that is not in use. *)

Module Reference.

Definition del_first (p : ptr) : list (ptr * Z) -> list (ptr * Z) :=
  fix go l :=
    match l with
    | [] => []
    | (q, k) :: l' => if decide (q = p) then l' else (q, k) :: go l'
    end.

Fixpoint first_zero (fuel : nat) (i : Z) (b : Z) : Z :=
  match fuel with
  | O => i
  | S fuel' => if Z.testbit b i then first_zero fuel' (i + 1) b else i
  end.

Definition possible (h : list (ptr * Z)) (k : Z) : list ptr :=
  (filter (fun x : ptr * Z => x.2 mod 1024 = k mod 1024) h).*1.
#[global] Arguments possible : simpl never.

(** [stale]: whether freed objects keep their contents. *)
Definition kernel_with (stale : bool) : Kernel := {|
  other_regs := list Z;
  fx_regs := list Z;
  user_mem := gmap Z Z;
  kmalloc used := Some (fresh used);
  stale_reads := stale;
  spinlock_t := bool;
  SPIN_LOCK_UNLOCKED := false;
  spin_is_locked l := l;
  spin_trylock l := (negb l, true);
  spin_unlock _ := false;
  hlists := list (ptr * Z);
  hash_init := [];
  hash_add_rcu h p k := (p, k) :: h;
  hash_del_rcu h p := del_first p h;
  hash_possible := possible;
  hash_each h := h.*1;
  bitmap := Z;
  bitmap_zero _ := 0;
  test_bit i b := Z.testbit b i;
  change_bit i b := Z.lxor b (Z.shiftl 1 i);
  find_first_zero_bit b n := first_zero (Z.to_nat n) 0 b
|}.

#[export] Instance kernel : Kernel := kernel_with true.

Lemma first_zero_spec fuel i b :
  i <= first_zero fuel i b <= i + Z.of_nat fuel /\
  (first_zero fuel i b < i + Z.of_nat fuel -> Z.testbit b (first_zero fuel i b) = false) /\
  (forall j, i <= j < first_zero fuel i b -> Z.testbit b j = true).
Proof.
  revert i. induction fuel as [|fuel IH]; intros i; cbn [first_zero].
  - split_and!; intros; lia.
  - destruct (Z.testbit b i) eqn:Ei; [|split_and!; intros; (done || lia)].
    destruct (IH (i + 1)) as (H1 & H2 & H3). split_and!.
    + lia.
    + lia.
    + intros ?. apply H2. lia.
    + intros j Hj. destruct (decide (j = i)) as [->|]; [done|]. apply H3. lia.
Qed.

Lemma del_first_perm p (h : list (ptr * Z)) :
  p ∈ h.*1 -> p :: (del_first p h).*1 ≡ₚ h.*1.
Proof.
  induction h as [|[q k] h IH]; cbn.
  - by intros ?%elem_of_nil.
  - rewrite elem_of_cons. case_decide as E; [by subst|].
    intros [->|Hp]; [done|]. cbn. rewrite <- (IH Hp). apply Permutation_swap.
Qed.

Lemma del_first_possible p q k (h : list (ptr * Z)) :
  q <> p -> (q, k) ∈ h -> (q, k) ∈ del_first p h.
Proof.
  intros Hq. induction h as [|[r k'] h IH]; cbn.
  - by intros ?%elem_of_nil.
  - rewrite elem_of_cons. case_decide as E; intros [[= -> ->]|H].
    + done.
    + done.
    + left.
    + right. auto.
Qed.

Lemma possible_elem h k p :
  p ∈ possible h k <-> exists k', (p, k') ∈ h /\ k' mod 1024 = k mod 1024.
Proof.
  unfold possible. rewrite list_elem_of_fmap. split.
  - intros ([q k'] & -> & [? ?]%list_elem_of_filter). by exists k'.
  - intros (k' & ? & ?). exists (p, k'). by rewrite list_elem_of_filter.
Qed.

Lemma kernel_with_ok stale : KernelOk (kernel_with stale).
Proof.
  split; cbn; try done.
  - intros used p [= <-]. apply is_fresh.
  - intros h p. apply del_first_perm.
  - intros h k p (k' & ? & _)%possible_elem. apply list_elem_of_fmap. by exists (p, k').
  - intros h p k q k'. rewrite !possible_elem.
    intros (k'' & H & ?). apply elem_of_cons in H as [[= -> ->]|H]; [by left|right; eauto].
  - intros h p k. rewrite possible_elem. exists k. split; [left|done].
  - intros h p k q k'. rewrite !possible_elem. intros (k'' & ? & ?).
    exists k''. split; [by right|done].
  - intros h p q k Hq. rewrite !possible_elem. intros (k'' & ? & ?).
    exists k''. split; [by apply del_first_possible|done].
  - intros n i _. apply Z.bits_0.
  - intros i b Hi. rewrite Z.lxor_spec, Z.shiftl_1_l, Z.pow2_bits_true by done.
    apply xorb_true_r.
  - intros i j b Hi Hj Hne. rewrite Z.lxor_spec, Z.shiftl_1_l, Z.pow2_bits_false by done.
    apply xorb_false_r.
  - intros b n Hn. pose proof (first_zero_spec (Z.to_nat n) 0 b). lia.
  - intros b n Hn Hlt. apply (first_zero_spec (Z.to_nat n) 0 b). lia.
  - intros b n i Hn Hi. by apply (first_zero_spec (Z.to_nat n) 0 b).
Qed.

#[export] Instance kernel_ok : KernelOk kernel := kernel_with_ok true.

End Reference.
