(* ===== verification/State.v ===== *)
(** * The data of the module and its state

    The structures of [module/fibers.h] as records, the global state of the
    module together with the part of the kernel it reads and writes (the task
    structures, the per-cpu variable of the scheduler probe, the preemption
    counter, the user memory), and the memory accesses as commands of the state
    monad.  An access through NULL or to a freed object faults. *)

From Stdlib Require Export Ascii.
From S2P Require Import Prelude Kernel.

(** [MAX_FLS_POINTERS] and [DEFAULT_STACK_SIZE] of [fibers.h]. *)
Definition MAX_FLS_POINTERS : Z := 4096.
Definition DEFAULT_STACK_SIZE : Z := 1.

Section State.
Context {K : Kernel}.

(** The general purpose registers saved on the kernel stack: the four the
    module writes by name, and the rest of [struct pt_regs]. *)
Record pt_regs := PtRegs { ip : Z; di : Z; sp : Z; bp : Z; others : other_regs }.

(** [struct fiber].  The node that links it in [process->fibers] belongs to
    the hash table; the field [flags] is never read or written. *)
Record fiber := Fiber {
  fiber_lock : spinlock_t;
  fiber_id : Z;
  name : list ascii;
  attached_thread : option ptr;
  parent_process : ptr;
  registers : pt_regs;
  fpu : fx_regs;
  fiber_stack : Z;
  fiber_stack_size : Z;
  fls : list Z;
  fls_bitmap : bitmap;
  start_address : Z;
  creator_thread : Z;
  activation_counter : Z;
  failed_activation_counter : Z;
  total_time : Z
}.

(** [struct process] *)
Record process := Process {
  process_id : Z;
  last_fiber_id : Z;
  active_threads : Z;
  threads : hlists;
  fibers : hlists
}.

(** [struct thread] *)
Record thread := Thread {
  thread_id : Z;
  parent : ptr;
  selected_fiber : option ptr
}.

(** The fields of a [task_struct] the module uses: the thread group, the user
    time, the registers on its kernel stack ([task_pt_regs]), and the FX
    registers it has while it is on the processor. *)
Record task := Task { tgid : Z; utime : Z; regs : pt_regs; fx : fx_regs }.

(** The global state.  The heaps hold the allocated objects; a task is known
    by its pid, and [current] is the pid of the running one. *)
Record kstate := KState {
  processes : hlists;
  struct_process_lock : spinlock_t;
  process_heap : gmap ptr process;
  thread_heap : gmap ptr thread;
  fiber_heap : gmap ptr fiber;
  tasks : gmap Z task;
  current : Z;
  prev_task : option Z;
  preempt_count : Z;
  umem : user_mem
}.

(** ** Assignment to one field *)

Definition set_ip (v : Z) (r : pt_regs) : pt_regs :=
  PtRegs v (r.(di)) (r.(sp)) (r.(bp)) (r.(others)).
Definition set_di (v : Z) (r : pt_regs) : pt_regs :=
  PtRegs (r.(ip)) v (r.(sp)) (r.(bp)) (r.(others)).
Definition set_sp (v : Z) (r : pt_regs) : pt_regs :=
  PtRegs (r.(ip)) (r.(di)) v (r.(bp)) (r.(others)).
Definition set_bp (v : Z) (r : pt_regs) : pt_regs :=
  PtRegs (r.(ip)) (r.(di)) (r.(sp)) v (r.(others)).
Definition set_fiber_lock (v : spinlock_t) (r : fiber) : fiber :=
  Fiber v (r.(fiber_id)) (r.(name)) (r.(attached_thread)) (r.(parent_process)) (r.(registers))
    (r.(fpu)) (r.(fiber_stack)) (r.(fiber_stack_size)) (r.(fls)) (r.(fls_bitmap))
    (r.(start_address)) (r.(creator_thread)) (r.(activation_counter))
    (r.(failed_activation_counter)) (r.(total_time)).
Definition set_name (v : list ascii) (r : fiber) : fiber :=
  Fiber (r.(fiber_lock)) (r.(fiber_id)) v (r.(attached_thread)) (r.(parent_process))
    (r.(registers)) (r.(fpu)) (r.(fiber_stack)) (r.(fiber_stack_size)) (r.(fls))
    (r.(fls_bitmap)) (r.(start_address)) (r.(creator_thread)) (r.(activation_counter))
    (r.(failed_activation_counter)) (r.(total_time)).
Definition set_attached_thread (v : option ptr) (r : fiber) : fiber :=
  Fiber (r.(fiber_lock)) (r.(fiber_id)) (r.(name)) v (r.(parent_process)) (r.(registers))
    (r.(fpu)) (r.(fiber_stack)) (r.(fiber_stack_size)) (r.(fls)) (r.(fls_bitmap))
    (r.(start_address)) (r.(creator_thread)) (r.(activation_counter))
    (r.(failed_activation_counter)) (r.(total_time)).
Definition set_registers (v : pt_regs) (r : fiber) : fiber :=
  Fiber (r.(fiber_lock)) (r.(fiber_id)) (r.(name)) (r.(attached_thread)) (r.(parent_process))
    v (r.(fpu)) (r.(fiber_stack)) (r.(fiber_stack_size)) (r.(fls)) (r.(fls_bitmap))
    (r.(start_address)) (r.(creator_thread)) (r.(activation_counter))
    (r.(failed_activation_counter)) (r.(total_time)).
Definition set_fpu (v : fx_regs) (r : fiber) : fiber :=
  Fiber (r.(fiber_lock)) (r.(fiber_id)) (r.(name)) (r.(attached_thread)) (r.(parent_process))
    (r.(registers)) v (r.(fiber_stack)) (r.(fiber_stack_size)) (r.(fls)) (r.(fls_bitmap))
    (r.(start_address)) (r.(creator_thread)) (r.(activation_counter))
    (r.(failed_activation_counter)) (r.(total_time)).
Definition set_fls (v : list Z) (r : fiber) : fiber :=
  Fiber (r.(fiber_lock)) (r.(fiber_id)) (r.(name)) (r.(attached_thread)) (r.(parent_process))
    (r.(registers)) (r.(fpu)) (r.(fiber_stack)) (r.(fiber_stack_size)) v (r.(fls_bitmap))
    (r.(start_address)) (r.(creator_thread)) (r.(activation_counter))
    (r.(failed_activation_counter)) (r.(total_time)).
Definition set_fls_bitmap (v : bitmap) (r : fiber) : fiber :=
  Fiber (r.(fiber_lock)) (r.(fiber_id)) (r.(name)) (r.(attached_thread)) (r.(parent_process))
    (r.(registers)) (r.(fpu)) (r.(fiber_stack)) (r.(fiber_stack_size)) (r.(fls)) v
    (r.(start_address)) (r.(creator_thread)) (r.(activation_counter))
    (r.(failed_activation_counter)) (r.(total_time)).
Definition set_start_address (v : Z) (r : fiber) : fiber :=
  Fiber (r.(fiber_lock)) (r.(fiber_id)) (r.(name)) (r.(attached_thread)) (r.(parent_process))
    (r.(registers)) (r.(fpu)) (r.(fiber_stack)) (r.(fiber_stack_size)) (r.(fls))
    (r.(fls_bitmap)) v (r.(creator_thread)) (r.(activation_counter))
    (r.(failed_activation_counter)) (r.(total_time)).
Definition set_activation_counter (v : Z) (r : fiber) : fiber :=
  Fiber (r.(fiber_lock)) (r.(fiber_id)) (r.(name)) (r.(attached_thread)) (r.(parent_process))
    (r.(registers)) (r.(fpu)) (r.(fiber_stack)) (r.(fiber_stack_size)) (r.(fls))
    (r.(fls_bitmap)) (r.(start_address)) (r.(creator_thread)) v
    (r.(failed_activation_counter)) (r.(total_time)).
Definition set_failed_activation_counter (v : Z) (r : fiber) : fiber :=
  Fiber (r.(fiber_lock)) (r.(fiber_id)) (r.(name)) (r.(attached_thread)) (r.(parent_process))
    (r.(registers)) (r.(fpu)) (r.(fiber_stack)) (r.(fiber_stack_size)) (r.(fls))
    (r.(fls_bitmap)) (r.(start_address)) (r.(creator_thread)) (r.(activation_counter)) v
    (r.(total_time)).
Definition set_total_time (v : Z) (r : fiber) : fiber :=
  Fiber (r.(fiber_lock)) (r.(fiber_id)) (r.(name)) (r.(attached_thread)) (r.(parent_process))
    (r.(registers)) (r.(fpu)) (r.(fiber_stack)) (r.(fiber_stack_size)) (r.(fls))
    (r.(fls_bitmap)) (r.(start_address)) (r.(creator_thread)) (r.(activation_counter))
    (r.(failed_activation_counter)) v.
Definition set_last_fiber_id (v : Z) (r : process) : process :=
  Process (r.(process_id)) v (r.(active_threads)) (r.(threads)) (r.(fibers)).
Definition set_active_threads (v : Z) (r : process) : process :=
  Process (r.(process_id)) (r.(last_fiber_id)) v (r.(threads)) (r.(fibers)).
Definition set_threads (v : hlists) (r : process) : process :=
  Process (r.(process_id)) (r.(last_fiber_id)) (r.(active_threads)) v (r.(fibers)).
Definition set_fibers (v : hlists) (r : process) : process :=
  Process (r.(process_id)) (r.(last_fiber_id)) (r.(active_threads)) (r.(threads)) v.
Definition set_selected_fiber (v : option ptr) (r : thread) : thread :=
  Thread (r.(thread_id)) (r.(parent)) v.
Definition set_regs (v : pt_regs) (r : task) : task :=
  Task (r.(tgid)) (r.(utime)) v (r.(fx)).
Definition set_fx (v : fx_regs) (r : task) : task :=
  Task (r.(tgid)) (r.(utime)) (r.(regs)) v.
Definition set_processes (v : hlists) (r : kstate) : kstate :=
  KState v (r.(struct_process_lock)) (r.(process_heap)) (r.(thread_heap)) (r.(fiber_heap))
    (r.(tasks)) (r.(current)) (r.(prev_task)) (r.(preempt_count)) (r.(umem)).
Definition set_struct_process_lock (v : spinlock_t) (r : kstate) : kstate :=
  KState (r.(processes)) v (r.(process_heap)) (r.(thread_heap)) (r.(fiber_heap)) (r.(tasks))
    (r.(current)) (r.(prev_task)) (r.(preempt_count)) (r.(umem)).
Definition set_process_heap (v : gmap ptr process) (r : kstate) : kstate :=
  KState (r.(processes)) (r.(struct_process_lock)) v (r.(thread_heap)) (r.(fiber_heap))
    (r.(tasks)) (r.(current)) (r.(prev_task)) (r.(preempt_count)) (r.(umem)).
Definition set_thread_heap (v : gmap ptr thread) (r : kstate) : kstate :=
  KState (r.(processes)) (r.(struct_process_lock)) (r.(process_heap)) v (r.(fiber_heap))
    (r.(tasks)) (r.(current)) (r.(prev_task)) (r.(preempt_count)) (r.(umem)).
Definition set_fiber_heap (v : gmap ptr fiber) (r : kstate) : kstate :=
  KState (r.(processes)) (r.(struct_process_lock)) (r.(process_heap)) (r.(thread_heap)) v
    (r.(tasks)) (r.(current)) (r.(prev_task)) (r.(preempt_count)) (r.(umem)).
Definition set_tasks (v : gmap Z task) (r : kstate) : kstate :=
  KState (r.(processes)) (r.(struct_process_lock)) (r.(process_heap)) (r.(thread_heap))
    (r.(fiber_heap)) v (r.(current)) (r.(prev_task)) (r.(preempt_count)) (r.(umem)).
Definition set_current (v : Z) (r : kstate) : kstate :=
  KState (r.(processes)) (r.(struct_process_lock)) (r.(process_heap)) (r.(thread_heap))
    (r.(fiber_heap)) (r.(tasks)) v (r.(prev_task)) (r.(preempt_count)) (r.(umem)).
Definition set_prev_task (v : option Z) (r : kstate) : kstate :=
  KState (r.(processes)) (r.(struct_process_lock)) (r.(process_heap)) (r.(thread_heap))
    (r.(fiber_heap)) (r.(tasks)) (r.(current)) v (r.(preempt_count)) (r.(umem)).
Definition set_preempt_count (v : Z) (r : kstate) : kstate :=
  KState (r.(processes)) (r.(struct_process_lock)) (r.(process_heap)) (r.(thread_heap))
    (r.(fiber_heap)) (r.(tasks)) (r.(current)) (r.(prev_task)) v (r.(umem)).
Definition set_umem (v : user_mem) (r : kstate) : kstate :=
  KState (r.(processes)) (r.(struct_process_lock)) (r.(process_heap)) (r.(thread_heap))
    (r.(fiber_heap)) (r.(tasks)) (r.(current)) (r.(prev_task)) (r.(preempt_count)) v.

(** ** Memory accesses *)

Definition kM := stM kstate.

Definition load_process (p : ptr) : kM process := mderef (fun s => s.(process_heap) !! p).
Definition load_thread (t : ptr) : kM thread := mderef (fun s => s.(thread_heap) !! t).
Definition load_fiber (f : ptr) : kM fiber := mderef (fun s => s.(fiber_heap) !! f).
Definition load_task (p : Z) : kM task := mderef (fun s => s.(tasks) !! p).

(** Dereference of a pointer that may be NULL. *)
Definition not_null (o : option ptr) : kM ptr := mderef (fun _ => o).

Definition alter_process (p : ptr) (g : process -> process) : kM unit :=
  let! P := load_process p in
  mmodify (fun s => set_process_heap (<[p := g P]> s.(process_heap)) s).
Definition alter_thread (t : ptr) (g : thread -> thread) : kM unit :=
  let! T := load_thread t in
  mmodify (fun s => set_thread_heap (<[t := g T]> s.(thread_heap)) s).
Definition alter_fiber (f : ptr) (g : fiber -> fiber) : kM unit :=
  let! F := load_fiber f in
  mmodify (fun s => set_fiber_heap (<[f := g F]> s.(fiber_heap)) s).
Definition alter_task (p : Z) (g : task -> task) : kM unit :=
  let! T := load_task p in
  mmodify (fun s => set_tasks (<[p := g T]> s.(tasks)) s).

(** [current] *)
Definition current_pid : kM Z := mreads current.
Definition current_task : kM task := mderef (fun s => s.(tasks) !! s.(current)).
Definition alter_current (g : task -> task) : kM unit :=
  let! p := current_pid in alter_task p g.

(** ** The locks

    [spin_lock_irqsave] spins while the lock is held; handlers are run one
    after the other here, so a lock that is held stays held and the call does
    not return. *)
Definition lock_processes : kM unit :=
  fun s => match spin_trylock s.(struct_process_lock) with
           | (true, l) => Some (tt, set_struct_process_lock l s)
           | (false, _) => None
           end.
Definition unlock_processes : kM unit :=
  mmodify (fun s => set_struct_process_lock (spin_unlock s.(struct_process_lock)) s).

(** [spin_trylock(&f->fiber_lock)] and [spin_unlock(&f->fiber_lock)] *)
Definition trylock_fiber (f : ptr) : kM bool :=
  let! F := load_fiber f in
  do! alter_fiber f (set_fiber_lock (spin_trylock F.(fiber_lock)).2);
  mret (spin_trylock F.(fiber_lock)).1.
Definition unlock_fiber (f : ptr) : kM unit :=
  alter_fiber f (fun F => set_fiber_lock (spin_unlock F.(fiber_lock)) F).
End State.
