(* ===== verification/CStr.v ===== *)
(** * Decimal text of C strings

    A C string is the list of its characters before the terminator.  The part
    of the C library (and of its kernel counterpart) the program formats and
    parses decimal numbers with: the conversion of [%d], [%ld] and [%lu], the
    truncation of [snprintf], and [strtol] in base 10. *)

From Stdlib Require Export Ascii.
From S2P Require Import Prelude.

Abbreviation cstring := (list ascii).

Definition char_code (c : ascii) : Z := Z.of_N (N_of_ascii c).
Definition char_of (z : Z) : ascii := ascii_of_N (Z.to_N z).
Definition NUL : ascii := "000".
Definition NL : ascii := "010".

Definition is_digit (c : ascii) : bool := (48 <=? char_code c) && (char_code c <=? 57).
Definition is_space (c : ascii) : bool :=
  (char_code c =? 32) || ((9 <=? char_code c) && (char_code c <=? 13)).

Definition digit_char (d : Z) : ascii := char_of (48 + d).

(** Decimal digits of [n >= 0], most significant first, before [acc]. *)
Fixpoint udec (fuel : nat) (n : Z) (acc : cstring) : cstring :=
  match fuel with
  | O => acc
  | S fuel' =>
      let acc' := digit_char (n mod 10) :: acc in
      if n <? 10 then acc' else udec fuel' (n / 10) acc'
  end.

(** Twenty digits are enough for a 64-bit number. *)
Definition format_ld (n : Z) : cstring :=
  if n <? 0 then "-"%char :: udec 20 (- n) [] else udec 20 n [].

(** The string [snprintf] leaves in a buffer of [size] characters. *)
Definition snprintf (size : Z) (s : cstring) : cstring := take (Z.to_nat (size - 1)) s.

Fixpoint parse_digits (acc : Z) (s : cstring) : Z :=
  match s with
  | c :: s' => if is_digit c then parse_digits (acc * 10 + (char_code c - 48)) s' else acc
  | [] => acc
  end.

Fixpoint skip_spaces (s : cstring) : cstring :=
  match s with
  | c :: s' => if is_space c then skip_spaces s' else s
  | [] => []
  end.

Definition clamp_long (z : Z) : Z := Z.max (- 2 ^ 63) (Z.min (2 ^ 63 - 1) z).

(** [strtol(s, &end, 10)] *)
Definition strtol (s : cstring) : Z :=
  clamp_long
    match skip_spaces s with
    | "-"%char :: s' => - parse_digits 0 s'
    | "+"%char :: s' => parse_digits 0 s'
    | s' => parse_digits 0 s'
    end.

(** ** Facts *)

Lemma char_code_of z : 0 <= z < 256 -> char_code (char_of z) = z.
Proof.
  intros. unfold char_code, char_of. rewrite N_ascii_embedding by lia. lia.
Qed.

Lemma char_code_digit d : 0 <= d < 10 -> char_code (digit_char d) = 48 + d.
Proof. intros. apply char_code_of. lia. Qed.

Lemma is_digit_digit d : 0 <= d < 10 -> is_digit (digit_char d) = true.
Proof. intros. unfold is_digit. rewrite char_code_digit by done. lia. Qed.

Lemma is_digit_range c : is_digit c = true -> 48 <= char_code c <= 57.
Proof. unfold is_digit. lia. Qed.

Lemma udec_app fuel n acc : udec fuel n acc = udec fuel n [] ++ acc.
Proof.
  revert n acc. induction fuel as [|fuel IH]; intros n acc; cbn [udec]; [done|].
  case_match; [done|].
  rewrite (IH _ (_ :: acc)), (IH _ [_]), <- (assoc app). done.
Qed.

Lemma udec_digits fuel n :
  0 <= n -> Forall (fun c => is_digit c = true) (udec fuel n []).
Proof.
  revert n. induction fuel as [|fuel IH]; intros n Hn; cbn [udec]; [constructor|].
  pose proof (Z.mod_pos_bound n 10).
  assert (is_digit (digit_char (n mod 10)) = true) by (apply is_digit_digit; lia).
  case_match; [by repeat constructor|].
  rewrite udec_app. apply Forall_app. split; [|by repeat constructor].
  apply IH. apply Z.div_pos; lia.
Qed.

Lemma udec_length fuel n : (length (udec fuel n []) <= fuel)%nat.
Proof.
  revert n. induction fuel as [|fuel IH]; intros n; cbn [udec]; [done|].
  case_match; cbn; [lia|]. rewrite udec_app, length_app. cbn.
  specialize (IH (n / 10)). lia.
Qed.

Lemma udec_length_bound k fuel n :
  (0 < k)%nat -> 0 <= n < 10 ^ Z.of_nat k -> (length (udec fuel n []) <= k)%nat.
Proof.
  revert k n. induction fuel as [|fuel IH]; intros k n Hk Hn; cbn [udec]; [cbn; lia|].
  destruct (n <? 10) eqn:E; [cbn; lia|].
  destruct k as [|[|k]]; [lia|lia|].
  rewrite udec_app, length_app. cbn [length].
  assert (length (udec fuel (n / 10) []) <= S k)%nat; [|lia].
  apply IH; [lia|]. split; [apply Z.div_pos; lia|].
  apply Z.div_lt_upper_bound; [lia|].
  rewrite Nat2Z.inj_succ, Z.pow_succ_r in Hn by lia. lia.
Qed.

Lemma udec_not_nil fuel n : udec (S fuel) n [] <> [].
Proof.
  cbn [udec]. case_match; [done|]. rewrite udec_app. by intros [_ ?]%app_eq_nil.
Qed.

Lemma parse_digits_app acc s1 s2 :
  Forall (fun c => is_digit c = true) s1 ->
  parse_digits acc (s1 ++ s2) = parse_digits (parse_digits acc s1) s2.
Proof.
  intros H. revert acc. induction H as [|c s1 Hc _ IH]; intros acc; [done|].
  cbn. rewrite Hc. apply IH.
Qed.

Lemma parse_udec fuel n rest :
  0 <= n < 10 ^ Z.of_nat fuel -> (forall c, head rest = Some c -> is_digit c = false) ->
  parse_digits 0 (udec fuel n [] ++ rest) = n.
Proof.
  intros Hn Hrest.
  assert (forall acc, parse_digits acc rest = acc) as Hstop.
  { intros acc. destruct rest as [|c rest]; [done|]. cbn. by rewrite (Hrest c). }
  rewrite parse_digits_app by (apply udec_digits; lia). rewrite Hstop. clear Hstop Hrest rest.
  revert n Hn. induction fuel as [|fuel IH]; intros n Hn; cbn [udec]; [cbn in *; lia|].
  pose proof (Z.mod_pos_bound n 10).
  assert (forall acc, parse_digits acc [digit_char (n mod 10)] = acc * 10 + n mod 10) as Hone.
  { intros acc. cbn. rewrite is_digit_digit, char_code_digit by lia. lia. }
  destruct (n <? 10) eqn:E.
  - rewrite Hone. rewrite Z.mod_small; lia.
  - rewrite udec_app, parse_digits_app by (apply udec_digits, Z.div_pos; lia).
    rewrite Hone, IH.
    + pose proof (Z.div_mod n 10). lia.
    + split; [apply Z.div_pos; lia|]. apply Z.div_lt_upper_bound; [lia|].
      rewrite Nat2Z.inj_succ, Z.pow_succ_r in Hn by lia. lia.
Qed.

Lemma digit_not_space c : is_digit c = true -> is_space c = false.
Proof. intros ?%is_digit_range. unfold is_space. lia. Qed.

(** Parsing what was printed gives the number back, whatever follows it. *)
Lemma strtol_format_ld n rest :
  0 <= n < 2 ^ 63 -> (forall c, head rest = Some c -> is_digit c = false) ->
  strtol (format_ld n ++ rest) = n.
Proof.
  intros Hn Hrest. unfold format_ld. destruct (n <? 0) eqn:E; [lia|].
  pose proof (parse_udec 20 n rest) as Hparse.
  pose proof (udec_digits 20 n) as Hd. pose proof (udec_not_nil 19 n) as Hnil.
  destruct (udec 20 n []) as [|c s] eqn:Es; [done|]. clear Hnil.
  assert (is_digit c = true) as Hc.
  { specialize (Hd ltac:(lia)). by inversion Hd. }
  unfold strtol. cbn [app skip_spaces]. rewrite digit_not_space by done.
  assert (match c :: s ++ rest with
          | "-"%char :: s' => - parse_digits 0 s'
          | "+"%char :: s' => parse_digits 0 s'
          | s' => parse_digits 0 s'
          end = parse_digits 0 (c :: s ++ rest)) as ->.
  { pose proof (is_digit_range c Hc) as Hr.
    repeat (case_match; subst; try done); cbv in Hr; lia. }
  change (c :: s ++ rest) with ((c :: s) ++ rest).
  rewrite Hparse; [unfold clamp_long; lia| |done].
  split; [lia|]. transitivity (2 ^ 63); [lia|]. done.
Qed.
