(* ===== verification/Fibers.v ===== *)
(** * The fiber operations

    [module/fibers.c] with the initialisation macros of [module/init.h]: the
    three lookups, [do_ConvertThreadToFiber], [do_CreateFiber],
    [do_SwitchToFiber], the four fiber local storage operations and
    [process_cleanup].  A handler is a command of the state monad; [current] is
    the task that calls it. *)

From S2P Require Import Prelude Kernel State CStr.

Section Fibers.
Context {K : Kernel}.

(** ** Lookups *)

(** The loop of the three lookups over [hash_for_each_possible_rcu]: it stops
    at the first object with the wanted key.  The macro never yields NULL, so
    the test for it is never taken. *)
Fixpoint find_loop {A} (heap : gmap ptr A) (key : A -> Z) (id : Z) (l : list ptr)
  : option (option ptr) :=
  match l with
  | [] => Some None
  | p :: l' =>
      match heap !! p with
      | None => None
      | Some a => if key a =? id then Some (Some p) else find_loop heap key id l'
      end
  end.

Definition find_process_by_tgid (id : Z) : kM (option ptr) :=
  mderef (fun s =>
    find_loop s.(process_heap) process_id id (hash_possible s.(processes) id)).

Definition find_thread_by_pid (pid : Z) (ep : ptr) : kM (option ptr) :=
  let! P := load_process ep in
  mderef (fun s => find_loop s.(thread_heap) thread_id pid (hash_possible P.(threads) pid)).

Definition find_fiber_by_id (id : Z) (ep : ptr) : kM (option ptr) :=
  let! P := load_process ep in
  mderef (fun s => find_loop s.(fiber_heap) fiber_id id (hash_possible P.(fibers) id)).

(** ** The macros of [init.h] *)

(** The fields are assigned right after [kmalloc], so an allocation that fails
    is a dereference of NULL. *)
Definition init_process : kM ptr :=
  let! p := mderef (fun s => kmalloc (dom s.(process_heap))) in
  let! t := current_task in
  let P := Process t.(tgid) 0 0 hash_init hash_init in
  do! mmodify (fun s => set_process_heap (<[p := P]> s.(process_heap)) s);
  do! mmodify (fun s => set_processes (hash_add_rcu s.(processes) p P.(process_id)) s);
  mret p.

Definition init_thread (parent_process : ptr) (id : Z) : kM ptr :=
  let! t := mderef (fun s => kmalloc (dom s.(thread_heap))) in
  let T := Thread id parent_process None in
  do! mmodify (fun s => set_thread_heap (<[t := T]> s.(thread_heap)) s);
  do! alter_process parent_process (fun P => set_active_threads (s64 (P.(active_threads) + 1)) P);
  do! alter_process parent_process (fun P => set_threads (hash_add_rcu P.(threads) t id) P);
  mret t.

(** [init_fiber(f, parent, ht, ss, s_ptr)] with [ht] the table of [parent]. *)
Definition init_fiber (parent_process : ptr) (ss s_ptr : Z) : kM ptr :=
  let! f := mderef (fun s => kmalloc (dom s.(fiber_heap))) in
  let! t := current_task in
  let! pid := current_pid in
  let fiber_stack_size := u64 (if 0 <=? ss then ss else DEFAULT_STACK_SIZE) in
  let top := u64 (s_ptr + fiber_stack_size - 8) in
  do! alter_process parent_process
        (fun P => set_last_fiber_id (s64 (P.(last_fiber_id) + 1)) P);
  let! P := load_process parent_process in
  let id := s32 P.(last_fiber_id) in
  let F := Fiber SPIN_LOCK_UNLOCKED id (snprintf 256 (format_ld id)) None parent_process
             (set_bp top (set_sp top t.(regs))) t.(fx) s_ptr fiber_stack_size
             (replicate (Z.to_nat MAX_FLS_POINTERS) 0) (bitmap_zero MAX_FLS_POINTERS)
             t.(regs).(ip) pid 0 0 0 in
  do! mmodify (fun s => set_fiber_heap (<[f := F]> s.(fiber_heap)) s);
  do! alter_process parent_process (fun P => set_fibers (hash_add_rcu P.(fibers) f id) P);
  mret f.

(** ** Conversion, creation, switch *)

(** The first part of the conversion: find the process or add it, under
    [struct_process_lock]. *)
Definition get_process : kM ptr :=
  do! lock_processes;
  let! t := current_task in
  let! o := find_process_by_tgid t.(tgid) in
  let! ep := match o with None => init_process | Some ep => mret ep end in
  do! unlock_processes;
  mret ep.

Definition do_ConvertThreadToFiber (thread_id : Z) : kM Z :=
  let! ep := get_process in
  let! gp := find_thread_by_pid thread_id ep in
  match gp with
  | Some _ => mret (-1)
  | None =>
      let! gp := init_thread ep thread_id in
      let! fp := init_fiber ep (-1) 0 in
      let! t := current_task in
      do! alter_fiber fp (fun F => set_registers (set_sp t.(regs).(sp) F.(registers)) F);
      do! alter_fiber fp (fun F => set_registers (set_bp t.(regs).(bp) F.(registers)) F);
      do! alter_fiber fp
            (fun F => set_activation_counter (u64 (F.(activation_counter) + 1)) F);
      do! alter_fiber fp (set_attached_thread (Some gp));
      do! alter_thread gp (set_selected_fiber (Some fp));
      let! locked := trylock_fiber fp in
      if negb locked then mret (-1)
      else let! F := load_fiber fp in mret F.(fiber_id)
  end.

Definition do_CreateFiber
    (stack_pointer stack_size fiber_function parameters thread_id : Z) : kM Z :=
  let! t := current_task in
  let! ep := find_process_by_tgid t.(tgid) in
  match ep with
  | None => mret (-1)
  | Some ep =>
      let! gp := find_thread_by_pid thread_id ep in
      match gp with
      | None => mret (-1)
      | Some _ =>
          let! fp := init_fiber ep stack_size stack_pointer in
          do! alter_fiber fp (fun F => set_registers (set_ip fiber_function F.(registers)) F);
          do! alter_fiber fp (fun F => set_registers (set_di parameters F.(registers)) F);
          do! alter_fiber fp (set_start_address fiber_function);
          let! F := load_fiber fp in
          mret F.(fiber_id)
      end
  end.

(** The part of [do_SwitchToFiber] after the lookups and the lock: the
    thread [tp] leaves the fiber it runs and continues as [f]. *)
Definition switch_context (tp f : ptr) : kM Z :=
  do! alter_fiber f (set_attached_thread (Some tp));
  do! alter_fiber f (fun F => set_activation_counter (u64 (F.(activation_counter) + 1)) F);
  let! T := load_thread tp in
  let! prev_fiber := not_null T.(selected_fiber) in
  do! alter_thread tp (set_selected_fiber (Some f));
  let! t := current_task in
  do! alter_fiber prev_fiber (fun F => set_total_time (u64 (F.(total_time) + t.(utime))) F);
  do! alter_fiber prev_fiber (set_registers t.(regs));
  do! alter_fiber prev_fiber (set_fpu t.(fx));
  do! alter_fiber prev_fiber (set_attached_thread None);
  do! unlock_fiber prev_fiber;
  let! F := load_fiber f in
  do! alter_current (set_regs F.(registers));
  let! F := load_fiber f in
  do! alter_current (set_fx F.(fpu));
  mret 0.

Definition do_SwitchToFiber (fiber_id thread_id : Z) : kM Z :=
  let! t := current_task in
  let! ep := find_process_by_tgid t.(tgid) in
  match ep with
  | None => mret (-1)
  | Some ep =>
      let! tp := find_thread_by_pid thread_id ep in
      match tp with
      | None => mret (-1)
      | Some tp =>
          let! f := find_fiber_by_id fiber_id ep in
          match f with
          | None => mret (-1)
          | Some f =>
              let! locked := trylock_fiber f in
              let! F := load_fiber f in
              if negb locked || bool_decide (F.(attached_thread) <> None) then
                do! alter_fiber f (fun F =>
                      set_failed_activation_counter
                        (s64 (F.(failed_activation_counter) + 1)) F);
                mret (-1)
              else switch_context tp f
          end
      end
  end.

(** ** Fiber local storage *)

(** The lookups the four operations start with: the fiber the calling thread
    runs, or [None] where they return early. *)
Definition fls_fiber (thread_id : Z) : kM (option ptr) :=
  let! t := current_task in
  let! p := find_process_by_tgid t.(tgid) in
  match p with
  | None => mret None
  | Some p =>
      let! o := find_thread_by_pid thread_id p in
      match o with
      | None => mret None
      | Some t => let! T := load_thread t in mret T.(selected_fiber)
      end
  end.

Definition do_FlsAlloc (thread_id : Z) : kM Z :=
  let! o := fls_fiber thread_id in
  match o with
  | None => mret (-1)
  | Some f =>
      let! F := load_fiber f in
      let index := find_first_zero_bit F.(fls_bitmap) MAX_FLS_POINTERS in
      if index =? MAX_FLS_POINTERS then
        do! load_process F.(parent_process);
        mret (-1)
      else
        do! alter_fiber f (fun F => set_fls_bitmap (change_bit index F.(fls_bitmap)) F);
        mret index
  end.

Definition bad_index (index : Z) : bool := (MAX_FLS_POINTERS <=? index) || (index <? 0).

Definition do_FlsFree (index thread_id : Z) : kM bool :=
  let! o := fls_fiber thread_id in
  match o with
  | None => mret false
  | Some f =>
      if bad_index index then mret false
      else
        let! F := load_fiber f in
        if negb (test_bit index F.(fls_bitmap)) then mret false
        else
          do! alter_fiber f (fun F => set_fls_bitmap (change_bit index F.(fls_bitmap)) F);
          mret true
  end.

Definition do_FlsGetValue (index thread_id : Z) : kM Z :=
  let! o := fls_fiber thread_id in
  match o with
  | None => mret (-1)
  | Some f =>
      if bad_index index then mret (-1)
      else
        let! F := load_fiber f in
        if negb (test_bit index F.(fls_bitmap)) then mret (-1)
        else mderef (fun _ => F.(fls) !! Z.to_nat index)
  end.

Definition do_FlsSetValue (index value thread_id : Z) : kM unit :=
  let! o := fls_fiber thread_id in
  match o with
  | None => mret tt
  | Some f =>
      if bad_index index then mret tt
      else
        let! F := load_fiber f in
        if negb (test_bit index F.(fls_bitmap)) then mret tt
        else
          do! mderef (fun _ => F.(fls) !! Z.to_nat index);
          alter_fiber f (fun F => set_fls (<[Z.to_nat index := value]> F.(fls)) F)
  end.

(** ** Cleanup *)

(** [hash_for_each_rcu(...) kfree(p)]: the macro reads the link of [p] after
    the body has freed it. *)
Fixpoint kfree_each {A} (l : list ptr) (heap : gmap ptr A) : option (gmap ptr A) :=
  match l with
  | [] => Some heap
  | p :: l' =>
      match heap !! p with
      | None => None
      | Some _ => if stale_reads then kfree_each l' (delete p heap) else None
      end
  end.

Definition kfree_threads (l : list ptr) : kM unit :=
  fun s => match kfree_each l s.(thread_heap) with
           | Some h => Some (tt, set_thread_heap h s)
           | None => None
           end.
Definition kfree_fibers (l : list ptr) : kM unit :=
  fun s => match kfree_each l s.(fiber_heap) with
           | Some h => Some (tt, set_fiber_heap h s)
           | None => None
           end.

(** [hash_del_rcu(&p->node); kfree(p);] *)
Definition free_process (p : ptr) : kM unit :=
  do! load_process p;
  do! mmodify (fun s => set_processes (hash_del_rcu s.(processes) p) s);
  mmodify (fun s => set_process_heap (delete p s.(process_heap)) s).

Definition process_cleanup : kM Z :=
  let! t := current_task in
  let! o := find_process_by_tgid t.(tgid) in
  match o with
  | None => mret 0
  | Some p =>
      let! P := load_process p in
      do! kfree_threads (hash_each P.(threads));
      let! P := load_process p in
      do! kfree_fibers (hash_each P.(fibers));
      do! free_process p;
      mret 0
  end.
End Fibers.
