(* ===== verification/Heap.v ===== *)
(** * The heap invariant

    A hash table of the module and the heap of its objects agree: the table
    holds exactly the allocated objects that belong to it, each in the bucket of
    its key, and keys are unique.  [heap_ok] says so of the table of processes
    and of the two tables of every process, and relates the pointers between
    the objects. *)

From S2P Require Import Prelude Kernel State CStr Fibers.

(** ** A table and its objects *)

Section Table.
Context {K : Kernel} {KOk : KernelOk K} {A : Type}.
Implicit Types (h : hlists) (m : gmap ptr A) (key : A -> Z) (own : A -> Prop).

Record table_ok (h : hlists) (m : gmap ptr A) (key : A -> Z) (own : A -> Prop) : Prop := {
  tbl_nodup : NoDup (hash_each h);
  tbl_elem p : p ∈ hash_each h <-> exists a, m !! p = Some a /\ own a;
  tbl_key p a : m !! p = Some a -> own a -> p ∈ hash_possible h (key a);
  tbl_inj p q a b :
    m !! p = Some a -> m !! q = Some b -> own a -> own b -> key a = key b -> p = q
}.

(** The object the lookup loop finds, as a function. *)
Definition at_key (m : gmap ptr A) (key : A -> Z) (id : Z) (h : hlists) : option ptr :=
  default None (find_loop m key id (hash_possible h id)).

Lemma find_loop_spec m key id (l : list ptr) :
  (forall p, p ∈ l -> is_Some (m !! p)) ->
  exists r, find_loop m key id l = Some r /\
    match r with
    | Some p => p ∈ l /\ exists a, m !! p = Some a /\ key a = id
    | None => forall p a, p ∈ l -> m !! p = Some a -> key a <> id
    end.
Proof.
  induction l as [|p l IH]; intros Hall; simpl.
  - exists None. split; [done|]. by intros ? ? ?%elem_of_nil.
  - destruct (Hall p) as [a Ha]; [left|]. rewrite Ha.
    destruct (Z.eqb_spec (key a) id) as [Hk|Hk].
    + exists (Some p). split; [done|]. split; [left|eauto].
    + destruct IH as (r & Hr & Hspec). { intros. apply Hall. by right. }
      exists r. split; [done|]. destruct r as [q|].
      * destruct Hspec as [? ?]. split; [by right|done].
      * intros q b [->|Hq]%elem_of_cons Hb; [congruence|eauto].
Qed.

Section Lookup.
Context h m key own (Hok : table_ok h m key own).

Lemma find_loop_at_key id :
  find_loop m key id (hash_possible h id) = Some (at_key m key id h).
Proof.
  unfold at_key. destruct (find_loop_spec m key id (hash_possible h id)) as (r & -> & _).
  - intros p Hp%hash_possible_each. apply (tbl_elem _ _ _ _ Hok) in Hp as (a & -> & _). eauto.
  - done.
Qed.

Lemma at_key_Some id p :
  at_key m key id h = Some p <-> exists a, m !! p = Some a /\ own a /\ key a = id.
Proof.
  unfold at_key. destruct (find_loop_spec m key id (hash_possible h id)) as (r & -> & Hr).
  { intros q Hq%hash_possible_each. apply (tbl_elem _ _ _ _ Hok) in Hq as (a & -> & _). eauto. }
  simpl. split.
  - intros ->. destruct Hr as (Hp & a & Ha & Hk).
    apply hash_possible_each, (tbl_elem _ _ _ _ Hok) in Hp as (b & Hb & Hown).
    simplify_eq. eauto.
  - intros (a & Ha & Hown & Hk). destruct r as [q|].
    + destruct Hr as (Hq & b & Hb & Hkb). f_equal.
      apply hash_possible_each, (tbl_elem _ _ _ _ Hok) in Hq as (c & Hc & Hownc).
      simplify_eq. eapply (tbl_inj _ _ _ _ Hok); eauto.
    + exfalso. apply (Hr p a); [|done|done].
      rewrite <- Hk. by apply (tbl_key _ _ _ _ Hok).
Qed.

Lemma at_key_None id :
  at_key m key id h = None <-> forall p a, m !! p = Some a -> own a -> key a <> id.
Proof.
  split.
  - intros H p a Ha Hown Hk.
    assert (at_key m key id h = Some p) by (apply at_key_Some; eauto). congruence.
  - intros H. destruct (at_key m key id h) as [p|] eqn:E; [|done].
    apply at_key_Some in E as (a & ? & ? & ?). edestruct H; eauto.
Qed.
End Lookup.

(** ** Operations on the table and on the heap *)

Lemma table_ok_init m key own :
  (forall p a, m !! p = Some a -> ~ own a) -> table_ok hash_init m key own.
Proof.
  intros Hno. split.
  - rewrite hash_init_each. constructor.
  - intros p. rewrite hash_init_each, elem_of_nil. split; [done|]. intros (a & ? & ?). eapply Hno; eauto.
  - intros p a Ha Hown. by destruct (Hno p a).
  - intros p q a b Ha _ Hown. by destruct (Hno p a).
Qed.

Lemma table_ok_update h m key own p a a' :
  table_ok h m key own -> m !! p = Some a -> key a' = key a -> (own a' <-> own a) ->
  table_ok h (<[p := a']> m) key own.
Proof.
  intros [Hnd Hel Hkey Hinj] Ha Hk Hown.
  assert (forall q b, <[p := a']> m !! q = Some b -> own b ->
            exists c, m !! q = Some c /\ own c /\ key c = key b) as Hback.
  { intros q b [[<- <-]|[? ?]]%lookup_insert_Some Hb; [exists a; naive_solver|eauto]. }
  split.
  - done.
  - intros q. rewrite Hel. split.
    + intros (b & Hb & Hob). destruct (decide (p = q)) as [<-|].
      * exists a'. rewrite lookup_insert_eq. naive_solver.
      * exists b. by rewrite lookup_insert_ne.
    + intros (b & Hb & Hob). destruct (Hback q b) as (c & ? & ? & _); eauto.
  - intros q b Hb Hob. destruct (Hback q b) as (c & ? & ? & <-); eauto.
  - intros q r b c Hb Hc Hob Hoc Hkk.
    destruct (Hback q b) as (b' & ? & ? & ?), (Hback r c) as (c' & ? & ? & ?); [done..|].
    eapply Hinj; eauto; congruence.
Qed.

Lemma table_ok_add h m key own p a :
  table_ok h m key own -> m !! p = None -> own a ->
  (forall q b, m !! q = Some b -> own b -> key b <> key a) ->
  table_ok (hash_add_rcu h p (key a)) (<[p := a]> m) key own.
Proof.
  intros [Hnd Hel Hkey Hinj] Hp Hown Hfresh.
  assert (p ∉ hash_each h) as Hnin.
  { rewrite Hel. intros (? & ? & _). congruence. }
  split.
  - by apply hash_add_NoDup.
  - intros q. rewrite hash_add_each_elem, Hel. split.
    + intros [->|(b & Hb & Hob)]; [exists a; by rewrite lookup_insert_eq|].
      exists b. rewrite lookup_insert_ne; [done|congruence].
    + intros (b & [[<- <-]|[? ?]]%lookup_insert_Some & ?); [by left|right; eauto].
  - intros q b [[<- <-]|[? ?]]%lookup_insert_Some Hob.
    + apply hash_add_possible_new.
    + apply hash_add_possible_old; eauto.
  - intros q r b c [[<- <-]|[? ?]]%lookup_insert_Some [[<- <-]|[? ?]]%lookup_insert_Some Hob Hoc Hk.
    + done.
    + by destruct (Hfresh r c).
    + by destruct (Hfresh q b).
    + eauto.
Qed.

Lemma table_ok_skip h m key own p a :
  table_ok h m key own -> m !! p = None -> ~ own a ->
  table_ok h (<[p := a]> m) key own.
Proof.
  intros [Hnd Hel Hkey Hinj] Hp Hown.
  assert (forall q b, <[p := a]> m !! q = Some b -> own b -> m !! q = Some b) as Hback.
  { by intros q b [[<- <-]|[? ?]]%lookup_insert_Some Hb. }
  split; [done| |eauto|].
  - intros q. rewrite Hel. split; [|naive_solver].
    intros (b & Hb & Hob). exists b. rewrite lookup_insert_ne; [done|congruence].
  - intros; eapply Hinj; eauto.
Qed.

Lemma table_ok_del h m key own p a :
  table_ok h m key own -> m !! p = Some a -> own a ->
  table_ok (hash_del_rcu h p) (delete p m) key own.
Proof.
  intros [Hnd Hel Hkey Hinj] Hp Hown.
  assert (p ∈ hash_each h) as Hin by (apply Hel; eauto).
  split.
  - by apply hash_del_NoDup.
  - intros q. rewrite hash_del_each_elem, Hel by done. split.
    + intros (Hne & b & Hb & Hob). exists b. by rewrite lookup_delete_ne.
    + intros (b & [? ?]%lookup_delete_Some & ?). eauto.
  - intros q b [? ?]%lookup_delete_Some Hob. apply hash_del_possible_old; eauto.
  - intros q r b c [? ?]%lookup_delete_Some [? ?]%lookup_delete_Some. eauto.
Qed.

Lemma table_ok_forget h m key own p :
  table_ok h m key own -> (forall a, m !! p = Some a -> ~ own a) ->
  table_ok h (delete p m) key own.
Proof.
  intros [Hnd Hel Hkey Hinj] Hown.
  split; [done| | |].
  - intros q. rewrite Hel. split.
    + intros (b & Hb & Hob). exists b. rewrite lookup_delete_ne; [done|].
      intros <-. by eapply Hown.
    + intros (b & [? ?]%lookup_delete_Some & ?). eauto.
  - intros q b [? ?]%lookup_delete_Some Hob. eauto.
  - intros q r b c [? ?]%lookup_delete_Some [? ?]%lookup_delete_Some. eauto.
Qed.

(** Objects that do not belong to the table may go. *)
Lemma table_ok_sub h m m' key own :
  table_ok h m key own ->
  (forall p a, m' !! p = Some a -> m !! p = Some a) ->
  (forall p a, m !! p = Some a -> own a -> m' !! p = Some a) ->
  table_ok h m' key own.
Proof.
  intros [Hnd Hel Hkey Hinj] Hsub Hkeep. split; [done| |eauto|].
  - intros q. rewrite Hel. split; intros (b & Hb & Hob); eauto.
  - intros q r b c Hb Hc. eauto.
Qed.
End Table.

(** ** The invariant of the three heaps *)

Section HeapOk.
Context {K : Kernel} {KOk : KernelOk K}.
Implicit Types (ht : hlists) (ph : gmap ptr process) (th : gmap ptr thread)
  (fh : gmap ptr fiber).

Definition thread_of (p : ptr) (T : thread) : Prop := T.(parent) = p.
Definition fiber_of (p : ptr) (F : fiber) : Prop := F.(parent_process) = p.

Record process_ok th fh (p : ptr) (P : process) : Prop := {
  po_threads : table_ok P.(threads) th thread_id (thread_of p);
  po_fibers : table_ok P.(fibers) fh fiber_id (fiber_of p);
  po_active : P.(active_threads) = Z.of_nat (length (hash_each P.(threads)));
  po_last : P.(last_fiber_id) = Z.of_nat (length (hash_each P.(fibers)));
  po_ids f F : fh !! f = Some F -> fiber_of p F -> 1 <= F.(fiber_id) <= P.(last_fiber_id)
}.

Record thread_ok ph fh (t : ptr) (T : thread) : Prop := {
  to_parent : is_Some (ph !! T.(parent));
  to_selected f : T.(selected_fiber) = Some f ->
    exists F, fh !! f = Some F /\ F.(attached_thread) = Some t /\ fiber_of T.(parent) F
}.

Record fiber_ok ph th (f : ptr) (F : fiber) : Prop := {
  fo_parent : is_Some (ph !! F.(parent_process));
  fo_fls : Z.of_nat (length F.(fls)) = MAX_FLS_POINTERS;
  fo_lock : spin_is_locked F.(fiber_lock) = bool_decide (F.(attached_thread) <> None);
  fo_name : F.(name) = snprintf 256 (format_ld F.(fiber_id));
  fo_attached t : F.(attached_thread) = Some t ->
    exists T, th !! t = Some T /\ T.(selected_fiber) = Some f
}.

Record heap_ok ht ph th fh : Prop := {
  ho_table : table_ok ht ph process_id (fun _ => True);
  ho_process p P : ph !! p = Some P -> process_ok th fh p P;
  ho_thread t T : th !! t = Some T -> thread_ok ph fh t T;
  ho_fiber f F : fh !! f = Some F -> fiber_ok ph th f F
}.

(** *** Assignment to a field of a process that is not part of the invariant
    or that keeps it *)

Lemma process_ok_heaps th fh th' fh' p P :
  process_ok th fh p P ->
  table_ok P.(threads) th' thread_id (thread_of p) ->
  table_ok P.(fibers) fh' fiber_id (fiber_of p) ->
  (forall f F, fh' !! f = Some F -> fiber_of p F -> 1 <= F.(fiber_id) <= P.(last_fiber_id)) ->
  process_ok th' fh' p P.
Proof. intros []. split; auto. Qed.

Lemma thread_ok_process ph fh t T p P :
  thread_ok ph fh t T -> thread_ok (<[p := P]> ph) fh t T.
Proof. intros [H1 H2]. split; [|done]. by apply lookup_insert_is_Some'; right. Qed.

Lemma fiber_ok_process ph th f F p P :
  fiber_ok ph th f F -> fiber_ok (<[p := P]> ph) th f F.
Proof. intros [H1 H2]. split; [|done..]. by apply lookup_insert_is_Some'; right. Qed.

(** A fiber whose identity, owner and local storage size are kept. *)
Definition same_fiber (F F' : fiber) : Prop :=
  F'.(fiber_id) = F.(fiber_id) /\ F'.(name) = F.(name) /\
  F'.(parent_process) = F.(parent_process) /\ length F'.(fls) = length F.(fls).

Lemma process_ok_fiber th fh p P f F F' :
  process_ok th fh p P -> fh !! f = Some F -> same_fiber F F' ->
  process_ok th (<[f := F']> fh) p P.
Proof.
  intros Hok Hf (Hid & _ & Hpar & _). eapply process_ok_heaps; [done|apply Hok|..].
  - eapply table_ok_update; [apply Hok|done|done|]. unfold fiber_of. by rewrite Hpar.
  - intros g G [[<- <-]|[? Hg]]%lookup_insert_Some Hown.
    + rewrite Hid. eapply po_ids; [done..|]. unfold fiber_of in *. congruence.
    + eapply po_ids; eauto.
Qed.

Lemma process_ok_thread th fh p P t T T' :
  process_ok th fh p P -> th !! t = Some T ->
  T'.(thread_id) = T.(thread_id) -> T'.(parent) = T.(parent) ->
  process_ok (<[t := T']> th) fh p P.
Proof.
  intros Hok Ht Hid Hpar. eapply process_ok_heaps; [done| |apply Hok|apply Hok].
  eapply table_ok_update; [apply Hok|done|done|]. unfold thread_of. by rewrite Hpar.
Qed.

(** *** A fiber changes in a field the invariant does not constrain *)

Lemma heap_ok_fiber ht ph th fh f F F' :
  heap_ok ht ph th fh -> fh !! f = Some F -> same_fiber F F' ->
  F'.(attached_thread) = F.(attached_thread) ->
  spin_is_locked F'.(fiber_lock) = spin_is_locked F.(fiber_lock) ->
  heap_ok ht ph th (<[f := F']> fh).
Proof.
  intros Hok Hf Hsame Hatt Hlock. split.
  - apply Hok.
  - intros p P Hp. eapply process_ok_fiber; [by eapply ho_process|done..].
  - intros t T Ht. destruct (ho_thread _ _ _ _ Hok t T Ht) as [H1 H2]. split; [done|].
    intros g Hg. destruct (H2 g Hg) as (G & HG & HA & Hown).
    destruct (decide (f = g)) as [<-|].
    + exists F'. rewrite lookup_insert_eq. simplify_eq.
      destruct Hsame as (_ & _ & Hpar & _). unfold fiber_of in *. split_and!; congruence.
    + exists G. by rewrite lookup_insert_ne.
  - intros g G [[<- <-]|[? HG]]%lookup_insert_Some; [|by eapply ho_fiber].
    destruct (ho_fiber _ _ _ _ Hok f F Hf) as [H1 H2 H3 H4 H5].
    destruct Hsame as (Hid & Hname & Hpar & Hlen).
    split; rewrite ?Hpar, ?Hlen, ?Hlock, ?Hatt, ?Hname, ?Hid; done.
Qed.

(** *** A thread takes a free fiber, or leaves the one it runs *)

Lemma heap_ok_attach ht ph th fh t T f F T' F' :
  heap_ok ht ph th fh -> th !! t = Some T -> fh !! f = Some F ->
  T.(selected_fiber) = None -> F.(attached_thread) = None -> fiber_of T.(parent) F ->
  T' = set_selected_fiber (Some f) T -> same_fiber F F' ->
  F'.(attached_thread) = Some t -> spin_is_locked F'.(fiber_lock) = true ->
  heap_ok ht ph (<[t := T']> th) (<[f := F']> fh).
Proof.
  intros Hok Ht Hf Hsel Hatt Hown -> Hsame Hatt' Hlock'. split.
  - apply Hok.
  - intros p P Hp. eapply process_ok_fiber; [|done|done].
    eapply process_ok_thread; [by eapply ho_process|done..].
  - intros u U [[<- <-]|[Hne HU]]%lookup_insert_Some.
    + destruct (ho_thread _ _ _ _ Hok t T Ht) as [H1 _]. split; [done|].
      simpl. intros g [= <-]. exists F'. rewrite lookup_insert_eq.
      destruct Hsame as (_ & _ & Hpar & _). unfold fiber_of in *. split_and!; congruence.
    + destruct (ho_thread _ _ _ _ Hok u U HU) as [H1 H2]. split; [done|].
      intros g Hg. destruct (H2 g Hg) as (G & HG & HA & HO). exists G.
      rewrite lookup_insert_ne; [done|]. intros <-. congruence.
  - intros g G [[<- <-]|[Hne HG]]%lookup_insert_Some.
    + destruct (ho_fiber _ _ _ _ Hok f F Hf) as [H1 H2 H3 H4 H5].
      destruct Hsame as (Hid & Hname & Hpar & Hlen).
      split; rewrite ?Hpar, ?Hlen, ?Hlock', ?Hatt', ?Hname, ?Hid; try done.
      intros u [= <-]. eexists. by rewrite lookup_insert_eq.
    + destruct (ho_fiber _ _ _ _ Hok g G HG) as [H1 H2 H3 H4 H5]. split; [done..|].
      intros u Hu. destruct (H5 u Hu) as (U & HU & HS). exists U.
      rewrite lookup_insert_ne; [done|]. intros <-. congruence.
Qed.

Lemma heap_ok_detach ht ph th fh t T f F T' F' :
  heap_ok ht ph th fh -> th !! t = Some T -> fh !! f = Some F ->
  T.(selected_fiber) = Some f ->
  T' = set_selected_fiber None T -> same_fiber F F' ->
  F'.(attached_thread) = None -> spin_is_locked F'.(fiber_lock) = false ->
  heap_ok ht ph (<[t := T']> th) (<[f := F']> fh).
Proof.
  intros Hok Ht Hf Hsel -> Hsame Hatt' Hlock'.
  assert (F.(attached_thread) = Some t) as Hatt.
  { destruct (ho_thread _ _ _ _ Hok t T Ht) as [_ H]. destruct (H f Hsel) as (G & ? & ? & _). congruence. }
  split.
  - apply Hok.
  - intros p P Hp. eapply process_ok_fiber; [|done|done].
    eapply process_ok_thread; [by eapply ho_process|done..].
  - intros u U [[<- <-]|[Hne HU]]%lookup_insert_Some.
    + destruct (ho_thread _ _ _ _ Hok t T Ht) as [H1 _]. by split.
    + destruct (ho_thread _ _ _ _ Hok u U HU) as [H1 H2]. split; [done|].
      intros g Hg. destruct (H2 g Hg) as (G & HG & HA & HO). exists G.
      rewrite lookup_insert_ne; [done|]. intros <-. congruence.
  - intros g G [[<- <-]|[Hne HG]]%lookup_insert_Some.
    + destruct (ho_fiber _ _ _ _ Hok f F Hf) as [H1 H2 H3 H4 H5].
      destruct Hsame as (Hid & Hname & Hpar & Hlen).
      split; rewrite ?Hpar, ?Hlen, ?Hlock', ?Hatt', ?Hname, ?Hid; done.
    + destruct (ho_fiber _ _ _ _ Hok g G HG) as [H1 H2 H3 H4 H5]. split; [done..|].
      intros u Hu. destruct (H5 u Hu) as (U & HU & HS). exists U.
      rewrite lookup_insert_ne; [done|]. intros <-. congruence.
Qed.
(** *** Objects are added *)

Lemma heap_ok_add_process ht ph th fh p g :
  heap_ok ht ph th fh -> ph !! p = None ->
  (forall q Q, ph !! q = Some Q -> Q.(process_id) <> g) ->
  heap_ok (hash_add_rcu ht p g) (<[p := Process g 0 0 hash_init hash_init]> ph) th fh.
Proof.
  intros Hok Hp Hg.
  assert (forall t T, th !! t = Some T -> ~ thread_of p T) as Hnt.
  { intros t T Ht Hof. destruct (ho_thread _ _ _ _ Hok t T Ht) as [[? H] _].
    unfold thread_of in Hof. congruence. }
  assert (forall f F, fh !! f = Some F -> ~ fiber_of p F) as Hnf.
  { intros f F Hf Hof. destruct (ho_fiber _ _ _ _ Hok f F Hf) as [[? H] _ _ _ _].
    unfold fiber_of in Hof. congruence. }
  split.
  - apply (table_ok_add ht ph process_id _ p (Process g 0 0 hash_init hash_init)).
    + apply Hok.
    + done.
    + done.
    + intros q Q HQ _. by apply (Hg q).
  - intros q Q [[<- <-]|[? HQ]]%lookup_insert_Some; [|by eapply ho_process].
    split; simpl.
    + by apply table_ok_init.
    + by apply table_ok_init.
    + by rewrite hash_init_each.
    + by rewrite hash_init_each.
    + intros f F Hf Hof. by destruct (Hnf f F).
  - intros t T Ht. apply thread_ok_process. by eapply ho_thread.
  - intros f F Hf. apply fiber_ok_process. by eapply ho_fiber.
Qed.

Lemma heap_ok_add_thread ht ph th fh p P t id :
  heap_ok ht ph th fh -> ph !! p = Some P -> th !! t = None ->
  (forall u U, th !! u = Some U -> thread_of p U -> U.(thread_id) <> id) ->
  heap_ok ht
    (<[p := set_threads (hash_add_rcu P.(threads) t id)
              (set_active_threads (P.(active_threads) + 1) P)]> ph)
    (<[t := Thread id p None]> th) fh.
Proof.
  intros Hok HP Ht Hid. split.
  - eapply table_ok_update; [apply Hok|done|done|done].
  - intros q Q [[<- <-]|[Hne HQ]]%lookup_insert_Some.
    + destruct (ho_process _ _ _ _ Hok p P HP) as [H1 H2 H3 H4 H5]. split; simpl; [|done| |done..].
      * apply (table_ok_add P.(threads) th thread_id (thread_of p) t (Thread id p None)); done.
      * rewrite hash_add_length. lia.
    + destruct (ho_process _ _ _ _ Hok q Q HQ) as [H1 H2 H3 H4 H5]. split; [|done..].
      by apply table_ok_skip.
  - intros u U [[<- <-]|[Hne HU]]%lookup_insert_Some.
    + split; [|done]. simpl. rewrite lookup_insert_eq. eauto.
    + apply thread_ok_process. by eapply ho_thread.
  - intros f F Hf. apply fiber_ok_process.
    destruct (ho_fiber _ _ _ _ Hok f F Hf) as [H1 H2 H3 H4 H5]. split; [done..|].
    intros u Hu. destruct (H5 u Hu) as (U & HU & HS). exists U.
    rewrite lookup_insert_ne; [done|]. intros <-. congruence.
Qed.

(** What [init_fiber] establishes of a new fiber. *)
Record new_fiber (p : ptr) (id : Z) (F : fiber) : Prop := {
  nf_lock : spin_is_locked F.(fiber_lock) = false;
  nf_id : F.(fiber_id) = id;
  nf_name : F.(name) = snprintf 256 (format_ld id);
  nf_attached : F.(attached_thread) = None;
  nf_parent : F.(parent_process) = p;
  nf_fls : Z.of_nat (length F.(fls)) = MAX_FLS_POINTERS
}.

Lemma heap_ok_add_fiber ht ph th fh p P f F :
  heap_ok ht ph th fh -> ph !! p = Some P -> fh !! f = None ->
  new_fiber p (P.(last_fiber_id) + 1) F ->
  heap_ok ht
    (<[p := set_fibers (hash_add_rcu P.(fibers) f (P.(last_fiber_id) + 1))
              (set_last_fiber_id (P.(last_fiber_id) + 1) P)]> ph)
    th (<[f := F]> fh).
Proof.
  intros Hok HP Hf [Hlock Hid Hname Hatt Hpar Hlen]. split.
  - eapply table_ok_update; [apply Hok|done|done|done].
  - intros q Q [[<- <-]|[Hne HQ]]%lookup_insert_Some.
    + destruct (ho_process _ _ _ _ Hok p P HP) as [H1 H2 H3 H4 H5]. split; simpl; [done| |done| |].
      * rewrite <- Hid. apply table_ok_add; [done..|].
        intros g G HG Hof. specialize (H5 g G HG Hof). lia.
      * rewrite hash_add_length. lia.
      * intros g G [[<- <-]|[? HG]]%lookup_insert_Some Hof; [|specialize (H5 g G HG Hof); lia].
        rewrite Hid. lia.
    + destruct (ho_process _ _ _ _ Hok q Q HQ) as [H1 H2 H3 H4 H5].
      assert (~ fiber_of q F) by (unfold fiber_of; congruence).
      split; [done| |done..|].
      * by apply table_ok_skip.
      * intros g G [[<- <-]|[? HG]]%lookup_insert_Some Hof; [done|eauto].
  - intros t T Ht. apply thread_ok_process.
    destruct (ho_thread _ _ _ _ Hok t T Ht) as [H1 H2]. split; [done|].
    intros g Hg. destruct (H2 g Hg) as (G & HG & HA & HO). exists G.
    rewrite lookup_insert_ne; [done|]. intros <-. congruence.
  - intros g G [[<- <-]|[? HG]]%lookup_insert_Some; [|by apply fiber_ok_process; eapply ho_fiber].
    split.
    + rewrite Hpar, lookup_insert_eq. eauto.
    + done.
    + by rewrite Hlock, Hatt.
    + by rewrite Hname, Hid.
    + by rewrite Hatt.
Qed.

(** *** Objects are removed *)

Lemma heap_ok_del_thread ht ph th fh p P t T :
  heap_ok ht ph th fh -> ph !! p = Some P -> th !! t = Some T -> thread_of p T ->
  T.(selected_fiber) = None ->
  heap_ok ht
    (<[p := set_threads (hash_del_rcu P.(threads) t)
              (set_active_threads (P.(active_threads) - 1) P)]> ph)
    (delete t th) fh.
Proof.
  intros Hok HP HT Hof Hsel. split.
  - eapply table_ok_update; [apply Hok|done|done|done].
  - intros q Q [[<- <-]|[Hne HQ]]%lookup_insert_Some.
    + destruct (ho_process _ _ _ _ Hok p P HP) as [H1 H2 H3 H4 H5]. split; simpl; [|done| |done..].
      * by eapply table_ok_del.
      * rewrite H3, (hash_del_length P.(threads) t); [lia|]. apply H1. eauto.
    + destruct (ho_process _ _ _ _ Hok q Q HQ) as [H1 H2 H3 H4 H5]. split; [|done..].
      apply table_ok_forget; [done|]. intros U HU Hq. unfold thread_of in *. congruence.
  - intros u U [? HU]%lookup_delete_Some. apply thread_ok_process. by eapply ho_thread.
  - intros f F Hf. apply fiber_ok_process.
    destruct (ho_fiber _ _ _ _ Hok f F Hf) as [H1 H2 H3 H4 H5]. split; [done..|].
    intros u Hu. destruct (H5 u Hu) as (U & HU & HS). exists U.
    rewrite lookup_delete_ne; [done|]. intros <-. congruence.
Qed.

(** A process goes together with its threads and its fibers. *)
Lemma heap_ok_del_process ht ph th fh th' fh' p P :
  heap_ok ht ph th fh -> ph !! p = Some P ->
  (forall t T, th' !! t = Some T <-> th !! t = Some T /\ ~ thread_of p T) ->
  (forall f F, fh' !! f = Some F <-> fh !! f = Some F /\ ~ fiber_of p F) ->
  heap_ok (hash_del_rcu ht p) (delete p ph) th' fh'.
Proof.
  intros Hok HP Hth Hfh. split.
  - eapply table_ok_del; [apply Hok|done|done].
  - intros q Q [Hne HQ]%lookup_delete_Some.
    destruct (ho_process _ _ _ _ Hok q Q HQ) as [H1 H2 H3 H4 H5].
    assert (forall T, thread_of q T -> ~ thread_of p T) by (unfold thread_of; congruence).
    assert (forall F, fiber_of q F -> ~ fiber_of p F) by (unfold fiber_of; congruence).
    split; [..|done|done|].
    + eapply table_ok_sub; [done| |]; [by intros ? ? [? ?]%Hth|].
      intros t T HT Hof. apply Hth. auto.
    + eapply table_ok_sub; [done| |]; [by intros ? ? [? ?]%Hfh|].
      intros f F HF Hof. apply Hfh. auto.
    + intros f F [HF _]%Hfh. eauto.
  - intros t T [HT Hnp]%Hth. destruct (ho_thread _ _ _ _ Hok t T HT) as [H1 H2].
    unfold thread_of in Hnp. split; [by rewrite lookup_delete_ne|].
    intros f Hf. destruct (H2 f Hf) as (F & HF & HA & HO). exists F.
    split; [|done]. apply Hfh. split; [done|]. unfold fiber_of in *. congruence.
  - intros f F [HF Hnp]%Hfh. destruct (ho_fiber _ _ _ _ Hok f F HF) as [H1 H2 H3 H4 H5].
    unfold fiber_of in Hnp. split; [by rewrite lookup_delete_ne|done..|].
    intros t Ht. destruct (H5 t Ht) as (T & HT & HS). exists T. split; [|done].
    apply Hth. split; [done|].
    destruct (ho_thread _ _ _ _ Hok t T HT) as [_ H6]. destruct (H6 f HS) as (F' & HF' & _ & HO).
    unfold thread_of, fiber_of in *. congruence.
Qed.
End HeapOk.
