(* ===== verification/Runs.v ===== *)
(** * Runs of the handlers

    The well-formed states of the module, the lookups as functions of the
    state, and the exact result of a run of each handler on each branch. *)

From S2P Require Import Prelude Kernel State CStr Fibers Heap.

Section Runs.
Context {K : Kernel}.

(** ** Well-formed states *)

Record wf (s : kstate) : Prop := {
  wf_lock : spin_is_locked s.(struct_process_lock) = false;
  wf_heap : heap_ok s.(processes) s.(process_heap) s.(thread_heap) s.(fiber_heap);
  (** every converted thread runs a fiber *)
  wf_running t T : s.(thread_heap) !! t = Some T -> T.(selected_fiber) <> None;
  (** every converted thread brought a fiber *)
  wf_active p P : s.(process_heap) !! p = Some P -> P.(active_threads) <= P.(last_fiber_id)
}.

(** No process has given out more than [n] fiber ids. *)
Definition ids_below (n : Z) (s : kstate) : Prop :=
  forall p P, s.(process_heap) !! p = Some P -> P.(last_fiber_id) <= n.

(** ** The lookups as functions *)

Definition process_at (s : kstate) (g : Z) : option ptr :=
  at_key s.(process_heap) process_id g s.(processes).
Definition thread_at (s : kstate) (p : ptr) (pid : Z) : option ptr :=
  P ← s.(process_heap) !! p; at_key s.(thread_heap) thread_id pid P.(threads).
Definition fiber_at (s : kstate) (p : ptr) (id : Z) : option ptr :=
  P ← s.(process_heap) !! p; at_key s.(fiber_heap) fiber_id id P.(fibers).

(** The thread structure of task [pid] of thread group [g], and the fiber it
    runs. *)
Definition thread_for (s : kstate) (g pid : Z) : option ptr :=
  p ← process_at s g; thread_at s p pid.
Definition running (s : kstate) (g pid : Z) : option ptr :=
  t ← thread_for s g pid; T ← s.(thread_heap) !! t; T.(selected_fiber).
(** The fiber with a given id in thread group [g]. *)
Definition fiber_for (s : kstate) (g id : Z) : option ptr :=
  p ← process_at s g; fiber_at s p id.

Abbreviation heaps_ok s :=
  (heap_ok s.(processes) s.(process_heap) s.(thread_heap) s.(fiber_heap)).

Context {KOk : KernelOk K}.

Lemma process_at_Some s g p :
  heaps_ok s ->
  process_at s g = Some p <-> exists P, s.(process_heap) !! p = Some P /\ P.(process_id) = g.
Proof.
  intros Hok. unfold process_at. rewrite at_key_Some by apply Hok.
  split; intros (P & H); exists P; tauto.
Qed.

Lemma process_at_None s g :
  heaps_ok s ->
  process_at s g = None <->
  forall p P, s.(process_heap) !! p = Some P -> P.(process_id) <> g.
Proof.
  intros Hok. unfold process_at. rewrite at_key_None by apply Hok.
  split; intros H q Q HQ; [exact (H q Q HQ I)|intros _; exact (H q Q HQ)].
Qed.

Lemma thread_at_Some s p P pid t :
  heaps_ok s -> s.(process_heap) !! p = Some P ->
  thread_at s p pid = Some t <->
  exists T, s.(thread_heap) !! t = Some T /\ thread_of p T /\ T.(thread_id) = pid.
Proof.
  intros Hok HP. unfold thread_at. rewrite HP. simpl.
  apply at_key_Some. by eapply ho_process.
Qed.

Lemma thread_at_None s p P pid :
  heaps_ok s -> s.(process_heap) !! p = Some P ->
  thread_at s p pid = None <->
  forall t T, s.(thread_heap) !! t = Some T -> thread_of p T -> T.(thread_id) <> pid.
Proof.
  intros Hok HP. unfold thread_at. rewrite HP. simpl.
  apply at_key_None. by eapply ho_process.
Qed.

Lemma fiber_at_Some s p P id f :
  heaps_ok s -> s.(process_heap) !! p = Some P ->
  fiber_at s p id = Some f <->
  exists F, s.(fiber_heap) !! f = Some F /\ fiber_of p F /\ F.(fiber_id) = id.
Proof.
  intros Hok HP. unfold fiber_at. rewrite HP. simpl.
  apply at_key_Some. by eapply ho_process.
Qed.

Lemma fiber_at_None s p P id :
  heaps_ok s -> s.(process_heap) !! p = Some P ->
  fiber_at s p id = None <->
  forall f F, s.(fiber_heap) !! f = Some F -> fiber_of p F -> F.(fiber_id) <> id.
Proof.
  intros Hok HP. unfold fiber_at. rewrite HP. simpl.
  apply at_key_None. by eapply ho_process.
Qed.

(** ** The commands *)

Lemma find_process_run s g :
  heaps_ok s -> find_process_by_tgid g s = Some (process_at s g, s).
Proof.
  intros Hok. unfold find_process_by_tgid. apply mderef_eq.
  eapply find_loop_at_key, Hok.
Qed.

Lemma find_thread_run s p P pid :
  heaps_ok s -> s.(process_heap) !! p = Some P ->
  find_thread_by_pid pid p s = Some (thread_at s p pid, s).
Proof.
  intros Hok HP. unfold find_thread_by_pid, load_process. mstep. apply mderef_eq.
  unfold thread_at. rewrite HP. simpl. eapply find_loop_at_key. by eapply ho_process.
Qed.

Lemma find_fiber_run s p P id :
  heaps_ok s -> s.(process_heap) !! p = Some P ->
  find_fiber_by_id id p s = Some (fiber_at s p id, s).
Proof.
  intros Hok HP. unfold find_fiber_by_id, load_process. mstep. apply mderef_eq.
  unfold fiber_at. rewrite HP. simpl. eapply find_loop_at_key. by eapply ho_process.
Qed.

Lemma alter_process_run s p P g :
  s.(process_heap) !! p = Some P ->
  alter_process p g s = Some (tt, set_process_heap (<[p := g P]> s.(process_heap)) s).
Proof. intros H. unfold alter_process, load_process. by mstep. Qed.

Lemma alter_thread_run s t T g :
  s.(thread_heap) !! t = Some T ->
  alter_thread t g s = Some (tt, set_thread_heap (<[t := g T]> s.(thread_heap)) s).
Proof. intros H. unfold alter_thread, load_thread. by mstep. Qed.

Lemma alter_fiber_run s f F g :
  s.(fiber_heap) !! f = Some F ->
  alter_fiber f g s = Some (tt, set_fiber_heap (<[f := g F]> s.(fiber_heap)) s).
Proof. intros H. unfold alter_fiber, load_fiber. by mstep. Qed.

Lemma alter_current_run s t g :
  s.(tasks) !! s.(current) = Some t ->
  alter_current g s = Some (tt, set_tasks (<[s.(current) := g t]> s.(tasks)) s).
Proof.
  intros H. unfold alter_current, alter_task, load_task, current_pid, mthen, mreads, mderef.
  by rewrite H.
Qed.

Lemma trylock_fiber_run s f F :
  s.(fiber_heap) !! f = Some F ->
  trylock_fiber f s =
    Some (negb (spin_is_locked F.(fiber_lock)),
          set_fiber_heap (<[f := set_fiber_lock (spin_trylock F.(fiber_lock)).2 F]>
                            s.(fiber_heap)) s).
Proof.
  intros H. unfold trylock_fiber, load_fiber. mstep.
  erewrite mthen_eq by (by apply alter_fiber_run).
  unfold mret. by rewrite spin_trylock_result.
Qed.

Lemma unlock_fiber_run s f F :
  s.(fiber_heap) !! f = Some F ->
  unlock_fiber f s =
    Some (tt, set_fiber_heap (<[f := set_fiber_lock (spin_unlock F.(fiber_lock)) F]>
                                s.(fiber_heap)) s).
Proof. intros H. unfold unlock_fiber. by rewrite (alter_fiber_run _ _ F). Qed.
End Runs.

Abbreviation heaps_ok s :=
  (heap_ok (processes s) (process_heap s) (thread_heap s) (fiber_heap s)).

(** [kstep] runs the next command of a handler (a lookup, a load, an
    assignment or a lock operation) whose object is known to be allocated; the
    state is kept as a [KState] of its components, so it is destructed first. *)
Ltac kproj :=
  cbn [processes struct_process_lock process_heap thread_heap fiber_heap tasks current
       prev_task preempt_count umem] in *.

Ltac knorm :=
  cbv beta iota delta [set_processes set_struct_process_lock set_process_heap set_thread_heap set_fiber_heap
       set_tasks set_current set_prev_task set_preempt_count set_umem
       processes struct_process_lock process_heap thread_heap fiber_heap tasks current
       prev_task preempt_count umem];
  rewrite ?insert_insert_eq.

Ltac klook :=
  knorm;
  first [ eassumption
        | rewrite lookup_insert_eq; reflexivity
        | rewrite lookup_insert_ne by (done || congruence); klook ].

Ltac kstep :=
  first
    [ rewrite mthen_ret_l
    | rewrite mthen_modify
    | rewrite mthen_reads
    | erewrite mthen_eq by (apply find_process_run; assumption)
    | erewrite mthen_eq by (eapply find_thread_run; klook || assumption)
    | erewrite mthen_eq by (eapply find_fiber_run; klook || assumption)
    | erewrite mthen_eq by (eapply trylock_fiber_run; klook)
    | erewrite mthen_eq by (eapply unlock_fiber_run; klook)
    | erewrite mthen_eq by (eapply alter_fiber_run; klook)
    | erewrite mthen_eq by (eapply alter_thread_run; klook)
    | erewrite mthen_eq by (eapply alter_process_run; klook)
    | erewrite mthen_eq by (eapply alter_current_run; klook)
    | erewrite mthen_eq by (apply mderef_eq; klook) ];
  knorm.

(** ** What the handlers do to the objects *)

Section Objects.
Context {K : Kernel}.

(** A fiber is taken by thread [t]. *)
Definition enter_fiber (t : ptr) (F : fiber) : fiber :=
  set_activation_counter (u64 (F.(activation_counter) + 1))
    (set_attached_thread (Some t) (set_fiber_lock (spin_trylock F.(fiber_lock)).2 F)).

(** The running task [tk] leaves a fiber. *)
Definition leave_fiber (tk : task) (F : fiber) : fiber :=
  set_fiber_lock (spin_unlock F.(fiber_lock))
    (set_attached_thread None
      (set_fpu tk.(fx)
        (set_registers tk.(regs)
          (set_total_time (u64 (F.(total_time) + tk.(utime))) F)))).

(** The running task continues where the fiber stopped. *)
Definition resume_task (F : fiber) (tk : task) : task :=
  set_fx F.(fpu) (set_regs F.(registers) tk).

(** The state after a successful switch of thread [t] from [prev] to [f]. *)
Definition switched (t : ptr) (T : thread) (prev f : ptr) (Pv F : fiber) (tk : task)
    (s : kstate) : kstate :=
  set_tasks (<[s.(current) := resume_task F tk]> s.(tasks))
    (set_thread_heap (<[t := set_selected_fiber (Some f) T]> s.(thread_heap))
      (set_fiber_heap
        (<[prev := leave_fiber tk Pv]> (<[f := enter_fiber t F]> s.(fiber_heap))) s)).

(** The state after a refused switch to [f]. *)
Definition refused (f : ptr) (F : fiber) (s : kstate) : kstate :=
  set_fiber_heap
    (<[f := set_failed_activation_counter (s64 (F.(failed_activation_counter) + 1))
              (set_fiber_lock (spin_trylock F.(fiber_lock)).2 F)]> s.(fiber_heap)) s.

(** The fiber [init_fiber] makes for task [tk] with pid [pid]. *)
Definition fresh_fiber (p : ptr) (id ss s_ptr : Z) (pid : Z) (tk : task) : fiber :=
  let fiber_stack_size := u64 (if 0 <=? ss then ss else DEFAULT_STACK_SIZE) in
  let top := u64 (s_ptr + fiber_stack_size - 8) in
  Fiber SPIN_LOCK_UNLOCKED id (snprintf 256 (format_ld id)) None p
    (set_bp top (set_sp top tk.(regs))) tk.(fx) s_ptr fiber_stack_size
    (replicate (Z.to_nat MAX_FLS_POINTERS) 0) (bitmap_zero MAX_FLS_POINTERS)
    tk.(regs).(ip) pid 0 0 0.

(** The fiber of a thread that converts itself: it runs, on its own stack. *)
Definition first_fiber (t p : ptr) (id pid : Z) (tk : task) : fiber :=
  let F := fresh_fiber p id (-1) 0 pid tk in
  let R := set_bp tk.(regs).(bp) (set_sp tk.(regs).(sp) F.(registers)) in
  enter_fiber t (set_registers R F).

(** The fiber [do_CreateFiber] makes. *)
Definition created_fiber (p : ptr) (id stack_pointer stack_size fn param pid : Z) (tk : task)
  : fiber :=
  let F := fresh_fiber p id stack_size stack_pointer pid tk in
  set_start_address fn (set_registers (set_di param (set_ip fn F.(registers))) F).

Definition process_with_fiber (P : process) (f : ptr) : process :=
  set_fibers (hash_add_rcu P.(fibers) f (P.(last_fiber_id) + 1))
    (set_last_fiber_id (P.(last_fiber_id) + 1) P).
Definition process_with_thread (P : process) (t : ptr) (id : Z) : process :=
  set_threads (hash_add_rcu P.(threads) t id)
    (set_active_threads (P.(active_threads) + 1) P).

Definition lock_cycled (s : kstate) : kstate :=
  set_struct_process_lock (spin_unlock (spin_trylock s.(struct_process_lock)).2) s.

Definition new_process (p : ptr) (g : Z) (s : kstate) : kstate :=
  set_processes (hash_add_rcu s.(processes) p g)
    (set_process_heap (<[p := Process g 0 0 hash_init hash_init]> s.(process_heap)) s).

Definition converted (p t f : ptr) (P : process) (tid : Z) (tk : task) (s : kstate) : kstate :=
  set_process_heap
    (<[p := process_with_fiber (process_with_thread P t tid) f]> s.(process_heap))
    (set_thread_heap (<[t := Thread tid p (Some f)]> s.(thread_heap))
      (set_fiber_heap
        (<[f := first_fiber t p (P.(last_fiber_id) + 1) s.(current) tk]> s.(fiber_heap)) s)).

Definition created (p f : ptr) (P : process) (sp sz fn param : Z) (tk : task) (s : kstate)
  : kstate :=
  set_process_heap (<[p := process_with_fiber P f]> s.(process_heap))
    (set_fiber_heap
      (<[f := created_fiber p (P.(last_fiber_id) + 1) sp sz fn param s.(current) tk]>
         s.(fiber_heap)) s).
End Objects.

(** ** The runs *)

Section HandlerRuns.
Context {K : Kernel} {KOk : KernelOk K}.

Lemma switch_run s g tk p P t T f F prev Pv tid fid :
  heaps_ok s ->
  s.(tasks) !! s.(current) = Some tk -> tk.(tgid) = g ->
  process_at s g = Some p -> s.(process_heap) !! p = Some P ->
  thread_at s p tid = Some t -> s.(thread_heap) !! t = Some T ->
  fiber_at s p fid = Some f -> s.(fiber_heap) !! f = Some F ->
  T.(selected_fiber) = Some prev -> s.(fiber_heap) !! prev = Some Pv ->
  F.(attached_thread) = None -> spin_is_locked F.(fiber_lock) = false -> prev <> f ->
  do_SwitchToFiber fid tid s = Some (0, switched t T prev f Pv F tk s).
Proof.
  intros Hok Htk <- Hp HP Ht HT Hf HF Hsel HPv Hatt Hlock Hne.
  destruct s. unfold do_SwitchToFiber, current_task, load_fiber. kproj.
  kstep. kstep. rewrite Hp. kstep. rewrite Ht. kstep. rewrite Hf.
  kstep. kstep. simpl. rewrite Hlock, Hatt. simpl.
  unfold switch_context, load_thread, load_fiber, current_task, not_null. 
  do 15 kstep. unfold switched, mret. knorm. reflexivity.
Qed.

Lemma switch_busy_run s tk p P t f F tid fid :
  heaps_ok s ->
  s.(tasks) !! s.(current) = Some tk ->
  process_at s tk.(tgid) = Some p -> s.(process_heap) !! p = Some P ->
  thread_at s p tid = Some t -> fiber_at s p fid = Some f -> s.(fiber_heap) !! f = Some F ->
  spin_is_locked F.(fiber_lock) = true ->
  do_SwitchToFiber fid tid s = Some (-1, refused f F s).
Proof.
  intros Hok Htk Hp HP Ht Hf HF Hlock.
  destruct s. unfold do_SwitchToFiber, current_task, load_fiber. kproj.
  kstep. kstep. rewrite Hp. kstep. rewrite Ht. kstep. rewrite Hf.
  kstep. kstep. rewrite Hlock. cbn [negb orb]. kstep. unfold refused, mret. knorm. reflexivity.
Qed.

Lemma switch_missing_run s tk tid fid :
  heaps_ok s -> s.(tasks) !! s.(current) = Some tk ->
  thread_for s tk.(tgid) tid = None \/ fiber_for s tk.(tgid) fid = None ->
  do_SwitchToFiber fid tid s = Some (-1, s).
Proof.
  intros Hok Htk Hnone. unfold do_SwitchToFiber, current_task.
  kstep. kstep. unfold thread_for, fiber_for in Hnone.
  destruct (process_at s (tgid tk)) as [p|] eqn:Hp; [|done]. simpl in Hnone.
  apply process_at_Some in Hp as (P & HP & _); [|done].
  kstep. destruct (thread_at s p tid) as [t|]; [|done].
  kstep. destruct (fiber_at s p fid) as [f|]; [|done]. naive_solver.
Qed.

Lemma get_process_found s tk p :
  heaps_ok s -> spin_is_locked s.(struct_process_lock) = false ->
  s.(tasks) !! s.(current) = Some tk -> process_at s tk.(tgid) = Some p ->
  get_process s = Some (p, lock_cycled s).
Proof.
  intros Hok (l' & Hl & _)%spin_trylock_free Htk Hp.
  destruct s. unfold get_process, lock_processes, unlock_processes, current_task, lock_cycled.
  kproj. unfold mthen at 1. kproj. rewrite Hl. knorm. kstep. kstep.
  unfold process_at in *. kproj. rewrite Hp. kstep. kstep. unfold mret. done.
Qed.

Lemma init_process_run s tk p :
  s.(tasks) !! s.(current) = Some tk -> kmalloc (dom s.(process_heap)) = Some p ->
  init_process s = Some (p, new_process p tk.(tgid) s).
Proof.
  intros Htk Hk. destruct s. unfold init_process, current_task, new_process. kproj.
  do 4 kstep. unfold mret. knorm. done.
Qed.

Lemma get_process_new s tk p :
  heaps_ok s -> spin_is_locked s.(struct_process_lock) = false ->
  s.(tasks) !! s.(current) = Some tk -> process_at s tk.(tgid) = None ->
  kmalloc (dom s.(process_heap)) = Some p ->
  get_process s = Some (p, lock_cycled (new_process p tk.(tgid) s)).
Proof.
  intros Hok (l' & Hl & _)%spin_trylock_free Htk Hp Hk.
  destruct s. unfold get_process, lock_processes, unlock_processes, current_task, lock_cycled.
  kproj. unfold mthen at 1. kproj. rewrite Hl. knorm. kstep. kstep.
  unfold process_at in *. kproj. rewrite Hp.
  erewrite mthen_eq by (by apply init_process_run). kstep. unfold mret, new_process. knorm.
  by rewrite Hl.
Qed.

Lemma init_thread_run s p P t id :
  s.(process_heap) !! p = Some P -> kmalloc (dom s.(thread_heap)) = Some t ->
  s64 (P.(active_threads) + 1) = P.(active_threads) + 1 ->
  init_thread p id s =
    Some (t, set_process_heap (<[p := process_with_thread P t id]> s.(process_heap))
               (set_thread_heap (<[t := Thread id p None]> s.(thread_heap)) s)).
Proof.
  intros HP Hk Hs. destruct s. unfold init_thread. kproj.
  do 4 kstep. unfold mret, process_with_thread. knorm. by rewrite Hs.
Qed.

Lemma init_fiber_run s p P f ss s_ptr tk :
  s.(process_heap) !! p = Some P -> kmalloc (dom s.(fiber_heap)) = Some f ->
  s.(tasks) !! s.(current) = Some tk -> 0 <= P.(last_fiber_id) < INT_MAX ->
  init_fiber p ss s_ptr s =
    Some (f, set_process_heap (<[p := process_with_fiber P f]> s.(process_heap))
               (set_fiber_heap
                  (<[f := fresh_fiber p (P.(last_fiber_id) + 1) ss s_ptr s.(current) tk]>
                     s.(fiber_heap)) s)).
Proof.
  intros HP Hk Htk Hb. destruct s.
  unfold init_fiber, load_process, current_task, current_pid. kproj.
  do 7 kstep. unfold mret, process_with_fiber, fresh_fiber. cbn [last_fiber_id set_last_fiber_id].
  rewrite s64_small, s32_small by lia. knorm. done.
Qed.

Lemma create_run s tk p P t f sp sz fn param tid :
  heaps_ok s -> s.(tasks) !! s.(current) = Some tk ->
  process_at s tk.(tgid) = Some p -> s.(process_heap) !! p = Some P ->
  thread_at s p tid = Some t -> kmalloc (dom s.(fiber_heap)) = Some f ->
  0 <= P.(last_fiber_id) < INT_MAX ->
  do_CreateFiber sp sz fn param tid s =
    Some (P.(last_fiber_id) + 1, created p f P sp sz fn param tk s).
Proof.
  intros Hok Htk Hp HP Ht Hk Hb. destruct s.
  unfold do_CreateFiber, current_task, load_fiber. kproj.
  kstep. kstep. rewrite Hp. kstep. rewrite Ht.
  erewrite mthen_eq by (by apply init_fiber_run). knorm.
  do 4 kstep. unfold mret, created. knorm. done.
Qed.

Lemma create_missing_run s tk sp sz fn param tid :
  heaps_ok s -> s.(tasks) !! s.(current) = Some tk ->
  thread_for s tk.(tgid) tid = None ->
  do_CreateFiber sp sz fn param tid s = Some (-1, s).
Proof.
  intros Hok Htk Hnone. unfold do_CreateFiber, current_task. kstep. kstep.
  unfold thread_for in Hnone. destruct (process_at s (tgid tk)) as [p|] eqn:Hp; [|done].
  apply process_at_Some in Hp as (P & HP & _); [|done]. simpl in Hnone.
  kstep. by rewrite Hnone.
Qed.

(** The conversion after [get_process]. *)
Lemma convert_run s0 s tk p P t f tid :
  get_process s0 = Some (p, s) ->
  heaps_ok s -> s.(tasks) !! s.(current) = Some tk -> s.(process_heap) !! p = Some P ->
  thread_at s p tid = None ->
  kmalloc (dom s.(thread_heap)) = Some t -> kmalloc (dom s.(fiber_heap)) = Some f ->
  0 <= P.(active_threads) <= INT_MAX -> 0 <= P.(last_fiber_id) < INT_MAX ->
  do_ConvertThreadToFiber tid s0 =
    Some (P.(last_fiber_id) + 1, converted p t f P tid tk s).
Proof.
  intros Hget Hok Htk HP Ht Hkt Hkf Ha Hl. destruct s.
  unfold do_ConvertThreadToFiber, current_task, load_fiber. kproj.
  erewrite mthen_eq by exact Hget. kstep. rewrite Ht.
  erewrite mthen_eq by (apply init_thread_run; [done..|apply s64_small; lia]). knorm.
  erewrite mthen_eq by (apply init_fiber_run; kproj; [apply lookup_insert_eq|done..]). knorm.
  do 7 kstep. cbn [negb fiber_lock set_selected_fiber set_attached_thread set_registers
    set_activation_counter fresh_fiber]. rewrite spin_unlocked_free. cbn [negb].
  kstep. unfold mret, converted. knorm. done.
Qed.

(** Without memory for one of the objects, NULL is dereferenced. *)

Lemma get_process_oom s tk :
  heaps_ok s -> spin_is_locked s.(struct_process_lock) = false ->
  s.(tasks) !! s.(current) = Some tk -> process_at s tk.(tgid) = None ->
  kmalloc (dom s.(process_heap)) = None ->
  get_process s = None.
Proof.
  intros Hok (l' & Hl & _)%spin_trylock_free Htk Hp Hk.
  destruct s. unfold get_process, lock_processes, current_task.
  kproj. unfold mthen at 1. kproj. rewrite Hl. knorm. kstep. kstep.
  unfold process_at in *. kproj. rewrite Hp. apply mthen_None.
  unfold init_process. apply mthen_None. unfold mderef. kproj. by rewrite Hk.
Qed.

Lemma convert_oom s0 s tk p P tid :
  get_process s0 = Some (p, s) ->
  heaps_ok s -> s.(tasks) !! s.(current) = Some tk -> s.(process_heap) !! p = Some P ->
  thread_at s p tid = None ->
  kmalloc (dom s.(thread_heap)) = None \/ kmalloc (dom s.(fiber_heap)) = None ->
  0 <= P.(active_threads) <= INT_MAX ->
  do_ConvertThreadToFiber tid s0 = None.
Proof.
  intros Hget Hok Htk HP Ht Hk Ha. destruct s.
  unfold do_ConvertThreadToFiber. kproj. erewrite mthen_eq by exact Hget. kstep. rewrite Ht.
  destruct (kmalloc (dom thread_heap)) as [t|] eqn:Hkt.
  - erewrite mthen_eq by (apply init_thread_run; [done..|apply s64_small; lia]).
    destruct Hk as [|Hk]; [done|]. apply mthen_None. unfold init_fiber. apply mthen_None.
    unfold mderef. knorm. by rewrite Hk.
  - apply mthen_None. unfold init_thread. apply mthen_None. unfold mderef. knorm. by rewrite Hkt.
Qed.

Lemma create_oom s tk p P t sp sz fn param tid :
  heaps_ok s -> s.(tasks) !! s.(current) = Some tk ->
  process_at s tk.(tgid) = Some p -> s.(process_heap) !! p = Some P ->
  thread_at s p tid = Some t -> kmalloc (dom s.(fiber_heap)) = None ->
  do_CreateFiber sp sz fn param tid s = None.
Proof.
  intros Hok Htk Hp HP Ht Hk. destruct s.
  unfold do_CreateFiber, current_task. kproj.
  kstep. kstep. rewrite Hp. kstep. rewrite Ht. apply mthen_None.
  unfold init_fiber. apply mthen_None. unfold mderef. knorm. by rewrite Hk.
Qed.

Lemma convert_again_run s0 s p P t tid :
  get_process s0 = Some (p, s) -> heaps_ok s -> s.(process_heap) !! p = Some P ->
  thread_at s p tid = Some t ->
  do_ConvertThreadToFiber tid s0 = Some (-1, s).
Proof.
  intros Hget Hok HP Ht. unfold do_ConvertThreadToFiber.
  erewrite mthen_eq by exact Hget. kstep. by rewrite Ht.
Qed.
End HandlerRuns.
