(* ===== verification/Kprobes.v ===== *)
(** * The probes

    [module/kprobes.c]: [exit_cleanup], which runs when a task enters
    [do_exit], and [fiber_timer], which runs at every task switch.  The two
    probes on functions of [/proc] are in Proc.v, their entry handlers and the
    registration of all four in Module.v. *)

From S2P Require Import Prelude Kernel State CStr Fibers Heap Runs.

Section Kprobes.
Context {K : Kernel}.

(** [preempt_disable], and the first half of [get_cpu_var]. *)
Definition preempt_disable : kM unit :=
  mmodify (fun s => set_preempt_count (s.(preempt_count) + 1) s).
(** [preempt_enable], and [put_cpu_var]. *)
Definition preempt_enable : kM unit :=
  mmodify (fun s => set_preempt_count (s.(preempt_count) - 1) s).

(** The state of the fiber [prev_fiber] is saved and the fiber released. *)
Definition release_fiber (prev_fiber : ptr) : kM unit :=
  do! preempt_disable;
  let! t := current_task in
  do! alter_fiber prev_fiber (set_registers t.(regs));
  do! alter_fiber prev_fiber (set_fpu t.(fx));
  do! alter_fiber prev_fiber (set_attached_thread None);
  do! preempt_enable;
  unlock_fiber prev_fiber.

Definition exit_cleanup : kM Z :=
  let! tk := current_task in
  let! p := find_process_by_tgid tk.(tgid) in
  match p with
  | None => mret 0
  | Some p =>
      let! pid := current_pid in
      let! t := find_thread_by_pid pid p in
      match t with
      | None => mret 0
      | Some t =>
          let! T := load_thread t in
          do! alter_process T.(parent)
                (fun P => set_active_threads (s64 (P.(active_threads) - 1)) P);
          let! P := load_process T.(parent) in
          let ret := P.(active_threads) in
          do! match T.(selected_fiber) with
              | Some prev_fiber => if ret =? 0 then mret tt else release_fiber prev_fiber
              | None => mret tt
              end;
          do! alter_process p (fun P => set_threads (hash_del_rcu P.(threads) t) P);
          do! load_thread t;
          do! mmodify (fun s => set_thread_heap (delete t s.(thread_heap)) s);
          if ret =? 0 then
            let! P := load_process p in
            do! kfree_fibers (hash_each P.(fibers));
            do! free_process p;
            mret 0
          else mret 0
      end
  end.

(** [end_not_our_fiber]: the running task becomes the previous one. *)
Definition end_not_our_fiber : kM Z :=
  do! preempt_disable;
  do! mmodify (fun s => set_prev_task (Some s.(current)) s);
  do! preempt_enable;
  mret 0.

Definition fiber_timer : kM Z :=
  do! preempt_disable;
  let! prev := mreads prev_task in
  match prev with
  | None => do! preempt_enable; end_not_our_fiber
  | Some prev =>
      let! tk := load_task prev in
      let! prev_p := find_process_by_tgid tk.(tgid) in
      match prev_p with
      | None => do! preempt_enable; end_not_our_fiber
      | Some prev_p =>
          let! prev_th := find_thread_by_pid prev prev_p in
          match prev_th with
          | None => end_not_our_fiber
          | Some prev_th =>
              let! T := load_thread prev_th in
              match T.(selected_fiber) with
              | None => end_not_our_fiber
              | Some prev_f =>
                  do! alter_fiber prev_f
                        (fun F => set_total_time (u64 (F.(total_time) + tk.(utime))) F);
                  do! preempt_enable;
                  end_not_our_fiber
              end
          end
      end
  end.

(** ** What they do to the state *)

(** A fiber released by an exiting task; it was not charged any time. *)
Definition released_fiber (tk : task) (F : fiber) : fiber :=
  set_fiber_lock (spin_unlock F.(fiber_lock))
    (set_attached_thread None (set_fpu tk.(fx) (set_registers tk.(regs) F))).

Definition process_without_thread (P : process) (t : ptr) : process :=
  set_threads (hash_del_rcu P.(threads) t) (set_active_threads (P.(active_threads) - 1) P).

(** A thread that is not the last one of its process has exited. *)
Definition exited (p t f : ptr) (P : process) (F : fiber) (tk : task) (s : kstate) : kstate :=
  set_process_heap (<[p := process_without_thread P t]> s.(process_heap))
    (set_thread_heap (delete t s.(thread_heap))
      (set_fiber_heap (<[f := released_fiber tk F]> s.(fiber_heap)) s)).

(** Process [p] is gone, and the heaps of threads and fibers are [th], [fh]. *)
Definition without_process (p : ptr) (th : gmap ptr thread) (fh : gmap ptr fiber) (s : kstate)
  : kstate :=
  set_processes (hash_del_rcu s.(processes) p)
    (set_process_heap (delete p s.(process_heap))
      (set_thread_heap th (set_fiber_heap fh s))).

Definition timed (s : kstate) : kstate := set_prev_task (Some s.(current)) s.
End Kprobes.

(** ** Freeing every object of a table *)

Section FreeEach.
Context {K : Kernel} {A : Type}.
Implicit Types (m : gmap ptr A) (l : list ptr).

Lemma kfree_each_lookup l m m' q :
  kfree_each l m = Some m' -> m' !! q = if decide (q ∈ l) then None else m !! q.
Proof.
  revert m. induction l as [|p l IH]; intros m.
  - intros [= ->]. by rewrite decide_False by apply not_elem_of_nil.
  - simpl kfree_each. destruct (m !! p) eqn:Hp; [|done]. destruct stale_reads; [|done].
    intros H. rewrite (IH (delete p m) H), lookup_delete.
    destruct (decide (p = q)) as [<-|Hne].
    + rewrite (decide_True (P := p ∈ p :: l)) by left. by case_decide.
    + apply decide_ext. rewrite elem_of_cons. naive_solver.
Qed.

Lemma kfree_each_some l m :
  stale_reads = true -> NoDup l -> (forall p, p ∈ l -> is_Some (m !! p)) ->
  is_Some (kfree_each l m).
Proof.
  intros Hstale Hnd. revert m. induction Hnd as [|p l Hp Hnd IH]; intros m Hall; simpl; [eauto|].
  destruct (Hall p) as [a ->]; [left|]. rewrite Hstale. apply IH.
  intros q Hq. rewrite lookup_delete_ne; [apply Hall; by right|set_solver].
Qed.

Lemma kfree_each_stale l m : stale_reads = false -> l <> [] -> kfree_each l m = None.
Proof. intros Hs. destruct l; [done|]. simpl. rewrite Hs. by destruct (m !! p). Qed.
End FreeEach.

(** ** The runs *)

Section KprobesRuns.
Context {K : Kernel} {KOk : KernelOk K}.

Lemma free_process_run s p P :
  s.(process_heap) !! p = Some P ->
  free_process p s =
    Some (tt, set_process_heap (delete p s.(process_heap))
                (set_processes (hash_del_rcu s.(processes) p) s)).
Proof. intros HP. unfold free_process, load_process. by mstep. Qed.

Lemma exit_other_run s tk :
  heaps_ok s -> s.(tasks) !! s.(current) = Some tk ->
  thread_for s tk.(tgid) s.(current) = None ->
  exit_cleanup s = Some (0, s).
Proof.
  intros Hok Htk Hnone. destruct s. unfold exit_cleanup, current_task, current_pid. kproj.
  kstep. kstep. unfold thread_for in Hnone.
  destruct (process_at _ (tgid tk)) as [p|] eqn:Hp; [|done].
  apply process_at_Some in Hp as (P & HP & _); [|done]. simpl in Hnone.
  kstep. kstep. by rewrite Hnone.
Qed.

Lemma exit_detach_run s tk p P t T f F :
  heaps_ok s -> s.(tasks) !! s.(current) = Some tk ->
  process_at s tk.(tgid) = Some p -> s.(process_heap) !! p = Some P ->
  thread_at s p s.(current) = Some t -> s.(thread_heap) !! t = Some T ->
  T.(parent) = p -> T.(selected_fiber) = Some f -> s.(fiber_heap) !! f = Some F ->
  2 <= P.(active_threads) < 2 ^ 62 ->
  exit_cleanup s = Some (0, exited p t f P F tk s).
Proof.
  intros Hok Htk Hp HP Ht HT Hpar Hsel HF Hact. destruct s.
  unfold exit_cleanup, current_task, current_pid, load_thread, load_process. kproj.
  kstep. kstep. rewrite Hp. kstep. kstep. rewrite Ht. kstep. rewrite Hpar, Hsel.
  kstep. kstep. cbn [active_threads set_active_threads]. rewrite s64_small by lia.
  replace (active_threads P - 1 =? 0) with false by lia.
  unfold release_fiber, current_task, preempt_enable, preempt_disable.
  repeat rewrite mthen_assoc; repeat (kstep; repeat rewrite mthen_assoc).
  unfold mret, exited, process_without_thread. knorm.
  cbn [threads set_active_threads]. do 3 f_equal. lia.
Qed.

Lemma exit_last_run s tk p P t T fh :
  heaps_ok s -> s.(tasks) !! s.(current) = Some tk ->
  process_at s tk.(tgid) = Some p -> s.(process_heap) !! p = Some P ->
  thread_at s p s.(current) = Some t -> s.(thread_heap) !! t = Some T ->
  T.(parent) = p -> P.(active_threads) = 1 ->
  kfree_each (hash_each P.(fibers)) s.(fiber_heap) = Some fh ->
  exit_cleanup s = Some (0, without_process p (delete t s.(thread_heap)) fh s).
Proof.
  intros Hok Htk Hp HP Ht HT Hpar Hact Hfree. destruct s.
  unfold exit_cleanup, current_task, current_pid, load_thread, load_process. kproj.
  kstep. kstep. rewrite Hp. kstep. kstep. rewrite Ht. kstep. rewrite Hpar.
  kstep. kstep. cbn [active_threads set_active_threads]. rewrite Hact.
  replace (s64 (1 - 1) =? 0) with true by done.
  erewrite (mthen_eq _ _ _ tt) by (by destruct (selected_fiber T)).
  do 4 kstep.
  unfold kfree_fibers. cbn [fibers set_threads set_active_threads].
  unfold mthen at 1. knorm. rewrite Hfree.
  erewrite mthen_eq by (eapply free_process_run; klook).
  unfold mret, without_process. knorm. by rewrite delete_insert_eq.
Qed.

(** When the link of a freed fiber is lost, so is the run. *)
Lemma exit_last_stale s tk p P t T :
  heaps_ok s -> s.(tasks) !! s.(current) = Some tk ->
  process_at s tk.(tgid) = Some p -> s.(process_heap) !! p = Some P ->
  thread_at s p s.(current) = Some t -> s.(thread_heap) !! t = Some T ->
  T.(parent) = p -> P.(active_threads) = 1 ->
  kfree_each (hash_each P.(fibers)) s.(fiber_heap) = None ->
  exit_cleanup s = None.
Proof.
  intros Hok Htk Hp HP Ht HT Hpar Hact Hfree. destruct s.
  unfold exit_cleanup, current_task, current_pid, load_thread, load_process. kproj.
  kstep. kstep. rewrite Hp. kstep. kstep. rewrite Ht. kstep. rewrite Hpar.
  kstep. kstep. cbn [active_threads set_active_threads]. rewrite Hact.
  replace (s64 (1 - 1) =? 0) with true by done.
  erewrite (mthen_eq _ _ _ tt) by (by destruct (selected_fiber T)).
  do 4 kstep. apply mthen_None.
  unfold kfree_fibers. cbn [fibers set_threads set_active_threads]. knorm. by rewrite Hfree.
Qed.

(** *** [process_cleanup] *)

Lemma cleanup_stale s tk p P :
  heaps_ok s -> s.(tasks) !! s.(current) = Some tk ->
  process_at s tk.(tgid) = Some p -> s.(process_heap) !! p = Some P ->
  kfree_each (hash_each P.(threads)) s.(thread_heap) = None \/
  kfree_each (hash_each P.(fibers)) s.(fiber_heap) = None ->
  process_cleanup s = None.
Proof.
  intros Hok Htk Hp HP Hnone. destruct s.
  unfold process_cleanup, current_task, load_process, kfree_threads, kfree_fibers. kproj.
  kstep. kstep. rewrite Hp. kstep.
  destruct (kfree_each (hash_each (threads P)) thread_heap) eqn:Hth.
  - destruct Hnone as [|Hfh]; [done|].
    unfold mthen at 1. knorm. rewrite Hth. kstep. apply mthen_None. knorm. by rewrite Hfh.
  - apply mthen_None. knorm. by rewrite Hth.
Qed.

Lemma cleanup_other_run s tk :
  heaps_ok s -> s.(tasks) !! s.(current) = Some tk -> process_at s tk.(tgid) = None ->
  process_cleanup s = Some (0, s).
Proof.
  intros Hok Htk Hp. unfold process_cleanup, current_task. kstep. kstep. by rewrite Hp.
Qed.

Lemma cleanup_run s tk p P th fh :
  heaps_ok s -> s.(tasks) !! s.(current) = Some tk ->
  process_at s tk.(tgid) = Some p -> s.(process_heap) !! p = Some P ->
  kfree_each (hash_each P.(threads)) s.(thread_heap) = Some th ->
  kfree_each (hash_each P.(fibers)) s.(fiber_heap) = Some fh ->
  process_cleanup s = Some (0, without_process p th fh s).
Proof.
  intros Hok Htk Hp HP Hth Hfh. destruct s.
  unfold process_cleanup, current_task, load_process, kfree_threads, kfree_fibers. kproj.
  kstep. kstep. rewrite Hp. kstep.
  unfold mthen at 1. knorm. rewrite Hth. kstep.
  unfold mthen at 1. knorm. rewrite Hfh.
  erewrite mthen_eq by (eapply free_process_run; klook).
  unfold mret, without_process. by knorm.
Qed.

(** *** [fiber_timer] *)

Lemma end_not_our_fiber_run s : end_not_our_fiber s = Some (0, timed s).
Proof.
  destruct s. unfold end_not_our_fiber, preempt_enable, preempt_disable, timed, mret.
  repeat kstep. do 3 f_equal. lia.
Qed.

(** The previous task ran no fiber of a process of the module. *)
Lemma timer_idle_run s :
  heaps_ok s ->
  (s.(prev_task) = None \/
   exists pid tk, s.(prev_task) = Some pid /\ s.(tasks) !! pid = Some tk /\
                  process_at s tk.(tgid) = None) ->
  fiber_timer s = Some (0, timed s).
Proof.
  intros Hok Hcase. destruct s. unfold fiber_timer, preempt_enable, preempt_disable, load_task.
  kproj. destruct Hcase as [->|(pid & tk & -> & Htk & Hp)].
  - kstep. kstep. kstep. rewrite end_not_our_fiber_run. unfold timed. knorm.
    do 3 f_equal. lia.
  - kstep. kstep. kstep. kstep. unfold process_at in *. kproj. rewrite Hp. kstep.
    rewrite end_not_our_fiber_run. unfold timed. knorm. do 3 f_equal. lia.
Qed.

(** The structure of the previous task has been freed. *)
Lemma timer_wild_run s pid :
  s.(prev_task) = Some pid -> s.(tasks) !! pid = None -> fiber_timer s = None.
Proof.
  intros Hprev Htk. destruct s. unfold fiber_timer, preempt_disable, load_task. kproj. subst.
  kstep. kstep. apply mthen_None. unfold mderef. knorm. by rewrite Htk.
Qed.

(** The previous task is not converted although its process is: the
    preemption counter is left one higher. *)
Lemma timer_unconverted_run s pid tk p P :
  heaps_ok s -> s.(prev_task) = Some pid -> s.(tasks) !! pid = Some tk ->
  process_at s tk.(tgid) = Some p -> s.(process_heap) !! p = Some P ->
  thread_at s p pid = None ->
  fiber_timer s = Some (0, timed (set_preempt_count (s.(preempt_count) + 1) s)).
Proof.
  intros Hok Hprev Htk Hp HP Ht. destruct s.
  unfold fiber_timer, preempt_enable, preempt_disable, load_task. kproj. subst.
  kstep. kstep. kstep. kstep. unfold process_at, thread_at in *. kproj. rewrite Hp.
  kstep. unfold thread_at. kproj. rewrite HP in *. simpl in *. rewrite Ht.
  rewrite end_not_our_fiber_run. unfold timed. by knorm.
Qed.

Lemma timer_fiber_run s pid tk p P t T f F :
  heaps_ok s -> s.(prev_task) = Some pid -> s.(tasks) !! pid = Some tk ->
  process_at s tk.(tgid) = Some p -> s.(process_heap) !! p = Some P ->
  thread_at s p pid = Some t -> s.(thread_heap) !! t = Some T ->
  T.(selected_fiber) = Some f -> s.(fiber_heap) !! f = Some F ->
  fiber_timer s =
    Some (0, timed (set_fiber_heap
               (<[f := set_total_time (u64 (F.(total_time) + tk.(utime))) F]> s.(fiber_heap)) s)).
Proof.
  intros Hok Hprev Htk Hp HP Ht HT Hsel HF. destruct s.
  unfold fiber_timer, preempt_enable, preempt_disable, load_task, load_thread. kproj. subst.
  kstep. kstep. kstep. kstep. unfold process_at, thread_at in *. kproj. rewrite Hp.
  kstep. unfold thread_at. kproj. rewrite HP in *. simpl in *. rewrite Ht.
  kstep. rewrite Hsel. kstep. kstep. rewrite end_not_our_fiber_run. unfold timed. knorm.
  do 3 f_equal. lia.
Qed.
End KprobesRuns.
