(* ===== verification/Safety.v ===== *)
(** * Preservation of well-formedness

    Every change the handlers make to the objects keeps the state well formed
    and raises the number of fiber ids given out by at most one. *)

From S2P Require Import Prelude Kernel State CStr Fibers Heap Runs Kprobes.

Section Preserve.
Context {K : Kernel} {KOk : KernelOk K}.

(** *** States that differ outside the module *)

Definition same_module (s s' : kstate) : Prop :=
  s'.(processes) = s.(processes) /\
  s'.(struct_process_lock) = s.(struct_process_lock) /\
  s'.(process_heap) = s.(process_heap) /\
  s'.(thread_heap) = s.(thread_heap) /\
  s'.(fiber_heap) = s.(fiber_heap).

#[export] Instance same_module_equivalence : Equivalence same_module.
Proof.
  unfold same_module. split.
  - done.
  - intros s s' (? & ? & ? & ? & ?). done.
  - intros s s' s'' (? & ? & ? & ? & ?) (? & ? & ? & ? & ?). split_and!; congruence.
Qed.

#[export] Instance wf_proper : Proper (same_module ==> iff) wf.
Proof.
  assert (forall s s', same_module s s' -> wf s -> wf s') as H.
  { intros s s' (H1 & H2 & H3 & H4 & H5) [].
    split; rewrite ?H1, ?H2, ?H3, ?H4, ?H5; done. }
  intros s s' Hs. split; apply H; done.
Qed.

#[export] Instance ids_below_proper n : Proper (same_module ==> iff) (ids_below n).
Proof.
  intros s s' (H1 & H2 & H3 & H4 & H5). unfold ids_below. by rewrite H3.
Qed.

Lemma ids_below_mono n m s : n <= m -> ids_below n s -> ids_below m s.
Proof. intros ? H p P HP. specialize (H p P HP). lia. Qed.

(** *** [get_process] *)

Lemma wf_lock_cycled s : wf s -> wf (lock_cycled s).
Proof. intros []. split; [apply spin_unlock_free|done..]. Qed.

Lemma wf_new_process s p g :
  wf s -> s.(process_heap) !! p = None -> process_at s g = None -> wf (new_process p g s).
Proof.
  intros [Hl Hok Hr Ha] Hp Hg. split; simpl; [done| |done|].
  - apply heap_ok_add_process; [done..|]. by rewrite process_at_None in Hg by done.
  - intros q Q [[<- <-]|[? ?]]%lookup_insert_Some; [done|eauto].
Qed.

Lemma ids_below_new_process n s p g :
  0 <= n -> ids_below n s -> ids_below n (new_process p g s).
Proof. intros ? H q Q; simpl; intros [[<- <-]|[? ?]]%lookup_insert_Some; [done|eauto]. Qed.

(** *** New threads and fibers *)

Lemma replicate_fls : Z.of_nat (length (replicate (Z.to_nat MAX_FLS_POINTERS) 0)) = MAX_FLS_POINTERS.
Proof. rewrite length_replicate. done. Qed.

Lemma fresh_fiber_new p id ss s_ptr pid tk : new_fiber p id (fresh_fiber p id ss s_ptr pid tk).
Proof. split; [apply spin_unlocked_free|done..|apply replicate_fls]. Qed.

Lemma last_fiber_id_nonneg s p P :
  wf s -> s.(process_heap) !! p = Some P -> 0 <= P.(last_fiber_id).
Proof.
  intros Hwf HP. destruct (ho_process _ _ _ _ (wf_heap _ Hwf) p P HP) as [_ _ _ H _]. lia.
Qed.

Lemma active_threads_nonneg s p P :
  wf s -> s.(process_heap) !! p = Some P -> 0 <= P.(active_threads).
Proof.
  intros Hwf HP. destruct (ho_process _ _ _ _ (wf_heap _ Hwf) p P HP) as [_ _ H _ _]. lia.
Qed.

Lemma wf_created s p P f sp sz fn param tk :
  wf s -> s.(process_heap) !! p = Some P -> s.(fiber_heap) !! f = None ->
  wf (created p f P sp sz fn param tk s).
Proof.
  intros [Hl Hok Hr Ha] HP Hf. split; simpl; [done| |done|].
  - apply heap_ok_add_fiber; [done..|]. split; simpl; [apply spin_unlocked_free|done..|apply replicate_fls].
  - intros q Q [[<- <-]|[? ?]]%lookup_insert_Some; [|eauto].
    simpl. specialize (Ha p P HP). lia.
Qed.

Lemma ids_below_created n s p P f sp sz fn param tk :
  ids_below n s -> s.(process_heap) !! p = Some P ->
  ids_below (n + 1) (created p f P sp sz fn param tk s).
Proof.
  intros H HP q Q; simpl; intros [[<- <-]|[? HQ]]%lookup_insert_Some.
  - simpl. specialize (H p P HP). lia.
  - specialize (H q Q HQ). lia.
Qed.

Lemma first_fiber_same t p id pid tk :
  same_fiber (fresh_fiber p id (-1) 0 pid tk) (first_fiber t p id pid tk).
Proof. done. Qed.

Lemma wf_converted s p t f P tid tk :
  wf s -> s.(process_heap) !! p = Some P -> thread_at s p tid = None ->
  s.(thread_heap) !! t = None -> s.(fiber_heap) !! f = None ->
  wf (converted p t f P tid tk s).
Proof.
  intros [Hl Hok Hr Ha] HP Htid Ht Hf.
  pose proof (heap_ok_add_thread _ _ _ _ p P t tid Hok HP Ht) as Hok1.
  rewrite thread_at_None in Htid by done. specialize (Hok1 Htid).
  eapply heap_ok_add_fiber in Hok1; [|apply lookup_insert_eq|exact Hf|apply fresh_fiber_new].
  rewrite insert_insert_eq in Hok1.
  eapply heap_ok_attach in Hok1;
    [|apply lookup_insert_eq|apply lookup_insert_eq|done|done|done|done| | |].
  - rewrite !insert_insert_eq in Hok1. split; simpl; [done|exact Hok1| |].
    + intros u U [[<- <-]|[? ?]]%lookup_insert_Some; [done|eauto].
    + intros q Q [[<- <-]|[? ?]]%lookup_insert_Some; [|eauto].
      simpl. specialize (Ha p P HP). lia.
  - apply first_fiber_same.
  - done.
  - apply spin_trylock_locks.
Qed.

Lemma ids_below_converted n s p t f P tid tk :
  ids_below n s -> s.(process_heap) !! p = Some P ->
  ids_below (n + 1) (converted p t f P tid tk s).
Proof.
  intros H HP q Q; simpl; intros [[<- <-]|[? HQ]]%lookup_insert_Some.
  - simpl. specialize (H p P HP). lia.
  - specialize (H q Q HQ). lia.
Qed.

(** *** Switches *)

Lemma same_fiber_enter t F : same_fiber F (enter_fiber t F).
Proof. done. Qed.
Lemma same_fiber_leave tk F : same_fiber F (leave_fiber tk F).
Proof. done. Qed.

(** A fiber a thread runs is allocated, attached to the thread and locked. *)
Lemma selected_fiber_ok s t T f :
  wf s -> s.(thread_heap) !! t = Some T -> T.(selected_fiber) = Some f ->
  exists F, s.(fiber_heap) !! f = Some F /\ F.(attached_thread) = Some t /\
    F.(parent_process) = T.(parent) /\ spin_is_locked F.(fiber_lock) = true.
Proof.
  intros Hwf HT Hsel.
  destruct (ho_thread _ _ _ _ (wf_heap _ Hwf) t T HT) as [_ H].
  destruct (H f Hsel) as (F & HF & HA & HO). exists F.
  destruct (ho_fiber _ _ _ _ (wf_heap _ Hwf) f F HF) as [_ _ Hlock _ _].
  by rewrite Hlock, HA.
Qed.

Lemma locked_attached s f F :
  wf s -> s.(fiber_heap) !! f = Some F ->
  spin_is_locked F.(fiber_lock) = bool_decide (F.(attached_thread) <> None).
Proof. intros Hwf HF. apply (ho_fiber _ _ _ _ (wf_heap _ Hwf) f F HF). Qed.

Lemma wf_switched s t T prev f Pv F tk :
  wf s -> s.(thread_heap) !! t = Some T -> T.(selected_fiber) = Some prev ->
  s.(fiber_heap) !! prev = Some Pv -> s.(fiber_heap) !! f = Some F ->
  F.(attached_thread) = None -> fiber_of T.(parent) F -> prev <> f ->
  wf (switched t T prev f Pv F tk s).
Proof.
  intros [Hl Hok Hr Ha] HT Hsel HPv HF Hatt Hof Hne.
  eapply heap_ok_detach in Hok; [|exact HT|exact HPv|exact Hsel|reflexivity| | |].
  2: apply (same_fiber_leave tk).
  2: done.
  2: apply spin_unlock_free.
  eapply heap_ok_attach in Hok;
    [|apply lookup_insert_eq|rewrite lookup_insert_ne by done; exact HF|done|done|done|done
     |apply (same_fiber_enter t)|done|apply spin_trylock_locks].
  rewrite insert_insert_eq, insert_insert_ne in Hok by done.
  split; simpl; [done|exact Hok| |done].
  intros u U [[<- <-]|[? ?]]%lookup_insert_Some; [done|eauto].
Qed.

Lemma wf_fiber_update s f F F' :
  wf s -> s.(fiber_heap) !! f = Some F -> same_fiber F F' ->
  F'.(attached_thread) = F.(attached_thread) ->
  spin_is_locked F'.(fiber_lock) = spin_is_locked F.(fiber_lock) ->
  wf (set_fiber_heap (<[f := F']> s.(fiber_heap)) s).
Proof. intros [Hl Hok Hr Ha] HF. split; simpl; [done| |done..]. by eapply heap_ok_fiber. Qed.

Lemma wf_refused s f F :
  wf s -> s.(fiber_heap) !! f = Some F -> spin_is_locked F.(fiber_lock) = true ->
  wf (refused f F s).
Proof.
  intros Hwf HF Hlock. eapply wf_fiber_update; [done..|]. simpl. rewrite Hlock.
  apply spin_trylock_locks.
Qed.

(** *** Exits *)

Lemma wf_exited s p P t T f F tk :
  wf s -> s.(process_heap) !! p = Some P -> s.(thread_heap) !! t = Some T ->
  T.(parent) = p -> T.(selected_fiber) = Some f -> s.(fiber_heap) !! f = Some F ->
  wf (exited p t f P F tk s).
Proof.
  intros [Hl Hok Hr Ha] HP HT Hpar Hsel HF.
  eapply (heap_ok_detach _ _ _ _ t T f F _ (released_fiber tk F)) in Hok;
    [|done..|apply spin_unlock_free].
  eapply (heap_ok_del_thread _ _ _ _ p P t) in Hok; [|done|apply lookup_insert_eq|done|done].
  rewrite delete_insert_eq in Hok. split; simpl; [done|exact Hok| |].
  - intros u U [? ?]%lookup_delete_Some. eauto.
  - intros q Q [[<- <-]|[? ?]]%lookup_insert_Some; [|eauto].
    simpl. specialize (Ha p P HP). lia.
Qed.

Lemma wf_without_process s p P th fh :
  wf s -> s.(process_heap) !! p = Some P ->
  (forall t T, th !! t = Some T <-> s.(thread_heap) !! t = Some T /\ ~ thread_of p T) ->
  (forall f F, fh !! f = Some F <-> s.(fiber_heap) !! f = Some F /\ ~ fiber_of p F) ->
  wf (without_process p th fh s).
Proof.
  intros [Hl Hok Hr Ha] HP Hth Hfh. split; simpl.
  - done.
  - by eapply heap_ok_del_process.
  - intros t T [HT _]%Hth. eauto.
  - intros q Q [? ?]%lookup_delete_Some. eauto.
Qed.

(** Freeing the objects of a table leaves those that do not belong to it. *)
Lemma kfree_each_owned {A} h (m m' : gmap ptr A) key own q a :
  table_ok h m key own -> kfree_each (hash_each h) m = Some m' ->
  m' !! q = Some a <-> m !! q = Some a /\ ~ own a.
Proof.
  intros Hok Hm. rewrite (kfree_each_lookup _ _ _ q Hm).
  case_decide as Hq; rewrite (tbl_elem _ _ _ _ Hok) in Hq.
  - split; [done|]. destruct Hq as (b & Hb & Hown). intros [? ?]. by simplify_eq.
  - split; [|tauto]. intros Ha. split; [done|]. intros Hown. apply Hq. eauto.
Qed.

(** With one active thread, that thread is the only one of its process. *)
Lemma last_thread s p P t T u U :
  wf s -> s.(process_heap) !! p = Some P -> P.(active_threads) = 1 ->
  s.(thread_heap) !! t = Some T -> thread_of p T ->
  s.(thread_heap) !! u = Some U -> thread_of p U -> u = t.
Proof.
  intros Hwf HP Hact HT Ht HU Hu.
  destruct (ho_process _ _ _ _ (wf_heap _ Hwf) p P HP) as [Htbl _ Hlen _ _].
  assert (t ∈ hash_each P.(threads)) as Hint by (apply Htbl; eauto).
  assert (u ∈ hash_each P.(threads)) as Hinu by (apply Htbl; eauto).
  destruct (hash_each P.(threads)) as [|x [|y l]]; simpl in *; [lia| |lia].
  apply list_elem_of_singleton in Hint, Hinu. congruence.
Qed.

Lemma wf_exit_last s p P t T fh :
  wf s -> s.(process_heap) !! p = Some P -> P.(active_threads) = 1 ->
  s.(thread_heap) !! t = Some T -> T.(parent) = p ->
  kfree_each (hash_each P.(fibers)) s.(fiber_heap) = Some fh ->
  wf (without_process p (delete t s.(thread_heap)) fh s).
Proof.
  intros Hwf HP Hact HT Hpar Hfree.
  destruct (ho_process _ _ _ _ (wf_heap _ Hwf) p P HP) as [_ Hfib _ _ _].
  eapply wf_without_process; [done..| |].
  - intros u U. rewrite lookup_delete_Some. split.
    + intros [Hne HU]. split; [done|]. intros Hof. apply Hne. symmetry. by eapply last_thread.
    + intros [HU Hof]. split; [|done]. intros <-. simplify_eq. done.
  - intros f F. by eapply kfree_each_owned.
Qed.

Lemma wf_cleanup s p P th fh :
  wf s -> s.(process_heap) !! p = Some P ->
  kfree_each (hash_each P.(threads)) s.(thread_heap) = Some th ->
  kfree_each (hash_each P.(fibers)) s.(fiber_heap) = Some fh ->
  wf (without_process p th fh s).
Proof.
  intros Hwf HP Hth Hfh.
  destruct (ho_process _ _ _ _ (wf_heap _ Hwf) p P HP) as [Hthr Hfib _ _ _].
  eapply wf_without_process; [done..| |]; intros; by eapply kfree_each_owned.
Qed.

Lemma ids_below_without_process n s p th fh :
  ids_below n s -> ids_below n (without_process p th fh s).
Proof. intros H q Q; simpl; intros [? ?]%lookup_delete_Some. eauto. Qed.

Lemma wf_timed s : wf s -> wf (timed s).
Proof. by intros []. Qed.
End Preserve.
