(* ===== verification/Fls.v ===== *)
(** * Fiber local storage

    The contract of the storage is a partial map from slot indices to values
    with four operations ([fls_step]).  A fiber implements it with a bitmap and
    an array; [slots] is the map a fiber stands for.  The operations of
    [module/fibers.c] are run exactly, and refine the contract. *)

From S2P Require Import Prelude Kernel State CStr Fibers Heap Runs Kprobes Safety.

(** ** The contract *)

Inductive fls_op := FlsAlloc | FlsFree (index : Z) | FlsGetValue (index : Z)
                  | FlsSetValue (index value : Z).

#[export] Instance fls_op_eq_dec : EqDecision fls_op.
Proof. solve_decision. Defined.

(** [fls_step op r m m']: [op] on the slots [m] returns [r] and leaves [m'].
    An allocation takes the least free index and leaves some value in it. *)
Inductive fls_step : fls_op -> Z -> gmap Z Z -> gmap Z Z -> Prop :=
  | step_alloc m i v :
      0 <= i < MAX_FLS_POINTERS -> m !! i = None ->
      (forall j, 0 <= j < i -> is_Some (m !! j)) ->
      fls_step FlsAlloc i m (<[i := v]> m)
  | step_alloc_full m :
      (forall j, 0 <= j < MAX_FLS_POINTERS -> is_Some (m !! j)) ->
      fls_step FlsAlloc (-1) m m
  | step_free m i v : m !! i = Some v -> fls_step (FlsFree i) 1 m (delete i m)
  | step_free_none m i : m !! i = None -> fls_step (FlsFree i) 0 m m
  | step_get m i v : m !! i = Some v -> fls_step (FlsGetValue i) v m m
  | step_get_none m i : m !! i = None -> fls_step (FlsGetValue i) (-1) m m
  | step_set m i v w : m !! i = Some w -> fls_step (FlsSetValue i v) 0 m (<[i := v]> m)
  | step_set_none m i v : m !! i = None -> fls_step (FlsSetValue i v) 0 m m.

#[export] Hint Constructors fls_step : fibers.

Lemma fls_step_alloc_inv r m m' :
  fls_step FlsAlloc r m m' ->
  (0 <= r < MAX_FLS_POINTERS /\ m !! r = None /\ (forall j, 0 <= j < r -> is_Some (m !! j)) /\
   exists v, m' = <[r := v]> m) \/
  (r = -1 /\ m' = m /\ forall j, 0 <= j < MAX_FLS_POINTERS -> is_Some (m !! j)).
Proof. inversion 1; subst; [left|right]; eauto. Qed.

(** An operation that neither frees nor sets slot [i] keeps its value. *)
Lemma fls_step_keeps op r m m' i v :
  fls_step op r m m' -> m !! i = Some v -> op <> FlsFree i -> (forall u, op <> FlsSetValue i u) ->
  m' !! i = Some v.
Proof.
  intros Hs Hv Hfree Hset. destruct Hs as [m j w ? Hnone| |m j w| | | |m j w| ]; try done.
  - rewrite lookup_insert_ne by congruence. done.
  - rewrite lookup_delete_ne by congruence. done.
  - rewrite lookup_insert_ne by congruence. done.
Qed.

Section Fls.
Context {K : Kernel}.

(** ** The map a fiber stands for *)

Definition slot (F : fiber) (i : Z) : option Z :=
  if bad_index i then None
  else if test_bit i F.(fls_bitmap) then F.(fls) !! Z.to_nat i else None.

Definition slots (F : fiber) : gmap Z Z :=
  list_to_map (omap (fun i => v ← slot F i; Some (i, v)) (seqZ 0 MAX_FLS_POINTERS)).

(** The handlers with the result the system call returns. *)
Definition run_fls (op : fls_op) (thread_id : Z) : kM Z :=
  match op with
  | FlsAlloc => do_FlsAlloc thread_id
  | FlsFree i => let! b := do_FlsFree i thread_id in mret (Z.b2z b)
  | FlsGetValue i => do_FlsGetValue i thread_id
  | FlsSetValue i v => do! do_FlsSetValue i v thread_id; mret 0
  end.

(** What the operations do to the fiber. *)
Definition apply_fls (op : fls_op) (F : fiber) : Z * fiber :=
  match op with
  | FlsAlloc =>
      let i := find_first_zero_bit F.(fls_bitmap) MAX_FLS_POINTERS in
      if i =? MAX_FLS_POINTERS then (-1, F)
      else (i, set_fls_bitmap (change_bit i F.(fls_bitmap)) F)
  | FlsFree i =>
      match slot F i with
      | Some _ => (1, set_fls_bitmap (change_bit i F.(fls_bitmap)) F)
      | None => (0, F)
      end
  | FlsGetValue i => (default (-1) (slot F i), F)
  | FlsSetValue i v =>
      match slot F i with
      | Some _ => (0, set_fls (<[Z.to_nat i := v]> F.(fls)) F)
      | None => (0, F)
      end
  end.

Lemma bad_index_false i : bad_index i = false <-> 0 <= i < MAX_FLS_POINTERS.
Proof. unfold bad_index. lia. Qed.

Lemma bad_index_true i : bad_index i = true <-> ~ (0 <= i < MAX_FLS_POINTERS).
Proof. unfold bad_index. lia. Qed.

Lemma slots_lookup F i : slots F !! i = slot F i.
Proof.
  unfold slots. destruct (slot F i) as [v|] eqn:E.
  - apply elem_of_list_to_map_1'.
    + intros w [j [H1 H2]]%list_elem_of_omap.
      destruct (slot F j) eqn:Ej; simpl in *; simplify_eq. done.
    + apply list_elem_of_omap. exists i. split; [|by rewrite E].
      apply elem_of_seqZ. unfold slot in E. destruct (bad_index i) eqn:Eb; [done|].
      apply bad_index_false in Eb. lia.
  - apply not_elem_of_list_to_map_1. rewrite list_elem_of_fmap.
    intros ([j w] & -> & [k [H1 H2]]%list_elem_of_omap). simpl in E.
    destruct (slot F k) eqn:Ek; simpl in *; simplify_eq.
Qed.

Context {KOk : KernelOk K}.

Definition fls_sized (F : fiber) : Prop := Z.of_nat (length F.(fls)) = MAX_FLS_POINTERS.

Lemma slot_bit F i :
  fls_sized F -> 0 <= i < MAX_FLS_POINTERS ->
  is_Some (slot F i) <-> test_bit i F.(fls_bitmap) = true.
Proof.
  intros Hlen Hi. unfold slot. apply bad_index_false in Hi as Hb. rewrite Hb.
  destruct (lookup_Z_Some F.(fls) i) as [v Hv]; [unfold fls_sized in *; lia|].
  destruct (test_bit i F.(fls_bitmap)); [|by split; [intros []|]].
  split; [done|]. rewrite Hv. eauto.
Qed.

Lemma slot_none_bit F i :
  fls_sized F -> 0 <= i < MAX_FLS_POINTERS -> test_bit i F.(fls_bitmap) = false -> slot F i = None.
Proof.
  intros Hlen Hi Ht. apply eq_None_not_Some. rewrite slot_bit by done. congruence.
Qed.

Lemma slot_range F i v : slot F i = Some v -> 0 <= i < MAX_FLS_POINTERS.
Proof. unfold slot. intros H. apply bad_index_false. by destruct (bad_index i). Qed.

(** Flipping a bit opens or closes one slot. *)
Lemma slot_change_other F i j :
  0 <= i < MAX_FLS_POINTERS -> i <> j ->
  slot (set_fls_bitmap (change_bit i F.(fls_bitmap)) F) j = slot F j.
Proof.
  intros Hi Hne. unfold slot. simpl. destruct (bad_index j) eqn:Eb; [done|].
  apply bad_index_false in Eb. by rewrite change_bit_other by lia.
Qed.

Lemma slot_change_same F i :
  0 <= i < MAX_FLS_POINTERS ->
  slot (set_fls_bitmap (change_bit i F.(fls_bitmap)) F) i =
    if test_bit i F.(fls_bitmap) then None else F.(fls) !! Z.to_nat i.
Proof.
  intros Hi. unfold slot. simpl. pose proof Hi as Hb. apply bad_index_false in Hb. rewrite Hb.
  rewrite change_bit_same by lia. by destruct (test_bit i _).
Qed.

Lemma slot_set F i j v :
  fls_sized F -> is_Some (slot F i) ->
  slot (set_fls (<[Z.to_nat i := v]> F.(fls)) F) j = if decide (i = j) then Some v else slot F j.
Proof.
  intros Hlen [w Hw]. apply slot_range in Hw as Hi.
  assert (test_bit i F.(fls_bitmap) = true) as Ht by (apply slot_bit; eauto).
  unfold slot. simpl. destruct (bad_index j) eqn:Eb.
  - case_decide; [|done]. subst. apply bad_index_true in Eb. lia.
  - apply bad_index_false in Eb. unfold fls_sized in *.
    rewrite list_lookup_insert_Z by lia. case_decide; [|done]. subst. by rewrite Ht.
Qed.

(** The operations refine the contract. *)
Lemma apply_fls_refines op F :
  fls_sized F ->
  fls_step op (apply_fls op F).1 (slots F) (slots (apply_fls op F).2) /\
  same_fiber F (apply_fls op F).2 /\
  (apply_fls op F).2.(attached_thread) = F.(attached_thread) /\
  (apply_fls op F).2.(fiber_lock) = F.(fiber_lock).
Proof.
  intros Hlen. destruct op as [|i|i|i v]; simpl.
  - pose proof (find_first_zero_range F.(fls_bitmap) MAX_FLS_POINTERS ltac:(done)) as Hr.
    pose proof (fun i => find_first_zero_least F.(fls_bitmap) MAX_FLS_POINTERS i ltac:(done)) as Hleast.
    pose proof (find_first_zero_free F.(fls_bitmap) MAX_FLS_POINTERS ltac:(done)) as Hfree.
    destruct (Z.eqb_spec (find_first_zero_bit F.(fls_bitmap) MAX_FLS_POINTERS) MAX_FLS_POINTERS) as [E|E];
      simpl; (split; [|done]).
    + constructor. intros j Hj. rewrite slots_lookup, slot_bit by done. apply Hleast. lia.
    + set (i := find_first_zero_bit F.(fls_bitmap) MAX_FLS_POINTERS) in *.
      destruct (lookup_Z_Some F.(fls) i) as [v Hv]; [unfold fls_sized in *; lia|].
      assert (slots (set_fls_bitmap (change_bit i F.(fls_bitmap)) F) = <[i := v]> (slots F)) as ->.
      { apply map_eq. intros j. rewrite slots_lookup. destruct (decide (i = j)) as [<-|].
        - rewrite lookup_insert_eq, slot_change_same by lia. by rewrite Hfree by lia.
        - rewrite lookup_insert_ne, slots_lookup by done. apply slot_change_other; lia. }
      constructor; [lia| |].
      * rewrite slots_lookup. apply slot_none_bit; [done|lia|]. apply Hfree. lia.
      * intros j Hj. rewrite slots_lookup, slot_bit by (done || lia). by apply Hleast.
  - destruct (slot F i) as [v|] eqn:E; simpl; (split; [|done]).
    + apply slot_range in E as Hi.
      assert (test_bit i F.(fls_bitmap) = true) as Ht by (apply slot_bit; eauto).
      assert (slots (set_fls_bitmap (change_bit i F.(fls_bitmap)) F) = delete i (slots F)) as ->.
      { apply map_eq. intros j. rewrite slots_lookup. destruct (decide (i = j)) as [<-|].
        - by rewrite lookup_delete_eq, slot_change_same, Ht by lia.
        - rewrite lookup_delete_ne, slots_lookup by done. by apply slot_change_other. }
      econstructor. by rewrite slots_lookup.
    + constructor. by rewrite slots_lookup.
  - split; [|done]. destruct (slot F i) as [v|] eqn:E; simpl; constructor; by rewrite slots_lookup.
  - destruct (slot F i) as [w|] eqn:E; simpl.
    + split.
      * assert (slots (set_fls (<[Z.to_nat i := v]> F.(fls)) F) = <[i := v]> (slots F)) as ->.
        { apply map_eq. intros j. rewrite slots_lookup, slot_set by eauto.
          rewrite lookup_insert, slots_lookup. done. }
        econstructor. by rewrite slots_lookup.
      * split_and!; [|done|done]. unfold same_fiber. simpl. by rewrite length_insert.
    + split; [|done]. constructor. by rewrite slots_lookup.
Qed.

(** ** The runs *)

Lemma fls_fiber_run s tk tid :
  heaps_ok s -> s.(tasks) !! s.(current) = Some tk ->
  fls_fiber tid s = Some (running s tk.(tgid) tid, s).
Proof.
  intros Hok Htk. unfold fls_fiber, current_task, running, thread_for.
  mstep. erewrite mthen_eq by (by apply find_process_run).
  destruct (process_at s (tgid tk)) as [p|] eqn:Hp; [|done].
  apply process_at_Some in Hp as (P & HP & _); [|done]. simpl.
  erewrite mthen_eq by (by eapply find_thread_run).
  destruct (thread_at s p tid) as [t|] eqn:Ht; [|done].
  apply (thread_at_Some _ _ P) in Ht as (T & HT & _); [|done..].
  unfold load_thread. mstep. simpl. by rewrite HT.
Qed.

(** No fiber: the operation fails and changes nothing. *)
Definition fls_failure (op : fls_op) : Z :=
  match op with FlsAlloc | FlsGetValue _ => -1 | FlsFree _ | FlsSetValue _ _ => 0 end.

Lemma run_fls_none op s tk tid :
  heaps_ok s -> s.(tasks) !! s.(current) = Some tk -> running s tk.(tgid) tid = None ->
  run_fls op tid s = Some (fls_failure op, s).
Proof.
  intros Hok Htk Hnone.
  destruct op; simpl;
    unfold do_FlsAlloc, do_FlsFree, do_FlsGetValue, do_FlsSetValue, mthen, mret;
    by rewrite (fls_fiber_run s tk), Hnone.
Qed.

Lemma set_fiber_heap_id s f F :
  s.(fiber_heap) !! f = Some F -> set_fiber_heap (<[f := F]> s.(fiber_heap)) s = s.
Proof. intros H. destruct s. unfold set_fiber_heap. simpl in *. by rewrite insert_id. Qed.

Lemma run_fls_some op s tk tid f F :
  heaps_ok s -> s.(tasks) !! s.(current) = Some tk -> running s tk.(tgid) tid = Some f ->
  s.(fiber_heap) !! f = Some F ->
  run_fls op tid s =
    Some ((apply_fls op F).1, set_fiber_heap (<[f := (apply_fls op F).2]> s.(fiber_heap)) s).
Proof.
  intros Hok Htk Hf HF.
  destruct (ho_fiber _ _ _ _ Hok f F HF) as [[P HP] Hlen _ _ _].
  pose proof (fls_fiber_run s tk tid Hok Htk) as Hrun. rewrite Hf in Hrun.
  assert (forall i, 0 <= i < MAX_FLS_POINTERS -> exists v, F.(fls) !! Z.to_nat i = Some v) as Hv.
  { intros i Hi. apply lookup_Z_Some. lia. }
  destruct op as [|i|i|i v]; simpl.
  - unfold do_FlsAlloc, load_fiber, load_process. do 2 mstep.
    case_match; simpl.
    + mstep. unfold mret. by rewrite set_fiber_heap_id.
    + by erewrite mthen_eq by (by apply alter_fiber_run).
  - unfold do_FlsFree, load_fiber. rewrite mthen_assoc. mstep. unfold slot.
    destruct (bad_index i) eqn:Eb; simpl; [by rewrite set_fiber_heap_id|].
    rewrite mthen_assoc. mstep. apply bad_index_false in Eb.
    destruct (Hv i Eb) as [w ->]. destruct (test_bit i (fls_bitmap F)); simpl.
    + rewrite mthen_assoc. by erewrite mthen_eq by (by apply alter_fiber_run).
    + by rewrite set_fiber_heap_id.
  - unfold do_FlsGetValue, load_fiber. mstep. unfold slot.
    rewrite set_fiber_heap_id by done.
    destruct (bad_index i) eqn:Eb; simpl; [done|].
    mstep. apply bad_index_false in Eb. destruct (Hv i Eb) as [w Hw].
    destruct (test_bit i (fls_bitmap F)); simpl; [|done].
    rewrite Hw. simpl. apply mderef_eq. done.
  - unfold do_FlsSetValue, load_fiber. rewrite mthen_assoc. mstep. unfold slot.
    destruct (bad_index i) eqn:Eb; simpl; [by rewrite set_fiber_heap_id|].
    rewrite mthen_assoc. mstep. apply bad_index_false in Eb. destruct (Hv i Eb) as [w Hw].
    destruct (test_bit i (fls_bitmap F)); simpl.
    + rewrite mthen_assoc. mstep. rewrite Hw. by erewrite mthen_eq by (by apply alter_fiber_run).
    + by rewrite set_fiber_heap_id.
Qed.

Lemma wf_run_fls op s tk tid r s' :
  wf s -> s.(tasks) !! s.(current) = Some tk -> run_fls op tid s = Some (r, s') ->
  wf s' /\ s'.(process_heap) = s.(process_heap).
Proof.
  intros Hwf Htk Hrun. destruct (running s tk.(tgid) tid) as [f|] eqn:Hf.
  - unfold running in Hf. destruct (thread_for s (tgid tk) tid) as [t|] eqn:Ht; [|done].
    simpl in Hf. destruct (thread_heap s !! t) as [T|] eqn:HT; [|done]. simpl in Hf.
    destruct (selected_fiber_ok s t T f Hwf HT Hf) as (F & HF & _).
    erewrite run_fls_some in Hrun; [|apply Hwf|done| |done].
    + simplify_eq. pose proof (ho_fiber _ _ _ _ (wf_heap _ Hwf) f F HF) as [_ Hlen _ _ _].
      destruct (apply_fls_refines op F Hlen) as (_ & ? & ? & Hl).
      split; [|done]. eapply wf_fiber_update; [done..|by rewrite Hl].
    + unfold running. rewrite Ht. simpl. by rewrite HT.
  - erewrite run_fls_none in Hrun; [|apply Hwf|done..]. by simplify_eq.
Qed.
End Fls.

#[global] Opaque slots.
