(* ===== verification/Outcome.v ===== *)
(** * The outcome of every event

    The module reacts to events: a system call of the running task, its exit,
    the closing of the device, a task switch.  [outcome s e r s'] lists, branch
    by branch, what the handler of [e] returns and leaves in a well-formed state
    [s]; [event_outcome] and [outcome_event] show that it is exactly what the
    handlers of the source do. *)

From S2P Require Import Prelude Kernel State CStr Fibers Heap Runs Kprobes Safety Fls.

Inductive event :=
  | EConvert
  | ECreate (stack_pointer stack_size fiber_function parameters : Z)
  | ESwitch (fiber_id : Z)
  | EFls (op : fls_op)
  | EExit
  | EClose
  | ETimer.

#[export] Instance event_eq_dec : EqDecision event.
Proof. solve_decision. Defined.

Section Outcome.
Context {K : Kernel}.

(** The handlers, called by the running task. *)
Definition run_event (e : event) : kM Z :=
  let! pid := current_pid in
  match e with
  | EConvert => do_ConvertThreadToFiber pid
  | ECreate sp sz fn param => do_CreateFiber sp sz fn param pid
  | ESwitch id => do_SwitchToFiber id pid
  | EFls op => run_fls op pid
  | EExit => exit_cleanup
  | EClose => process_cleanup
  | ETimer => fiber_timer
  end.

(** The process a converting thread joins: its own, or a new one. *)
Inductive joined (s : kstate) (g : Z) : ptr -> kstate -> Prop :=
  | joined_old p : process_at s g = Some p -> joined s g p (lock_cycled s)
  | joined_new p :
      process_at s g = None -> kmalloc (dom s.(process_heap)) = Some p ->
      joined s g p (lock_cycled (new_process p g s)).

(** A task of a process that uses fibers, with its thread structure. *)
Record caller (s : kstate) (tk : task) (pid : Z) (p : ptr) (P : process) (t : ptr) (T : thread)
  : Prop := {
  ca_process : process_at s tk.(tgid) = Some p;
  ca_process_heap : s.(process_heap) !! p = Some P;
  ca_thread : thread_at s p pid = Some t;
  ca_thread_heap : s.(thread_heap) !! t = Some T
}.

Inductive task_outcome (s : kstate) (tk : task) : event -> Z -> kstate -> Prop :=
  | out_convert_again p P t T :
      caller s tk s.(current) p P t T ->
      task_outcome s tk EConvert (-1) (lock_cycled s)
  | out_convert p s1 P t f :
      joined s tk.(tgid) p s1 -> s1.(process_heap) !! p = Some P ->
      thread_at s1 p s.(current) = None ->
      kmalloc (dom s1.(thread_heap)) = Some t -> kmalloc (dom s1.(fiber_heap)) = Some f ->
      task_outcome s tk EConvert (P.(last_fiber_id) + 1) (converted p t f P s.(current) tk s1)
  | out_create_none sp sz fn param :
      thread_for s tk.(tgid) s.(current) = None ->
      task_outcome s tk (ECreate sp sz fn param) (-1) s
  | out_create sp sz fn param p P t T f :
      caller s tk s.(current) p P t T -> kmalloc (dom s.(fiber_heap)) = Some f ->
      task_outcome s tk (ECreate sp sz fn param) (P.(last_fiber_id) + 1)
        (created p f P sp sz fn param tk s)
  | out_switch_none id :
      thread_for s tk.(tgid) s.(current) = None \/ fiber_for s tk.(tgid) id = None ->
      task_outcome s tk (ESwitch id) (-1) s
  | out_switch_busy id p P t T f F u :
      caller s tk s.(current) p P t T ->
      fiber_at s p id = Some f -> s.(fiber_heap) !! f = Some F -> F.(attached_thread) = Some u ->
      task_outcome s tk (ESwitch id) (-1) (refused f F s)
  | out_switch id p P t T f F prev Pv :
      caller s tk s.(current) p P t T ->
      fiber_at s p id = Some f -> s.(fiber_heap) !! f = Some F -> F.(attached_thread) = None ->
      T.(selected_fiber) = Some prev -> s.(fiber_heap) !! prev = Some Pv ->
      task_outcome s tk (ESwitch id) 0 (switched t T prev f Pv F tk s)
  | out_fls_none op :
      running s tk.(tgid) s.(current) = None ->
      task_outcome s tk (EFls op) (fls_failure op) s
  | out_fls op f F :
      running s tk.(tgid) s.(current) = Some f -> s.(fiber_heap) !! f = Some F ->
      task_outcome s tk (EFls op) (apply_fls op F).1
        (set_fiber_heap (<[f := (apply_fls op F).2]> s.(fiber_heap)) s)
  | out_exit_other :
      thread_for s tk.(tgid) s.(current) = None -> task_outcome s tk EExit 0 s
  | out_exit p P t T f F :
      caller s tk s.(current) p P t T -> T.(selected_fiber) = Some f ->
      s.(fiber_heap) !! f = Some F -> P.(active_threads) <> 1 ->
      task_outcome s tk EExit 0 (exited p t f P F tk s)
  | out_exit_last p P t T fh :
      caller s tk s.(current) p P t T -> P.(active_threads) = 1 ->
      kfree_each (hash_each P.(fibers)) s.(fiber_heap) = Some fh ->
      task_outcome s tk EExit 0 (without_process p (delete t s.(thread_heap)) fh s)
  | out_close_other :
      process_at s tk.(tgid) = None -> task_outcome s tk EClose 0 s
  | out_close p P th fh :
      process_at s tk.(tgid) = Some p -> s.(process_heap) !! p = Some P ->
      kfree_each (hash_each P.(threads)) s.(thread_heap) = Some th ->
      kfree_each (hash_each P.(fibers)) s.(fiber_heap) = Some fh ->
      task_outcome s tk EClose 0 (without_process p th fh s).

Inductive outcome (s : kstate) : event -> Z -> kstate -> Prop :=
  | out_task tk e r s' :
      s.(tasks) !! s.(current) = Some tk -> task_outcome s tk e r s' -> outcome s e r s'
  | out_timer_first :
      s.(prev_task) = None -> outcome s ETimer 0 (timed s)
  | out_timer_other pid tk :
      s.(prev_task) = Some pid -> s.(tasks) !! pid = Some tk ->
      process_at s tk.(tgid) = None -> outcome s ETimer 0 (timed s)
  | out_timer_unconverted pid tk p P :
      s.(prev_task) = Some pid -> s.(tasks) !! pid = Some tk ->
      process_at s tk.(tgid) = Some p -> s.(process_heap) !! p = Some P ->
      thread_at s p pid = None ->
      outcome s ETimer 0 (timed (set_preempt_count (s.(preempt_count) + 1) s))
  | out_timer pid tk p P t T f F :
      s.(prev_task) = Some pid -> s.(tasks) !! pid = Some tk -> caller s tk pid p P t T ->
      T.(selected_fiber) = Some f -> s.(fiber_heap) !! f = Some F ->
      outcome s ETimer 0
        (timed (set_fiber_heap
           (<[f := set_total_time (u64 (F.(total_time) + tk.(utime))) F]> s.(fiber_heap)) s)).

Context {KOk : KernelOk K}.

Lemma run_event_eq e s :
  run_event e s =
    match e with
    | EConvert => do_ConvertThreadToFiber s.(current) s
    | ECreate sp sz fn param => do_CreateFiber sp sz fn param s.(current) s
    | ESwitch id => do_SwitchToFiber id s.(current) s
    | EFls op => run_fls op s.(current) s
    | EExit => exit_cleanup s
    | EClose => process_cleanup s
    | ETimer => fiber_timer s
    end.
Proof. by destruct e. Qed.

(** ** Case analysis on the caller *)

Lemma kmalloc_none {A} (m : gmap ptr A) p : kmalloc (dom m) = Some p -> m !! p = None.
Proof. intros H%kmalloc_fresh. by apply not_elem_of_dom. Qed.

Lemma caller_intro s tk pid t :
  wf s -> thread_for s tk.(tgid) pid = Some t -> exists p P T, caller s tk pid p P t T.
Proof.
  intros Hwf Ht. unfold thread_for in Ht.
  destruct (process_at s (tgid tk)) as [p|] eqn:Hp; [|done]. simpl in Ht.
  pose proof Hp as (P & HP & _)%process_at_Some; [|apply Hwf].
  pose proof Ht as (T & HT & _)%(thread_at_Some s p P); [|apply Hwf|done].
  exists p, P, T. by split.
Qed.

Lemma caller_thread_for s tk pid p P t T :
  caller s tk pid p P t T -> thread_for s tk.(tgid) pid = Some t.
Proof. intros [Hp _ Ht _]. unfold thread_for. by rewrite Hp. Qed.

Lemma caller_parent s tk pid p P t T :
  wf s -> caller s tk pid p P t T -> T.(parent) = p /\ T.(thread_id) = pid.
Proof.
  intros Hwf [Hp HP Ht HT]. apply (thread_at_Some s p P) in Ht as (T' & HT' & ? & ?); [|apply Hwf|done].
  by simplify_eq.
Qed.

Lemma caller_fiber s tk pid p P t T :
  wf s -> caller s tk pid p P t T ->
  exists f F, T.(selected_fiber) = Some f /\ s.(fiber_heap) !! f = Some F /\
    F.(attached_thread) = Some t /\ F.(parent_process) = p /\
    running s tk.(tgid) pid = Some f.
Proof.
  intros Hwf Hc. destruct (caller_parent _ _ _ _ _ _ _ Hwf Hc) as [Hpar _].
  pose proof (caller_thread_for _ _ _ _ _ _ _ Hc) as Hfor. destruct Hc as [Hp HP Ht HT].
  destruct (T.(selected_fiber)) as [f|] eqn:Hsel; [|by apply wf_running in HT].
  destruct (selected_fiber_ok s t T f Hwf HT Hsel) as (F & HF & HA & HO & _).
  exists f, F. split_and!; [done..|congruence|]. unfold running. rewrite Hfor. simpl. by rewrite HT.
Qed.

Lemma running_caller s tk pid f :
  wf s -> running s tk.(tgid) pid = Some f ->
  exists p P t T, caller s tk pid p P t T /\ T.(selected_fiber) = Some f.
Proof.
  intros Hwf Hf. unfold running in Hf.
  destruct (thread_for s (tgid tk) pid) as [t|] eqn:Ht; [|done]. simpl in Hf.
  destruct (caller_intro s tk pid t Hwf Ht) as (p & P & T & Hc).
  exists p, P, t, T. split; [done|]. by rewrite (ca_thread_heap _ _ _ _ _ _ _ Hc) in Hf.
Qed.

Lemma running_none s tk pid :
  wf s -> running s tk.(tgid) pid = None <-> thread_for s tk.(tgid) pid = None.
Proof.
  intros Hwf. split; intros H; [|unfold running; by rewrite H].
  destruct (thread_for s (tgid tk) pid) as [t|] eqn:Ht; [|done].
  destruct (caller_intro s tk pid t Hwf Ht) as (p & P & T & Hc).
  destruct (caller_fiber s tk pid p P t T Hwf Hc) as (f & F & _ & _ & _ & _ & Hr). congruence.
Qed.

Lemma active_positive s tk pid p P t T :
  wf s -> caller s tk pid p P t T -> 1 <= P.(active_threads).
Proof.
  intros Hwf Hc. destruct (caller_parent _ _ _ _ _ _ _ Hwf Hc) as [Hpar _].
  destruct Hc as [Hp HP Ht HT].
  destruct (ho_process _ _ _ _ (wf_heap _ Hwf) p P HP) as [Htbl _ -> _ _].
  destruct (hash_each P.(threads)) eqn:E; simpl; [|lia].
  assert (t ∈ []) as []%elem_of_nil. rewrite <- E. apply Htbl. eauto.
Qed.

(** Without a running task [current] is a wild pointer. *)
Lemma no_current {A} (k : task -> kM A) s :
  s.(tasks) !! s.(current) = None -> mthen current_task k s = None.
Proof. intros H. apply mthen_None. unfold current_task, mderef. by rewrite H. Qed.

Lemma current_alive {A} (k : task -> kM A) s a s' :
  mthen current_task k s = Some (a, s') -> exists tk, s.(tasks) !! s.(current) = Some tk.
Proof.
  intros H. destruct (s.(tasks) !! s.(current)) as [tk|] eqn:E; [eauto|].
  by rewrite no_current in H.
Qed.

Definition good (n : Z) (s : kstate) : Prop := wf s /\ ids_below n s.

Lemma good_mono n m s : n <= m -> good n s -> good m s.
Proof. intros ? [? ?]. split; [done|]. by eapply ids_below_mono. Qed.

(** ** [get_process] *)

Lemma joined_get_process s tk p s1 :
  wf s -> s.(tasks) !! s.(current) = Some tk ->
  get_process s = Some (p, s1) <-> joined s tk.(tgid) p s1.
Proof.
  intros Hwf Htk. destruct (process_at s tk.(tgid)) as [q|] eqn:Hp.
  - rewrite (get_process_found s tk q) by (done || apply Hwf). split.
    + intros [= -> <-]. by apply joined_old.
    + by inversion 1; simplify_eq.
  - destruct (kmalloc (dom s.(process_heap))) as [q|] eqn:Hk.
    + rewrite (get_process_new s tk q) by (done || apply Hwf). split.
      * intros [= -> <-]. by apply joined_new.
      * by inversion 1; simplify_eq.
    + rewrite (get_process_oom s tk) by (done || apply Hwf). split; [done|].
      by inversion 1; simplify_eq.
Qed.

Lemma joined_good n s g p s1 :
  good n s -> 0 <= n -> joined s g p s1 ->
  good n s1 /\ s1.(tasks) = s.(tasks) /\ s1.(current) = s.(current) /\
  s1.(thread_heap) = s.(thread_heap) /\ s1.(fiber_heap) = s.(fiber_heap) /\
  exists P, s1.(process_heap) !! p = Some P /\ P.(process_id) = g.
Proof.
  intros [Hwf Hids] Hn [q Hq|q Hq Hk].
  - apply process_at_Some in Hq as (P & HP & Hid); [|apply Hwf].
    split; [split; [by apply wf_lock_cycled|done]|]. split_and!; [done..|]. eauto.
  - split; [split; [|by apply ids_below_new_process]|].
    + apply wf_lock_cycled, wf_new_process; [done|by apply kmalloc_none|done].
    + split_and!; [done..|]. simpl. rewrite lookup_insert_eq. by eexists.
Qed.

(** A thread that is converted already: its process exists. *)
Lemma joined_converted s tk p s1 t :
  wf s -> joined s tk.(tgid) p s1 -> thread_at s1 p s.(current) = Some t ->
  s1 = lock_cycled s /\ exists P T, caller s tk s.(current) p P t T.
Proof.
  intros Hwf Hj Ht. destruct Hj as [q Hq|q Hq Hk].
  - split; [done|]. destruct (caller_intro s tk s.(current) t Hwf) as (p' & P & T & Hc).
    + unfold thread_for. by rewrite Hq.
    + assert (p' = q) as -> by (destruct Hc; congruence). eauto.
  - exfalso. unfold thread_at in Ht. simpl in Ht. rewrite lookup_insert_eq in Ht. simpl in Ht.
    unfold at_key in Ht. by rewrite hash_init_possible in Ht.
Qed.

(** ** What the handlers do is an outcome *)

Lemma convert_outcome n s tk r s' :
  good n s -> 0 <= n < INT_MAX -> s.(tasks) !! s.(current) = Some tk ->
  do_ConvertThreadToFiber s.(current) s = Some (r, s') -> task_outcome s tk EConvert r s'.
Proof.
  intros Hgood Hn Htk Hrun. pose proof Hgood as [Hwf0 _].
  assert (exists p s1, get_process s = Some (p, s1)) as (p & s1 & Hget).
  { unfold do_ConvertThreadToFiber in Hrun. apply mthen_inv in Hrun as (p & s1 & Hget & _). eauto. }
  pose proof Hget as Hj. apply joined_get_process with (tk := tk) in Hj; [|done..].
  destruct (joined_good n s (tgid tk) p s1) as ([Hwf Hids] & Ht1 & Hc1 & _ & _ & P & HP & Hid); [done|lia|done|].
  pose proof (wf_active _ Hwf p P HP). pose proof (Hids p P HP).
  pose proof (active_threads_nonneg _ _ _ Hwf HP). pose proof (last_fiber_id_nonneg _ _ _ Hwf HP).
  assert (s1.(tasks) !! s1.(current) = Some tk) as Htk1 by congruence.
  destruct (thread_at s1 p s.(current)) as [t|] eqn:Ht.
  - erewrite convert_again_run in Hrun; [|done|apply Hwf|done..]. simplify_eq.
    destruct (joined_converted _ _ _ _ _ Hwf0 Hj Ht) as (-> & P' & T & Hc). by eapply out_convert_again.
  - destruct (kmalloc (dom s1.(thread_heap))) as [t|] eqn:Hkt;
      [destruct (kmalloc (dom s1.(fiber_heap))) as [f|] eqn:Hkf|].
    + erewrite convert_run in Hrun; [|done|apply Hwf|done..|lia|lia]. simplify_eq.
      by eapply out_convert.
    + erewrite convert_oom in Hrun; [done|done|apply Hwf|done..|by right|lia].
    + erewrite convert_oom in Hrun; [done|done|apply Hwf|done..|by left|lia].
Qed.

Lemma create_outcome n s tk r s' sp sz fn param :
  good n s -> 0 <= n < INT_MAX -> s.(tasks) !! s.(current) = Some tk ->
  do_CreateFiber sp sz fn param s.(current) s = Some (r, s') ->
  task_outcome s tk (ECreate sp sz fn param) r s'.
Proof.
  intros [Hwf Hids] Hn Htk Hrun.
  destruct (thread_for s tk.(tgid) s.(current)) as [t|] eqn:Ht.
  - destruct (caller_intro _ _ _ _ Hwf Ht) as (p & P & T & Hc).
    pose proof Hc as [Hp HP Hth HT].
    pose proof (Hids p P HP). pose proof (last_fiber_id_nonneg _ _ _ Hwf HP).
    destruct (kmalloc (dom s.(fiber_heap))) as [f|] eqn:Hkf.
    + erewrite create_run in Hrun; [|apply Hwf|done..|lia]. simplify_eq. by eapply out_create.
    + erewrite create_oom in Hrun; [done|apply Hwf|done..].
  - erewrite create_missing_run in Hrun; [|apply Hwf|done..]. simplify_eq. by apply out_create_none.
Qed.

Lemma switch_outcome s tk r s' id :
  wf s -> s.(tasks) !! s.(current) = Some tk ->
  do_SwitchToFiber id s.(current) s = Some (r, s') -> task_outcome s tk (ESwitch id) r s'.
Proof.
  intros Hwf Htk Hrun.
  destruct (thread_for s (tgid tk) s.(current)) as [t|] eqn:Ht.
  2: { rewrite (switch_missing_run s tk) in Hrun by (apply Hwf || done || by left).
       simplify_eq. apply out_switch_none. by left. }
  destruct (caller_intro _ _ _ _ Hwf Ht) as (p & P & T & Hc).
  destruct (caller_fiber _ _ _ _ _ _ _ Hwf Hc) as (prev & Pv & Hsel & HPv & HPa & _).
  pose proof Hc as [Hp HP Hth HT].
  assert (fiber_for s (tgid tk) id = fiber_at s p id) as Hfor by (unfold fiber_for; by rewrite Hp).
  destruct (fiber_at s p id) as [f|] eqn:Hf.
  2: { rewrite (switch_missing_run s tk) in Hrun by (apply Hwf || done || by right).
       simplify_eq. apply out_switch_none. by right. }
  pose proof Hf as (F & HF & HFp & _)%(fiber_at_Some s p P); [|apply Hwf|done].
  pose proof (locked_attached s f F Hwf HF) as Hlock.
  destruct (F.(attached_thread)) as [u|] eqn:Hatt.
  - erewrite switch_busy_run in Hrun; [|apply Hwf|done..]. simplify_eq. by eapply out_switch_busy.
  - erewrite switch_run in Hrun; [|apply Hwf|done..|by intros ->; congruence].
    simplify_eq. by eapply out_switch.
Qed.

Lemma fls_outcome s tk r s' op :
  wf s -> s.(tasks) !! s.(current) = Some tk ->
  run_fls op s.(current) s = Some (r, s') -> task_outcome s tk (EFls op) r s'.
Proof.
  intros Hwf Htk Hrun. destruct (running s tk.(tgid) s.(current)) as [f|] eqn:Hf.
  - destruct (running_caller _ _ _ _ Hwf Hf) as (p & P & t & T & Hc & Hsel).
    destruct (caller_fiber _ _ _ _ _ _ _ Hwf Hc) as (f' & F & Hsel' & HF & _). simplify_eq.
    erewrite run_fls_some in Hrun; [|apply Hwf|done..]. simplify_eq. by apply out_fls.
  - erewrite run_fls_none in Hrun; [|apply Hwf|done..]. simplify_eq. by apply out_fls_none.
Qed.

Lemma exit_outcome n s tk r s' :
  good n s -> n <= INT_MAX -> s.(tasks) !! s.(current) = Some tk ->
  exit_cleanup s = Some (r, s') -> task_outcome s tk EExit r s'.
Proof.
  intros [Hwf Hids] Hn Htk Hrun.
  destruct (thread_for s tk.(tgid) s.(current)) as [t|] eqn:Ht;
    [|erewrite exit_other_run in Hrun; [simplify_eq; by apply out_exit_other|apply Hwf|done..]].
  destruct (caller_intro _ _ _ _ Hwf Ht) as (p & P & T & Hc).
  destruct (caller_fiber _ _ _ _ _ _ _ Hwf Hc) as (f & F & Hsel & HF & _).
  destruct (caller_parent _ _ _ _ _ _ _ Hwf Hc) as [Hpar _].
  pose proof (active_positive _ _ _ _ _ _ _ Hwf Hc).
  pose proof Hc as [Hp HP Hth HT].
  pose proof (wf_active _ Hwf p P HP). pose proof (Hids p P HP).
  destruct (decide (P.(active_threads) = 1)) as [Hact|Hact].
  - destruct (kfree_each (hash_each P.(fibers)) s.(fiber_heap)) as [fh|] eqn:Hfree.
    + erewrite exit_last_run in Hrun; [|apply Hwf|done..]. simplify_eq. by eapply out_exit_last.
    + by erewrite exit_last_stale in Hrun; [|apply Hwf|done..].
  - erewrite exit_detach_run in Hrun; [|apply Hwf|done..|lia]. simplify_eq. by eapply out_exit.
Qed.

Lemma close_outcome s tk r s' :
  wf s -> s.(tasks) !! s.(current) = Some tk ->
  process_cleanup s = Some (r, s') -> task_outcome s tk EClose r s'.
Proof.
  intros Hwf Htk Hrun. destruct (process_at s (tgid tk)) as [p|] eqn:Hp;
    [|erewrite cleanup_other_run in Hrun; [simplify_eq; by apply out_close_other|apply Hwf|done..]].
  pose proof Hp as (P & HP & _)%process_at_Some; [|apply Hwf].
  destruct (kfree_each (hash_each P.(threads)) s.(thread_heap)) as [th|] eqn:Hth;
    [destruct (kfree_each (hash_each P.(fibers)) s.(fiber_heap)) as [fh|] eqn:Hfh|].
  - erewrite cleanup_run in Hrun; [|apply Hwf|done..]. simplify_eq. by eapply out_close.
  - by erewrite cleanup_stale in Hrun; [|apply Hwf|done..|right; done].
  - by erewrite cleanup_stale in Hrun; [|apply Hwf|done..|left; done].
Qed.

Lemma timer_outcome s r s' :
  wf s -> fiber_timer s = Some (r, s') -> outcome s ETimer r s'.
Proof.
  intros Hwf Hrun. destruct (s.(prev_task)) as [pid|] eqn:Hprev;
    [|erewrite timer_idle_run in Hrun; [simplify_eq; by apply out_timer_first|apply Hwf|by left]].
  destruct (s.(tasks) !! pid) as [tk|] eqn:Htk; [|by rewrite (timer_wild_run s pid) in Hrun].
  destruct (thread_for s tk.(tgid) pid) as [t|] eqn:Ht.
  - destruct (caller_intro _ _ _ _ Hwf Ht) as (p & P & T & Hc).
    destruct (caller_fiber _ _ _ _ _ _ _ Hwf Hc) as (f & F & Hsel & HF & _).
    pose proof Hc as [Hp HP Hth HT].
    erewrite timer_fiber_run in Hrun; [|apply Hwf|done..]. simplify_eq. by eapply out_timer.
  - unfold thread_for in Ht. destruct (process_at s (tgid tk)) as [p|] eqn:Hp.
    + pose proof Hp as (P & HP & _)%process_at_Some; [|apply Hwf]. simpl in Ht.
      erewrite timer_unconverted_run in Hrun; [|apply Hwf|done..]. simplify_eq.
      by eapply out_timer_unconverted.
    + erewrite timer_idle_run in Hrun; [|apply Hwf|right; eauto]. simplify_eq.
      by eapply out_timer_other.
Qed.

Lemma event_alive e s r s' :
  run_event e s = Some (r, s') -> e <> ETimer -> exists tk, s.(tasks) !! s.(current) = Some tk.
Proof.
  rewrite run_event_eq. intros Hrun He.
  destruct e as [| | |[]| | |]; simpl in Hrun; try done; try by apply current_alive in Hrun.
  - unfold do_ConvertThreadToFiber, get_process in Hrun. rewrite mthen_assoc in Hrun.
    apply mthen_inv in Hrun as (u & s1 & Hl & Hrun).
    unfold lock_processes in Hl. destruct (spin_trylock _) as [[] l]; simplify_eq.
    rewrite mthen_assoc in Hrun. by apply current_alive in Hrun.
  - unfold do_FlsAlloc, fls_fiber in Hrun. rewrite mthen_assoc in Hrun. by apply current_alive in Hrun.
  - unfold do_FlsFree, fls_fiber in Hrun. rewrite !mthen_assoc in Hrun. by apply current_alive in Hrun.
  - unfold do_FlsGetValue, fls_fiber in Hrun. rewrite mthen_assoc in Hrun. by apply current_alive in Hrun.
  - unfold do_FlsSetValue, fls_fiber in Hrun. rewrite !mthen_assoc in Hrun. by apply current_alive in Hrun.
Qed.

Lemma event_outcome_aux n s e r s' :
  good n s -> 0 <= n < INT_MAX -> run_event e s = Some (r, s') -> outcome s e r s'.
Proof.
  intros Hgood Hn Hrun. pose proof Hgood as [Hwf _].
  destruct (decide (e = ETimer)) as [->|He].
  { rewrite run_event_eq in Hrun. by apply timer_outcome. }
  destruct (event_alive e s r s' Hrun He) as [tk Htk]. apply (out_task s tk); [done|].
  rewrite run_event_eq in Hrun. destruct e; [..|done].
  - by eapply convert_outcome.
  - by eapply create_outcome.
  - by eapply switch_outcome.
  - by eapply fls_outcome.
  - eapply exit_outcome; [done|lia|done..].
  - by eapply close_outcome.
Qed.

(** ** An outcome is what the handlers do *)

Lemma outcome_event_aux n s e r s' :
  good n s -> 0 <= n < INT_MAX -> outcome s e r s' -> run_event e s = Some (r, s').
Proof.
  intros Hgood Hn Hout. pose proof Hgood as [Hwf Hids]. rewrite run_event_eq.
  assert (forall p P, s.(process_heap) !! p = Some P -> 0 <= P.(last_fiber_id) < INT_MAX /\
            0 <= P.(active_threads) < INT_MAX) as Hb.
  { intros p P HP. pose proof (Hids p P HP). pose proof (wf_active _ Hwf p P HP).
    pose proof (last_fiber_id_nonneg _ _ _ Hwf HP). pose proof (active_threads_nonneg _ _ _ Hwf HP). lia. }
  destruct Hout as [tk e r s' Htk Hout| | | |].
  - destruct Hout as [p P t T Hc|p s1 P t f Hj HP Ht Hkt Hkf| |sp sz fn param p P t T f Hc Hk| | |
      | | | |p P t T f F Hc| | |].
    + pose proof Hc as [Hp HP Ht HT].
      eapply convert_again_run; [apply (get_process_found _ tk); (apply Hwf || done)| |done|done].
      by apply wf_lock_cycled in Hwf as [].
    + destruct (joined_good n s (tgid tk) p s1) as ([Hwf1 Hids1] & Ht1 & Hc1 & _); [done|lia|done|].
      rewrite <- Hc1. pose proof (wf_active _ Hwf1 p P HP). pose proof (Hids1 p P HP).
      pose proof (active_threads_nonneg _ _ _ Hwf1 HP). pose proof (last_fiber_id_nonneg _ _ _ Hwf1 HP).
      eapply convert_run; [by apply (joined_get_process s tk)|apply Hwf1|congruence|done|congruence|done|done|lia|lia].
    + eapply create_missing_run; [apply Hwf|done..].
    + destruct Hc. eapply create_run; [apply Hwf|done..|]. by eapply Hb.
    + eapply switch_missing_run; [apply Hwf|done..].
    + pose proof (locked_attached _ _ _ Hwf H1) as Hlock. rewrite H2 in Hlock.
      destruct H. eapply switch_busy_run; [apply Hwf|done..].
    + pose proof (locked_attached _ _ _ Hwf H1) as Hlock. rewrite H2 in Hlock.
      destruct (caller_fiber _ _ _ _ _ _ _ Hwf H) as (f' & F' & ? & ? & ? & _).
      destruct H. eapply switch_run; [apply Hwf|done..|]. intros ->. congruence.
    + eapply run_fls_none; [apply Hwf|done..].
    + eapply run_fls_some; [apply Hwf|done..].
    + eapply exit_other_run; [apply Hwf|done..].
    + pose proof (active_positive _ _ _ _ _ _ _ Hwf Hc).
      destruct (caller_parent _ _ _ _ _ _ _ Hwf Hc) as [? _]. destruct Hc.
      eapply exit_detach_run; [apply Hwf|done..|]. destruct (Hb p P); [done|]. lia.
    + destruct (caller_parent _ _ _ _ _ _ _ Hwf H) as [? _]. destruct H.
      eapply exit_last_run; [apply Hwf|done..].
    + eapply cleanup_other_run; [apply Hwf|done..].
    + eapply cleanup_run; [apply Hwf|done..].
  - apply timer_idle_run; [apply Hwf|by left].
  - apply timer_idle_run; [apply Hwf|right; eauto].
  - eapply timer_unconverted_run; [apply Hwf|done..].
  - destruct H1. eapply timer_fiber_run; [apply Hwf|done..].
Qed.
End Outcome.
