(* ===== verification/System.v ===== *)
(** * The module as a transition system

    Between two events anything may happen outside the module: user code runs,
    another task is scheduled, tasks come and go.  Handlers run one after the
    other.  Every reachable state is well formed; from there follow that a fiber
    is run by at most one thread and that a handler with memory does not fault. *)

From S2P Require Import Prelude Kernel State CStr Fibers Heap Runs Kprobes Safety Fls Outcome.

Section System.
Context {K : Kernel}.

Inductive step : kstate -> kstate -> Prop :=
  | step_event e r s s' : run_event e s = Some (r, s') -> step s s'
  | step_outside s s' : same_module s s' -> step s s'.

(** The module has just been loaded. *)
Definition initial (s : kstate) : Prop :=
  s.(processes) = hash_init /\ s.(struct_process_lock) = SPIN_LOCK_UNLOCKED /\
  s.(process_heap) = ∅ /\ s.(thread_heap) = ∅ /\ s.(fiber_heap) = ∅.

(** [reach n s]: [s] is reached in [n] steps. *)
Inductive reach : Z -> kstate -> Prop :=
  | reach_init s : initial s -> reach 0 s
  | reach_step n s s' : reach n s -> step s s' -> reach (n + 1) s'.

Context {KOk : KernelOk K}.

Lemma wf_initial s : initial s -> wf s.
Proof.
  intros (Hp & Hl & Hph & Hth & Hfh). split.
  - rewrite Hl. apply spin_unlocked_free.
  - rewrite Hp, Hph, Hth, Hfh. split; [|done..]. by apply table_ok_init.
  - by rewrite Hth.
  - by rewrite Hph.
Qed.

(** ** Each event keeps the invariant *)

Lemma task_outcome_good n s tk e r s' :
  good n s -> 0 <= n < INT_MAX -> s.(tasks) !! s.(current) = Some tk ->
  task_outcome s tk e r s' -> good (n + 1) s'.
Proof.
  intros Hgood Hn Htk Hout. pose proof Hgood as [Hwf Hids].
  assert (good (n + 1) s) as Hsame by (eapply good_mono; [|done]; lia).
  destruct Hout as [p P t T Hc|p s1 P t f Hj HP Ht Hkt Hkf|sp sz fn param Hnone
    |sp sz fn param p P t T f Hc Hk|id Hnone|id p P t T f F u Hc Hf HF HA
    |id p P t T f F prev Pv Hc Hf HF HA Hsel HPv|op Hnone|op f F Hf HF|Hnone
    |p P t T f F Hc Hsel HF Hact|p P t T fh Hc Hact Hfree|Hp|p P th fh Hp HP Hth Hfh].
  - split; [by apply wf_lock_cycled|apply Hsame].
  - destruct (joined_good n s (tgid tk) p s1) as ([Hwf1 Hids1] & Ht1 & Hc1 & _); [done|lia|done|].
    split; [|by apply ids_below_converted].
    apply wf_converted; [done..|by apply kmalloc_none|by apply kmalloc_none].
  - done.
  - destruct Hc. split; [|by apply ids_below_created].
    apply wf_created; [done..|by apply kmalloc_none].
  - done.
  - pose proof (locked_attached _ _ _ Hwf HF) as Hlock. rewrite HA in Hlock.
    split; [by apply wf_refused|apply Hsame].
  - destruct (caller_fiber _ _ _ _ _ _ _ Hwf Hc) as (f' & F' & ? & ? & ? & _).
    destruct (caller_parent _ _ _ _ _ _ _ Hwf Hc) as [Hpar _].
    destruct Hc as [Hp HP Ht HT]. split; [|apply Hsame].
    apply (fiber_at_Some s p P) in Hf as (F0 & ? & Hof & _); [|apply Hwf|done].
    apply wf_switched; [done..| |by intros ->; congruence]. simplify_eq. done.
  - done.
  - destruct (running_caller _ _ _ _ Hwf Hf) as (p & P & t & T & Hc & Hsel).
    pose proof (ho_fiber _ _ _ _ (wf_heap _ Hwf) f F HF) as [_ Hlen _ _ _].
    destruct (apply_fls_refines op F Hlen) as (_ & ? & ? & Hl).
    split; [|apply Hsame]. eapply wf_fiber_update; [done..|by rewrite Hl].
  - done.
  - destruct (caller_parent _ _ _ _ _ _ _ Hwf Hc) as [Hpar _]. destruct Hc.
    split; [by eapply wf_exited|].
    intros q Q; simpl; intros [[<- <-]|[? HQ]]%lookup_insert_Some; [|by eapply Hsame].
    by apply Hsame in ca_process_heap.
  - destruct (caller_parent _ _ _ _ _ _ _ Hwf Hc) as [Hpar _]. destruct Hc.
    split; [by eapply wf_exit_last|]. by apply ids_below_without_process, Hsame.
  - done.
  - split; [by eapply wf_cleanup|]. by apply ids_below_without_process, Hsame.
Qed.

Lemma outcome_good n s e r s' :
  good n s -> 0 <= n < INT_MAX -> outcome s e r s' -> good (n + 1) s'.
Proof.
  intros Hgood Hn Hout. pose proof Hgood as [Hwf Hids].
  assert (good (n + 1) s) as [Hwf' Hids'] by (eapply good_mono; [|done]; lia).
  destruct Hout as [tk e r s' Htk Hout| | | |pid tk p P t T f F Hprev Htk Hc Hsel HF].
  - by eapply task_outcome_good.
  - by split; [apply wf_timed|].
  - by split; [apply wf_timed|].
  - split; [by destruct Hwf|done].
  - split; [|done]. by apply wf_timed; eapply wf_fiber_update.
Qed.

Lemma step_good n s s' : good n s -> 0 <= n < INT_MAX -> step s s' -> good (n + 1) s'.
Proof.
  intros Hgood Hn Hs. inversion Hs as [e r ? ? Hrun|? ? Hout]; subst.
  - eapply outcome_good; [done..|]. by eapply event_outcome_aux.
  - destruct Hgood as [Hwf Hids]. split; [by rewrite <- Hout|].
    eapply ids_below_mono; [|by rewrite <- Hout]. lia.
Qed.

Lemma reach_good n s : reach n s -> n <= INT_MAX -> 0 <= n /\ good n s.
Proof.
  induction 1 as [s Hi|n s s' Hr IH Hs]; intros Hn.
  - split; [done|]. split; [by apply wf_initial|]. destruct Hi as (_ & _ & Hph & _).
    intros p P. by rewrite Hph.
  - destruct IH as [? ?]; [lia|]. split; [lia|]. eapply step_good; [done|lia|done].
Qed.
End System.
