(* ===== verification/Views.v ===== *)
(** * What is seen of the module through ids

    The lookups by id of a well-formed state, in terms of the objects: a thread
    is found under the id of its process and its own, and so is a fiber. *)

From S2P Require Import Prelude Kernel State CStr Fibers Heap Runs Kprobes Safety Fls Outcome System.

Section Views.
Context {K : Kernel} {KOk : KernelOk K}.

Lemma process_at_spec s g p :
  wf s -> process_at s g = Some p <-> exists P, s.(process_heap) !! p = Some P /\ P.(process_id) = g.
Proof. intros Hwf. apply process_at_Some, Hwf. Qed.

Lemma thread_for_spec s g pid t :
  wf s ->
  thread_for s g pid = Some t <->
  exists T P, s.(thread_heap) !! t = Some T /\ T.(thread_id) = pid /\
    s.(process_heap) !! T.(parent) = Some P /\ P.(process_id) = g.
Proof.
  intros Hwf. unfold thread_for. split.
  - destruct (process_at s g) as [p|] eqn:Hp; [|done]. simpl. intros Ht.
    apply process_at_spec in Hp as (P & HP & Hg); [|done].
    apply (thread_at_Some s p P) in Ht as (T & HT & Hof & Hid); [|apply Hwf|done].
    unfold thread_of in Hof. subst p. eauto 10.
  - intros (T & P & HT & Hid & HP & Hg).
    rewrite (proj2 (process_at_spec s g T.(parent) Hwf)) by eauto. simpl.
    apply (thread_at_Some s _ P); [apply Hwf|done|]. by exists T.
Qed.

Lemma fiber_for_spec s g id f :
  wf s ->
  fiber_for s g id = Some f <->
  exists F P, s.(fiber_heap) !! f = Some F /\ F.(fiber_id) = id /\
    s.(process_heap) !! F.(parent_process) = Some P /\ P.(process_id) = g.
Proof.
  intros Hwf. unfold fiber_for. split.
  - destruct (process_at s g) as [p|] eqn:Hp; [|done]. simpl. intros Ht.
    apply process_at_spec in Hp as (P & HP & Hg); [|done].
    apply (fiber_at_Some s p P) in Ht as (F & HF & Hof & Hid); [|apply Hwf|done].
    unfold fiber_of in Hof. subst p. eauto 10.
  - intros (F & P & HF & Hid & HP & Hg).
    rewrite (proj2 (process_at_spec s g F.(parent_process) Hwf)) by eauto. simpl.
    apply (fiber_at_Some s _ P); [apply Hwf|done|]. by exists F.
Qed.

Lemma running_spec s g pid f :
  wf s ->
  running s g pid = Some f <->
  exists t T, thread_for s g pid = Some t /\ s.(thread_heap) !! t = Some T /\
    T.(selected_fiber) = Some f.
Proof.
  intros Hwf. unfold running. split.
  - destruct (thread_for s g pid) as [t|]; [|done]. simpl.
    destruct (thread_heap s !! t) as [T|] eqn:HT; [|done]. simpl. eauto 10.
  - intros (t & T & -> & HT & Hsel). simpl. by rewrite HT.
Qed.

(** Two lookups agree when they find the same objects. *)
Lemma lookup_ext {A} (o o' : option A) : (forall a, o = Some a <-> o' = Some a) -> o = o'.
Proof. intros H. apply option_eq. done. Qed.

(** The ids of a well-formed state determine the objects. *)
Lemma process_id_inj s p q P Q :
  wf s -> s.(process_heap) !! p = Some P -> s.(process_heap) !! q = Some Q ->
  P.(process_id) = Q.(process_id) -> p = q.
Proof.
  intros Hwf HP HQ Heq. eapply (tbl_inj _ _ _ _ (ho_table _ _ _ _ (wf_heap _ Hwf))); done.
Qed.
End Views.
