(* ===== verification/Scenario.v ===== *)
(** * Concrete runs

    A script is a list of events with the pid of the task that causes each of
    them.  [play] runs it on the reference kernel; the states it passes are
    reachable, and the theorems are applied to them. *)

From S2P Require Import Prelude Kernel State CStr Fibers Heap Runs Kprobes Safety Fls Outcome System.
Import Reference.

(** Two tasks of thread group 10 and one of thread group 20. *)
Definition user_regs (n : Z) : pt_regs := PtRegs (1000 + n) (2000 + n) (3000 + n) (4000 + n) [n].
Definition user_task (g n : Z) : task := Task g (n * 100) (user_regs n) [n; n].

Definition boot : kstate :=
  KState [] false ∅ ∅ ∅ {[ 10 := user_task 10 1; 11 := user_task 10 2; 20 := user_task 20 3 ]}
    10 None 0 ∅.

Definition script := list (Z * event).

Fixpoint play {K : Kernel} (l : script) (s : kstate) : option (list Z * kstate) :=
  match l with
  | [] => Some ([], s)
  | (pid, e) :: l' =>
      match run_event e (set_current pid s) with
      | Some (r, s') =>
          match play l' s' with Some (rs, s'') => Some (r :: rs, s'') | None => None end
      | None => None
      end
  end.

(** The state after a script, and the results of its events. *)
Definition played (l : script) : kstate :=
  match play l boot with Some (_, s) => s | None => boot end.
Definition results (l : script) : option (list Z) := fst <$> play l boot.

Lemma play_reach {K : Kernel} l n s rs s' :
  reach n s -> play l s = Some (rs, s') -> reach (n + 2 * Z.of_nat (length l)) s'.
Proof.
  revert n s rs. induction l as [|[pid e] l IH]; intros n s rs Hs Hplay; cbn [play] in Hplay.
  - simplify_eq. by rewrite Z.add_0_r.
  - destruct (run_event e (set_current pid s)) as [[r s1]|] eqn:He; [|done].
    destruct (play l s1) as [[rs' s2]|] eqn:Hl; [|done]. simplify_eq.
    assert (reach (n + 1 + 1) s1) as Hs1.
    { eapply reach_step; [|by eapply step_event]. eapply reach_step; [exact Hs|]. by apply step_outside. }
    specialize (IH _ _ _ Hs1 Hl). cbn [length].
    by replace (n + 2 * Z.of_nat (S (length l))) with (n + 1 + 1 + 2 * Z.of_nat (length l)) by lia.
Qed.

Lemma boot_reach : reach 0 boot.
Proof. by apply reach_init. Qed.

Lemma played_reach l : reach (2 * Z.of_nat (length l)) (played l).
Proof.
  unfold played. destruct (play l boot) as [[rs s]|] eqn:Hl.
  - by apply (play_reach l 0 boot rs s boot_reach).
  - assert (forall k : nat, reach (Z.of_nat k) boot) as H.
    { induction k as [|k IH]; [apply boot_reach|]. rewrite Nat2Z.inj_succ.
      eapply reach_step; [exact IH|]. by apply step_outside. }
    specialize (H (2 * length l)%nat). by rewrite Nat2Z.inj_mul in H.
Qed.

(** The state in which [pid] runs next. *)
Lemma schedule_reach {K : Kernel} n s pid : reach n s -> reach (n + 1) (set_current pid s).
Proof. intros Hs. eapply reach_step; [exact Hs|]. by apply step_outside. Qed.

Definition returns {A} (o : option A) : bool := match o with Some _ => true | None => false end.

Lemma returns_Some {A} (o : option A) : returns o = true -> exists a, o = Some a.
Proof. destruct o; [eauto|done]. Qed.

(** [computed o as x H]: the result [x] of a computation that returns;
    [computed_field H f v]: its field [f] is [v]. *)
Ltac computed o x H :=
  destruct (returns_Some o) as [x H]; [vm_compute; reflexivity|].

Lemma fmap_field {A B} (g : A -> B) (o : option A) a b :
  o = Some a -> g <$> o = Some b -> g a = b.
Proof. intros -> [= <-]. done. Qed.

Ltac computed_field H := apply (fmap_field _ _ _ _ H); vm_compute; reflexivity.

(** Thread 10 becomes fiber 1 and makes fiber 2; thread 11 becomes fiber 3. *)
Definition setup : script :=
  [(10, EConvert); (10, ECreate 65536 4096 5000 77); (11, EConvert)].
(** Thread 10 runs fiber 2, and fiber 1 is free. *)
Definition setup_switched : script := setup ++ [(10, ESwitch 2)].

(** The results of the scripts. *)
Example setup_results : results setup_switched = Some [1; 2; 3; 0].
Proof. vm_compute. reflexivity. Qed.

#[global] Opaque played.
