(* ===== verification/Exclusion.v ===== *)
(** * Properties of every reachable state

    The invariant, mutual exclusion, and what the handlers return: exactly the
    outcomes listed in [Outcome], and always one of them as long as there is
    memory. *)

From S2P Require Import Prelude Kernel State CStr Fibers Heap Runs Kprobes Safety Fls Outcome System Scenario.

Section Exclusion.
Context {K : Kernel} {KOk : KernelOk K}.

Lemma thread_for_inj s g g' pid pid' t :
  wf s -> thread_for s g pid = Some t -> thread_for s g' pid' = Some t -> g = g' /\ pid = pid'.
Proof.
  intros Hwf. unfold thread_for.
  destruct (process_at s g) as [p|] eqn:Hp; [|done].
  destruct (process_at s g') as [p'|] eqn:Hp'; [|done]. simpl. intros Ht Ht'.
  apply process_at_Some in Hp as (P & HP & <-); [|apply Hwf].
  apply process_at_Some in Hp' as (P' & HP' & <-); [|apply Hwf].
  apply (thread_at_Some s p P) in Ht as (T & HT & HpT & <-); [|apply Hwf|done].
  apply (thread_at_Some s p' P') in Ht' as (T' & HT' & HpT' & <-); [|apply Hwf|done].
  unfold thread_of in *. by simplify_eq.
Qed.

Lemma running_Some s g pid f :
  wf s -> running s g pid = Some f ->
  exists t T F, thread_for s g pid = Some t /\ s.(thread_heap) !! t = Some T /\
    T.(selected_fiber) = Some f /\ s.(fiber_heap) !! f = Some F /\
    F.(attached_thread) = Some t /\ spin_is_locked F.(fiber_lock) = true /\
    F.(parent_process) = T.(parent).
Proof.
  intros Hwf. unfold running. destruct (thread_for s g pid) as [t|]; [|done]. simpl.
  destruct (thread_heap s !! t) as [T|] eqn:HT; [|done]. simpl. intros Hsel.
  destruct (selected_fiber_ok s t T f Hwf HT Hsel) as (F & ? & ? & ? & ?).
  exists t, T, F. by split_and!.
Qed.

(** A thread that is not converted can be, as long as there is memory. *)
Lemma convert_possible s tk :
  wf s -> (forall used, is_Some (kmalloc used)) -> thread_for s tk.(tgid) s.(current) = None ->
  exists p s1 P t f,
    joined s tk.(tgid) p s1 /\ s1.(process_heap) !! p = Some P /\
    thread_at s1 p s.(current) = None /\
    kmalloc (dom s1.(thread_heap)) = Some t /\ kmalloc (dom s1.(fiber_heap)) = Some f.
Proof.
  intros Hwf Hmem Ht.
  assert (exists p s1, joined s tk.(tgid) p s1) as (p & s1 & Hj).
  { destruct (process_at s tk.(tgid)) as [p|] eqn:Hp; [by eexists _, _; apply joined_old|].
    destruct (Hmem (dom s.(process_heap))) as [p Hk]. eexists _, _. by apply joined_new. }
  destruct (Hmem (dom s1.(thread_heap))) as [t Hkt].
  destruct (Hmem (dom s1.(fiber_heap))) as [f Hkf].
  assert (exists P, s1.(process_heap) !! p = Some P) as [P HP].
  { destruct Hj as [q Hq|q Hq Hk]; simpl.
    - apply process_at_Some in Hq as (P & HP & _); [eauto|apply Hwf].
    - rewrite lookup_insert_eq. eauto. }
  exists p, s1, P, t, f. split_and!; try done.
  destruct (thread_at s1 p s.(current)) as [u|] eqn:Hu; [|done].
  apply (joined_converted s tk) in Hu as (_ & P' & T & Hc); [|done..].
  apply caller_thread_for in Hc. congruence.
Qed.

(** With memory, and with the links of freed objects still readable, every
    event has an outcome. *)
Lemma event_has_outcome s tk e :
  wf s -> stale_reads = true -> (forall used, is_Some (kmalloc used)) ->
  s.(tasks) !! s.(current) = Some tk -> e <> ETimer ->
  exists r s', task_outcome s tk e r s'.
Proof.
  intros Hwf Hstale Hmem Htk He.
  assert (forall p P, s.(process_heap) !! p = Some P ->
            is_Some (kfree_each (hash_each P.(fibers)) s.(fiber_heap)) /\
            is_Some (kfree_each (hash_each P.(threads)) s.(thread_heap))) as Hfree.
  { intros p P HP. destruct (ho_process _ _ _ _ (wf_heap _ Hwf) p P HP) as [Ht Hf _ _ _].
    split; apply kfree_each_some; try done; try apply Ht; try apply Hf; intros q Hq.
    - apply Hf in Hq as (a & -> & _). eauto.
    - apply Ht in Hq as (a & -> & _). eauto. }
  destruct (thread_for s tk.(tgid) s.(current)) as [t|] eqn:Ht.
  - destruct (caller_intro _ _ _ _ Hwf Ht) as (p & P & T & Hc).
    destruct (caller_fiber _ _ _ _ _ _ _ Hwf Hc) as (f & F & Hsel & HF & HA & Hpar & Hrun).
    destruct (Hfree p P) as [[fh Hfh] [th Hth]]; [apply Hc|].
    destruct e as [|sp sz fn param|id|op| | |]; [..|done].
    + eexists _, _. by eapply out_convert_again.
    + destruct (Hmem (dom s.(fiber_heap))) as [g Hg]. eexists _, _. by eapply out_create.
    + destruct (fiber_at s p id) as [g|] eqn:Hg.
      * pose proof Hc as [Hp HP _ _].
        pose proof Hg as (G & HG & _)%(fiber_at_Some s p P); [|apply Hwf|done].
        destruct (G.(attached_thread)) eqn:HGA; eexists _, _;
          [by eapply out_switch_busy|by eapply out_switch].
      * eexists _, _. apply out_switch_none. right. unfold fiber_for.
        by rewrite (ca_process _ _ _ _ _ _ _ Hc).
    + eexists _, _. by eapply out_fls.
    + destruct (decide (P.(active_threads) = 1)); eexists _, _;
        [by eapply out_exit_last|by eapply out_exit].
    + eexists _, _. by eapply out_close; [apply Hc..| |].
  - destruct e as [|sp sz fn param|id|op| | |]; [..|done].
    + destruct (convert_possible s tk Hwf Hmem Ht) as (p & s1 & P & u & f & ? & ? & ? & ? & ?).
      eexists _, _. by eapply out_convert.
    + eexists _, _. by apply out_create_none.
    + eexists _, _. apply out_switch_none. by left.
    + eexists _, _. apply out_fls_none. by apply running_none.
    + eexists _, _. by apply out_exit_other.
    + destruct (process_at s tk.(tgid)) as [p|] eqn:Hp; [|eexists _, _; by apply out_close_other].
      pose proof Hp as (P & HP & _)%process_at_Some; [|apply Hwf].
      destruct (Hfree p P HP) as [[fh Hfh] [th Hth]].
      eexists _, _. by eapply out_close.
Qed.

Lemma timer_has_outcome s :
  wf s -> (forall pid, s.(prev_task) = Some pid -> is_Some (s.(tasks) !! pid)) ->
  exists r s', outcome s ETimer r s'.
Proof.
  intros Hwf Hprev. destruct (s.(prev_task)) as [pid|] eqn:Hp.
  2: { eexists _, _. by apply out_timer_first. }
  destruct (Hprev pid) as [tk Htk]; [done|].
  destruct (process_at s tk.(tgid)) as [p|] eqn:Hpr.
  2: { eexists _, _. by eapply out_timer_other. }
  pose proof Hpr as (P & HP & _)%process_at_Some; [|apply Hwf].
  destruct (thread_at s p pid) as [t|] eqn:Ht.
  2: { eexists _, _. by eapply out_timer_unconverted. }
  destruct (caller_intro s tk pid t Hwf) as (p' & P' & T & Hc).
  { unfold thread_for. by rewrite Hpr. }
  destruct (caller_fiber _ _ _ _ _ _ _ Hwf Hc) as (f & F & Hsel & HF & _).
  eexists _, _. by eapply out_timer.
Qed.

(** C8: In every state the module can reach (in fewer than 2^31 steps, as many
    as there are fiber ids) the tables and the heaps agree, the locks are held
    exactly by the fibers that run, and every converted thread runs a fiber. *)
Theorem reachable_wf n s : reach n s -> n <= INT_MAX -> wf s.
Proof. intros Hr Hn. by apply reach_good in Hr as [_ [? _]]. Qed.

(** C2: Mutual exclusion.  A fiber is run by at most one task; while a task
    runs it, the fiber is locked and attached to the thread of the task. *)
Theorem mutual_exclusion n s g pid f :
  reach n s -> n <= INT_MAX -> running s g pid = Some f ->
  (exists t F, thread_for s g pid = Some t /\ s.(fiber_heap) !! f = Some F /\
     F.(attached_thread) = Some t /\ spin_is_locked F.(fiber_lock) = true) /\
  forall g' pid', running s g' pid' = Some f -> g' = g /\ pid' = pid.
Proof.
  intros Hr Hn Hf. apply reach_good in Hr as [_ [Hwf _]]; [|done].
  destruct (running_Some _ _ _ _ Hwf Hf) as (t & T & F & Ht & _ & _ & HF & HA & HL & _).
  split; [eauto 10|]. intros g' pid' Hf'.
  destruct (running_Some _ _ _ _ Hwf Hf') as (t' & T' & F' & Ht' & _ & _ & HF' & HA' & _).
  simplify_eq. by eapply thread_for_inj.
Qed.

(** C9: A handler returns [r] and leaves the module in state [s'] exactly when
    the branch-by-branch description of its event says so. *)
Theorem event_exact n s e r s' :
  reach n s -> n < INT_MAX -> (run_event e s = Some (r, s') <-> outcome s e r s').
Proof.
  intros Hr Hn. apply reach_good in Hr as [? Hg]; [|lia]. split; intros Hx.
  - by eapply event_outcome_aux.
  - by eapply outcome_event_aux.
Qed.

(** C10: No handler faults or spins: with memory available, with the links of
    freed objects still readable, and with the running and the previous task
    alive, every event returns. *)
Theorem event_returns n s e :
  reach n s -> n < INT_MAX -> stale_reads = true ->
  (forall used, is_Some (kmalloc used)) -> is_Some (s.(tasks) !! s.(current)) ->
  (forall pid, s.(prev_task) = Some pid -> is_Some (s.(tasks) !! pid)) ->
  exists r s', run_event e s = Some (r, s').
Proof.
  intros Hr Hn Hstale Hmem [tk Htk] Hprev. apply reach_good in Hr as [? Hg]; [|lia].
  destruct (decide (e = ETimer)) as [->|He].
  - destruct (timer_has_outcome s) as (r & s' & Ho); [apply Hg|done|].
    exists r, s'. by eapply outcome_event_aux.
  - destruct (event_has_outcome s tk e) as (r & s' & Ho); [apply Hg|done..|].
    exists r, s'. eapply outcome_event_aux; [done..|]. by eapply out_task.
Qed.
End Exclusion.

(** ** Applications to a run *)

Import Reference.

Lemma reachable_wf_witness : wf (played setup_switched).
Proof. apply (reachable_wf 8); [apply (played_reach setup_switched)|done]. Defined.

Lemma mutual_exclusion_witness :
  exists f, running (played setup_switched) 10 10 = Some f /\
    forall pid, running (played setup_switched) 10 pid = Some f -> 10 = 10 /\ pid = 10.
Proof.
  exists 2%positive. assert (running (played setup_switched) 10 10 = Some 2%positive) as H.
  { vm_compute. reflexivity. }
  split; [exact H|].
  destruct (mutual_exclusion 8 (played setup_switched) 10 10 2%positive) as [_ Hx];
    [apply (played_reach setup_switched)|done|exact H|].
  intros pid Hpid. exact (Hx 10 pid Hpid).
Defined.

Lemma event_exact_witness :
  exists r s', outcome (set_current 11 (played setup)) (ESwitch 2) r s'.
Proof.
  destruct (returns_Some (run_event (ESwitch 2) (set_current 11 (played setup)))) as [[r s'] He].
  { vm_compute. reflexivity. }
  exists r, s'. apply (event_exact 7); [|done|exact He].
  apply (schedule_reach 6), (played_reach setup).
Defined.

Lemma event_returns_witness :
  exists r s', run_event EExit (played setup_switched) = Some (r, s').
Proof.
  apply (event_returns 8); [apply (played_reach setup_switched)|done|done| | |].
  - intros used. eexists. reflexivity.
  - apply returns_Some. vm_compute. reflexivity.
  - assert (prev_task (played setup_switched) = None) as -> by (vm_compute; reflexivity).
    discriminate.
Defined.
