(* ===== verification/Switching.v ===== *)
(** * Context switches

    What a thread finds after a switch: the context of the fiber it asked for,
    as it was when the fiber last stopped running, whatever happened in
    between and whichever thread ran it. *)

From S2P Require Import Prelude Kernel State CStr Fibers Heap Runs Kprobes Safety Fls Outcome System Scenario.

Section Parked.
Context {K : Kernel}.

(** What a fiber carries from one activation to the next. *)
Definition saved_context (F : fiber) : pt_regs * fx_regs * list Z * bitmap :=
  (F.(registers), F.(fpu), F.(fls), F.(fls_bitmap)).

(** What identifies it. *)
Definition identity (F : fiber) : Z * ptr * Z * Z * list ascii :=
  (F.(fiber_id), F.(parent_process), F.(fiber_stack), F.(fiber_stack_size), F.(name)).

(** A fiber no thread runs. *)
Definition parked (f : ptr) (s : kstate) : Prop :=
  exists F, s.(fiber_heap) !! f = Some F /\ F.(attached_thread) = None.

(** Steps of the system through states in which fiber [f] is parked. *)
Inductive parked_path (f : ptr) : Z -> kstate -> kstate -> Prop :=
  | parked_nil s : parked f s -> parked_path f 0 s s
  | parked_cons k s s' s'' :
      parked f s -> step s s' -> parked_path f k s' s'' -> parked_path f (k + 1) s s''.

Context {KOk : KernelOk K}.

(** The fiber a converted task runs is attached to its thread. *)
Lemma selected_attached s tk pid p P t T f F :
  wf s -> caller s tk pid p P t T -> T.(selected_fiber) = Some f ->
  s.(fiber_heap) !! f = Some F -> F.(attached_thread) = Some t.
Proof.
  intros Hwf Hc Hsel HF. destruct (caller_fiber _ _ _ _ _ _ _ Hwf Hc) as (g & G & ? & ? & ? & _).
  by simplify_eq.
Qed.

Lemma joined_heaps s g p s1 :
  joined s g p s1 ->
  s1.(fiber_heap) = s.(fiber_heap) /\
  forall q Q Q', s.(process_heap) !! q = Some Q -> s1.(process_heap) !! q = Some Q' -> Q' = Q.
Proof.
  intros [q Hq|q Hq Hk]; (split; [done|]); simpl.
  - intros q' Q Q' ? ?. by simplify_eq.
  - intros q' Q Q' HQ HQ'. apply kmalloc_none in Hk.
    rewrite lookup_insert_ne in HQ' by congruence. by simplify_eq.
Qed.

Lemma kfree_each_keeps {A} l (m m' : gmap ptr A) p a a' :
  kfree_each l m = Some m' -> m !! p = Some a -> m' !! p = Some a' -> a' = a.
Proof. intros Hm Ha. rewrite (kfree_each_lookup _ _ _ p Hm). case_decide; [done|]. congruence. Qed.

(** A step that finds a fiber parked leaves its context alone. *)
Lemma parked_step n s s' f F F' :
  good n s -> 0 <= n < INT_MAX -> step s s' ->
  s.(fiber_heap) !! f = Some F -> F.(attached_thread) = None -> s'.(fiber_heap) !! f = Some F' ->
  saved_context F' = saved_context F /\ identity F' = identity F.
Proof.
  intros Hg Hn Hs HF HA HF'. pose proof Hg as [Hwf _].
  assert (F' = F -> saved_context F' = saved_context F /\ identity F' = identity F) as Hid by (by intros ->).
  destruct Hs as [e r s s' Hrun|s s' (_ & _ & _ & _ & Hfh)]; [|rewrite Hfh in HF'; apply Hid; congruence].
  apply (event_outcome_aux n) in Hrun; [|done..].
  destruct Hrun as [tk e r s' Htk Ho| | | |pid tk p P t T g G Hprev Htk Hc Hsel HG];
    try (apply Hid; simpl in *; congruence).
  - destruct Ho as [p P t T Hc|p s1 P t g Hj HP Ht Hkt Hkf| |sp sz fn param p P t T g Hc Hk|
      |id p P t T g G u Hc Hf HG HGA|id p P t T g G prev Pv Hc Hf HG HGA Hsel HPv|op Hnone|op g G Hr HG|Hnone
      |p P t T g G Hc Hsel HG Hact|p P t T fh Hc Hact Hfree|Hp|p P th fh Hp HP Hth Hfh]; simpl in HF';
      try (apply Hid; congruence).
    + destruct (joined_heaps _ _ _ _ Hj) as [Hfh _]. rewrite Hfh in *. apply kmalloc_none in Hkf.
      rewrite lookup_insert_ne in HF' by congruence. apply Hid. congruence.
    + apply kmalloc_none in Hk. rewrite lookup_insert_ne in HF' by congruence. apply Hid. congruence.
    + apply lookup_insert_Some in HF' as [[<- <-]|[_ HF']]; [by simplify_eq|]. apply Hid. congruence.
    + pose proof (selected_attached _ _ _ _ _ _ _ _ _ Hwf Hc Hsel HPv).
      apply lookup_insert_Some in HF' as [[<- <-]|[_ HF']]; [congruence|].
      apply lookup_insert_Some in HF' as [[<- <-]|[_ HF']]; [by simplify_eq|]. apply Hid. congruence.
    + destruct (running_caller _ _ _ _ Hwf Hr) as (p & P & t & T & Hc & Hsel).
      pose proof (selected_attached _ _ _ _ _ _ _ _ _ Hwf Hc Hsel HG).
      apply lookup_insert_Some in HF' as [[<- <-]|[_ HF']]; [congruence|]. apply Hid. congruence.
    + pose proof (selected_attached _ _ _ _ _ _ _ _ _ Hwf Hc Hsel HG).
      apply lookup_insert_Some in HF' as [[<- <-]|[_ HF']]; [congruence|]. apply Hid. congruence.
    + apply Hid. by eapply kfree_each_keeps.
    + apply Hid. by eapply kfree_each_keeps.
  - simpl in HF'. apply lookup_insert_Some in HF' as [[<- <-]|[_ HF']]; [by simplify_eq|].
    apply Hid. congruence.
Qed.

(** A process that stays keeps its id. *)
Lemma step_process_id n s s' p P P' :
  good n s -> 0 <= n < INT_MAX -> step s s' ->
  s.(process_heap) !! p = Some P -> s'.(process_heap) !! p = Some P' ->
  P'.(process_id) = P.(process_id).
Proof.
  intros Hg Hn Hs HP HP'. pose proof Hg as [Hwf _].
  destruct Hs as [e r s s' Hrun|s s' (_ & _ & Hph & _ & _)]; [|rewrite Hph in HP'; congruence].
  apply (event_outcome_aux n) in Hrun; [|done..].
  destruct Hrun as [tk e r s' Htk Ho| | | |]; try (simpl in *; congruence).
  destruct Ho as [q Q t T Hc|q s1 Q t g Hj HQ Ht Hkt Hkf| |sp sz fn param q Q t T g Hc Hk|
    |id q Q t T g G u Hc Hf HG HGA|id q Q t T g G prev Pv Hc Hf HG HGA Hsel HPv|op Hnone|op g G Hr HG|Hnone
    |q Q t T g G Hc Hsel HG Hact|q Q t T fh Hc Hact Hfree|Hp|q Q th fh Hp HQ Hth Hfh]; simpl in HP';
    try congruence.
  - destruct (joined_heaps _ _ _ _ Hj) as [_ Hkeep].
    apply lookup_insert_Some in HP' as [[<- <-]|[_ HP']]; simpl; f_equal; eauto.
  - apply lookup_insert_Some in HP' as [[<- <-]|[_ HP']]; [|congruence].
    destruct Hc. simpl. congruence.
  - apply lookup_insert_Some in HP' as [[<- <-]|[_ HP']]; [|congruence].
    destruct Hc. simpl. congruence.
  - apply lookup_delete_Some in HP' as [_ HP']. congruence.
  - apply lookup_delete_Some in HP' as [_ HP']. congruence.
Qed.

Lemma parked_path_keeps f k s s' n F F' :
  parked_path f k s s' -> good n s -> 0 <= n -> n + k <= INT_MAX ->
  s.(fiber_heap) !! f = Some F -> s'.(fiber_heap) !! f = Some F' ->
  0 <= k /\ good (n + k) s' /\ saved_context F' = saved_context F /\ identity F' = identity F /\
  (forall P P', s.(process_heap) !! F.(parent_process) = Some P ->
     s'.(process_heap) !! F.(parent_process) = Some P' -> P'.(process_id) = P.(process_id)).
Proof.
  intros Hp. revert n F. induction Hp as [s _|k s s1 s' (F0 & HF0 & HA) Hs Hp IH]; intros n F Hg Hn Hk HF HF'.
  - rewrite Z.add_0_r. simplify_eq. split_and!; [lia|done..|]. intros. by simplify_eq.
  - assert (F0 = F) as -> by congruence.
    assert (0 <= k) as Hk0. { clear -Hp. induction Hp; lia. }
    assert (exists F1, s1.(fiber_heap) !! f = Some F1) as [F1 HF1].
    { inversion Hp as [? (F1 & ? & _)|? ? ? ? (F1 & ? & _)]; eauto. }
    assert (good (n + 1) s1) as Hg1 by (eapply step_good; [done|lia|done]).
    destruct (parked_step n s s1 f F F1) as [Hsave Hid]; [done|lia|done..|].
    destruct (IH (n + 1) F1) as (_ & Hg' & Hsave' & Hid' & Hproc); [done|lia..|done|done|].
    split_and!; [lia|by replace (n + (k + 1)) with (n + 1 + k) by lia|congruence|congruence|].
    intros P P' HP HP'. assert (F1.(parent_process) = F.(parent_process)) as Heq by (unfold identity in *; congruence).
    rewrite Heq in Hproc.
    destruct (ho_fiber _ _ _ _ (wf_heap _ (proj1 Hg1)) f F1 HF1) as [[P1 HP1] _ _ _ _].
    rewrite Heq in HP1. rewrite (Hproc P1 P' HP1 HP').
    by apply (step_process_id n s s1 F.(parent_process)); [|lia|..].
Qed.

(** A switch that succeeds. *)
Lemma switch_inv n s tk id s' :
  good n s -> 0 <= n < INT_MAX -> s.(tasks) !! s.(current) = Some tk ->
  do_SwitchToFiber id s.(current) s = Some (0, s') ->
  exists p P t T f F prev Pv,
    caller s tk s.(current) p P t T /\ fiber_at s p id = Some f /\
    s.(fiber_heap) !! f = Some F /\ F.(attached_thread) = None /\
    T.(selected_fiber) = Some prev /\ s.(fiber_heap) !! prev = Some Pv /\
    Pv.(attached_thread) = Some t /\ prev <> f /\ s' = switched t T prev f Pv F tk s.
Proof.
  intros [Hwf _] Hn Htk Hrun. eapply switch_outcome in Hrun; [|done..].
  remember 0 as r eqn:Hr. inversion Hrun as [| | | | | |id' p P t T f F prev Pv Hc Hf HF HA Hsel HPv| | | | | | |]; subst; try done.
  pose proof (selected_attached _ _ _ _ _ _ _ _ _ Hwf Hc Hsel HPv).
  exists p, P, t, T, f, F, prev, Pv. split_and!; [done..| |done]. intros ->. congruence.
Qed.

Lemma switched_running s tk p P t T prev f Pv F :
  caller s tk s.(current) p P t T ->
  running (switched t T prev f Pv F tk s) tk.(tgid) s.(current) = Some f.
Proof.
  intros [Hp HP Ht HT]. unfold running, thread_for, process_at, thread_at. simpl.
  unfold process_at in Hp. rewrite Hp. simpl. rewrite HP. simpl.
  assert (at_key (<[t := set_selected_fiber (Some f) T]> s.(thread_heap)) thread_id s.(current) P.(threads) = Some t) as ->.
  { unfold thread_at in Ht. rewrite HP in Ht. simpl in Ht. revert Ht. unfold at_key.
    generalize (hash_possible P.(threads) s.(current)) as l.
    assert (forall l o, find_loop (<[t := set_selected_fiber (Some f) T]> s.(thread_heap)) thread_id s.(current) l = o <->
                    find_loop s.(thread_heap) thread_id s.(current) l = o) as Heq.
    { intros l o. enough (find_loop (<[t := set_selected_fiber (Some f) T]> s.(thread_heap)) thread_id s.(current) l =
        find_loop s.(thread_heap) thread_id s.(current) l) as -> by done.
      induction l as [|q l IH]; simpl; [done|]. destruct (decide (t = q)) as [<-|Hne].
      - rewrite lookup_insert_eq, HT. simpl. by rewrite IH.
      - rewrite lookup_insert_ne by done. by rewrite IH. }
    intros l. destruct (find_loop s.(thread_heap) thread_id s.(current) l) eqn:E; simpl; [|done].
    apply Heq in E. by rewrite E. }
  simpl. by rewrite lookup_insert_eq.
Qed.
End Parked.

(** ** What a switch does *)

Section Switches.
Context {K : Kernel} {KOk : KernelOk K}.

(** C11: A switch to a free fiber of the process.  The call returns 0; the
    running task continues with the registers and the FPU state of that fiber
    and runs it from now on; the fiber it left holds the registers and the FPU
    state the task had, is free and unlocked, and keeps its local storage; no
    other fiber, task or process changes. *)
Theorem switch_success n s tk prev Pv id f F :
  reach n s -> n < INT_MAX -> s.(tasks) !! s.(current) = Some tk ->
  running s tk.(tgid) s.(current) = Some prev -> s.(fiber_heap) !! prev = Some Pv ->
  fiber_for s tk.(tgid) id = Some f -> s.(fiber_heap) !! f = Some F -> F.(attached_thread) = None ->
  exists s' Pv' F',
    do_SwitchToFiber id s.(current) s = Some (0, s') /\
    s'.(tasks) !! s.(current) = Some (Task tk.(tgid) tk.(utime) F.(registers) F.(fpu)) /\
    running s' tk.(tgid) s.(current) = Some f /\
    s'.(fiber_heap) !! prev = Some Pv' /\
    saved_context Pv' = (tk.(regs), tk.(fx), Pv.(fls), Pv.(fls_bitmap)) /\
    identity Pv' = identity Pv /\ Pv'.(attached_thread) = None /\
    spin_is_locked Pv'.(fiber_lock) = false /\
    s'.(fiber_heap) !! f = Some F' /\ saved_context F' = saved_context F /\
    identity F' = identity F /\ F'.(activation_counter) = u64 (F.(activation_counter) + 1) /\
    (forall g, g <> f -> g <> prev -> s'.(fiber_heap) !! g = s.(fiber_heap) !! g) /\
    (forall pid, pid <> s.(current) -> s'.(tasks) !! pid = s.(tasks) !! pid) /\
    s'.(processes) = s.(processes) /\ s'.(process_heap) = s.(process_heap).
Proof.
  intros Hr Hn Htk Hrun HPv Hf HF HA. apply reach_good in Hr as [? [Hwf _]]; [|lia].
  destruct (running_caller _ _ _ _ Hwf Hrun) as (p & P & t & T & Hc & Hsel).
  pose proof (selected_attached _ _ _ _ _ _ _ _ _ Hwf Hc Hsel HPv) as HPA.
  pose proof Hc as [Hp HP Ht HT].
  assert (fiber_at s p id = Some f) as Hf' by (unfold fiber_for in Hf; by rewrite Hp in Hf).
  pose proof (locked_attached _ _ _ Hwf HF) as Hlock. rewrite HA in Hlock.
  assert (prev <> f) by (intros ->; congruence).
  exists (switched t T prev f Pv F tk s), (leave_fiber tk Pv), (enter_fiber t F).
  split; [eapply switch_run; [apply Hwf|done..]|]. unfold switched. simpl.
  rewrite !lookup_insert_eq. split; [done|]. split; [by eapply switched_running|].
  do 3 (split; [done|]). split; [done|]. split; [apply spin_unlock_free|].
  rewrite lookup_insert_ne, lookup_insert_eq by done. split_and!; try done.
  - intros g ? ?. by rewrite !lookup_insert_ne.
  - intros pid ?. by rewrite lookup_insert_ne.
Qed.

(** A switch to a fiber that is running, on any thread, is refused: the call
    returns -1 and only counts the failed activation. *)
Theorem switch_refused n s tk prev id f F u :
  reach n s -> n < INT_MAX -> s.(tasks) !! s.(current) = Some tk ->
  running s tk.(tgid) s.(current) = Some prev ->
  fiber_for s tk.(tgid) id = Some f -> s.(fiber_heap) !! f = Some F ->
  F.(attached_thread) = Some u ->
  exists F',
    do_SwitchToFiber id s.(current) s = Some (-1, set_fiber_heap (<[f := F']> s.(fiber_heap)) s) /\
    saved_context F' = saved_context F /\ identity F' = identity F /\
    F'.(attached_thread) = Some u /\ spin_is_locked F'.(fiber_lock) = true /\
    F'.(activation_counter) = F.(activation_counter) /\
    F'.(failed_activation_counter) = s64 (F.(failed_activation_counter) + 1) /\
    F'.(total_time) = F.(total_time).
Proof.
  intros Hr Hn Htk Hrun Hf HF HA. apply reach_good in Hr as [? [Hwf _]]; [|lia].
  destruct (running_caller _ _ _ _ Hwf Hrun) as (p & P & t & T & Hc & Hsel).
  pose proof Hc as [Hp HP Ht HT].
  assert (fiber_at s p id = Some f) as Hf' by (unfold fiber_for in Hf; by rewrite Hp in Hf).
  pose proof (locked_attached _ _ _ Hwf HF) as Hlock. rewrite HA in Hlock.
  eexists. split; [eapply switch_busy_run; [apply Hwf|done..]|]. simpl.
  split_and!; (done || apply spin_trylock_locks).
Qed.

(** A switch by a thread that was not converted, or to an id that is not a
    fiber of the process, returns -1 and changes nothing. *)
Theorem switch_missing n s tk id :
  reach n s -> n < INT_MAX -> s.(tasks) !! s.(current) = Some tk ->
  running s tk.(tgid) s.(current) = None \/ fiber_for s tk.(tgid) id = None ->
  do_SwitchToFiber id s.(current) s = Some (-1, s).
Proof.
  intros Hr Hn Htk Hnone. apply reach_good in Hr as [? [Hwf _]]; [|lia].
  eapply switch_missing_run; [apply Hwf|done|]. by rewrite <- (running_none s tk) by done.
Qed.

(** C3: The context round trip.  A task that switches away from its fiber leaves
    it parked; whatever is executed while the fiber is parked, by whichever
    thread of the process it is activated next, that thread continues with
    exactly the registers and the FPU state the first one had, and finds the
    fiber's local storage as it was. *)
Theorem context_round_trip n k s0 s1 s2 s3 tk0 tk2 f F0 other :
  reach n s0 -> n + k + 2 <= INT_MAX ->
  s0.(tasks) !! s0.(current) = Some tk0 -> running s0 tk0.(tgid) s0.(current) = Some f ->
  s0.(fiber_heap) !! f = Some F0 ->
  do_SwitchToFiber other s0.(current) s0 = Some (0, s1) ->
  parked_path f k s1 s2 ->
  s2.(tasks) !! s2.(current) = Some tk2 -> tk2.(tgid) = tk0.(tgid) ->
  do_SwitchToFiber F0.(fiber_id) s2.(current) s2 = Some (0, s3) ->
  exists tk3 F3,
    s3.(tasks) !! s2.(current) = Some tk3 /\ tk3.(regs) = tk0.(regs) /\ tk3.(fx) = tk0.(fx) /\
    running s3 tk3.(tgid) s2.(current) = Some f /\ s3.(fiber_heap) !! f = Some F3 /\
    F3.(fls) = F0.(fls) /\ F3.(fls_bitmap) = F0.(fls_bitmap) /\ identity F3 = identity F0.
Proof.
  intros Hr Hn Htk0 Hrun HF0 Hsw1 Hpath Htk2 Htg Hsw2.
  assert (0 <= k) as Hk by (clear -Hpath; induction Hpath; lia).
  apply reach_good in Hr as [Hn0 Hg0]; [|lia]. pose proof Hg0 as [Hwf0 _].
  assert (good (n + 1) s1) as Hg1.
  { eapply step_good; [done|lia|]. apply step_event with (e := ESwitch other) (r := 0). by rewrite run_event_eq. }
  destruct (switch_inv _ _ _ _ _ Hg0 ltac:(lia) Htk0 Hsw1)
    as (p & P & t & T & g & G & prev & Pv & Hc & Hg & HG & HGA & Hsel & HPv & HPA & Hne & Hs1).
  assert (prev = f) as ->.
  { destruct (caller_fiber _ _ _ _ _ _ _ Hwf0 Hc) as (f' & F' & ? & _ & _ & _ & ?). congruence. }
  assert (Pv = F0) as -> by congruence. subst s1.
  destruct (caller_fiber _ _ _ _ _ _ _ Hwf0 Hc) as (f' & F' & Hf' & HF' & _ & Hpar & _).
  assert (f' = f) as -> by congruence. assert (F' = F0) as -> by congruence. clear Hf' HF'.
  set (s1 := switched t T f g F0 G tk0 s0) in *.
  assert (s1.(fiber_heap) !! f = Some (leave_fiber tk0 F0)) as HF1 by (simpl; by rewrite lookup_insert_eq).
  assert (exists F2, s2.(fiber_heap) !! f = Some F2) as [F2 HF2].
  { clear -Hpath. induction Hpath as [s (F & ? & _)|]; eauto. }
  destruct (parked_path_keeps f k s1 s2 (n + 1) (leave_fiber tk0 F0) F2)
    as (_ & Hg2 & Hsave & Hid & Hproc); [done..|lia|lia|done|done|].
  pose proof Hg2 as [Hwf2 _].
  destruct (switch_inv (n + 1 + k) s2 tk2 F0.(fiber_id) s3)
    as (p2 & P2 & t2 & T2 & f2 & F2' & prev2 & Pv2 & Hc2 & Hf2 & HF2' & HA2 & Hsel2 & HPv2 & HPA2 & Hne2 & Hs3);
    [done|lia|done..|].
  assert (F2.(fiber_id) = F0.(fiber_id)) as HidF by (unfold identity in Hid; simpl in Hid; congruence).
  assert (F2.(parent_process) = p) as HparF by (unfold identity in Hid; simpl in Hid; congruence).
  destruct (ho_fiber _ _ _ _ (wf_heap _ Hwf2) f F2 HF2) as [[Pp HPp] _ _ _ _]. rewrite HparF in HPp.
  assert (p2 = p) as ->.
  { pose proof Hc as [Hp HP _ _]. pose proof Hc2 as [Hp2 HP2 _ _].
    apply process_at_Some in Hp as (P' & ? & HPid); [|apply Hwf0]. assert (P' = P) as -> by congruence.
    assert (process_at s2 tk2.(tgid) = Some p) as Heq; [|congruence].
    apply process_at_Some; [apply Hwf2|]. exists Pp. split; [done|]. rewrite Htg, <- HPid.
    rewrite <- Hpar in HP, HPp. by apply (Hproc P Pp). }
  assert (f2 = f) as ->.
  { assert (fiber_at s2 p (fiber_id F0) = Some f) as Heq; [|congruence].
    eapply fiber_at_Some; [apply Hwf2|apply Hc2|]. by exists F2. }
  assert (F2' = F2) as -> by congruence. subst s3.
  exists (resume_task F2 tk2), (enter_fiber t2 F2).
  injection Hsave as Hregs Hfpu Hfls Hbits. simpl. rewrite lookup_insert_eq. split_and!; try done.
  - by apply (switched_running s2 tk2 p P2).
  - rewrite lookup_insert_ne, lookup_insert_eq by done. done.
Qed.
End Switches.

(** ** Applications to a run *)

Import Reference.

(** Thread 10, running fiber 1, is about to act; fiber 2 is free and thread 11
    runs fiber 3. *)
Definition thread_10 : kstate := set_current 10 (played setup).

Lemma thread_10_reach : reach 7 thread_10.
Proof. apply (schedule_reach 6), (played_reach setup). Qed.

#[global] Opaque thread_10.

Lemma switch_success_witness :
  exists s', do_SwitchToFiber 2 10 thread_10 = Some (0, s') /\ running s' 10 10 = Some 2%positive.
Proof.
  computed (tasks thread_10 !! 10) tk Htk. computed (fiber_heap thread_10 !! 1%positive) Pv HPv.
  computed (fiber_heap thread_10 !! 2%positive) F HF.
  assert (tgid tk = 10) as Hg by computed_field Htk.
  destruct (switch_success 7 thread_10 tk 1 Pv 2 2 F) as (s' & Pv' & F' & H1 & _ & H2 & _);
    [apply thread_10_reach|done|exact Htk|rewrite Hg; vm_compute; reflexivity|exact HPv
    |rewrite Hg; vm_compute; reflexivity|exact HF|computed_field HF|].
  rewrite Hg in H2. exists s'. split; [exact H1|exact H2].
Defined.

Lemma switch_refused_witness :
  exists s', do_SwitchToFiber 3 10 thread_10 = Some (-1, s').
Proof.
  computed (tasks thread_10 !! 10) tk Htk. computed (fiber_heap thread_10 !! 3%positive) F HF.
  assert (tgid tk = 10) as Hg by computed_field Htk.
  destruct (switch_refused 7 thread_10 tk 1 3 3 F 2) as (F' & H1 & _);
    [apply thread_10_reach|done|exact Htk|rewrite Hg; vm_compute; reflexivity
    |rewrite Hg; vm_compute; reflexivity|exact HF|computed_field HF|].
  eexists. exact H1.
Defined.

Lemma switch_missing_witness : do_SwitchToFiber 4 10 thread_10 = Some (-1, thread_10).
Proof.
  computed (tasks thread_10 !! 10) tk Htk. assert (tgid tk = 10) as Hg by computed_field Htk.
  apply (switch_missing 7 thread_10 tk 4); [apply thread_10_reach|done|exact Htk|].
  right. rewrite Hg. vm_compute. reflexivity.
Defined.

(** Thread 10 switches to fiber 2; thread 11 then takes fiber 1, and continues
    where thread 10 was. *)
Lemma context_round_trip_witness :
  exists s1 s3 tk3,
    do_SwitchToFiber 2 10 thread_10 = Some (0, s1) /\
    do_SwitchToFiber 1 11 (set_current 11 s1) = Some (0, s3) /\
    s3.(tasks) !! 11 = Some tk3 /\ tk3.(regs) = user_regs 1.
Proof.
  computed (tasks thread_10 !! 10) tk0 Htk0. computed (fiber_heap thread_10 !! 1%positive) F0 HF0.
  assert (tgid tk0 = 10) as Hg by computed_field Htk0.
  assert (regs tk0 = user_regs 1) as Hregs by computed_field Htk0.
  assert (fiber_id F0 = 1) as Hid by computed_field HF0.
  pose (after := do_SwitchToFiber 2 10 thread_10). computed after x Hx. destruct x as [r s1].
  assert (r = 0) as -> by (apply (fmap_field fst _ _ _ Hx); vm_compute; reflexivity).
  pose (s2 := set_current 11 (default boot (snd <$> after))).
  assert (set_current 11 s1 = s2) as Hs2 by (unfold s2; by rewrite Hx).
  computed (tasks s2 !! 11) tk2 Htk2. computed (fiber_heap s2 !! 1%positive) F2 HF2.
  computed (do_SwitchToFiber 1 11 s2) y Hy. destruct y as [r3 s3].
  assert (r3 = 0) as -> by (apply (fmap_field fst _ _ _ Hy); vm_compute; reflexivity).
  assert (tgid tk2 = 10) as Hg2 by computed_field Htk2.
  assert (attached_thread F2 = None) as HA by computed_field HF2.
  rewrite <- Hs2 in Htk2, HF2, Hy.
  destruct (context_round_trip 7 1 thread_10 s1 (set_current 11 s1) s3 tk0 tk2 1 F0 2)
    as (tk3 & F3 & H1 & H2 & _);
    [apply thread_10_reach|done|exact Htk0|rewrite Hg; vm_compute; reflexivity|exact HF0|exact Hx| |exact Htk2
    |rewrite Hg2, Hg; reflexivity|rewrite Hid; exact Hy|].
  - apply (parked_cons 1 0 s1 (set_current 11 s1)).
    + exists F2. split; [exact HF2|exact HA].
    + apply step_outside. repeat split.
    + apply parked_nil. exists F2. split; [exact HF2|exact HA].
  - exists s1, s3, tk3. split; [exact Hx|]. split; [exact Hy|]. split; [exact H1|]. rewrite H2. exact Hregs.
Defined.
