(* ===== verification/Creation.v ===== *)
(** * Conversion and creation

    What the two operations that make a fiber return, and the context they give
    it: a converting thread goes on where it is, a created fiber starts at its
    function, with its argument, at the top of its stack. *)

From S2P Require Import Prelude Kernel State CStr Fibers Heap Runs Kprobes Safety Fls Outcome System Scenario Exclusion Switching.

Section Creation.
Context {K : Kernel} {KOk : KernelOk K}.

Lemma fiber_for_Some s g p P f F :
  wf s -> s.(process_heap) !! p = Some P -> P.(process_id) = g ->
  s.(fiber_heap) !! f = Some F -> F.(parent_process) = p ->
  fiber_for s g F.(fiber_id) = Some f.
Proof.
  intros Hwf HP Hid HF Hpar. unfold fiber_for.
  assert (process_at s g = Some p) as -> by (apply process_at_Some; [apply Hwf|eauto]).
  simpl. eapply fiber_at_Some; [apply Hwf|done|]. by exists F.
Qed.

(** No fiber of the process has an id above the last one given out. *)
Lemma fiber_for_above s g p P id :
  wf s -> process_at s g = Some p -> s.(process_heap) !! p = Some P -> P.(last_fiber_id) < id ->
  fiber_for s g id = None.
Proof.
  intros Hwf Hp HP Hid. unfold fiber_for. rewrite Hp. simpl.
  eapply fiber_at_None; [apply Hwf|done|]. intros f F HF Hof Heq.
  pose proof (po_ids _ _ _ _ (ho_process _ _ _ _ (wf_heap _ Hwf) p P HP) f F HF Hof). lia.
Qed.

Lemma slots_zero F : F.(fls_bitmap) = bitmap_zero MAX_FLS_POINTERS -> slots F = ∅.
Proof.
  intros Hb. apply map_eq. intros i. rewrite slots_lookup, lookup_empty. unfold slot. rewrite Hb.
  destruct (bad_index i) eqn:E; [done|]. apply bad_index_false in E.
  by rewrite bitmap_zero_test.
Qed.

(** C12: [do_CreateFiber] by a converted thread, with memory.  It returns a
    positive id no fiber of the process has, and the new fiber is found under
    it: free and unlocked, about to execute [fn] with [param] as first argument
    at the top of its stack, every other register and the FPU state being those
    of the creator, and its local storage empty.  Nothing else changes but the
    table of fibers of the process. *)
Theorem create_fiber n s tk cur f sp sz fn param :
  reach n s -> n < INT_MAX -> s.(tasks) !! s.(current) = Some tk ->
  running s tk.(tgid) s.(current) = Some cur -> kmalloc (dom s.(fiber_heap)) = Some f ->
  0 <= sz < 2 ^ 64 ->
  exists id s' F,
    do_CreateFiber sp sz fn param s.(current) s = Some (id, s') /\
    1 <= id /\ fiber_for s tk.(tgid) id = None /\ fiber_for s' tk.(tgid) id = Some f /\
    s.(fiber_heap) !! f = None /\ s'.(fiber_heap) = <[f := F]> s.(fiber_heap) /\
    F.(registers) = PtRegs fn param (u64 (sp + sz - 8)) (u64 (sp + sz - 8)) tk.(regs).(others) /\
    F.(fpu) = tk.(fx) /\ F.(attached_thread) = None /\ spin_is_locked F.(fiber_lock) = false /\
    F.(fiber_stack) = sp /\ F.(fiber_stack_size) = sz /\ slots F = ∅ /\
    F.(start_address) = fn /\ F.(creator_thread) = s.(current) /\
    F.(name) = snprintf 256 (format_ld id) /\
    s'.(tasks) = s.(tasks) /\ s'.(thread_heap) = s.(thread_heap) /\ s'.(processes) = s.(processes).
Proof.
  intros Hr Hn Htk Hrun Hk Hsz. apply reach_good in Hr as [? [Hwf Hids]]; [|lia].
  destruct (running_caller _ _ _ _ Hwf Hrun) as (p & P & t & T & Hc & _).
  pose proof Hc as [Hp HP Ht HT].
  pose proof (Hids p P HP). pose proof (last_fiber_id_nonneg _ _ _ Hwf HP).
  pose proof (kmalloc_none _ _ Hk) as Hf.
  pose proof Hp as (P' & HP' & Hg)%process_at_Some; [|apply Hwf].
  assert (P' = P) as -> by congruence. clear HP'.
  pose proof (wf_created s p P f sp sz fn param tk Hwf HP Hf) as Hwf'.
  eexists _, _, (created_fiber p (P.(last_fiber_id) + 1) sp sz fn param s.(current) tk).
  split; [eapply create_run; [apply Hwf|done..|lia]|].
  assert (u64 (if 0 <=? sz then sz else DEFAULT_STACK_SIZE) = sz) as Hsize.
  { destruct (0 <=? sz) eqn:E; [apply u64_small|]; lia. }
  simpl. unfold set_di, set_ip, set_bp, set_sp. simpl. rewrite Hsize. split_and!; try done.
  - lia.
  - eapply fiber_for_above; [done..|lia].
  - refine (fiber_for_Some _ _ p (process_with_fiber P f) f
              (created_fiber p (P.(last_fiber_id) + 1) sp sz fn param s.(current) tk) Hwf' _ Hg _ eq_refl);
      apply lookup_insert_eq.
  - apply spin_unlocked_free.
  - by apply slots_zero.
Qed.

(** C13: The stack pointer a created fiber starts with is eight bytes below the
    top of its stack: when the stack has at least eight bytes the word it points
    to lies in the stack, and it is aligned as the calling convention wants it at
    the entry of a function when base and size are multiples of 16.  A smaller
    stack is accepted, and the fiber starts below it. *)
Theorem create_stack n s tk cur f sp sz fn param :
  reach n s -> n < INT_MAX -> s.(tasks) !! s.(current) = Some tk ->
  running s tk.(tgid) s.(current) = Some cur -> kmalloc (dom s.(fiber_heap)) = Some f ->
  8 <= sp -> 0 <= sz -> sp + sz < 2 ^ 64 ->
  exists id s' F,
    do_CreateFiber sp sz fn param s.(current) s = Some (id, s') /\
    s'.(fiber_heap) !! f = Some F /\
    (8 <= sz -> sp <= F.(registers).(State.sp) /\ F.(registers).(State.sp) + 8 = sp + sz) /\
    (sz < 8 -> F.(registers).(State.sp) < sp) /\
    (sp mod 16 = 0 -> sz mod 16 = 0 -> (F.(registers).(State.sp) + 8) mod 16 = 0) /\
    F.(registers).(bp) = F.(registers).(State.sp).
Proof.
  intros Hr Hn Htk Hrun Hk Hsp Hsz Hsum. apply reach_good in Hr as [? [Hwf Hids]]; [|lia].
  destruct (running_caller _ _ _ _ Hwf Hrun) as (p & P & t & T & Hc & _).
  pose proof Hc as [Hp HP Ht HT].
  pose proof (Hids p P HP). pose proof (last_fiber_id_nonneg _ _ _ Hwf HP).
  eexists _, _, (created_fiber p (P.(last_fiber_id) + 1) sp sz fn param s.(current) tk).
  split; [eapply create_run; [apply Hwf|done..|lia]|].
  split; [apply lookup_insert_eq|].
  assert (u64 (if 0 <=? sz then sz else DEFAULT_STACK_SIZE) = sz) as Hsize.
  { destruct (0 <=? sz) eqn:E; [apply u64_small|]; lia. }
  simpl. rewrite Hsize, u64_small by lia. split_and!; try lia; try done.
  intros Hm1 Hm2. replace (sp + sz - 8 + 8) with (sp + sz) by lia. rewrite Zplus_mod, Hm1, Hm2. done.
Qed.

(** [do_ConvertThreadToFiber] by a thread that was not converted, with
    memory.  It returns a positive id no fiber of the process had; the thread
    runs the new fiber, which is locked, holds the context the task has now and
    has empty local storage; the task itself and every other fiber and thread
    are left alone. *)
Theorem convert_thread n s tk :
  reach n s -> n < INT_MAX -> s.(tasks) !! s.(current) = Some tk ->
  running s tk.(tgid) s.(current) = None -> (forall used, is_Some (kmalloc used)) ->
  exists id s' t f F,
    do_ConvertThreadToFiber s.(current) s = Some (id, s') /\
    1 <= id /\ fiber_for s tk.(tgid) id = None /\ fiber_for s' tk.(tgid) id = Some f /\
    running s' tk.(tgid) s.(current) = Some f /\
    s.(fiber_heap) !! f = None /\ s'.(fiber_heap) = <[f := F]> s.(fiber_heap) /\
    s.(thread_heap) !! t = None /\
    (exists T, s'.(thread_heap) = <[t := T]> s.(thread_heap) /\ T.(selected_fiber) = Some f) /\
    F.(registers) = tk.(regs) /\ F.(fpu) = tk.(fx) /\ F.(attached_thread) = Some t /\
    spin_is_locked F.(fiber_lock) = true /\ slots F = ∅ /\ F.(activation_counter) = 1 /\
    s'.(tasks) = s.(tasks).
Proof.
  intros Hr Hn Htk Hnone Hmem. apply reach_good in Hr as [? Hg]; [|lia]. pose proof Hg as [Hwf _].
  apply running_none in Hnone; [|done].
  destruct (convert_possible s tk Hwf Hmem Hnone) as (p & s1 & P & t & f & Hj & HP & Hu & Hkt & Hkf).
  destruct (joined_good n s tk.(tgid) p s1) as ([Hwf1 Hids1] & Ht1 & Hc1 & Hth & Hfh & P' & HP' & Hid); [done..|].
  assert (P' = P) as -> by congruence. clear HP'.
  pose proof (wf_active _ Hwf1 p P HP). pose proof (Hids1 p P HP).
  pose proof (active_threads_nonneg _ _ _ Hwf1 HP). pose proof (last_fiber_id_nonneg _ _ _ Hwf1 HP).
  pose proof (kmalloc_none _ _ Hkt) as Ht0. pose proof (kmalloc_none _ _ Hkf) as Hf0.
  rewrite <- Hc1 in Hu.
  pose proof (wf_converted s1 p t f P s1.(current) tk Hwf1 HP Hu Ht0 Hf0) as Hwf'.
  set (F := first_fiber t p (P.(last_fiber_id) + 1) s1.(current) tk) in *.
  exists (P.(last_fiber_id) + 1), (converted p t f P s1.(current) tk s1), t, f, F.
  split.
  { rewrite <- Hc1. eapply convert_run; [|apply Hwf1|congruence|done..|lia|lia].
    apply (joined_get_process s tk); [done..|]. congruence. }
  rewrite Hth in Ht0. rewrite Hfh in Hf0.
  split; [lia|]. split.
  { assert (fiber_for s1 tk.(tgid) (P.(last_fiber_id) + 1) = None) as Hff.
    { eapply fiber_for_above; [done| |done|lia]. apply process_at_Some; [apply Hwf1|eauto]. }
    destruct Hj as [q Hq|q Hq Hk]; [exact Hff|]. unfold fiber_for. by rewrite Hq. }
  split.
  { refine (fiber_for_Some _ _ p (process_with_fiber (process_with_thread P t s1.(current)) f) f F Hwf' _ Hid _ eq_refl); apply lookup_insert_eq. }
  split.
  { assert (thread_for (converted p t f P s1.(current) tk s1) tk.(tgid) s.(current) = Some t) as Hfor.
    { unfold thread_for. rewrite (proj2 (process_at_Some _ _ p (wf_heap _ Hwf'))).
      - simpl. eapply thread_at_Some; [apply Hwf'|apply lookup_insert_eq|].
        eexists. split; [apply lookup_insert_eq|]. simpl. by rewrite Hc1.
      - exists (process_with_fiber (process_with_thread P t s1.(current)) f).
        split; [apply lookup_insert_eq|exact Hid]. }
    unfold running. rewrite Hfor. simpl. by rewrite lookup_insert_eq. }
  split; [done|]. split; [simpl; by rewrite Hfh|]. split; [done|].
  split; [eexists; simpl; rewrite Hth; done|].
  split; [simpl; by destruct (regs tk)|]. do 2 (split; [done|]).
  split; [apply spin_trylock_locks|]. split; [by apply slots_zero|]. done.
Qed.

(** A second conversion of a thread returns -1 and leaves the module as it
    was; the global lock is taken and released. *)
Theorem convert_again n s tk cur :
  reach n s -> n < INT_MAX -> s.(tasks) !! s.(current) = Some tk ->
  running s tk.(tgid) s.(current) = Some cur ->
  exists l, spin_is_locked l = false /\
    do_ConvertThreadToFiber s.(current) s = Some (-1, set_struct_process_lock l s).
Proof.
  intros Hr Hn Htk Hrun. apply reach_good in Hr as [? [Hwf _]]; [|lia].
  destruct (running_caller _ _ _ _ Hwf Hrun) as (p & P & t & T & [Hp HP Ht HT] & _).
  exists (spin_unlock (spin_trylock s.(struct_process_lock)).2). split; [apply spin_unlock_free|].
  eapply convert_again_run; [apply (get_process_found _ tk); (apply Hwf || done)| |done|done].
  by apply wf_lock_cycled in Hwf as [].
Qed.

End Creation.

(** ** Applications to a run *)

Import Reference.

Lemma create_fiber_witness :
  exists s' f, do_CreateFiber 65536 4096 5000 77 10 thread_10 = Some (4, s') /\ fiber_for s' 10 4 = Some f.
Proof.
  computed (tasks thread_10 !! 10) tk Htk. assert (tgid tk = 10) as Hg by computed_field Htk.
  assert (0 <= 4096 < 2 ^ 64) as Hsz by lia.
  computed (kmalloc (dom (fiber_heap thread_10))) f Hf.
  destruct (create_fiber 7 thread_10 tk 1 f 65536 4096 5000 77) as (id & s' & F & H1 & _ & _ & H2 & _);
    [apply thread_10_reach|done|exact Htk|rewrite Hg; vm_compute; reflexivity|exact Hf|exact Hsz|].
  assert (id = 4) as ->.
  { assert (fst <$> do_CreateFiber 65536 4096 5000 77 10 thread_10 = Some 4) as E by (vm_compute; reflexivity).
    change (current thread_10) with 10 in H1. rewrite H1 in E. by injection E. }
  exists s', f. split; [exact H1|]. rewrite Hg in H2. exact H2.
Defined.

Lemma create_stack_witness :
  exists id s' f F,
    do_CreateFiber 65536 4096 5000 77 10 thread_10 = Some (id, s') /\ s'.(fiber_heap) !! f = Some F /\
    (F.(registers).(sp) + 8) mod 16 = 0.
Proof.
  computed (tasks thread_10 !! 10) tk Htk. assert (tgid tk = 10) as Hg by computed_field Htk.
  assert (8 <= 65536 /\ 0 <= 4096 /\ 65536 + 4096 < 2 ^ 64) as (H8 & H0 & H64) by lia.
  computed (kmalloc (dom (fiber_heap thread_10))) f Hf.
  destruct (create_stack 7 thread_10 tk 1 f 65536 4096 5000 77) as (id & s' & F & H1 & H2 & _ & _ & H3 & _);
    [apply thread_10_reach|done|exact Htk|rewrite Hg; vm_compute; reflexivity|exact Hf|exact H8|exact H0|exact H64|].
  exists id, s', f, F. split; [exact H1|]. split; [exact H2|]. apply H3; reflexivity.
Defined.

(** Task 20 never called the module. *)
Definition thread_20 : kstate := set_current 20 (played setup).

Lemma thread_20_reach : reach 7 thread_20.
Proof. apply (schedule_reach 6), (played_reach setup). Qed.

#[global] Opaque thread_20.

Lemma convert_thread_witness :
  exists id s' f, do_ConvertThreadToFiber 20 thread_20 = Some (id, s') /\ running s' 20 20 = Some f.
Proof.
  computed (tasks thread_20 !! 20) tk Htk. assert (tgid tk = 20) as Hg by computed_field Htk.
  destruct (convert_thread 7 thread_20 tk) as (id & s' & t & f & F & H1 & _ & _ & _ & H2 & _);
    [apply thread_20_reach|done|exact Htk|rewrite Hg; vm_compute; reflexivity
    |intros used; eexists; reflexivity|].
  exists id, s', f. split; [exact H1|]. rewrite Hg in H2. exact H2.
Defined.

Lemma convert_again_witness :
  exists l, do_ConvertThreadToFiber 10 thread_10 = Some (-1, set_struct_process_lock l thread_10).
Proof.
  computed (tasks thread_10 !! 10) tk Htk. assert (tgid tk = 10) as Hg by computed_field Htk.
  destruct (convert_again 7 thread_10 tk 1) as (l & _ & H);
    [apply thread_10_reach|done|exact Htk|rewrite Hg; vm_compute; reflexivity|].
  exists l. exact H.
Defined.
