(* ===== verification/FlsContract.v ===== *)
(** * What a thread can rely on in its fiber local storage

    The four operations, called by a converted thread in a reachable state,
    implement the contract [fls_step] on the storage of the fiber the thread
    runs, and touch nothing else. *)

From S2P Require Import Prelude Kernel State CStr Fibers Heap Runs Kprobes Safety Fls Outcome System Scenario Exclusion Switching.

Section FlsContract.
Context {K : Kernel}.

(** The same operation several times, with the results. *)
Fixpoint run_fls_list (ops : list fls_op) (thread_id : Z) : kM (list Z) :=
  match ops with
  | [] => mret []
  | op :: ops' =>
      let! r := run_fls op thread_id in
      let! rs := run_fls_list ops' thread_id in
      mret (r :: rs)
  end.

(** What a sequence of operations returns and leaves of a fiber. *)
Fixpoint apply_fls_list (ops : list fls_op) (F : fiber) : list Z * fiber :=
  match ops with
  | [] => ([], F)
  | op :: ops' =>
      let (rs, F') := apply_fls_list ops' (apply_fls op F).2 in ((apply_fls op F).1 :: rs, F')
  end.

(** The part of a fiber the storage operations do not touch. *)
Definition unstored (F : fiber) :=
  (F.(registers), F.(fpu), F.(attached_thread), F.(activation_counter),
   F.(failed_activation_counter), F.(total_time), F.(start_address), F.(creator_thread)).

Context {KOk : KernelOk K}.

Lemma apply_fls_unstored op F : unstored (apply_fls op F).2 = unstored F /\ identity (apply_fls op F).2 = identity F.
Proof. destruct op; simpl; repeat case_match; done. Qed.

Lemma fls_sized_reach n s f F :
  good n s -> s.(fiber_heap) !! f = Some F -> fls_sized F.
Proof. intros [Hwf _] HF. apply (ho_fiber _ _ _ _ (wf_heap _ Hwf) f F HF). Qed.

Lemma apply_fls_sized op F : fls_sized F -> fls_sized (apply_fls op F).2.
Proof.
  intros Hlen. destruct (apply_fls_refines op F Hlen) as (_ & (_ & _ & _ & Heq) & _).
  unfold fls_sized in *. by rewrite Heq.
Qed.

(** The task, the thread and the fiber it runs do not change under the
    operations, so a sequence of them works on one fiber. *)
Lemma run_fls_list_run ops s tk f F :
  wf s -> s.(tasks) !! s.(current) = Some tk -> running s tk.(tgid) s.(current) = Some f ->
  s.(fiber_heap) !! f = Some F ->
  run_fls_list ops s.(current) s =
    Some ((apply_fls_list ops F).1, set_fiber_heap (<[f := (apply_fls_list ops F).2]> s.(fiber_heap)) s).
Proof.
  revert s F. induction ops as [|op ops IH]; intros s F Hwf Htk Hf HF; cbn [run_fls_list apply_fls_list].
  - unfold mret. simpl. by rewrite set_fiber_heap_id.
  - pose proof (run_fls_some op s tk s.(current) f F (wf_heap _ Hwf) Htk Hf HF) as Hrun.
    erewrite mthen_eq by exact Hrun.
    set (s1 := set_fiber_heap (<[f := (apply_fls op F).2]> s.(fiber_heap)) s) in *.
    assert (wf s1) as Hwf1 by (by eapply wf_run_fls).
    assert (run_fls_list ops s.(current) s1 =
      Some ((apply_fls_list ops (apply_fls op F).2).1,
            set_fiber_heap (<[f := (apply_fls_list ops (apply_fls op F).2).2]> s1.(fiber_heap)) s1)) as Hrest.
    { apply (IH s1 (apply_fls op F).2 Hwf1); [done|exact Hf|]. simpl. by rewrite lookup_insert_eq. }
    erewrite mthen_eq by exact Hrest. unfold mret. destruct (apply_fls_list ops _) as [rs F']. simpl.
    unfold s1. destruct s. unfold set_fiber_heap. simpl. by rewrite insert_insert_eq.
Qed.

(** Allocations fill the lowest indices. *)
Lemma alloc_list_aux k j F :
  fls_sized F -> (forall i, is_Some (slots F !! i) <-> 0 <= i < j) ->
  0 <= j -> j + Z.of_nat k <= MAX_FLS_POINTERS ->
  (apply_fls_list (replicate k FlsAlloc) F).1 = seqZ j (Z.of_nat k) /\
  fls_sized (apply_fls_list (replicate k FlsAlloc) F).2 /\
  forall i, is_Some (slots (apply_fls_list (replicate k FlsAlloc) F).2 !! i) <-> 0 <= i < j + Z.of_nat k.
Proof.
  revert j F. induction k as [|k IH]; intros j F Hlen Hslots Hj Hk.
  - split; [done|]. split; [done|]. intros i. cbn [replicate apply_fls_list snd]. rewrite Hslots. lia.
  - destruct (apply_fls_refines FlsAlloc F Hlen) as (Hstep & _).
    pose proof (apply_fls_sized FlsAlloc F Hlen) as Hlen1.
    cbn [replicate apply_fls_list].
    destruct (apply_fls FlsAlloc F) as [r F1]. cbn [fst snd] in *.
    assert (r = j /\ exists v, slots F1 = <[j := v]> (slots F)) as [-> [v Hv]].
    { apply fls_step_alloc_inv in Hstep as [(Hr & Hnone & Hleast & v & Hv)|(_ & _ & Hfull)].
      - assert (r = j) as ->; [|by eauto].
        destruct (Z.lt_trichotomy r j) as [Hlt|[?|Hgt]]; [|done|].
        + destruct (proj2 (Hslots r)) as [? ?]; [lia|]. congruence.
        + specialize (Hleast j ltac:(lia)). apply Hslots in Hleast. lia.
      - specialize (Hfull j ltac:(lia)). apply Hslots in Hfull. lia. }
    destruct (IH (j + 1) F1) as (H1 & H2 & H3); [done| |lia|lia|].
    + intros i. rewrite Hv. destruct (decide (i = j)) as [->|].
      * rewrite lookup_insert_eq. split; [lia|eauto].
      * rewrite lookup_insert_ne, Hslots by done. lia.
    + destruct (apply_fls_list (replicate k FlsAlloc) F1) as [rs F2]. cbn [fst snd] in *.
      split; [|split; [done|]].
      * rewrite Nat2Z.inj_succ, seqZ_cons by lia. f_equal. rewrite H1. f_equal; lia.
      * intros i. rewrite H3. lia.
Qed.

Lemma apply_fls_list_app ops1 ops2 F :
  (apply_fls_list (ops1 ++ ops2) F).1 =
    (apply_fls_list ops1 F).1 ++ (apply_fls_list ops2 (apply_fls_list ops1 F).2).1.
Proof.
  revert F. induction ops1 as [|op ops1 IH]; intros F; [done|]. cbn [app apply_fls_list].
  specialize (IH (apply_fls op F).2).
  destruct (apply_fls_list (ops1 ++ ops2) (apply_fls op F).2) as [r F'].
  destruct (apply_fls_list ops1 (apply_fls op F).2) as [r1 F1]. simpl in *. by rewrite IH.
Qed.

(** No slot is free: every allocation fails. *)
Lemma alloc_full_list j F :
  fls_sized F -> j = O \/ (forall i, is_Some (slots F !! i) <-> 0 <= i < MAX_FLS_POINTERS) ->
  (apply_fls_list (replicate j FlsAlloc) F).1 = replicate j (-1).
Proof.
  intros Hlen [->|Hfull]; [done|].
  assert (apply_fls FlsAlloc F = (-1, F)) as Hstep.
  { pose proof (apply_fls_refines FlsAlloc F Hlen) as [Hs _].
    simpl in *. case_match eqn:E; [done|]. exfalso. simpl in Hs.
    apply fls_step_alloc_inv in Hs as [(Hi & Hnone & _)|(Hr & _)].
    - apply Hfull in Hi as [? ?]. congruence.
    - pose proof (find_first_zero_range F.(fls_bitmap) MAX_FLS_POINTERS ltac:(done)). lia. }
  induction j as [|j IH]; [done|]. cbn [replicate apply_fls_list]. rewrite Hstep. cbn [fst snd].
  destruct (apply_fls_list (replicate j FlsAlloc) F) as [r F']. simpl in *. by rewrite IH.
Qed.

(** C14: In a reachable state, the four storage operations of a thread that runs
    fiber [f] return, and leave in the slots of [f], what the contract says;
    they change neither the rest of [f] nor anything else. *)
Theorem fls_contract n s tk f F op :
  reach n s -> n < INT_MAX -> s.(tasks) !! s.(current) = Some tk ->
  running s tk.(tgid) s.(current) = Some f -> s.(fiber_heap) !! f = Some F ->
  exists r F',
    run_fls op s.(current) s = Some (r, set_fiber_heap (<[f := F']> s.(fiber_heap)) s) /\
    fls_step op r (slots F) (slots F') /\ unstored F' = unstored F /\ identity F' = identity F.
Proof.
  intros Hr Hn Htk Hf HF. apply reach_good in Hr as [? Hg]; [|lia].
  destruct (apply_fls_refines op F (fls_sized_reach _ _ _ _ Hg HF)) as (Hstep & _).
  destruct (apply_fls_unstored op F). exists (apply_fls op F).1, (apply_fls op F).2.
  split; [|done]. eapply run_fls_some; [apply Hg|done..].
Qed.

(** A thread that was not converted cannot use fibers: creating one,
    switching to any id and the four operations on storage fail, with -1, false
    or nothing, and change nothing. *)
Theorem unconverted_thread n s tk :
  reach n s -> n < INT_MAX -> s.(tasks) !! s.(current) = Some tk ->
  running s tk.(tgid) s.(current) = None ->
  (forall stack size fn param, do_CreateFiber stack size fn param s.(current) s = Some (-1, s)) /\
  (forall id, do_SwitchToFiber id s.(current) s = Some (-1, s)) /\
  (forall op, run_fls op s.(current) s = Some (fls_failure op, s)).
Proof.
  intros Hr Hn Htk Hf. apply reach_good in Hr as [? [Hwf _]]; [|lia].
  pose proof (proj1 (running_none s tk _ Hwf) Hf) as Hnone.
  split_and!; intros.
  - apply (create_missing_run s tk); [apply Hwf|done|done].
  - eapply switch_missing_run; [apply Hwf|done|by left].
  - by eapply run_fls_none; [apply Hwf|..].
Qed.

(** A value that was stored is read back: after [FlsSetValue i v] on a slot
    that is allocated, whatever other slots are then written, read, freed or
    allocated, [FlsGetValue i] returns [v]. *)
Theorem fls_set_get n s tk f F i v w ops :
  reach n s -> n < INT_MAX -> s.(tasks) !! s.(current) = Some tk ->
  running s tk.(tgid) s.(current) = Some f -> s.(fiber_heap) !! f = Some F ->
  slots F !! i = Some w ->
  Forall (fun op => op <> FlsFree i /\ forall u, op <> FlsSetValue i u) ops ->
  exists rs s',
    run_fls_list (FlsSetValue i v :: ops ++ [FlsGetValue i]) s.(current) s = Some (0 :: rs ++ [v], s').
Proof.
  intros Hr Hn Htk Hf HF Hw Hops. apply reach_good in Hr as [? Hg]; [|lia].
  pose proof (fls_sized_reach _ _ _ _ Hg HF) as Hlen.
  erewrite run_fls_list_run; [|apply Hg|done..].
  rewrite slots_lookup in Hw. cbn [apply_fls_list app]. simpl apply_fls. rewrite Hw. cbn [fst snd].
  set (F1 := set_fls (<[Z.to_nat i := v]> F.(fls)) F).
  assert (slots F1 !! i = Some v) as Hv.
  { rewrite slots_lookup. unfold F1. rewrite slot_set by eauto. by rewrite decide_True. }
  assert (fls_sized F1) as Hlen1 by (unfold fls_sized in *; simpl; by rewrite length_insert).
  clearbody F1. clear -KOk Hops Hv Hlen1.
  assert (exists rs, (apply_fls_list (ops ++ [FlsGetValue i]) F1).1 = rs ++ [v]) as [rs Hrs].
  { revert F1 Hv Hlen1. induction Hops as [|op ops [Hfree Hset] _ IH]; intros F1 Hv Hlen1.
    - exists []. simpl. by rewrite <- slots_lookup, Hv.
    - cbn [app apply_fls_list].
      destruct (apply_fls_refines op F1 Hlen1) as (Hstep & _).
      destruct (IH (apply_fls op F1).2) as [rs Hrs]; [|by apply apply_fls_sized|].
      + by eapply fls_step_keeps.
      + destruct (apply_fls_list (ops ++ [FlsGetValue i]) (apply_fls op F1).2) as [rs' F'].
        exists ((apply_fls op F1).1 :: rs). simpl in *. by rewrite Hrs. }
  destruct (apply_fls_list (ops ++ [FlsGetValue i]) F1) as [rs' F']. simpl in Hrs. subst rs'. eauto.
Qed.

(** The storage of a fiber without slots yields the indices 0 to 4095 in
    order, and -1 from then on: this is what [k] allocations return, for any
    [k]. *)
Theorem fls_alloc_capacity n s tk f F k j :
  reach n s -> n < INT_MAX -> s.(tasks) !! s.(current) = Some tk ->
  running s tk.(tgid) s.(current) = Some f -> s.(fiber_heap) !! f = Some F -> slots F = ∅ ->
  Z.of_nat k <= MAX_FLS_POINTERS -> (j = O \/ Z.of_nat k = MAX_FLS_POINTERS) ->
  exists s',
    run_fls_list (replicate (k + j) FlsAlloc) s.(current) s =
      Some (seqZ 0 (Z.of_nat k) ++ replicate j (-1), s').
Proof.
  intros Hr Hn Htk Hf HF Hempty Hk Hj. apply reach_good in Hr as [? Hg]; [|lia].
  pose proof (fls_sized_reach _ _ _ _ Hg HF) as Hlen.
  destruct (alloc_list_aux k 0 F Hlen) as (Hres & Hlen' & Hslots); [|done|lia|].
  { intros i. rewrite Hempty, lookup_empty. split; [by intros []|lia]. }
  erewrite run_fls_list_run; [|apply Hg|done..].
  rewrite replicate_add, apply_fls_list_app. rewrite Hres.
  rewrite alloc_full_list; [eauto|done|].
  destruct Hj as [->|Hj]; [by left|]. right. intros i. rewrite Hslots, Hj. done.
Qed.

(** C15: Freeing an index and allocating again gives an index whose slot may hold
    the value stored before: nothing clears it.  If [i] is the least index that
    is free afterwards, the next user of [i] reads the old value. *)
Theorem fls_stale_value n s tk f F i v :
  reach n s -> n < INT_MAX -> s.(tasks) !! s.(current) = Some tk ->
  running s tk.(tgid) s.(current) = Some f -> s.(fiber_heap) !! f = Some F ->
  slots F !! i = Some v -> (forall j, 0 <= j < i -> is_Some (slots F !! j)) ->
  exists s', run_fls_list [FlsFree i; FlsAlloc; FlsGetValue i] s.(current) s = Some ([1; i; v], s').
Proof.
  intros Hr Hn Htk Hf HF Hv Hleast. apply reach_good in Hr as [? Hg]; [|lia].
  pose proof (fls_sized_reach _ _ _ _ Hg HF) as Hlen.
  erewrite run_fls_list_run; [|apply Hg|done..]. eexists. f_equal. f_equal.
  rewrite slots_lookup in Hv. pose proof (slot_range F i v Hv) as Hi.
  assert (test_bit i F.(fls_bitmap) = true) as Ht by (apply slot_bit; eauto).
  cbn [apply_fls_list]. simpl apply_fls. rewrite Hv. cbn [fst snd].
  set (F1 := set_fls_bitmap (change_bit i F.(fls_bitmap)) F).
  pose proof (slot_change_same F i Hi) as Hsame1. rewrite Ht in Hsame1. fold F1 in Hsame1.
  assert (forall j, j <> i -> slot F1 j = slot F j) as Hother1 by (intros; by apply slot_change_other).
  assert (find_first_zero_bit F1.(fls_bitmap) MAX_FLS_POINTERS = i) as Hfirst.
  { assert (fls_sized F1) as Hlen1 by done.
    pose proof (find_first_zero_range F1.(fls_bitmap) MAX_FLS_POINTERS ltac:(done)) as Hrange.
    pose proof (fun j => find_first_zero_least F1.(fls_bitmap) MAX_FLS_POINTERS j ltac:(done)) as Hlow.
    pose proof (find_first_zero_free F1.(fls_bitmap) MAX_FLS_POINTERS ltac:(done)) as Hfree.
    set (x := find_first_zero_bit F1.(fls_bitmap) MAX_FLS_POINTERS) in *.
    destruct (Z.lt_trichotomy x i) as [Hlt|[?|Hgt]]; [|done|].
    - destruct (Hleast x) as [w Hw]; [lia|]. rewrite slots_lookup, <- Hother1 in Hw by lia.
      assert (is_Some (slot F1 x)) as Hx by eauto. apply slot_bit in Hx; [|done|lia].
      rewrite Hfree in Hx by lia. done.
    - assert (is_Some (slot F1 i)) as [w Hw]; [|congruence].
      apply slot_bit; [done|done|]. apply Hlow. lia. }
  rewrite Hfirst. replace (i =? MAX_FLS_POINTERS) with false by lia. cbn [fst snd].
  assert (test_bit i F1.(fls_bitmap) = false) as Ht1.
  { simpl. rewrite change_bit_same, Ht by lia. done. }
  rewrite (slot_change_same F1 i Hi), Ht1. simpl. unfold slot in Hv.
  apply bad_index_false in Hi. rewrite Hi, Ht in Hv. by rewrite Hv.
Qed.

End FlsContract.

(** ** Applications to a run *)

Import Reference.

Lemma fls_contract_witness :
  exists r s', run_fls FlsAlloc 10 thread_10 = Some (r, s').
Proof.
  computed (tasks thread_10 !! 10) tk Htk. assert (tgid tk = 10) as Hg by computed_field Htk.
  computed (fiber_heap thread_10 !! 1%positive) F HF.
  destruct (fls_contract 7 thread_10 tk 1 F FlsAlloc) as (r & F' & H & _);
    [apply thread_10_reach|done|exact Htk|rewrite Hg; vm_compute; reflexivity|exact HF|].
  eexists _, _. exact H.
Defined.

Lemma unconverted_thread_witness :
  do_CreateFiber 65536 4096 5000 77 20 (set_current 20 thread_10) = Some (-1, set_current 20 thread_10) /\
  run_fls (FlsGetValue 0) 20 (set_current 20 thread_10) = Some (-1, set_current 20 thread_10).
Proof.
  computed (tasks (set_current 20 thread_10) !! 20) tk Htk.
  assert (tgid tk = 20) as Hg by computed_field Htk.
  destruct (unconverted_thread 8 (set_current 20 thread_10) tk) as (H1 & _ & H2);
    [apply (schedule_reach 7), thread_10_reach|done|exact Htk|rewrite Hg; vm_compute; reflexivity|].
  split; [apply H1|apply H2].
Defined.

(** Fiber 1 has slot 0. *)
Definition with_slot : kstate := set_current 10 (played (setup ++ [(10, EFls FlsAlloc)])).

Lemma with_slot_reach : reach 9 with_slot.
Proof. apply (schedule_reach 8), (played_reach (setup ++ [(10, EFls FlsAlloc)])). Qed.

#[global] Opaque with_slot.

Lemma fls_set_get_witness :
  exists rs s',
    run_fls_list [FlsSetValue 0 42; FlsAlloc; FlsSetValue 1 7; FlsGetValue 0] 10 with_slot =
      Some (0 :: rs ++ [42], s').
Proof.
  computed (tasks with_slot !! 10) tk Htk. assert (tgid tk = 10) as Hg by computed_field Htk.
  computed (fiber_heap with_slot !! 1%positive) F HF.
  apply (fls_set_get 9 with_slot tk 1 F 0 42 0 [FlsAlloc; FlsSetValue 1 7]);
    [apply with_slot_reach|done|exact Htk|rewrite Hg; vm_compute; reflexivity|exact HF| |].
  - apply (fmap_field (fun F => slots F !! 0) _ _ _ HF). vm_compute. reflexivity.
  - repeat constructor; discriminate.
Defined.

Lemma fls_alloc_capacity_witness :
  exists s', run_fls_list (replicate (Z.to_nat 4096 + 1) FlsAlloc) 10 thread_10 =
    Some (seqZ 0 (Z.of_nat (Z.to_nat 4096)) ++ [-1], s').
Proof.
  computed (tasks thread_10 !! 10) tk Htk. assert (tgid tk = 10) as Hg by computed_field Htk.
  computed (fiber_heap thread_10 !! 1%positive) F HF.
  apply (fls_alloc_capacity 7 thread_10 tk 1 F (Z.to_nat 4096) 1);
    [apply thread_10_reach|done|exact Htk|rewrite Hg; vm_compute; reflexivity|exact HF| |discriminate|right; reflexivity].
  apply (fmap_field slots _ _ _ HF). vm_compute. reflexivity.
Defined.

Lemma fls_stale_value_witness :
  exists s', run_fls_list [FlsFree 0; FlsAlloc; FlsGetValue 0] 10 with_slot = Some ([1; 0; 0], s').
Proof.
  computed (tasks with_slot !! 10) tk Htk. assert (tgid tk = 10) as Hg by computed_field Htk.
  computed (fiber_heap with_slot !! 1%positive) F HF.
  apply (fls_stale_value 9 with_slot tk 1 F 0 0);
    [apply with_slot_reach|done|exact Htk|rewrite Hg; vm_compute; reflexivity|exact HF| |lia].
  apply (fmap_field (fun F => slots F !! 0) _ _ _ HF). vm_compute. reflexivity.
Defined.
