(* ===== verification/Lifecycle.v ===== *)
(** * Exit, close and the accounting of time

    What happens to the fibers of a process when its threads exit or it closes
    the device, and what the scheduler probe counts. *)

From S2P Require Import Prelude Kernel State CStr Fibers Heap Runs Kprobes Safety Fls Outcome System Views Scenario Exclusion Switching.

Section Lifecycle.
Context {K : Kernel} {KOk : KernelOk K}.

(** The thread of another task keeps the count of active threads above one. *)
Lemma other_thread_active s tk p P t T pid u :
  wf s -> caller s tk s.(current) p P t T -> thread_for s tk.(tgid) pid = Some u ->
  pid <> s.(current) -> P.(active_threads) <> 1.
Proof.
  intros Hwf Hc Hu Hne Hact. pose proof (caller_parent _ _ _ _ _ _ _ Hwf Hc) as [Hpar Hid].
  destruct Hc as [Hp HP Ht HT].
  apply thread_for_spec in Hu as (U & P' & HU & HidU & HP' & Hg); [|done].
  apply process_at_spec in Hp as (P0 & HP0 & Hg0); [|done].
  assert (U.(parent) = p) as Hpu by (eapply process_id_inj; [done..|congruence]).
  assert (u = t) as -> by (eapply (last_thread s p P t T u U); done). congruence.
Qed.

(** A thread exits while another thread of its process still uses fibers.
    The fiber it ran is saved as it is, unlocked and free for any other thread;
    the thread is no longer known to the module; every other fiber and what every
    other task runs stay the same. *)
Theorem exit_hands_over n s tk f F pid u :
  reach n s -> n <= INT_MAX -> s.(tasks) !! s.(current) = Some tk ->
  running s tk.(tgid) s.(current) = Some f -> s.(fiber_heap) !! f = Some F ->
  thread_for s tk.(tgid) pid = Some u -> pid <> s.(current) ->
  exists s' F',
    exit_cleanup s = Some (0, s') /\
    running s' tk.(tgid) s.(current) = None /\
    s'.(fiber_heap) = <[f := F']> s.(fiber_heap) /\
    saved_context F' = (tk.(regs), tk.(fx), F.(fls), F.(fls_bitmap)) /\ identity F' = identity F /\
    F'.(attached_thread) = None /\ spin_is_locked F'.(fiber_lock) = false /\
    fiber_for s' tk.(tgid) F.(fiber_id) = Some f /\
    (forall g' pid', pid' <> s.(current) -> running s' g' pid' = running s g' pid') /\
    s'.(tasks) = s.(tasks).
Proof.
  intros Hr Hn Htk Hf HF Hu Hne. apply reach_good in Hr as [? Hg]; [|done]. pose proof Hg as [Hwf Hids].
  destruct (running_caller _ _ _ _ Hwf Hf) as (p & P & t & T & Hc & Hsel).
  pose proof (other_thread_active _ _ _ _ _ _ _ _ Hwf Hc Hu Hne) as Hact.
  pose proof (active_positive _ _ _ _ _ _ _ Hwf Hc) as Hpos.
  destruct (caller_parent _ _ _ _ _ _ _ Hwf Hc) as [Hpar Hid].
  pose proof Hc as [Hp HP Ht HT]. pose proof (wf_active _ Hwf p P HP). pose proof (Hids p P HP).
  pose proof (wf_exited s p P t T f F tk Hwf HP HT Hpar Hsel HF) as Hwf'.
  set (s' := exited p t f P F tk s) in *.
  destruct (selected_fiber_ok s t T f Hwf HT Hsel) as (F0 & HF0 & _ & HFp & _).
  assert (F0 = F) as -> by congruence. clear HF0.
  apply process_at_spec in Hp as Hpg; [|done]. destruct Hpg as (P0 & HP0 & Hg0).
  assert (P0 = P) as -> by congruence. clear HP0.
  assert (forall g' pid' v, thread_for s' g' pid' = Some v <-> thread_for s g' pid' = Some v /\ v <> t) as Hfor.
  { intros g' pid' v. rewrite !thread_for_spec by done. unfold s', exited. simpl. split.
    - intros (V & Q & [? HV]%lookup_delete_Some & Hidv & HQ & Hgq).
      split; [|congruence]. apply lookup_insert_Some in HQ as [[Heq <-]|[_ HQ]]; [|eauto 10].
      exists V, P. rewrite <- Heq. by split_and!.
    - intros ((V & Q & HV & Hidv & HQ & Hgq) & Hvt). exists V.
      rewrite lookup_delete_ne by congruence. destruct (decide (p = V.(parent))) as [Hpv|Hnp].
      + exists (process_without_thread P t). rewrite <- Hpv, lookup_insert_eq. split_and!; try done.
        change (P.(process_id) = g'). rewrite <- Hpv in HQ. congruence.
      + exists Q. by rewrite lookup_insert_ne. }
  exists s', (released_fiber tk F). split.
  { eapply exit_detach_run; [apply Hwf|done..|lia]. }
  split.
  { destruct (running s' tk.(tgid) s.(current)) as [g|] eqn:Hrun; [|done].
    apply running_spec in Hrun as (v & V & Hv & _); [|done]. apply Hfor in Hv as [Hv Hvt].
    rewrite (caller_thread_for _ _ _ _ _ _ _ Hc) in Hv. congruence. }
  do 4 (split; [done|]). split; [apply spin_unlock_free|]. split.
  { apply fiber_for_spec; [done|]. exists (released_fiber tk F), (process_without_thread P t).
    unfold s', exited. simpl. rewrite HFp, Hpar, !lookup_insert_eq. done. }
  split; [|done]. intros g' pid' Hpid. apply lookup_ext. intros g. rewrite !running_spec by done.
  split; intros (v & V & Hv & HV & HselV); exists v, V.
  - apply Hfor in Hv as [Hv _]. change (delete t s.(thread_heap) !! v = Some V) in HV.
    by apply lookup_delete_Some in HV as [_ HV].
  - assert (v <> t).
    { intros ->. apply thread_for_spec in Hv as (V' & Q & HV' & Hidv & _); [|done]. congruence. }
    rewrite Hfor. split; [done|]. unfold s', exited. simpl. by rewrite lookup_delete_ne.
Qed.

(** The process is gone with what it owned, and nothing else. *)
Definition process_removed (s s' : kstate) (g : Z) (p : ptr) : Prop :=
  process_at s' g = None /\
  (forall q Q, s'.(process_heap) !! q = Some Q <-> s.(process_heap) !! q = Some Q /\ q <> p) /\
  (forall t T, s'.(thread_heap) !! t = Some T <-> s.(thread_heap) !! t = Some T /\ T.(parent) <> p) /\
  (forall f F, s'.(fiber_heap) !! f = Some F <-> s.(fiber_heap) !! f = Some F /\ F.(parent_process) <> p).

Lemma without_process_removed s g p P th fh :
  wf s -> process_at s g = Some p -> s.(process_heap) !! p = Some P ->
  (forall t T, th !! t = Some T <-> s.(thread_heap) !! t = Some T /\ ~ thread_of p T) ->
  (forall f F, fh !! f = Some F <-> s.(fiber_heap) !! f = Some F /\ ~ fiber_of p F) ->
  process_removed s (without_process p th fh s) g p.
Proof.
  intros Hwf Hp HP Hth Hfh. pose proof (wf_without_process s p P th fh Hwf HP Hth Hfh) as Hwf'.
  apply process_at_spec in Hp as (P0 & HP0 & Hg); [|done].
  assert (P0 = P) as -> by congruence.
  split; [|split; [|done]].
  - destruct (process_at _ g) as [q|] eqn:Hq; [|done].
    apply process_at_spec in Hq as (Q & HQ & Hgq); [|done]. simpl in HQ.
    apply lookup_delete_Some in HQ as [Hne HQ].
    destruct Hne. by eapply (process_id_inj s p q P Q); [..|congruence].
  - intros q Q. simpl. rewrite lookup_delete_Some. split; intros [? ?]; auto.
Qed.

(** The threads and fibers left when the last thread of a process exits. *)
Lemma exit_last_heaps s tk p P t T fh :
  wf s -> caller s tk s.(current) p P t T -> P.(active_threads) = 1 ->
  kfree_each (hash_each P.(fibers)) s.(fiber_heap) = Some fh ->
  (forall u U, delete t s.(thread_heap) !! u = Some U <-> s.(thread_heap) !! u = Some U /\ ~ thread_of p U) /\
  (forall f F, fh !! f = Some F <-> s.(fiber_heap) !! f = Some F /\ ~ fiber_of p F).
Proof.
  intros Hwf Hc Hact Hfree. destruct (caller_parent _ _ _ _ _ _ _ Hwf Hc) as [Hpar _].
  destruct Hc as [Hp HP Ht HT]. split.
  - intros u U. rewrite lookup_delete_Some. split.
    + intros [Hne HU]. split; [done|]. intros Hof. apply Hne. symmetry. by eapply last_thread.
    + intros [HU Hof]. split; [|done]. intros <-. by simplify_eq.
  - intros f F. eapply kfree_each_owned; [|done]. by apply (ho_process _ _ _ _ (wf_heap _ Hwf) p P).
Qed.

(** A thread whose process has no other is the only active one. *)
Lemma only_thread_active s tk p P t T :
  wf s -> caller s tk s.(current) p P t T ->
  (forall pid u, thread_for s tk.(tgid) pid = Some u -> pid = s.(current)) ->
  P.(active_threads) = 1.
Proof.
  intros Hwf Hc Honly. pose proof (active_positive _ _ _ _ _ _ _ Hwf Hc) as Hpos.
  pose proof (caller_thread_for _ _ _ _ _ _ _ Hc) as Hfor.
  destruct Hc as [Hp HP Ht HT].
  destruct (ho_process _ _ _ _ (wf_heap _ Hwf) p P HP) as [Htbl _ Hlen _ _].
  apply process_at_spec in Hp as (P0 & HP0 & Hg); [|done]. assert (P0 = P) as -> by congruence.
  assert (forall u, u ∈ hash_each P.(threads) -> u = t) as Hall.
  { intros u (U & HU & Hof)%(tbl_elem _ _ _ _ Htbl). unfold thread_of in Hof.
    assert (thread_for s tk.(tgid) U.(thread_id) = Some u) as Hu.
    { apply thread_for_spec; [done|]. exists U, P. by rewrite Hof. }
    rewrite (Honly _ _ Hu) in Hu. congruence. }
  pose proof (tbl_nodup _ _ _ _ Htbl) as Hnd.
  destruct (hash_each P.(threads)) as [|x [|y l]]; simpl in *; [lia|lia|].
  exfalso. apply NoDup_cons in Hnd as [Hx _]. apply Hx.
  rewrite (Hall x), (Hall y) by set_solver. left.
Qed.

(** C16: The last thread of a process exits: the process, its thread and all its
    fibers are freed and nothing that belongs to another process is touched -
    provided that a freed fiber can still be read for the link to the next. *)
Theorem exit_frees_all n s tk f :
  reach n s -> n <= INT_MAX -> stale_reads = true -> s.(tasks) !! s.(current) = Some tk ->
  running s tk.(tgid) s.(current) = Some f ->
  (forall pid u, thread_for s tk.(tgid) pid = Some u -> pid = s.(current)) ->
  exists s' p, exit_cleanup s = Some (0, s') /\ process_at s tk.(tgid) = Some p /\
    process_removed s s' tk.(tgid) p.
Proof.
  intros Hr Hn Hstale Htk Hf Honly. apply reach_good in Hr as [? [Hwf _]]; [|done].
  destruct (running_caller _ _ _ _ Hwf Hf) as (p & P & t & T & Hc & Hsel).
  pose proof (only_thread_active _ _ _ _ _ _ Hwf Hc Honly) as Hact.
  destruct (caller_parent _ _ _ _ _ _ _ Hwf Hc) as [Hpar _].
  pose proof Hc as [Hp HP Ht HT].
  destruct (ho_process _ _ _ _ (wf_heap _ Hwf) p P HP) as [_ Htbl _ _ _].
  destruct (kfree_each_some (hash_each P.(fibers)) s.(fiber_heap) Hstale) as [fh Hfree];
    [apply Htbl|intros q (F & -> & _)%(tbl_elem _ _ _ _ Htbl); eauto|].
  destruct (exit_last_heaps _ _ _ _ _ _ _ Hwf Hc Hact Hfree) as [Hth Hfh].
  eexists _, p. split; [eapply exit_last_run; [apply Hwf|done..]|]. split; [done|].
  by eapply without_process_removed.
Qed.

(** C17: Without that provision the same exit faults: the loop over the fibers
    reads the link of the one it has just freed. *)
Theorem exit_use_after_free n s tk f :
  reach n s -> n <= INT_MAX -> stale_reads = false -> s.(tasks) !! s.(current) = Some tk ->
  running s tk.(tgid) s.(current) = Some f ->
  (forall pid u, thread_for s tk.(tgid) pid = Some u -> pid = s.(current)) ->
  exit_cleanup s = None.
Proof.
  intros Hr Hn Hstale Htk Hf Honly. apply reach_good in Hr as [? [Hwf _]]; [|done].
  destruct (running_caller _ _ _ _ Hwf Hf) as (p & P & t & T & Hc & Hsel).
  pose proof (only_thread_active _ _ _ _ _ _ Hwf Hc Honly) as Hact.
  destruct (caller_parent _ _ _ _ _ _ _ Hwf Hc) as [Hpar _].
  pose proof Hc as [Hp HP Ht HT].
  destruct (ho_process _ _ _ _ (wf_heap _ Hwf) p P HP) as [_ _ _ Hlast _].
  pose proof (wf_active _ Hwf p P HP).
  eapply exit_last_stale; [apply Hwf|done..|]. apply kfree_each_stale; [done|].
  intros Hnil. rewrite Hnil in Hlast. simpl in Hlast. lia.
Qed.

(** Closing the device removes the process with all its threads and fibers,
    the running ones included, and nothing of another process (with the same
    provision); a process that never used fibers loses nothing. *)
Theorem close_frees_all n s tk :
  reach n s -> n <= INT_MAX -> stale_reads = true -> s.(tasks) !! s.(current) = Some tk ->
  exists s', process_cleanup s = Some (0, s') /\
    match process_at s tk.(tgid) with
    | Some p => process_removed s s' tk.(tgid) p
    | None => s' = s
    end.
Proof.
  intros Hr Hn Hstale Htk. apply reach_good in Hr as [? [Hwf _]]; [|done].
  destruct (process_at s tk.(tgid)) as [p|] eqn:Hp.
  2: { exists s. split; [|done]. eapply cleanup_other_run; [apply Hwf|done..]. }
  pose proof Hp as (P & HP & _)%process_at_spec; [|done].
  destruct (ho_process _ _ _ _ (wf_heap _ Hwf) p P HP) as [Htt Htf _ _ _].
  destruct (kfree_each_some (hash_each P.(fibers)) s.(fiber_heap) Hstale) as [fh Hfh];
    [apply Htf|intros q (F & -> & _)%(tbl_elem _ _ _ _ Htf); eauto|].
  destruct (kfree_each_some (hash_each P.(threads)) s.(thread_heap) Hstale) as [th Hth];
    [apply Htt|intros q (F & -> & _)%(tbl_elem _ _ _ _ Htt); eauto|].
  eexists. split; [eapply cleanup_run; [apply Hwf|done..]|].
  eapply without_process_removed; [done..| |]; intros; by eapply kfree_each_owned.
Qed.

(** C18: The scheduler probe leaves the preemption counter as it found it, except
    when the task that was switched out belongs to a process that uses fibers
    and was not converted itself: then the counter stays one higher. *)
Theorem timer_preemption n s r s' :
  reach n s -> n < INT_MAX -> fiber_timer s = Some (r, s') ->
  let leaks :=
    match s.(prev_task) with
    | Some pid =>
        match s.(tasks) !! pid with
        | Some tk => bool_decide (is_Some (process_at s tk.(tgid)) /\ running s tk.(tgid) pid = None)
        | None => false
        end
    | None => false
    end in
  s'.(preempt_count) = s.(preempt_count) + (if leaks then 1 else 0) /\
  s'.(prev_task) = Some s.(current).
Proof.
  intros Hr Hn Hrun. apply reach_good in Hr as [? [Hwf _]]; [|lia].
  apply timer_outcome in Hrun; [|done]. simpl.
  inversion Hrun as [? ? ? ? ? Ho|Hprev|pid tk Hprev Htk Hp|pid tk p P Hprev Htk Hp HP Ht|pid tk p P t T f F Hprev Htk Hc Hsel HF];
    subst; [by inversion Ho|..]; rewrite Hprev, ?Htk; simpl; (split; [|done]).
  - lia.
  - rewrite bool_decide_false by (rewrite Hp; by intros [[] _]). lia.
  - rewrite bool_decide_true; [done|]. rewrite Hp. split; [eauto|].
    apply running_none; [done|]. unfold thread_for. by rewrite Hp.
  - rewrite bool_decide_false; [lia|]. intros [_ Hnone].
    destruct (caller_fiber _ _ _ _ _ _ _ Hwf Hc) as (? & ? & _ & _ & _ & _ & ?). congruence.
Qed.

(** Every time a converted task is switched out, its fiber is charged the
    whole user time of the task, not the time since it was last charged: after
    two slices that end at user times [u1] and [u2] the fiber has been charged
    [u1 + u2]. *)
Lemma timer_charges_cumulative_time n s pid tk1 f F s1 s2 tk2 :
  reach n s -> n + 2 < INT_MAX -> s.(prev_task) = Some pid -> s.(tasks) !! pid = Some tk1 ->
  running s tk1.(tgid) pid = Some f -> s.(fiber_heap) !! f = Some F ->
  fiber_timer s = Some (0, s1) -> same_module s1 s2 ->
  s2.(prev_task) = Some pid -> s2.(tasks) !! pid = Some tk2 -> tk2.(tgid) = tk1.(tgid) ->
  exists s3 F3, fiber_timer s2 = Some (0, s3) /\ s3.(fiber_heap) !! f = Some F3 /\
    F3.(total_time) = u64 (F.(total_time) + tk1.(utime) + tk2.(utime)).
Proof.
  intros Hr Hn Hprev Htk1 Hf HF Hrun Hsame Hprev2 Htk2 Htg.
  apply reach_good in Hr as [? Hg]; [|lia]. pose proof Hg as [Hwf _].
  destruct (running_caller _ _ _ _ Hwf Hf) as (p & P & t & T & Hc & Hsel).
  pose proof Hc as [Hp HP Ht HT].
  pose proof (timer_fiber_run s pid tk1 p P t T f F (wf_heap _ Hwf) Hprev Htk1 Hp HP Ht HT Hsel HF) as Hrun'.
  assert (good (n + 1) s1) as [Hwf1 _].
  { eapply step_good; [done|lia|]. apply step_event with (e := ETimer) (r := 0). by rewrite run_event_eq. }
  rewrite Hrun' in Hrun. injection Hrun as <-.
  assert (wf s2) as Hwf2 by (by rewrite <- Hsame).
  destruct Hsame as (H1 & H2 & H3 & H4 & H5). simpl in *.
  assert (process_at s2 tk2.(tgid) = Some p) as Hp2.
  { apply process_at_spec; [done|]. rewrite H3, Htg. by apply process_at_spec in Hp. }
  set (F1 := set_total_time (u64 (F.(total_time) + tk1.(utime))) F) in *.
  assert (s2.(fiber_heap) !! f = Some F1) as HF2 by (rewrite H5; apply lookup_insert_eq).
  assert (thread_at s2 p pid = Some t) as Ht2.
  { unfold thread_at in *. by rewrite H3, H4. }
  eexists _, (set_total_time (u64 (F1.(total_time) + tk2.(utime))) F1).
  split; [eapply (timer_fiber_run s2 pid tk2 p P t T f F1); [apply Hwf2|congruence..]|].
  split; [simpl; by rewrite lookup_insert_eq|]. simpl. by rewrite uw_add_idemp_l.
Qed.
End Lifecycle.

(** ** Applications to a run *)

Section OnlyThread.
Context {K : Kernel} {KOk : KernelOk K}.

Lemma all_threads n s g x :
  reach n s -> n <= INT_MAX ->
  bool_decide (map_Forall (fun _ T => T.(thread_id) = x) s.(thread_heap)) = true ->
  forall pid u, thread_for s g pid = Some u -> pid = x.
Proof.
  intros Hr Hn Hall pid u Hu. apply reach_good in Hr as [_ [Hwf _]]; [|done].
  apply bool_decide_eq_true in Hall.
  apply thread_for_spec in Hu as (T & P & HT & <- & _); [|done]. by apply (Hall u).
Qed.
End OnlyThread.

Import Reference.

Lemma exit_hands_over_witness :
  exists s', exit_cleanup thread_10 = Some (0, s') /\ running s' 10 10 = None /\ fiber_for s' 10 1 = Some 1%positive.
Proof.
  computed (tasks thread_10 !! 10) tk Htk. assert (tgid tk = 10) as Hg by computed_field Htk.
  computed (fiber_heap thread_10 !! 1%positive) F HF. assert (fiber_id F = 1) as Hid by computed_field HF.
  destruct (exit_hands_over 7 thread_10 tk 1 F 11 2) as (s' & F' & H1 & H2 & _ & _ & _ & _ & _ & H3 & _);
    [apply thread_10_reach|discriminate|exact Htk|rewrite Hg; vm_compute; reflexivity|exact HF
    |rewrite Hg; vm_compute; reflexivity|discriminate|].
  exists s'. rewrite Hg, ?Hid in *. split; [exact H1|]. split; [exact H2|exact H3].
Defined.

(** Task 20 converts itself; no other thread of its process uses fibers. *)
Definition alone : kstate := set_current 20 (played [(20, EConvert)]).

Lemma alone_reach : reach 3 alone.
Proof. apply (schedule_reach 2), (played_reach [(20, EConvert)]). Qed.

#[global] Opaque alone.

Lemma exit_frees_all_witness :
  exists s', exit_cleanup alone = Some (0, s') /\ process_at s' 20 = None.
Proof.
  computed (tasks alone !! 20) tk Htk. assert (tgid tk = 20) as Hg by computed_field Htk.
  destruct (exit_frees_all 3 alone tk 1) as (s' & p & H1 & _ & H2 & _);
    [apply alone_reach|discriminate|reflexivity|exact Htk|rewrite Hg; vm_compute; reflexivity| |].
  - apply (all_threads 3 alone (tgid tk) 20); [apply alone_reach|discriminate|vm_compute; reflexivity].
  - exists s'. rewrite Hg in H2. split; [exact H1|exact H2].
Defined.

Lemma close_frees_all_witness : exists s', process_cleanup alone = Some (0, s').
Proof.
  computed (tasks alone !! 20) tk Htk.
  destruct (close_frees_all 3 alone tk) as (s' & H & _);
    [apply alone_reach|discriminate|reflexivity|exact Htk|]. exists s'. exact H.
Defined.

(** The same run on a kernel that poisons freed objects. *)
Definition poisoning : Kernel := kernel_with false.
Definition poisoning_ok : KernelOk poisoning := kernel_with_ok false.

Definition poisoned_boot : @kstate poisoning :=
  @KState poisoning [] false ∅ ∅ ∅
    {[ 30 := @Task poisoning 30 0 (@PtRegs poisoning 1 2 3 4 []) [] ]} 30 None 0 ∅.
Definition poisoned : @kstate poisoning :=
  match @play poisoning [(30, EConvert)] poisoned_boot with Some (_, s) => s | None => poisoned_boot end.

Lemma poisoned_reach : @reach poisoning 2 poisoned.
Proof.
  assert (@reach poisoning 0 poisoned_boot) as H0 by (by apply reach_init).
  unfold poisoned. destruct (@play poisoning [(30, EConvert)] poisoned_boot) as [[rs s]|] eqn:Hl.
  - exact (@play_reach poisoning [(30, EConvert)] 0 poisoned_boot rs s H0 Hl).
  - exfalso. assert (returns (@play poisoning [(30, EConvert)] poisoned_boot) = true) as Hr by (vm_compute; reflexivity).
    rewrite Hl in Hr. discriminate Hr.
Qed.

#[global] Opaque poisoned.

Lemma exit_use_after_free_witness : @exit_cleanup poisoning poisoned = None.
Proof.
  computed (@tasks poisoning poisoned !! 30) tk Htk.
  assert (@tgid poisoning tk = 30) as Hg by computed_field Htk.
  apply (@exit_use_after_free poisoning poisoning_ok 2 poisoned tk 1);
    [apply poisoned_reach|discriminate|reflexivity| |rewrite Hg; vm_compute; reflexivity|].
  - assert (@current poisoning poisoned = 30) as -> by (vm_compute; reflexivity). exact Htk.
  - assert (@current poisoning poisoned = 30) as -> by (vm_compute; reflexivity).
    apply (@all_threads poisoning poisoning_ok 2 poisoned (@tgid poisoning tk) 30);
      [apply poisoned_reach|discriminate|vm_compute; reflexivity].
Defined.

(** Task 11, of the process of task 10, is not converted and is switched out. *)
Definition unconverted_out : kstate := set_current 10 (played [(10, EConvert); (11, ETimer)]).

Lemma unconverted_out_reach : reach 5 unconverted_out.
Proof. apply (schedule_reach 4), (played_reach [(10, EConvert); (11, ETimer)]). Qed.

#[global] Opaque unconverted_out.

Lemma timer_preemption_witness :
  exists s', fiber_timer unconverted_out = Some (0, s') /\ s'.(preempt_count) = 1.
Proof.
  computed (fiber_timer unconverted_out) x Hx. destruct x as [r s'].
  assert (r = 0) as -> by (apply (fmap_field fst _ _ _ Hx); vm_compute; reflexivity).
  exists s'. split; [exact Hx|].
  destruct (timer_preemption 5 unconverted_out 0 s') as [Hp _];
    [apply unconverted_out_reach|reflexivity|exact Hx|].
  rewrite Hp. vm_compute. reflexivity.
Defined.

(** Task 10 has just been switched in. *)
Definition switched_in : kstate := set_current 10 (played [(10, EConvert); (10, ETimer)]).

Lemma switched_in_reach : reach 5 switched_in.
Proof. apply (schedule_reach 4), (played_reach [(10, EConvert); (10, ETimer)]). Qed.

#[global] Opaque switched_in.

Lemma timer_charges_cumulative_time_witness :
  exists s1 s3 F3, fiber_timer switched_in = Some (0, s1) /\ fiber_timer s1 = Some (0, s3) /\
    s3.(fiber_heap) !! 1%positive = Some F3 /\ F3.(total_time) = 200.
Proof.
  computed (tasks switched_in !! 10) tk Htk. assert (tgid tk = 10) as Hg by computed_field Htk.
  assert (utime tk = 100) as Hu by computed_field Htk.
  computed (fiber_heap switched_in !! 1%positive) F HF. assert (total_time F = 0) as Ht by computed_field HF.
  computed (fiber_timer switched_in) x Hx. destruct x as [r s1].
  assert (r = 0) as -> by (apply (fmap_field fst _ _ _ Hx); vm_compute; reflexivity).
  assert (prev_task s1 = Some 10) as Hprev by (apply (fmap_field (fun x => prev_task x.2) _ _ _ Hx); vm_compute; reflexivity).
  assert (tasks s1 = tasks switched_in) as Htasks by (apply (fmap_field (fun x => tasks x.2) _ _ _ Hx); vm_compute; reflexivity).
  destruct (timer_charges_cumulative_time 5 switched_in 10 tk 1 F s1 s1 tk) as (s3 & F3 & H1 & H2 & H3);
    [apply switched_in_reach|reflexivity|vm_compute; reflexivity|exact Htk|rewrite Hg; vm_compute; reflexivity
    |exact HF|exact Hx|reflexivity|exact Hprev|rewrite Htasks; exact Htk|reflexivity|].
  exists s1, s3, F3. split; [exact Hx|]. split; [exact H1|]. split; [exact H2|].
  rewrite H3, Ht, Hu. reflexivity.
Defined.
