(* ===== verification/Spec.v ===== *)
(** * What the module promises

    The specification speaks of ids only: which fibers a process has, with the
    context and the storage each of them holds, which fiber every thread runs,
    and the tasks.  Hash tables, pointers, locks and counters are gone.  Every
    run of the module is a run of the specification with the same results. *)

From S2P Require Import Prelude Kernel State CStr Fibers Heap Runs Kprobes Safety Fls Outcome System Views Switching.

(** ** Heaps seen through keys *)

(** [pictures m key view a]: [a] maps the keys of the objects of [m] to what is
    seen of them. *)
Definition pictures {A B X} `{Countable B} (m : gmap ptr A) (key : A -> option B)
    (view : A -> option X) (a : gmap B X) : Prop :=
  forall k x, a !! k = Some x <-> exists p o, m !! p = Some o /\ key o = Some k /\ view o = Some x.

Section Pictures.
Context {A B X : Type} `{Countable B}.
Implicit Types (m : gmap ptr A) (a : gmap B X) (key : A -> option B) (view : A -> option X).

Definition key_injective (m : gmap ptr A) (key : A -> option B) : Prop :=
  forall p q o o' k, m !! p = Some o -> m !! q = Some o' -> key o = Some k -> key o' = Some k -> p = q.

Lemma pictures_ext m key key' view view' a :
  pictures m key view a ->
  (forall p o, m !! p = Some o -> key' o = key o /\ view' o = view o) ->
  pictures m key' view' a.
Proof.
  intros Ha Heq k x. rewrite (Ha k x). split; intros (p & o & Ho & Hk & Hx); exists p, o;
    destruct (Heq p o Ho) as [H1 H2]; rewrite ?H1, ?H2 in *; done.
Qed.

(** An object changes, or appears, under key [k]. *)
Lemma pictures_insert m key view a p o k x :
  pictures m key view a -> key o = Some k -> view o = Some x ->
  (forall q o', m !! q = Some o' -> key o' = Some k -> q = p) ->
  (forall o', m !! p = Some o' -> key o' = Some k) ->
  pictures (<[p := o]> m) key view (<[k := x]> a).
Proof.
  intros Ha Hk Hx Hinj Hold k' x'. rewrite lookup_insert_Some, (Ha k' x'). split.
  - intros [[<- <-]|[Hne (q & o' & Ho' & Hk' & Hx')]].
    + exists p, o. by rewrite lookup_insert_eq.
    + exists q, o'. rewrite lookup_insert_ne; [done|]. intros <-. apply Hold in Ho'. congruence.
  - intros (q & o' & Ho' & Hk' & Hx'). apply lookup_insert_Some in Ho' as [[<- <-]|[Hne Ho']].
    + left. split; congruence.
    + right. split; [|eauto]. intros <-. by destruct Hne, (Hinj q o').
Qed.

Lemma key_injective_update m key p o o' :
  key_injective m key -> m !! p = Some o -> key o' = key o -> key_injective (<[p := o']> m) key.
Proof.
  intros Hinj Ho Hk.
  assert (forall q b, <[p := o']> m !! q = Some b -> exists c, m !! q = Some c /\ key c = key b) as Hback.
  { intros q b [[<- <-]|[_ Hb]]%lookup_insert_Some; eauto. }
  intros q r b c k Hb Hc Hkb Hkc. destruct (Hback q b Hb) as (b' & ? & ?), (Hback r c Hc) as (c' & ? & ?).
  apply (Hinj q r b' c' k); congruence.
Qed.

(** An object changes in place. *)
Lemma pictures_update m key view a p o o' k x :
  pictures m key view a -> key_injective m key -> m !! p = Some o -> key o = Some k ->
  key o' = Some k -> view o' = Some x ->
  pictures (<[p := o']> m) key view (<[k := x]> a).
Proof.
  intros Ha Hinj Ho Hk Hk' Hx. eapply pictures_insert; [done..| |].
  - intros q c Hc Hkc. by eapply Hinj.
  - intros c Hc. congruence.
Qed.

(** What is seen of it stays the same. *)
Lemma pictures_update_same m key view a p o o' k x :
  pictures m key view a -> key_injective m key -> m !! p = Some o -> key o = Some k ->
  view o = Some x -> key o' = Some k -> view o' = Some x ->
  pictures (<[p := o']> m) key view a.
Proof.
  intros Ha Hinj Ho Hk Hx Hk' Hx'.
  assert (a !! k = Some x) as Hax by (apply Ha; eauto).
  rewrite <- (insert_id a k x Hax). by eapply pictures_update.
Qed.

(** An object appears. *)
Lemma pictures_add m key view a p o k x :
  pictures m key view a -> key_injective (<[p := o]> m) key -> m !! p = None ->
  key o = Some k -> view o = Some x ->
  pictures (<[p := o]> m) key view (<[k := x]> a).
Proof.
  intros Ha Hinj Hp Hk Hx. eapply pictures_insert; [done..| |].
  - intros q c Hc Hkc. destruct (decide (q = p)) as [|Hne]; [done|].
    apply (Hinj q p c o k); [by rewrite lookup_insert_ne|apply lookup_insert_eq|done|done].
  - intros c Hc. congruence.
Qed.

Lemma pictures_delete m key view a p o k :
  pictures m key view a -> m !! p = Some o -> key o = Some k -> key_injective m key ->
  pictures (delete p m) key view (delete k a).
Proof.
  intros Ha Ho Hk Hinj k' x'. rewrite lookup_delete_Some, (Ha k' x'). split.
  - intros (Hne & q & o' & Ho' & Hk' & Hx'). exists q, o'. rewrite lookup_delete_ne; [done|].
    intros <-. congruence.
  - intros (q & o' & [Hne Ho']%lookup_delete_Some & Hk' & Hx'). split; [|eauto].
    intros <-. destruct Hne. by eapply Hinj.
Qed.

(** The objects whose key satisfies [P] stay. *)
Lemma pictures_filter m m' key view a (P : B -> Prop) (Q : B * X -> Prop) `{forall kx, Decision (Q kx)} :
  pictures m key view a -> (forall kx, Q kx <-> P kx.1) ->
  (forall p o, m' !! p = Some o <-> m !! p = Some o /\ (forall k, key o = Some k -> P k)) ->
  pictures m' key view (filter Q a).
Proof.
  intros Ha HQ Hm k x. rewrite map_lookup_filter_Some, (Ha k x), HQ. simpl. split.
  - intros [(p & o & Ho & Hk & Hx) HP]. exists p, o. split; [|done]. apply Hm. split; [done|].
    intros k' Hk'. congruence.
  - intros (p & o & Ho & Hk & Hx). apply Hm in Ho as [Ho HP]. split; [|by apply HP]. by exists p, o.
Qed.
End Pictures.

(** ** The specification *)

Section Spec.
Context {K : Kernel}.

Record sfiber := SFiber { sf_regs : pt_regs; sf_fpu : fx_regs; sf_slots : gmap Z Z }.

(** [sp_last g] is the number of ids process [g] has given out; a fiber is known
    by its process and its id, a thread by its process and its pid. *)
Record spec := Spec {
  sp_last : gmap Z Z;
  sp_fibers : gmap (Z * Z) sfiber;
  sp_running : gmap (Z * Z) Z;
  sp_tasks : gmap Z task;
  sp_current : Z
}.

Definition with_last (g l : Z) (a : spec) : spec :=
  Spec (<[g := l]> a.(sp_last)) a.(sp_fibers) a.(sp_running) a.(sp_tasks) a.(sp_current).
Definition with_fiber (k : Z * Z) (F : sfiber) (a : spec) : spec :=
  Spec a.(sp_last) (<[k := F]> a.(sp_fibers)) a.(sp_running) a.(sp_tasks) a.(sp_current).
Definition with_running (k : Z * Z) (id : Z) (a : spec) : spec :=
  Spec a.(sp_last) a.(sp_fibers) (<[k := id]> a.(sp_running)) a.(sp_tasks) a.(sp_current).
Definition without_running (k : Z * Z) (a : spec) : spec :=
  Spec a.(sp_last) a.(sp_fibers) (delete k a.(sp_running)) a.(sp_tasks) a.(sp_current).
Definition with_task (pid : Z) (tk : task) (a : spec) : spec :=
  Spec a.(sp_last) a.(sp_fibers) a.(sp_running) (<[pid := tk]> a.(sp_tasks)) a.(sp_current).
Definition outside (ts : gmap Z task) (c : Z) (a : spec) : spec :=
  Spec a.(sp_last) a.(sp_fibers) a.(sp_running) ts c.
Definition without_group (g : Z) (a : spec) : spec :=
  Spec (filter (fun kx => kx.1 <> g) a.(sp_last)) (filter (fun kx => kx.1.1 <> g) a.(sp_fibers))
    (filter (fun kx => kx.1.1 <> g) a.(sp_running)) a.(sp_tasks) a.(sp_current).

(** The context a created fiber starts with. *)
Definition entry_regs (tk : task) (stack size fn param : Z) : pt_regs :=
  let size := u64 (if 0 <=? size then size else DEFAULT_STACK_SIZE) in
  PtRegs fn param (u64 (stack + size - 8)) (u64 (stack + size - 8)) tk.(regs).(others).

Inductive spec_step (a : spec) : event -> Z -> spec -> Prop :=
  (** A thread becomes a fiber with the next id; only once. *)
  | sp_convert tk l :
      a.(sp_tasks) !! a.(sp_current) = Some tk ->
      a.(sp_running) !! (tk.(tgid), a.(sp_current)) = None ->
      l = default 0 (a.(sp_last) !! tk.(tgid)) ->
      spec_step a EConvert (l + 1)
        (with_running (tk.(tgid), a.(sp_current)) (l + 1)
          (with_fiber (tk.(tgid), l + 1) (SFiber tk.(regs) tk.(fx) ∅)
            (with_last tk.(tgid) (l + 1) a)))
  | sp_convert_again tk id :
      a.(sp_tasks) !! a.(sp_current) = Some tk ->
      a.(sp_running) !! (tk.(tgid), a.(sp_current)) = Some id ->
      spec_step a EConvert (-1) a
  (** A converted thread makes a fiber, which gets the next id. *)
  | sp_create tk id l sp sz fn param :
      a.(sp_tasks) !! a.(sp_current) = Some tk ->
      a.(sp_running) !! (tk.(tgid), a.(sp_current)) = Some id ->
      a.(sp_last) !! tk.(tgid) = Some l ->
      spec_step a (ECreate sp sz fn param) (l + 1)
        (with_fiber (tk.(tgid), l + 1) (SFiber (entry_regs tk sp sz fn param) tk.(fx) ∅)
          (with_last tk.(tgid) (l + 1) a))
  | sp_create_none tk sp sz fn param :
      a.(sp_tasks) !! a.(sp_current) = Some tk ->
      a.(sp_running) !! (tk.(tgid), a.(sp_current)) = None ->
      spec_step a (ECreate sp sz fn param) (-1) a
  (** A switch to a fiber nobody runs exchanges the contexts. *)
  | sp_switch tk id0 F0 id F :
      a.(sp_tasks) !! a.(sp_current) = Some tk ->
      a.(sp_running) !! (tk.(tgid), a.(sp_current)) = Some id0 ->
      a.(sp_fibers) !! (tk.(tgid), id0) = Some F0 -> a.(sp_fibers) !! (tk.(tgid), id) = Some F ->
      (forall pid, a.(sp_running) !! (tk.(tgid), pid) <> Some id) ->
      spec_step a (ESwitch id) 0
        (with_task a.(sp_current) (Task tk.(tgid) tk.(utime) F.(sf_regs) F.(sf_fpu))
          (with_running (tk.(tgid), a.(sp_current)) id
            (with_fiber (tk.(tgid), id0) (SFiber tk.(regs) tk.(fx) F0.(sf_slots)) a)))
  | sp_switch_busy tk id0 id pid :
      a.(sp_tasks) !! a.(sp_current) = Some tk ->
      a.(sp_running) !! (tk.(tgid), a.(sp_current)) = Some id0 ->
      a.(sp_running) !! (tk.(tgid), pid) = Some id ->
      spec_step a (ESwitch id) (-1) a
  | sp_switch_none tk id :
      a.(sp_tasks) !! a.(sp_current) = Some tk ->
      a.(sp_running) !! (tk.(tgid), a.(sp_current)) = None \/ a.(sp_fibers) !! (tk.(tgid), id) = None ->
      spec_step a (ESwitch id) (-1) a
  (** The storage operations act on the fiber the thread runs. *)
  | sp_fls tk id F op r m :
      a.(sp_tasks) !! a.(sp_current) = Some tk ->
      a.(sp_running) !! (tk.(tgid), a.(sp_current)) = Some id ->
      a.(sp_fibers) !! (tk.(tgid), id) = Some F -> fls_step op r F.(sf_slots) m ->
      spec_step a (EFls op) r
        (with_fiber (tk.(tgid), id) (SFiber F.(sf_regs) F.(sf_fpu) m) a)
  | sp_fls_none tk op :
      a.(sp_tasks) !! a.(sp_current) = Some tk ->
      a.(sp_running) !! (tk.(tgid), a.(sp_current)) = None ->
      spec_step a (EFls op) (fls_failure op) a
  (** A thread that exits leaves its fiber to the others, the last one takes all
      fibers with it. *)
  | sp_exit tk id F pid id' :
      a.(sp_tasks) !! a.(sp_current) = Some tk ->
      a.(sp_running) !! (tk.(tgid), a.(sp_current)) = Some id ->
      a.(sp_fibers) !! (tk.(tgid), id) = Some F ->
      a.(sp_running) !! (tk.(tgid), pid) = Some id' -> pid <> a.(sp_current) ->
      spec_step a EExit 0
        (without_running (tk.(tgid), a.(sp_current))
          (with_fiber (tk.(tgid), id) (SFiber tk.(regs) tk.(fx) F.(sf_slots)) a))
  | sp_exit_last tk id :
      a.(sp_tasks) !! a.(sp_current) = Some tk ->
      a.(sp_running) !! (tk.(tgid), a.(sp_current)) = Some id ->
      (forall pid id', a.(sp_running) !! (tk.(tgid), pid) = Some id' -> pid = a.(sp_current)) ->
      spec_step a EExit 0 (without_group tk.(tgid) a)
  | sp_exit_none tk :
      a.(sp_tasks) !! a.(sp_current) = Some tk ->
      a.(sp_running) !! (tk.(tgid), a.(sp_current)) = None ->
      spec_step a EExit 0 a
  (** Closing the device removes the fibers of the process. *)
  | sp_close tk :
      a.(sp_tasks) !! a.(sp_current) = Some tk ->
      spec_step a EClose 0 (without_group tk.(tgid) a)
  | sp_timer : spec_step a ETimer 0 a.

(** ** The relation between the module and its specification *)

Definition process_key (P : process) : option Z := Some P.(process_id).
Definition fiber_key (ph : gmap ptr process) (F : fiber) : option (Z * Z) :=
  P ← ph !! F.(parent_process); Some (P.(process_id), F.(fiber_id)).
Definition thread_key (ph : gmap ptr process) (T : thread) : option (Z * Z) :=
  P ← ph !! T.(parent); Some (P.(process_id), T.(thread_id)).
Definition last_view (P : process) : option Z := Some P.(last_fiber_id).
Definition fiber_view (F : fiber) : option sfiber := Some (SFiber F.(registers) F.(fpu) (slots F)).
Definition running_view (fh : gmap ptr fiber) (T : thread) : option Z :=
  f ← T.(selected_fiber); F ← fh !! f; Some F.(fiber_id).

Record implements (s : kstate) (a : spec) : Prop := {
  im_last : pictures s.(process_heap) process_key last_view a.(sp_last);
  im_fibers : pictures s.(fiber_heap) (fiber_key s.(process_heap)) fiber_view a.(sp_fibers);
  im_running : pictures s.(thread_heap) (thread_key s.(process_heap))
                 (running_view s.(fiber_heap)) a.(sp_running);
  im_tasks : a.(sp_tasks) = s.(tasks);
  im_current : a.(sp_current) = s.(current)
}.

(** A run: events with their results, and anything outside the module. *)
Inductive trace : kstate -> list (option (event * Z)) -> kstate -> Prop :=
  | trace_nil s : trace s [] s
  | trace_event s e r s' l s'' :
      run_event e s = Some (r, s') -> trace s' l s'' -> trace s (Some (e, r) :: l) s''
  | trace_outside s s' l s'' :
      same_module s s' -> trace s' l s'' -> trace s (None :: l) s''.

Inductive spec_trace : spec -> list (option (event * Z)) -> spec -> Prop :=
  | spec_trace_nil a : spec_trace a [] a
  | spec_trace_event a e r a' l a'' :
      spec_step a e r a' -> spec_trace a' l a'' -> spec_trace a (Some (e, r) :: l) a''
  | spec_trace_outside a ts c l a'' :
      spec_trace (outside ts c a) l a'' -> spec_trace a (None :: l) a''.
End Spec.
