(* ===== verification/Refinement.v ===== *)
(** * The module implements its specification

    Forward simulation: every step of the module from a reachable state that
    implements a state of the specification is a step of the specification. *)

From S2P Require Import Prelude Kernel State CStr Fibers Heap Runs Kprobes Safety Fls Outcome System Views Scenario Exclusion Switching Creation Lifecycle Spec.

Section Refinement.
Context {K : Kernel} {KOk : KernelOk K}.

(** ** Keys *)

Lemma process_key_inj s : wf s -> key_injective s.(process_heap) process_key.
Proof. intros Hwf p q P Q k HP HQ [= <-] [= Heq]. by eapply process_id_inj. Qed.

Lemma fiber_key_Some ph F g id :
  fiber_key ph F = Some (g, id) <->
  exists P, ph !! F.(parent_process) = Some P /\ P.(process_id) = g /\ F.(fiber_id) = id.
Proof.
  unfold fiber_key. destruct (ph !! F.(parent_process)) as [P|]; simpl.
  - split; [intros [= <- <-]; eauto|intros (? & [= <-] & -> & ->); done].
  - split; [done|by intros (? & ? & _)].
Qed.

Lemma thread_key_Some ph T g pid :
  thread_key ph T = Some (g, pid) <->
  exists P, ph !! T.(parent) = Some P /\ P.(process_id) = g /\ T.(thread_id) = pid.
Proof.
  unfold thread_key. destruct (ph !! T.(parent)) as [P|]; simpl.
  - split; [intros [= <- <-]; eauto|intros (? & [= <-] & -> & ->); done].
  - split; [done|by intros (? & ? & _)].
Qed.

Lemma fiber_key_inj s : wf s -> key_injective s.(fiber_heap) (fiber_key s.(process_heap)).
Proof.
  intros Hwf f g F G [h id] HF HG HkF HkG.
  assert (fiber_for s h id = Some f) as H1.
  { apply fiber_key_Some in HkF as (P & ? & ? & ?). apply fiber_for_spec; [done|]. by exists F, P. }
  assert (fiber_for s h id = Some g) as H2.
  { apply fiber_key_Some in HkG as (P & ? & ? & ?). apply fiber_for_spec; [done|]. by exists G, P. }
  congruence.
Qed.

Lemma thread_key_inj s : wf s -> key_injective s.(thread_heap) (thread_key s.(process_heap)).
Proof.
  intros Hwf f g F G [h id] HF HG HkF HkG.
  assert (thread_for s h id = Some f) as H1.
  { apply thread_key_Some in HkF as (P & ? & ? & ?). apply thread_for_spec; [done|]. by exists F, P. }
  assert (thread_for s h id = Some g) as H2.
  { apply thread_key_Some in HkG as (P & ? & ? & ?). apply thread_for_spec; [done|]. by exists G, P. }
  congruence.
Qed.

(** A process that changes but keeps its id does not change the keys. *)
Lemma fiber_key_update ph p P P' F :
  ph !! p = Some P -> P'.(process_id) = P.(process_id) ->
  fiber_key (<[p := P']> ph) F = fiber_key ph F.
Proof.
  intros HP Hid. unfold fiber_key. destruct (decide (p = F.(parent_process))) as [<-|].
  - rewrite lookup_insert_eq, HP. simpl. by rewrite Hid.
  - by rewrite lookup_insert_ne.
Qed.

Lemma thread_key_update ph p P P' T :
  ph !! p = Some P -> P'.(process_id) = P.(process_id) ->
  thread_key (<[p := P']> ph) T = thread_key ph T.
Proof.
  intros HP Hid. unfold thread_key. destruct (decide (p = T.(parent))) as [<-|].
  - rewrite lookup_insert_eq, HP. simpl. by rewrite Hid.
  - by rewrite lookup_insert_ne.
Qed.

(** ** Lookups in the specification *)

Lemma caller_group s tk pid p P t T : wf s -> caller s tk pid p P t T -> P.(process_id) = tk.(tgid).
Proof.
  intros Hwf [Hp HP _ _]. apply process_at_spec in Hp as (P' & HP' & Hg); [|done]. congruence.
Qed.

Lemma spec_running s a tk pid f F :
  wf s -> implements s a -> running s tk.(tgid) pid = Some f -> s.(fiber_heap) !! f = Some F ->
  a.(sp_running) !! (tk.(tgid), pid) = Some F.(fiber_id) /\
  a.(sp_fibers) !! (tk.(tgid), F.(fiber_id)) = Some (SFiber F.(registers) F.(fpu) (slots F)) /\
  fiber_key s.(process_heap) F = Some (tk.(tgid), F.(fiber_id)).
Proof.
  intros Hwf Ha Hr HF. destruct (running_caller _ _ _ _ Hwf Hr) as (p & P & t & T & Hc & Hsel).
  pose proof (caller_group _ _ _ _ _ _ _ Hwf Hc) as Hg.
  destruct (caller_parent _ _ _ _ _ _ _ Hwf Hc) as [Hpar Hid].
  destruct (caller_fiber _ _ _ _ _ _ _ Hwf Hc) as (f' & F' & ? & ? & _ & HFp & _).
  assert (f' = f) as -> by congruence. assert (F' = F) as -> by congruence.
  destruct Hc as [Hp HP Ht HT].
  assert (fiber_key s.(process_heap) F = Some (tk.(tgid), F.(fiber_id))) as Hkey.
  { apply fiber_key_Some. exists P. by rewrite HFp. }
  split_and!; [| |done].
  - apply (im_running _ _ Ha). exists t, T. split; [done|]. split.
    + apply thread_key_Some. exists P. by rewrite Hpar.
    + unfold running_view. rewrite Hsel. simpl. by rewrite HF.
  - apply (im_fibers _ _ Ha). by exists f, F.
Qed.

(** The objects behind a fiber that the specification says is run. *)
Lemma spec_running_inv s a g pid id :
  wf s -> implements s a -> a.(sp_running) !! (g, pid) = Some id ->
  exists f F t, running s g pid = Some f /\ s.(fiber_heap) !! f = Some F /\
    F.(fiber_id) = id /\ fiber_key s.(process_heap) F = Some (g, id) /\
    thread_for s g pid = Some t /\ F.(attached_thread) = Some t.
Proof.
  intros Hwf Ha Hr. apply (im_running _ _ Ha) in Hr as (t & T & HT & Hk & Hv).
  apply thread_key_Some in Hk as (P & HP & Hg & Hid). unfold running_view in Hv.
  destruct (T.(selected_fiber)) as [f|] eqn:Hsel; [|done]. simpl in Hv.
  destruct (selected_fiber_ok s t T f Hwf HT Hsel) as (F & HF & HA & HO & _).
  rewrite HF in Hv. injection Hv as Hv.
  assert (thread_for s g pid = Some t) as Hfor by (apply thread_for_spec; [done|]; by exists T, P).
  exists f, F, t. split_and!; try done.
  - apply running_spec; [done|]. by exists t, T.
  - apply fiber_key_Some. exists P. by rewrite HO.
Qed.

Lemma spec_running_none s a g pid :
  wf s -> implements s a -> thread_for s g pid = None -> a.(sp_running) !! (g, pid) = None.
Proof.
  intros Hwf Ha Hnone. destruct (a.(sp_running) !! (g, pid)) as [id|] eqn:E; [|done].
  destruct (spec_running_inv _ _ _ _ _ Hwf Ha E) as (f & F & t & _ & _ & _ & _ & Ht & _). congruence.
Qed.

Lemma spec_fiber s a g id f F :
  wf s -> implements s a -> fiber_for s g id = Some f -> s.(fiber_heap) !! f = Some F ->
  a.(sp_fibers) !! (g, id) = Some (SFiber F.(registers) F.(fpu) (slots F)) /\
  fiber_key s.(process_heap) F = Some (g, id).
Proof.
  intros Hwf Ha Hf HF. apply fiber_for_spec in Hf as (F' & P & HF' & Hid & HP & Hg); [|done].
  assert (F' = F) as -> by congruence.
  assert (fiber_key s.(process_heap) F = Some (g, id)) as Hkey by (apply fiber_key_Some; by exists P).
  split; [|done]. apply (im_fibers _ _ Ha). by exists f, F.
Qed.

Lemma spec_fiber_none s a g id :
  wf s -> implements s a -> fiber_for s g id = None -> a.(sp_fibers) !! (g, id) = None.
Proof.
  intros Hwf Ha Hnone. destruct (a.(sp_fibers) !! (g, id)) as [X|] eqn:E; [|done].
  apply (im_fibers _ _ Ha) in E as (f & F & HF & Hk & _).
  apply fiber_key_Some in Hk as (P & HP & Hg & Hid).
  assert (fiber_for s g id = Some f) as Hf by (apply fiber_for_spec; [done|]; by exists F, P).
  congruence.
Qed.

Lemma spec_last s a g p P :
  wf s -> implements s a -> process_at s g = Some p -> s.(process_heap) !! p = Some P ->
  a.(sp_last) !! g = Some P.(last_fiber_id).
Proof.
  intros Hwf Ha Hp HP. apply process_at_spec in Hp as (P' & HP' & Hg); [|done].
  assert (P' = P) as -> by congruence. apply (im_last _ _ Ha). exists p, P. by rewrite <- Hg.
Qed.

Lemma spec_last_none s a g :
  wf s -> implements s a -> process_at s g = None -> a.(sp_last) !! g = None.
Proof.
  intros Hwf Ha Hp. destruct (a.(sp_last) !! g) as [l|] eqn:E; [|done].
  apply (im_last _ _ Ha) in E as (p & P & HP & [= Hg] & _).
  assert (process_at s g = Some p) by (apply process_at_spec; [done|]; eauto). congruence.
Qed.

(** ** What the specification does not see *)

Lemma implements_same_module s s' a :
  implements s a -> same_module s s' -> implements s' (outside s'.(tasks) s'.(current) a).
Proof.
  intros [H1 H2 H3 _ _] (_ & _ & Hph & Hth & Hfh). split; simpl; rewrite ?Hph, ?Hth, ?Hfh; done.
Qed.

Lemma outside_eq s a : implements s a -> outside s.(tasks) s.(current) a = a.
Proof. intros [_ _ _ H1 H2]. destruct a. simpl in *. by subst. Qed.

Lemma implements_lock s a l : implements s a -> implements (set_struct_process_lock l s) a.
Proof. by intros []. Qed.

(** A fiber changes without changing what is seen of it, or is seen anew. *)
Lemma implements_fiber s a f F F' :
  wf s -> implements s a -> s.(fiber_heap) !! f = Some F -> same_fiber F F' ->
  implements (set_fiber_heap (<[f := F']> s.(fiber_heap)) s)
    (match fiber_key s.(process_heap) F with
     | Some k => with_fiber k (SFiber F'.(registers) F'.(fpu) (slots F')) a
     | None => a
     end).
Proof.
  intros Hwf Ha HF (Hid & _ & Hpar & _).
  destruct (ho_fiber _ _ _ _ (wf_heap _ Hwf) f F HF) as [[P HP] _ _ _ _].
  destruct (fiber_key s.(process_heap) F) as [k|] eqn:Hk.
  2: { unfold fiber_key in Hk. by rewrite HP in Hk. }
  assert (fiber_key s.(process_heap) F' = Some k) as Hk' by (unfold fiber_key in *; by rewrite Hpar, Hid).
  destruct Ha as [H1 H2 H3 H4 H5]. split; simpl; [done| | |done|done].
  - eapply pictures_insert; [exact H2|done|done| |].
    + intros g G HG HkG. by eapply (fiber_key_inj s Hwf g f G F).
    + intros G HG. congruence.
  - eapply pictures_ext; [exact H3|]. intros t T HT. split; [done|]. unfold running_view.
    destruct (T.(selected_fiber)) as [g|]; [|done]. simpl.
    destruct (decide (f = g)) as [<-|]; [|by rewrite lookup_insert_ne].
    rewrite lookup_insert_eq, HF. simpl. by rewrite Hid.
Qed.

Lemma implements_fiber_same s a f F F' :
  wf s -> implements s a -> s.(fiber_heap) !! f = Some F -> same_fiber F F' ->
  saved_context F' = saved_context F ->
  implements (set_fiber_heap (<[f := F']> s.(fiber_heap)) s) a.
Proof.
  intros Hwf Ha HF Hsame Hctx. pose proof (implements_fiber _ _ _ _ _ Hwf Ha HF Hsame) as H.
  destruct (fiber_key s.(process_heap) F) as [[g id]|] eqn:Hk; [|done].
  assert (with_fiber (g, id) (SFiber F'.(registers) F'.(fpu) (slots F')) a = a) as Heq; [|congruence].
  unfold saved_context in Hctx. injection Hctx as Hr Hf Hl Hb.
  assert (slots F' = slots F) as Hs.
  { apply map_eq. intros i. rewrite !slots_lookup. unfold slot. by rewrite Hl, Hb. }
  unfold with_fiber. destruct a as [l fs r ts c]. simpl. f_equal. apply insert_id.
  apply (im_fibers _ _ Ha). exists f, F. split; [done|]. split; [done|].
  unfold fiber_view. by rewrite Hr, Hf, Hs.
Qed.

(** ** The steps *)

Lemma view_context F F' :
  saved_context F' = saved_context F -> fiber_view F' = fiber_view F.
Proof.
  unfold saved_context, fiber_view. intros Hctx. injection Hctx as Hr Hf Hl Hb.
  assert (slots F' = slots F) as ->; [|by rewrite Hr, Hf].
  apply map_eq. intros i. rewrite !slots_lookup. unfold slot. by rewrite Hl, Hb.
Qed.

(** The slots of two fibers with the same storage are the same. *)
Lemma slots_same F F' :
  F'.(fls) = F.(fls) -> F'.(fls_bitmap) = F.(fls_bitmap) -> slots F' = slots F.
Proof.
  intros Hl Hb. apply map_eq. intros i. rewrite !slots_lookup. unfold slot. by rewrite Hl, Hb.
Qed.

Lemma running_view_update fh f F F' T :
  fh !! f = Some F -> F'.(fiber_id) = F.(fiber_id) ->
  running_view (<[f := F']> fh) T = running_view fh T.
Proof.
  intros HF Hid. unfold running_view. destruct (T.(selected_fiber)) as [g|]; [|done]. simpl.
  destruct (decide (f = g)) as [<-|]; [|by rewrite lookup_insert_ne].
  rewrite lookup_insert_eq, HF. simpl. by rewrite Hid.
Qed.

Lemma implements_switched s a tk p P t T prev Pv f F :
  wf s -> implements s a -> caller s tk s.(current) p P t T ->
  T.(selected_fiber) = Some prev -> s.(fiber_heap) !! prev = Some Pv ->
  s.(fiber_heap) !! f = Some F -> fiber_key s.(process_heap) Pv = Some (tk.(tgid), Pv.(fiber_id)) ->
  fiber_key s.(process_heap) F = Some (tk.(tgid), F.(fiber_id)) -> prev <> f ->
  implements (switched t T prev f Pv F tk s)
    (with_task s.(current) (Task tk.(tgid) tk.(utime) F.(registers) F.(fpu))
      (with_running (tk.(tgid), s.(current)) F.(fiber_id)
        (with_fiber (tk.(tgid), Pv.(fiber_id)) (SFiber tk.(regs) tk.(fx) (slots Pv)) a))).
Proof.
  intros Hwf Ha Hc Hsel HPv HF HkPv HkF Hne. destruct Ha as [H1 H2 H3 H4 H5].
  pose proof (caller_group _ _ _ _ _ _ _ Hwf Hc) as Hg.
  destruct (caller_parent _ _ _ _ _ _ _ Hwf Hc) as [Hpar Hid].
  destruct Hc as [Hp HP Ht HT]. pose proof (fiber_key_inj s Hwf) as Hinj.
  split; simpl; [done| | |by rewrite H4|done].
  - rewrite <- (slots_same Pv (leave_fiber tk Pv)) by done.
    eapply pictures_update with (o := Pv); [|by eapply key_injective_update|by rewrite lookup_insert_ne|done..].
    eapply pictures_update_same with (o := F); [done..|]. by apply view_context.
  - eapply pictures_update with (o := T); [|by apply thread_key_inj|done|..].
    + eapply pictures_ext; [exact H3|]. intros u U HU. split; [done|].
      erewrite running_view_update; [|by rewrite lookup_insert_ne|done].
      by apply running_view_update with (F := F).
    + apply thread_key_Some. exists P. by rewrite Hpar.
    + apply thread_key_Some. exists P. simpl. by rewrite Hpar.
    + unfold running_view. simpl. rewrite lookup_insert_ne, lookup_insert_eq by done. done.
Qed.

Lemma implements_created s a tk p P t T f sp sz fn param :
  wf s -> implements s a -> caller s tk s.(current) p P t T -> s.(fiber_heap) !! f = None ->
  implements (created p f P sp sz fn param tk s)
    (with_fiber (tk.(tgid), P.(last_fiber_id) + 1) (SFiber (entry_regs tk sp sz fn param) tk.(fx) ∅)
      (with_last tk.(tgid) (P.(last_fiber_id) + 1) a)).
Proof.
  intros Hwf Ha Hc Hf. destruct Ha as [H1 H2 H3 H4 H5].
  pose proof (caller_group _ _ _ _ _ _ _ Hwf Hc) as Hg. destruct Hc as [Hp HP Ht HT].
  pose proof (wf_created s p P f sp sz fn param tk Hwf HP Hf) as Hwf'.
  split; simpl; [| | |done|done].
  - eapply pictures_update with (o := P); [exact H1|by apply process_key_inj|done|..]; rewrite <- ?Hg; done.
  - eapply pictures_add; [|by apply (fiber_key_inj _ Hwf')|done|..].
    + eapply pictures_ext; [exact H2|]. intros g G HG. split; [|done]. by eapply fiber_key_update.
    + apply fiber_key_Some. exists (process_with_fiber P f). simpl. by rewrite lookup_insert_eq.
    + unfold fiber_view. do 2 f_equal. by apply slots_zero.
  - eapply pictures_ext; [exact H3|]. intros u U HU. split; [by eapply thread_key_update|].
    unfold running_view. destruct (U.(selected_fiber)) as [g|] eqn:Hsel; [|done]. simpl.
    destruct (selected_fiber_ok s u U g Hwf HU Hsel) as (G & HG & _).
    rewrite lookup_insert_ne; [done|]. congruence.
Qed.

Lemma implements_new_process s a p g :
  wf s -> implements s a -> s.(process_heap) !! p = None -> process_at s g = None ->
  implements (new_process p g s) (with_last g 0 a).
Proof.
  intros Hwf Ha Hp Hg. pose proof (wf_new_process s p g Hwf Hp Hg) as Hwf'.
  destruct Ha as [H1 H2 H3 H4 H5]. split; simpl; [| | |done|done].
  - eapply pictures_add; [exact H1|by apply (process_key_inj _ Hwf')|done..].
  - eapply pictures_ext; [exact H2|]. intros f F HF. split; [|done].
    destruct (ho_fiber _ _ _ _ (wf_heap _ Hwf) f F HF) as [[Q HQ] _ _ _ _].
    unfold fiber_key. rewrite lookup_insert_ne; [done|]. congruence.
  - eapply pictures_ext; [exact H3|]. intros t T HT. split; [|done].
    destruct (ho_thread _ _ _ _ (wf_heap _ Hwf) t T HT) as [[Q HQ] _].
    unfold thread_key. rewrite lookup_insert_ne; [done|]. congruence.
Qed.

Lemma implements_converted s a tk p P t f tid :
  wf s -> implements s a -> s.(process_heap) !! p = Some P -> P.(process_id) = tk.(tgid) ->
  thread_at s p tid = None -> s.(thread_heap) !! t = None -> s.(fiber_heap) !! f = None ->
  implements (converted p t f P tid tk s)
    (with_running (tk.(tgid), tid) (P.(last_fiber_id) + 1)
      (with_fiber (tk.(tgid), P.(last_fiber_id) + 1) (SFiber tk.(regs) tk.(fx) ∅)
        (with_last tk.(tgid) (P.(last_fiber_id) + 1) a))).
Proof.
  intros Hwf Ha HP Hg Htid Ht Hf. destruct Ha as [H1 H2 H3 H4 H5].
  pose proof (wf_converted s p t f P tid tk Hwf HP Htid Ht Hf) as Hwf'.
  split; simpl; [| | |done|done].
  - eapply pictures_update with (o := P); [exact H1|by apply process_key_inj|done|..]; rewrite <- ?Hg; done.
  - eapply pictures_add; [|by apply (fiber_key_inj _ Hwf')|done|..].
    + eapply pictures_ext; [exact H2|]. intros g G HG. split; [|done]. by eapply fiber_key_update.
    + apply fiber_key_Some. eexists. simpl. by rewrite lookup_insert_eq.
    + unfold fiber_view. simpl. rewrite (slots_zero (first_fiber _ _ _ _ _)) by done.
      by destruct (regs tk).
  - eapply pictures_add; [|by apply (thread_key_inj _ Hwf')|done|..].
    + eapply pictures_ext; [exact H3|]. intros u U HU. split; [by eapply thread_key_update|].
      unfold running_view. destruct (U.(selected_fiber)) as [g|] eqn:Hsel; [|done]. simpl.
      destruct (selected_fiber_ok s u U g Hwf HU Hsel) as (G & HG & _).
      rewrite lookup_insert_ne; [done|]. congruence.
    + apply thread_key_Some. eexists. simpl. by rewrite lookup_insert_eq.
    + unfold running_view. simpl. by rewrite lookup_insert_eq.
Qed.

Lemma implements_exited s a tk p P t T f F :
  wf s -> implements s a -> caller s tk s.(current) p P t T -> T.(selected_fiber) = Some f ->
  s.(fiber_heap) !! f = Some F -> fiber_key s.(process_heap) F = Some (tk.(tgid), F.(fiber_id)) ->
  implements (exited p t f P F tk s)
    (without_running (tk.(tgid), s.(current))
      (with_fiber (tk.(tgid), F.(fiber_id)) (SFiber tk.(regs) tk.(fx) (slots F)) a)).
Proof.
  intros Hwf Ha Hc Hsel HF HkF. destruct Ha as [H1 H2 H3 H4 H5].
  pose proof (caller_group _ _ _ _ _ _ _ Hwf Hc) as Hg.
  destruct (caller_parent _ _ _ _ _ _ _ Hwf Hc) as [Hpar Hid]. destruct Hc as [Hp HP Ht HT].
  split; simpl; [| | |done|done].
  - by eapply pictures_update_same with (o := P); [exact H1|apply process_key_inj|..].
  - rewrite <- (slots_same F (released_fiber tk F)) by done.
    eapply pictures_ext.
    + eapply pictures_update with (o := F) (o' := released_fiber tk F); [exact H2|by apply fiber_key_inj|done|exact HkF|exact HkF|done].
    + intros g G HG. split; [|done]. by eapply fiber_key_update.
  - eapply pictures_ext.
    + eapply pictures_delete with (o := T); [exact H3|exact HT| |by apply thread_key_inj].
      apply thread_key_Some. exists P. by rewrite Hpar.
    + intros u U HU. split; [by eapply thread_key_update|]. by eapply running_view_update.
Qed.

Lemma implements_without s a g p P th fh :
  wf s -> implements s a -> process_at s g = Some p -> s.(process_heap) !! p = Some P ->
  (forall t T, th !! t = Some T <-> s.(thread_heap) !! t = Some T /\ ~ thread_of p T) ->
  (forall f F, fh !! f = Some F <-> s.(fiber_heap) !! f = Some F /\ ~ fiber_of p F) ->
  implements (without_process p th fh s) (without_group g a).
Proof.
  intros Hwf Ha Hp HP Hth Hfh. destruct Ha as [H1 H2 H3 H4 H5].
  apply process_at_spec in Hp as (P' & HP' & Hg); [|done]. assert (P' = P) as -> by congruence. clear HP'.
  assert (forall q Q, s.(process_heap) !! q = Some Q -> Q.(process_id) <> g <-> q <> p) as Hother.
  { intros q Q HQ. split; [intros Hne ->; congruence|].
    intros Hne Heq. apply Hne. eapply (process_id_inj s q p Q P); [done..|congruence]. }
  split; simpl; [| | |done|done].
  - eapply (pictures_filter s.(process_heap) _ process_key last_view _ (fun k => k <> g) _ H1); [done|].
    intros q Q. rewrite lookup_delete_Some. split.
    + intros [Hne HQ]. split; [done|]. intros k [= <-]. by apply (Hother q Q).
    + intros [HQ Hk]. split; [|done]. apply not_eq_sym, (Hother q Q HQ). by apply Hk.
  - eapply pictures_ext.
    + eapply (pictures_filter s.(fiber_heap) fh _ fiber_view _ (fun k => k.1 <> g) _ H2); [done|].
      intros f F. rewrite Hfh. split; intros [HF Hof]; (split; [done|]).
      * intros [h id] (Q & HQ & Hgq & _)%fiber_key_Some. simpl. rewrite <- Hgq. by eapply Hother.
      * intros Hpar. unfold fiber_of in Hpar.
        apply (Hof (P.(process_id), F.(fiber_id))); [|done]. apply fiber_key_Some. exists P. by rewrite Hpar.
    + intros f F [HF Hof]%Hfh. split; [|done]. unfold fiber_key. by rewrite lookup_delete_ne by auto.
  - eapply pictures_ext.
    + eapply (pictures_filter s.(thread_heap) th _ (running_view s.(fiber_heap)) _ (fun k => k.1 <> g) _ H3); [done|].
      intros t T. rewrite Hth. split; intros [HT Hof]; (split; [done|]).
      * intros [h id] (Q & HQ & Hgq & _)%thread_key_Some. simpl. rewrite <- Hgq. by eapply Hother.
      * intros Hpar. unfold thread_of in Hpar.
        apply (Hof (P.(process_id), T.(thread_id))); [|done]. apply thread_key_Some. exists P. by rewrite Hpar.
    + intros t T [HT Hof]%Hth. split; [unfold thread_key; by rewrite lookup_delete_ne by auto|].
      unfold running_view. destruct (T.(selected_fiber)) as [f|] eqn:Hsel; [|done]. simpl.
      destruct (selected_fiber_ok s t T f Hwf HT Hsel) as (F & HF & _ & HO & _). rewrite HF.
      assert (fh !! f = Some F) as ->; [|done]. apply Hfh. split; [done|].
      unfold fiber_of, thread_of in *. congruence.
Qed.

Lemma implements_without_none s a g :
  wf s -> implements s a -> process_at s g = None -> implements s (without_group g a).
Proof.
  intros Hwf Ha Hnone. pose proof Ha as [H1 H2 H3 H4 H5]. split; simpl; [| | |done|done].
  - eapply (pictures_filter s.(process_heap) _ process_key last_view _ (fun k => k <> g) _ H1); [done|].
    intros p P. split; [|by intros []]. intros HP. split; [done|]. intros k [= <-] Heq.
    assert (process_at s g = Some p) by (apply process_at_spec; [done|]; eauto). congruence.
  - eapply (pictures_filter s.(fiber_heap) _ _ fiber_view _ (fun k => k.1 <> g) _ H2); [done|].
    intros f F. split; [|by intros []]. intros HF. split; [done|].
    intros [h id] (P & HP & Hg & _)%fiber_key_Some Heq. simpl in Heq.
    assert (process_at s g = Some F.(parent_process)); [|congruence].
    apply process_at_spec; [done|]. exists P. split; [done|congruence].
  - eapply (pictures_filter s.(thread_heap) _ _ (running_view s.(fiber_heap)) _ (fun k => k.1 <> g) _ H3); [done|].
    intros t T. split; [|by intros []]. intros HT. split; [done|].
    intros [h id] (P & HP & Hg & _)%thread_key_Some Heq. simpl in Heq.
    assert (process_at s g = Some T.(parent)); [|congruence].
    apply process_at_spec; [done|]. exists P. split; [done|congruence].
Qed.

(** A fiber is run by a task exactly when it is attached to a thread. *)
Lemma attached_running s f F u g :
  wf s -> s.(fiber_heap) !! f = Some F -> F.(attached_thread) = Some u ->
  fiber_key s.(process_heap) F = Some (g, F.(fiber_id)) ->
  exists pid, running s g pid = Some f.
Proof.
  intros Hwf HF HA HkF.
  destruct (ho_fiber _ _ _ _ (wf_heap _ Hwf) f F HF) as [_ _ _ _ Hatt].
  destruct (Hatt u HA) as (U & HU & Hsel).
  destruct (selected_fiber_ok s u U f Hwf HU Hsel) as (F' & HF' & _ & HO & _).
  assert (F' = F) as -> by congruence.
  apply fiber_key_Some in HkF as (Q & HQ & Hgq & _). rewrite HO in HQ.
  exists U.(thread_id). apply running_spec; [done|]. exists u, U. split_and!; try done.
  apply thread_for_spec; [done|]. by exists U, Q.
Qed.

(** A thread that is not the only active one has a companion that runs a fiber. *)
Lemma another_thread s tk p P t T :
  wf s -> caller s tk s.(current) p P t T -> P.(active_threads) <> 1 ->
  exists pid h H', running s tk.(tgid) pid = Some h /\ s.(fiber_heap) !! h = Some H' /\ pid <> s.(current).
Proof.
  intros Hwf Hc Hact. pose proof (active_positive _ _ _ _ _ _ _ Hwf Hc) as Hpos.
  pose proof (caller_thread_for _ _ _ _ _ _ _ Hc) as Hfor.
  pose proof (caller_group _ _ _ _ _ _ _ Hwf Hc) as Hg. destruct Hc as [Hp HP Ht HT].
  destruct (ho_process _ _ _ _ (wf_heap _ Hwf) p P HP) as [Htbl _ Hlen _ _].
  pose proof (tbl_nodup _ _ _ _ Htbl) as Hnd.
  assert (exists u, u ∈ hash_each P.(threads) /\ u <> t) as (u & Hu & Hne).
  { destruct (hash_each P.(threads)) as [|x [|y l]]; simpl in *; [lia|lia|].
    apply NoDup_cons in Hnd as [Hx _]. destruct (decide (x = t)) as [->|].
    - exists y. split; [by right; left|]. intros ->. apply Hx. left.
    - exists x. split; [left|done]. }
  apply (tbl_elem _ _ _ _ Htbl) in Hu as (U & HU & Hof). unfold thread_of in Hof.
  destruct (U.(selected_fiber)) as [h|] eqn:Hsel; [|by apply wf_running in HU].
  destruct (selected_fiber_ok s u U h Hwf HU Hsel) as (H' & HH & _).
  assert (thread_for s tk.(tgid) U.(thread_id) = Some u) as Hforu.
  { apply thread_for_spec; [done|]. exists U, P. by rewrite Hof. }
  exists U.(thread_id), h, H'. split_and!; [|done|].
  - apply running_spec; [done|]. by exists u, U.
  - intros Heq. rewrite Heq in Hforu. congruence.
Qed.

Lemma fls_refines s a tk op f F :
  wf s -> implements s a -> a.(sp_tasks) !! a.(sp_current) = Some tk ->
  running s tk.(tgid) s.(current) = Some f -> s.(fiber_heap) !! f = Some F ->
  exists a', spec_step a (EFls op) (apply_fls op F).1 a' /\
    implements (set_fiber_heap (<[f := (apply_fls op F).2]> s.(fiber_heap)) s) a'.
Proof.
  intros Hwf Ha Htk Hr HF.
  destruct (spec_running _ _ _ _ _ _ Hwf Ha Hr HF) as (Hrun & HX & Hkey).
  destruct (ho_fiber _ _ _ _ (wf_heap _ Hwf) f F HF) as [_ Hlen _ _ _].
  destruct (apply_fls_refines op F Hlen) as (Hstep & Hsame & _).
  exists (with_fiber (tk.(tgid), F.(fiber_id)) (SFiber F.(registers) F.(fpu) (slots (apply_fls op F).2)) a).
  split.
  - rewrite <- (im_current _ _ Ha) in Hrun. by eapply (sp_fls a tk F.(fiber_id) (SFiber _ _ (slots F))).
  - pose proof (implements_fiber s a f F (apply_fls op F).2 Hwf Ha HF Hsame) as H. rewrite Hkey in H.
    assert ((apply_fls op F).2.(registers) = F.(registers) /\ (apply_fls op F).2.(fpu) = F.(fpu)) as [Hr1 Hr2].
    { destruct op; simpl; repeat case_match; done. }
    by rewrite Hr1, Hr2 in H.
Qed.

(** *** The cases of an event of a task *)

Section Cases.
Context (s : kstate) (a : spec) (tk : task).
Context (Hwf : wf s) (Ha : implements s a) (Htk : s.(tasks) !! s.(current) = Some tk).

Lemma spec_caller : a.(sp_tasks) !! a.(sp_current) = Some tk.
Proof. by rewrite (im_tasks _ _ Ha), (im_current _ _ Ha). Qed.

Lemma spec_caller_runs f F :
  running s tk.(tgid) s.(current) = Some f -> s.(fiber_heap) !! f = Some F ->
  a.(sp_running) !! (tk.(tgid), a.(sp_current)) = Some F.(fiber_id).
Proof. intros Hf HF. rewrite (im_current _ _ Ha). by apply (spec_running s a tk s.(current) f F). Qed.

Lemma spec_caller_unconverted :
  thread_for s tk.(tgid) s.(current) = None -> a.(sp_running) !! (tk.(tgid), a.(sp_current)) = None.
Proof. rewrite (im_current _ _ Ha). by apply spec_running_none. Qed.

#[local] Hint Resolve spec_caller spec_caller_runs spec_caller_unconverted : core.

(** The fiber that a switch of the caller asks for. *)
Lemma spec_target p P t T id f F :
  caller s tk s.(current) p P t T -> fiber_at s p id = Some f -> s.(fiber_heap) !! f = Some F ->
  F.(fiber_id) = id /\
  a.(sp_fibers) !! (tk.(tgid), id) = Some (SFiber F.(registers) F.(fpu) (slots F)) /\
  fiber_key s.(process_heap) F = Some (tk.(tgid), id).
Proof.
  intros [Hp HP _ _] Hf HF.
  assert (fiber_for s tk.(tgid) id = Some f) as Hff by (unfold fiber_for; by rewrite Hp).
  destruct (spec_fiber _ _ _ _ _ _ Hwf Ha Hff HF) as [HX Hkey]. split; [|done].
  by apply fiber_key_Some in Hkey as (? & _ & _ & ?).
Qed.

Lemma convert_again_refines p P t T :
  caller s tk s.(current) p P t T -> exists a', spec_step a EConvert (-1) a' /\ implements (lock_cycled s) a'.
Proof.
  intros Hc. destruct (caller_fiber _ _ _ _ _ _ _ Hwf Hc) as (f & F & _ & HF & _ & _ & Hr).
  exists a. split; [by eapply sp_convert_again; eauto|by apply implements_lock].
Qed.

(** The process a converting thread joins. *)
Lemma joined_refines p s1 P :
  joined s tk.(tgid) p s1 -> s1.(process_heap) !! p = Some P ->
  exists a1, implements s1 a1 /\ P.(last_fiber_id) = default 0 (a.(sp_last) !! tk.(tgid)) /\
    with_last tk.(tgid) (P.(last_fiber_id) + 1) a1 = with_last tk.(tgid) (P.(last_fiber_id) + 1) a.
Proof.
  intros [q Hq|q Hq Hk] HP.
  - exists a. split; [by apply implements_lock|]. split; [|done]. by rewrite (spec_last s a tk.(tgid) q P).
  - exists (with_last tk.(tgid) 0 a). pose proof (kmalloc_none _ _ Hk).
    split; [by apply implements_lock, implements_new_process|]. simpl in HP.
    rewrite lookup_insert_eq in HP. injection HP as <-.
    rewrite (spec_last_none s a) by done. split; [done|]. unfold with_last. simpl. by rewrite insert_insert_eq.
Qed.

Lemma convert_refines n p s1 P t f :
  good n s -> 0 <= n < INT_MAX -> joined s tk.(tgid) p s1 -> s1.(process_heap) !! p = Some P ->
  thread_at s1 p s.(current) = None ->
  kmalloc (dom s1.(thread_heap)) = Some t -> kmalloc (dom s1.(fiber_heap)) = Some f ->
  exists a', spec_step a EConvert (P.(last_fiber_id) + 1) a' /\
    implements (converted p t f P s.(current) tk s1) a'.
Proof.
  intros Hgood Hn Hj HP Ht Hkt Hkf.
  destruct (joined_good n s tk.(tgid) p s1) as ([Hwf1 _] & Ht1 & Hc1 & Hth & Hfh & P' & HP' & Hid); [done|lia|done|].
  assert (P' = P) as -> by congruence. rewrite <- Hc1 in Ht.
  pose proof (kmalloc_none _ _ Hkt). pose proof (kmalloc_none _ _ Hkf).
  assert (thread_for s tk.(tgid) s.(current) = None) as Hfor.
  { unfold thread_for. destruct Hj as [q Hq|q Hq Hk]; by rewrite Hq. }
  destruct (joined_refines _ _ _ Hj HP) as (a1 & Ha1 & Hlast & Hwl).
  exists (with_running (tk.(tgid), a.(sp_current)) (P.(last_fiber_id) + 1)
      (with_fiber (tk.(tgid), P.(last_fiber_id) + 1) (SFiber tk.(regs) tk.(fx) ∅)
        (with_last tk.(tgid) (P.(last_fiber_id) + 1) a))).
  split; [by apply sp_convert; auto|].
  rewrite <- Hwl, (im_current _ _ Ha), <- Hc1. by apply implements_converted.
Qed.

Lemma create_refines sp sz fn param p P t T f :
  caller s tk s.(current) p P t T -> kmalloc (dom s.(fiber_heap)) = Some f ->
  exists a', spec_step a (ECreate sp sz fn param) (P.(last_fiber_id) + 1) a' /\
    implements (created p f P sp sz fn param tk s) a'.
Proof.
  intros Hc Hk. destruct (caller_fiber _ _ _ _ _ _ _ Hwf Hc) as (g & G & _ & HG & _ & _ & Hr).
  pose proof (kmalloc_none _ _ Hk). pose proof Hc as [Hp HP _ _].
  eexists. split; [|by eapply implements_created]. eapply sp_create; [by auto|by eauto|]. by eapply spec_last.
Qed.

Lemma switch_busy_refines id p P t T f F u :
  caller s tk s.(current) p P t T -> fiber_at s p id = Some f -> s.(fiber_heap) !! f = Some F ->
  F.(attached_thread) = Some u ->
  exists a', spec_step a (ESwitch id) (-1) a' /\ implements (refused f F s) a'.
Proof.
  intros Hc Hf HF HA. destruct (spec_target _ _ _ _ _ _ _ Hc Hf HF) as (<- & HX & Hkey).
  destruct (attached_running s f F u tk.(tgid) Hwf HF HA Hkey) as [pid Hpid].
  destruct (caller_fiber _ _ _ _ _ _ _ Hwf Hc) as (g & G & _ & HG & _ & _ & Hr).
  exists a. split; [|by eapply implements_fiber_same].
  eapply (sp_switch_busy a tk G.(fiber_id) F.(fiber_id) pid); [by auto|by eauto|].
  by apply (spec_running s a tk pid f F).
Qed.

Lemma switch_refines id p P t T f F prev Pv :
  caller s tk s.(current) p P t T -> fiber_at s p id = Some f -> s.(fiber_heap) !! f = Some F ->
  F.(attached_thread) = None -> T.(selected_fiber) = Some prev -> s.(fiber_heap) !! prev = Some Pv ->
  exists a', spec_step a (ESwitch id) 0 a' /\ implements (switched t T prev f Pv F tk s) a'.
Proof.
  intros Hc Hf HF HA Hsel HPv. destruct (spec_target _ _ _ _ _ _ _ Hc Hf HF) as (<- & HX & Hkey).
  destruct (caller_fiber _ _ _ _ _ _ _ Hwf Hc) as (g & G & Hg & HG & HGA & _ & Hr).
  assert (g = prev) as -> by congruence. assert (G = Pv) as -> by congruence.
  destruct (spec_running _ _ _ _ _ _ Hwf Ha Hr HG) as (_ & HXP & HkeyP).
  assert (prev <> f) as Hne by (intros ->; congruence).
  pose proof (implements_switched s a tk p P t T prev Pv f F Hwf Ha Hc Hsel HPv HF HkeyP Hkey Hne) as Himp.
  rewrite <- (im_current _ _ Ha) in Himp. eexists. split; [|exact Himp]. clear Himp.
  pose (X := SFiber F.(registers) F.(fpu) (slots F)). pose (X0 := SFiber Pv.(registers) Pv.(fpu) (slots Pv)).
  refine (sp_switch a tk Pv.(fiber_id) X0 F.(fiber_id) X spec_caller (spec_caller_runs _ _ Hr HG) HXP HX _).
  intros pid Hpid. destruct (spec_running_inv _ _ _ _ _ Hwf Ha Hpid) as (h & H' & v & _ & HH & _ & HkH & _ & HA').
  assert (h = f) as -> by (by eapply (fiber_key_inj s Hwf h f H' F)). congruence.
Qed.

Lemma exit_refines p P t T f F :
  caller s tk s.(current) p P t T -> T.(selected_fiber) = Some f -> s.(fiber_heap) !! f = Some F ->
  P.(active_threads) <> 1 -> exists a', spec_step a EExit 0 a' /\ implements (exited p t f P F tk s) a'.
Proof.
  intros Hc Hsel HF Hact. destruct (caller_fiber _ _ _ _ _ _ _ Hwf Hc) as (g & G & Hg & HG & _ & _ & Hr).
  assert (g = f) as -> by congruence. assert (G = F) as -> by congruence.
  destruct (spec_running _ _ _ _ _ _ Hwf Ha Hr HF) as (_ & HX & Hkey).
  eexists. split; [|by eapply implements_exited]. rewrite <- (im_current _ _ Ha).
  destruct (another_thread _ _ _ _ _ _ Hwf Hc Hact) as (pid & h & H' & Hh & HH & Hne).
  eapply (sp_exit a tk F.(fiber_id) (SFiber _ _ (slots F)) pid H'.(fiber_id));
    [by auto|by eauto|done| |by rewrite (im_current _ _ Ha)].
  by apply (spec_running s a tk pid h H').
Qed.

Lemma exit_last_refines p P t T fh :
  caller s tk s.(current) p P t T -> P.(active_threads) = 1 ->
  kfree_each (hash_each P.(fibers)) s.(fiber_heap) = Some fh ->
  exists a', spec_step a EExit 0 a' /\ implements (without_process p (delete t s.(thread_heap)) fh s) a'.
Proof.
  intros Hc Hact Hfree. destruct (caller_fiber _ _ _ _ _ _ _ Hwf Hc) as (g & G & Hg & HG & _ & _ & Hr).
  destruct (exit_last_heaps _ _ _ _ _ _ _ Hwf Hc Hact Hfree) as [Hth Hfh].
  eexists. split; [|eapply (implements_without s a tk.(tgid)); [done|done|apply Hc..|done|done]].
  eapply sp_exit_last; [by auto|by eauto|].
  intros pid id' Hpid. destruct (spec_running_inv _ _ _ _ _ Hwf Ha Hpid) as (h & H' & v & _ & _ & _ & _ & Hv & _).
  rewrite (im_current _ _ Ha). destruct (decide (pid = s.(current))) as [|Hne]; [done|].
  by destruct (other_thread_active s tk p P t T pid v Hwf Hc Hv Hne).
Qed.

Lemma close_refines p P th fh :
  process_at s tk.(tgid) = Some p -> s.(process_heap) !! p = Some P ->
  kfree_each (hash_each P.(threads)) s.(thread_heap) = Some th ->
  kfree_each (hash_each P.(fibers)) s.(fiber_heap) = Some fh ->
  exists a', spec_step a EClose 0 a' /\ implements (without_process p th fh s) a'.
Proof.
  intros Hp HP Hth Hfh. exists (without_group tk.(tgid) a). split; [by apply sp_close; auto|].
  destruct (ho_process _ _ _ _ (wf_heap _ Hwf) p P HP) as [Htt Htf _ _ _].
  eapply implements_without; [done..| |]; intros; by eapply kfree_each_owned.
Qed.

Lemma task_outcome_refines n e r s' :
  good n s -> 0 <= n < INT_MAX -> task_outcome s tk e r s' ->
  exists a', spec_step a e r a' /\ implements s' a'.
Proof.
  intros Hgood Hn Ho. destruct Ho as [| |sp sz fn param Hnone| |id Hnone| | |op Hnone| |Hnone| | |Hp|].
  - by eapply convert_again_refines.
  - by eapply convert_refines.
  - exists a. split; [by eapply sp_create_none; auto|done].
  - by eapply create_refines.
  - exists a. split; [|done]. eapply sp_switch_none; [by auto|].
    destruct Hnone as [Hnone|Hnone]; [by auto|right; by eapply spec_fiber_none].
  - by eapply switch_busy_refines.
  - by eapply switch_refines.
  - exists a. split; [|done]. apply (sp_fls_none a tk); [by auto|]. apply spec_caller_unconverted.
    by apply running_none.
  - by eapply fls_refines; auto.
  - exists a. split; [by eapply sp_exit_none; auto|done].
  - by eapply exit_refines.
  - by eapply exit_last_refines.
  - exists (without_group tk.(tgid) a). split; [by apply sp_close; auto|]. by apply implements_without_none.
  - by eapply close_refines.
Qed.
End Cases.

Lemma event_refines n s a e r s' :
  good n s -> 0 <= n < INT_MAX -> implements s a -> run_event e s = Some (r, s') ->
  exists a', spec_step a e r a' /\ implements s' a'.
Proof.
  intros Hgood Hn Ha Hrun. pose proof Hgood as [Hwf _]. apply (event_outcome_aux n) in Hrun; [|done..].
  destruct Hrun as [tk e r s' Htk Ho| | | |pid tk p P t T f F Hprev Htk Hc Hsel HF].
  - by eapply task_outcome_refines.
  - exists a. split; [apply sp_timer|]. by destruct Ha.
  - exists a. split; [apply sp_timer|]. by destruct Ha.
  - exists a. split; [apply sp_timer|]. by destruct Ha.
  - exists a. split; [apply sp_timer|].
    pose proof (implements_fiber_same s a f F (set_total_time (u64 (F.(total_time) + tk.(utime))) F) Hwf Ha HF) as H.
    by destruct H.
Qed.

Lemma implements_initial s : initial s -> implements s (Spec ∅ ∅ ∅ s.(tasks) s.(current)).
Proof.
  intros (_ & _ & Hph & Hth & Hfh).
  split; simpl; rewrite ?Hph, ?Hth, ?Hfh; [| | |done|done];
    intros k x; rewrite lookup_empty; (split; [done|]); by intros (p & o & Ho & _).
Qed.

(** C1: Refinement.  Every run of the module from its loading, of any length up
    to the number of fiber ids, with any events of any tasks and anything
    outside the module in between, is a run of the specification with the same
    events and the same results; the final state implements that of the
    specification. *)
Theorem module_refines_specification s l s' :
  initial s -> trace s l s' -> Z.of_nat (length l) <= INT_MAX ->
  exists a', spec_trace (Spec ∅ ∅ ∅ s.(tasks) s.(current)) l a' /\ implements s' a'.
Proof.
  intros Hi Htr Hl.
  assert (forall n a, good n s -> 0 <= n -> n + Z.of_nat (length l) <= INT_MAX -> implements s a ->
            exists a', spec_trace a l a' /\ implements s' a') as Hgen.
  { clear Hi Hl. induction Htr as [s|s e r s1 l s' Hrun Htr IH|s s1 l s' Hout Htr IH];
      intros n a Hg Hn Hl Ha; cbn [length] in Hl.
    - exists a. split; [apply spec_trace_nil|done].
    - destruct (event_refines n s a e r s1) as (a1 & Hs & Ha1); [done|lia|done|done|].
      destruct (IH (n + 1) a1) as (a' & Htr' & Ha'); [|lia|lia|done|].
      + eapply step_good; [done|lia|by eapply step_event].
      + exists a'. split; [by eapply spec_trace_event|done].
    - destruct (IH n (outside s1.(tasks) s1.(current) a)) as (a' & Htr' & Ha'); [|lia|lia| |].
      + destruct Hg as [Hwf Hids]. split; by rewrite <- Hout.
      + by apply implements_same_module with s.
      + exists a'. split; [by eapply spec_trace_outside|done]. }
  apply (Hgen 0); [|done|lia|by apply implements_initial].
  split; [by apply wf_initial|]. destruct Hi as (_ & _ & Hph & _). intros p P. by rewrite Hph.
Qed.
End Refinement.

(** ** Application to a run *)

Import Reference.

(** The trace of a script: each event is preceded by a task switch. *)
Fixpoint script_trace (l : script) (rs : list Z) : list (option (event * Z)) :=
  match l, rs with
  | (_, e) :: l', r :: rs' => None :: Some (e, r) :: script_trace l' rs'
  | _, _ => []
  end.

Lemma play_trace {K : Kernel} l s rs s' : play l s = Some (rs, s') -> trace s (script_trace l rs) s'.
Proof.
  revert s rs. induction l as [|[pid e] l IH]; intros s rs Hplay; cbn [play] in Hplay.
  - simplify_eq. apply trace_nil.
  - destruct (run_event e (set_current pid s)) as [[r s1]|] eqn:He; [|done].
    destruct (play l s1) as [[rs' s2]|] eqn:Hl; [|done]. simplify_eq. cbn [script_trace].
    apply trace_outside with (set_current pid s); [done|].
    eapply trace_event; [exact He|]. by apply IH.
Qed.

Lemma module_refines_specification_witness :
  exists s' a', trace boot (script_trace setup_switched [1; 2; 3; 0]) s' /\
    spec_trace (Spec ∅ ∅ ∅ (tasks boot) (current boot)) (script_trace setup_switched [1; 2; 3; 0]) a' /\
    implements s' a'.
Proof.
  computed (play setup_switched boot) x Hx. destruct x as [rs s'].
  assert (rs = [1; 2; 3; 0]) as -> by (apply (fmap_field fst _ _ _ Hx); vm_compute; reflexivity).
  pose proof (play_trace _ _ _ _ Hx) as Htr.
  destruct (module_refines_specification boot (script_trace setup_switched [1; 2; 3; 0]) s')
    as (a' & Ha & Him); [repeat split|exact Htr|discriminate|].
  exists s', a'. split; [exact Htr|]. split; [exact Ha|exact Him].
Defined.
