(* ===== verification/Client.v ===== *)
(** * Programs that use fibers

    A program of the library is given by the action of each of its local states:
    output, its own memory, or a call of the library.  [client_step] runs the
    threads of one process on the module: a thread that calls has its registers
    saved by the kernel and goes on with the registers the kernel gives back,
    which name the point where some call was made, or the function of a new
    fiber.  [fiber_step] is what the programmer thinks of: every fiber is a
    continuation with storage, and a switch exchanges continuations.
    [clients_run_continuations] shows that programs on the module behave so.

    The local state stands for the stack and the registers of a fiber; that
    stacks do not overlap is left to the program. *)

From S2P Require Import Prelude Kernel State CStr Fibers Heap Runs Kprobes Safety Fls Outcome System Views Scenario Exclusion Switching Spec Refinement.
From Stdlib Require Export SpecFloat.

(** What is printed: a format with its arguments. *)
Inductive arg := AInt (z : Z) | ADouble (x : spec_float) | AText (s : list ascii).
Record line := Line { fmt : string; args : list arg }.

Section Client.
Context {K : Kernel} {L : Type}.

Inductive action :=
  | Exit
  | Wait                                          (* for a thread that does not return *)
  | Tau (l : L)
  | Print (ln : line) (l : L)
  | Call (e : event) (k : Z -> L)
  | Create (fn size param : Z) (k : Z -> L)       (* CreateFiber *)
  | Spawn (l' l : L)                              (* pthread_create *)
  | Alloc (words : nat) (k : Z -> L)              (* a variable whose address is taken *)
  | Store (addr v : Z) (l : L)
  | Load (addr : Z) (k : Z -> L)
  | Atomic (addr : Z) (f : Z -> Z) (k : Z -> L)   (* read, modify, write; [k] gets what was read *)
  | Any (q : Z -> bool) (k : Z -> L).             (* a value of which only [q] is known *)

(** [entry] gives the local state a function starts in, by its address and its
    argument; [on_signal] the state in which a signal handler runs; [globals] what
    the memory holds in the beginning. *)
Class Program := {
  act : L -> action;
  entry : Z -> option (Z -> L);
  on_signal : L -> option L;
  globals : gmap Z Z;
  entry_created l fn size param k : act l = Create fn size param k -> is_Some (entry fn);
  entry_free (used : gset Z) : exists t, (t ∉ used) /\ entry t = None
}.

Context {P : Program}.

(** The part of a program's state the module has nothing to do with. *)
Record user := User {
  locals : gmap Z L;
  out : list (option Z * line);      (* with the fiber that printed *)
  memory : gmap Z Z;
  exited : bool
}.

Definition set_local (pid : Z) (l : L) (u : user) : user :=
  User (<[pid := l]> u.(locals)) u.(out) u.(memory) u.(exited).
Definition print (id : option Z) (ln : line) (u : user) : user :=
  User u.(locals) (u.(out) ++ [(id, ln)]) u.(memory) u.(exited).
(** Words of memory from the address [a] on. *)
Definition words_at (a : Z) (vs : list Z) : gmap Z Z :=
  list_to_map (imap (fun i v => (a + 8 * Z.of_nat i, v)) vs).
Definition allocate (a : Z) (vs : list Z) (u : user) : user :=
  User u.(locals) u.(out) (words_at a vs ∪ u.(memory)) u.(exited).
Definition store_cell (a v : Z) (u : user) : user :=
  User u.(locals) u.(out) (<[a := v]> u.(memory)) u.(exited).
Definition leave (u : user) : user := User u.(locals) u.(out) u.(memory) true.

(** The steps of thread [pid], which runs fiber [id], outside the library. *)
Inductive local_step (pid : Z) (id : option Z) (u : user) : L -> user -> Prop :=
  | ls_exit l : act l = Exit -> local_step pid id u l (leave u)
  | ls_tau l l' : act l = Tau l' -> local_step pid id u l (set_local pid l' u)
  | ls_print l ln l' : act l = Print ln l' -> local_step pid id u l (set_local pid l' (print id ln u))
  | ls_spawn l pid' l1 l' :
      act l = Spawn l1 l' -> u.(locals) !! pid' = None ->
      local_step pid id u l (set_local pid' l1 (set_local pid l' u))
  | ls_alloc l a vs n k :
      act l = Alloc n k -> length vs = n -> words_at a vs ##ₘ u.(memory) ->
      local_step pid id u l (set_local pid (k a) (allocate a vs u))
  | ls_store l a v l' :
      act l = Store a v l' -> is_Some (u.(memory) !! a) ->
      local_step pid id u l (set_local pid l' (store_cell a v u))
  | ls_load l a v k :
      act l = Load a k -> u.(memory) !! a = Some v ->
      local_step pid id u l (set_local pid (k v) u)
  | ls_atomic l a v f k :
      act l = Atomic a f k -> u.(memory) !! a = Some v ->
      local_step pid id u l (set_local pid (k v) (store_cell a (f v) u))
  | ls_any l v q k :
      act l = Any q k -> q v = true -> local_step pid id u l (set_local pid (k v) u)
  | ls_signal l l' : on_signal l = Some l' -> local_step pid id u l (set_local pid l' u).

(** The call a local state makes; the stack of a new fiber is somewhere in
    memory. *)
Inductive calls (l : L) : event -> (Z -> L) -> Prop :=
  | calls_call e k : act l = Call e k -> e <> EExit -> e <> EClose -> e <> ETimer ->
      (forall stack size fn param, e <> ECreate stack size fn param) -> calls l e k
  | calls_create stack fn size param k :
      act l = Create fn size param k -> calls l (ECreate stack size fn param) k.

(** ** Fibers as continuations *)

Record ufiber := UFiber { u_code : Z -> L; u_slots : gmap Z Z }.

Record ustate := UState {
  u_last : Z;
  u_fibers : gmap Z ufiber;
  u_running : gmap Z Z;
  u_user : user
}.

Definition resumes (pid : Z) (l : L) (u : ustate) : ustate :=
  UState u.(u_last) u.(u_fibers) u.(u_running) (set_local pid l u.(u_user)).
Definition add_fiber (f : ufiber) (u : ustate) : ustate :=
  UState (u.(u_last) + 1) (<[u.(u_last) + 1 := f]> u.(u_fibers)) u.(u_running) u.(u_user).
Definition set_fiber (id : Z) (f : ufiber) (u : ustate) : ustate :=
  UState u.(u_last) (<[id := f]> u.(u_fibers)) u.(u_running) u.(u_user).
Definition runs (pid id : Z) (u : ustate) : ustate :=
  UState u.(u_last) u.(u_fibers) (<[pid := id]> u.(u_running)) u.(u_user).

(** A call by thread [pid] that goes on with [k]. *)
Inductive fiber_call (pid : Z) (k : Z -> L) (u : ustate) : event -> ustate -> Prop :=
  | fc_convert :
      u.(u_running) !! pid = None ->
      fiber_call pid k u EConvert
        (resumes pid (k (u.(u_last) + 1)) (runs pid (u.(u_last) + 1) (add_fiber (UFiber k ∅) u)))
  | fc_create stack size fn param f id :
      u.(u_running) !! pid = Some id -> entry fn = Some f ->
      fiber_call pid k u (ECreate stack size fn param)
        (resumes pid (k (u.(u_last) + 1)) (add_fiber (UFiber (fun _ => f param) ∅) u))
  | fc_switch id0 f0 id f :
      u.(u_running) !! pid = Some id0 -> u.(u_fibers) !! id0 = Some f0 ->
      u.(u_fibers) !! id = Some f -> (forall pid', u.(u_running) !! pid' <> Some id) ->
      fiber_call pid k u (ESwitch id)
        (resumes pid (f.(u_code) 0) (runs pid id (set_fiber id0 (UFiber k f0.(u_slots)) u)))
  | fc_switch_refused id0 id pid' :
      u.(u_running) !! pid = Some id0 -> u.(u_running) !! pid' = Some id ->
      fiber_call pid k u (ESwitch id) (resumes pid (k (-1)) u)
  | fc_switch_missing id :
      u.(u_running) !! pid = None \/ u.(u_fibers) !! id = None ->
      fiber_call pid k u (ESwitch id) (resumes pid (k (-1)) u)
  | fc_fls op id f r m :
      u.(u_running) !! pid = Some id -> u.(u_fibers) !! id = Some f -> fls_step op r f.(u_slots) m ->
      fiber_call pid k u (EFls op) (resumes pid (k r) (set_fiber id (UFiber f.(u_code) m) u))
  | fc_convert_again id :
      u.(u_running) !! pid = Some id -> fiber_call pid k u EConvert (resumes pid (k (-1)) u)
  | fc_create_none stack size fn param :
      u.(u_running) !! pid = None ->
      fiber_call pid k u (ECreate stack size fn param) (resumes pid (k (-1)) u)
  | fc_fls_none op :
      u.(u_running) !! pid = None -> fiber_call pid k u (EFls op) (resumes pid (k (fls_failure op)) u).

Inductive fiber_step (u : ustate) : ustate -> Prop :=
  | fs_local pid l u' :
      u.(u_user).(exited) = false -> u.(u_user).(locals) !! pid = Some l ->
      local_step pid (u.(u_running) !! pid) u.(u_user) l u' ->
      fiber_step u (UState u.(u_last) u.(u_fibers) u.(u_running) u')
  | fs_call pid l e k u' :
      u.(u_user).(exited) = false -> u.(u_user).(locals) !! pid = Some l ->
      calls l e k -> fiber_call pid k u e u' -> fiber_step u u'.

(** ** The same on the module and on its specification

    [Service] is what a process sees of either of them: the call of a thread
    with its registers at the time of the call, the registers it goes on with,
    and the fiber a thread runs. *)

Class Service (S : Type) := {
  sv_call : S -> Z -> pt_regs -> event -> Z -> S -> Prop;
  sv_regs : S -> Z -> option pt_regs;
  sv_fiber : S -> Z -> option Z
}.

(** [saved] maps the instruction pointers at which calls were made to the
    continuations of the calls. *)
Record client := Client { saved : gmap Z (Z -> L); cl_user : user }.

Definition resume (sv : gmap Z (Z -> L)) (R : pt_regs) (r : Z) : option L :=
  match sv !! R.(ip) with
  | Some k => Some (k r)
  | None => (fun f => f R.(di)) <$> entry R.(ip)
  end.

Inductive client_step {S} `{Service S} : S * client -> S * client -> Prop :=
  | cs_local s c pid l u' :
      c.(cl_user).(exited) = false -> c.(cl_user).(locals) !! pid = Some l ->
      local_step pid (sv_fiber s pid) c.(cl_user) l u' ->
      client_step (s, c) (s, Client c.(saved) u')
  | cs_call s c pid l e k R r s' R' l' :
      c.(cl_user).(exited) = false -> c.(cl_user).(locals) !! pid = Some l -> calls l e k ->
      c.(saved) !! R.(ip) = None -> entry R.(ip) = None ->
      sv_call s pid R e r s' -> sv_regs s' pid = Some R' ->
      resume (<[R.(ip) := k]> c.(saved)) R' r = Some l' ->
      client_step (s, c) (s', Client (<[R.(ip) := k]> c.(saved)) (set_local pid l' c.(cl_user))).

Inductive client_run {S} `{Service S} : nat -> S * client -> S * client -> Prop :=
  | cr_refl x : client_run 0 x x
  | cr_step n x y z : client_run n x y -> client_step y z -> client_run (Datatypes.S n) x z.

Inductive fiber_run : nat -> ustate -> ustate -> Prop :=
  | fr_refl u : fiber_run 0 u u
  | fr_step n u v w : fiber_run n u v -> fiber_step v w -> fiber_run (Datatypes.S n) u w.

(** The threads of process [g] on the specification and on the module. *)
Context (g : Z).

Definition spec_service : Service spec := {|
  sv_call a pid R e r a' := exists ts tk,
    ts !! pid = Some tk /\ tk.(tgid) = g /\ tk.(regs) = R /\ spec_step (outside ts pid a) e r a';
  sv_regs a pid := regs <$> a.(sp_tasks) !! pid;
  sv_fiber a pid := a.(sp_running) !! (g, pid)
|}.

Definition module_fiber (s : kstate) (pid : Z) : option Z :=
  running s g pid ≫= fun f => fiber_id <$> s.(fiber_heap) !! f.

Definition module_service : Service kstate := {|
  sv_call s pid R e r s' := exists s1 tk,
    same_module s s1 /\ s1.(current) = pid /\ s1.(tasks) !! pid = Some tk /\ tk.(tgid) = g /\
    tk.(regs) = R /\ run_event e s1 = Some (r, s');
  sv_regs s pid := regs <$> s.(tasks) !! pid;
  sv_fiber := module_fiber
|}.

(** A scheduler that runs a program on the module: each choice is a thread and an
    address, which is the instruction pointer of the thread's call, the stack of
    the fiber it creates, or the variable or thread that appears. *)

Definition local_exec (a pid : Z) (id : option Z) (l : L) (u : user) : option user :=
  match act l with
  | Exit => Some (leave u)
  | Tau l' => Some (set_local pid l' u)
  | Print ln l' => Some (set_local pid l' (print id ln u))
  | Spawn l1 l' => if u.(locals) !! a is None then Some (set_local a l1 (set_local pid l' u)) else None
  | Alloc n k =>
      if decide (words_at a (replicate n 0) ##ₘ u.(memory))
      then Some (set_local pid (k a) (allocate a (replicate n 0) u)) else None
  | Store b v l' => if u.(memory) !! b is Some _ then Some (set_local pid l' (store_cell b v u)) else None
  | Load b k => (fun v => set_local pid (k v) u) <$> u.(memory) !! b
  | Atomic b f k => (fun v => set_local pid (k v) (store_cell b (f v) u)) <$> u.(memory) !! b
  | Any q k => if q a then Some (set_local pid (k a) u) else None
  | _ => None
  end.

Definition call_exec (a : Z) (l : L) : option (event * (Z -> L)) :=
  match act l with
  | Call EConvert k => Some (EConvert, k)
  | Call (ESwitch id) k => Some (ESwitch id, k)
  | Call (EFls op) k => Some (EFls op, k)
  | Create fn size param k => Some (ECreate a size fn param, k)
  | _ => None
  end.

(** Task [pid] enters the kernel at the address [t]. *)
Definition entering (t : Z) (tk : task) : task :=
  Task g tk.(utime) (PtRegs t tk.(regs).(di) tk.(regs).(sp) tk.(regs).(bp) tk.(regs).(others)) tk.(fx).
Definition enter (t pid : Z) (tk : task) (s : kstate) : kstate :=
  KState s.(processes) s.(struct_process_lock) s.(process_heap) s.(thread_heap) s.(fiber_heap)
    (<[pid := entering t tk]> s.(tasks)) pid s.(prev_task) s.(preempt_count) s.(umem).

Definition client_exec (choice : Z * Z) (x : kstate * client) : option (kstate * client) :=
  let '(pid, a) := choice in let '(s, c) := x in
  if c.(cl_user).(exited) then None else
  c.(cl_user).(locals) !! pid ≫= fun l =>
  match local_exec a pid (module_fiber s pid) l c.(cl_user) with
  | Some u' => Some (s, Client c.(saved) u')
  | None =>
      if c.(saved) !! a is Some _ then None else if entry a is Some _ then None else
      call_exec a l ≫= fun '(e, k) =>
      s.(tasks) !! pid ≫= fun tk =>
      run_event e (enter a pid tk s) ≫= fun '(r, s') =>
      s'.(tasks) !! pid ≫= fun tk' =>
      resume (<[a := k]> c.(saved)) tk'.(regs) r ≫= fun l' =>
      Some (s', Client (<[a := k]> c.(saved)) (set_local pid l' c.(cl_user)))
  end.

Fixpoint client_execs (l : list (Z * Z)) (x : kstate * client) : option (kstate * client) :=
  match l with
  | [] => Some x
  | ch :: l' => client_exec ch x ≫= client_execs l'
  end.

Lemma local_exec_step a pid id l u u' : local_exec a pid id l u = Some u' -> local_step pid id u l u'.
Proof.
  unfold local_exec. destruct (act l) eqn:Ha; intros; repeat case_match; simplify_eq;
    try (econstructor; by eauto).
  - eapply ls_alloc; [done|apply length_replicate|done].
  - apply fmap_Some in H as (v & Hv & ->). by eapply ls_load.
  - apply fmap_Some in H as (v & Hv & ->). by eapply ls_atomic.
Qed.

Lemma call_exec_calls a l e k : call_exec a l = Some (e, k) -> calls l e k.
Proof.
  unfold call_exec. destruct (act l) eqn:Ha; intros; repeat case_match; simplify_eq;
    first [by apply calls_call|by apply calls_create].
Qed.

Lemma client_exec_step ch x y : client_exec ch x = Some y -> @client_step _ module_service x y.
Proof.
  destruct ch as [pid a], x as [s c]. unfold client_exec.
  destruct (exited (cl_user c)) eqn:Hex; [done|]. intros (l & Hl & H)%bind_Some.
  destruct (local_exec a pid (module_fiber s pid) l (cl_user c)) as [u'|] eqn:Hu.
  { simplify_eq. eapply cs_local; [done..|]. by eapply local_exec_step. }
  destruct (saved c !! a) eqn:Hsv; [done|]. destruct (entry a) eqn:He; [done|].
  apply bind_Some in H as ([e k] & Hc%call_exec_calls & H). apply bind_Some in H as (tk & Htk & H).
  apply bind_Some in H as ([r s'] & Hr & H). apply bind_Some in H as (tk' & Htk' & H).
  apply bind_Some in H as (l' & Hl' & [= <-]).
  eapply (cs_call s c pid l e k (entering a tk).(regs)); [done|done|done|done|done| | |done].
  - exists (enter a pid tk s), (entering a tk). split_and!; try done. apply lookup_insert_eq.
  - simpl. by rewrite Htk'.
Qed.

Lemma client_step_run {S} `{Service S} n x y z : client_step x y -> client_run n y z -> client_run (Datatypes.S n) x z.
Proof.
  intros Hs Hr. revert x Hs. induction Hr as [y|n y v z _ IH Hz]; intros x Hs.
  - eapply cr_step; [apply cr_refl|done].
  - eapply cr_step; [by apply IH|done].
Qed.

Lemma client_run_prefix {S} `{Service S} n m x y :
  client_run n x y -> (m < n)%nat -> exists z z', client_run m x z /\ client_step z z'.
Proof.
  intros Hr Hm. induction Hr as [|n x y z Hr IH Hz]; [lia|].
  destruct (decide (m = n)) as [->|]; [by eexists _, _|]. apply IH. lia.
Qed.

Lemma client_execs_run l x y : client_execs l x = Some y -> @client_run _ module_service (length l) x y.
Proof.
  revert x. induction l as [|ch l IH]; intros x H; simpl in *.
  - simplify_eq. apply cr_refl.
  - apply bind_Some in H as (z & Hz & H). eapply client_step_run; [by eapply client_exec_step|by apply IH].
Qed.

(** ** Programs on the specification run continuations *)

Record continues (a : spec) (c : client) (u : ustate) : Prop := {
  cn_user : u.(u_user) = c.(cl_user);
  cn_last : u.(u_last) = default 0 (a.(sp_last) !! g);
  cn_running pid : u.(u_running) !! pid = a.(sp_running) !! (g, pid);
  cn_fibers id : is_Some (u.(u_fibers) !! id) <-> is_Some (a.(sp_fibers) !! (g, id));
  cn_slots id F f : a.(sp_fibers) !! (g, id) = Some F -> u.(u_fibers) !! id = Some f ->
    f.(u_slots) = F.(sf_slots);
  cn_code id F f r : a.(sp_fibers) !! (g, id) = Some F -> u.(u_fibers) !! id = Some f ->
    (forall pid, u.(u_running) !! pid <> Some id) ->
    resume c.(saved) F.(sf_regs) r = Some (f.(u_code) r);
  cn_ids id : is_Some (u.(u_fibers) !! id) -> id <= u.(u_last);
  cn_runs pid id : u.(u_running) !! pid = Some id -> is_Some (u.(u_fibers) !! id);
  cn_known pid id : u.(u_running) !! pid = Some id -> is_Some (a.(sp_last) !! g);
  cn_saved t : is_Some (c.(saved) !! t) -> entry t = None
}.

Lemma resume_mono sv t k R r l :
  sv !! t = None -> entry t = None -> resume sv R r = Some l -> resume (<[t := k]> sv) R r = Some l.
Proof.
  intros Hsv He Hr. unfold resume in *. destruct (decide (R.(ip) = t)) as [<-|Hne].
  - rewrite Hsv in Hr. by rewrite He in Hr.
  - by rewrite lookup_insert_ne.
Qed.

Lemma resume_saved sv k R r : resume (<[R.(ip) := k]> sv) R r = Some (k r).
Proof. unfold resume. by rewrite lookup_insert_eq. Qed.

(** The local state of a thread and the table of continuations may change. *)
Lemma continues_resumes a a' c u pid l k R :
  continues a c u -> c.(saved) !! R.(ip) = None -> entry R.(ip) = None ->
  a'.(sp_last) = a.(sp_last) -> a'.(sp_fibers) = a.(sp_fibers) -> a'.(sp_running) = a.(sp_running) ->
  continues a' (Client (<[R.(ip) := k]> c.(saved)) (set_local pid l c.(cl_user))) (resumes pid l u).
Proof.
  intros [H1 H2 H3 H4 H5 H6 H7 H8 H9 H10] Hsv He Hl Hf Hr. split; simpl; rewrite ?Hl, ?Hf, ?Hr; try done.
  - by rewrite H1.
  - intros. apply resume_mono; eauto.
  - intros t. rewrite lookup_insert_is_Some. intros [<-|[_ Ht]]; [done|]. by apply H10.
Qed.

(** One fiber changes, or appears; the threads may run other fibers. *)
Lemma continues_put a a' c u u' id F f :
  continues a c u ->
  u'.(u_user) = u.(u_user) -> u.(u_last) <= u'.(u_last) -> id <= u'.(u_last) ->
  u'.(u_last) = default 0 (a'.(sp_last) !! g) ->
  u'.(u_fibers) = <[id := f]> u.(u_fibers) -> a'.(sp_fibers) = <[(g, id) := F]> a.(sp_fibers) ->
  (forall pid, u'.(u_running) !! pid = a'.(sp_running) !! (g, pid)) ->
  f.(u_slots) = F.(sf_slots) ->
  (forall r, (forall pid, u'.(u_running) !! pid <> Some id) ->
     resume c.(saved) F.(sf_regs) r = Some (f.(u_code) r)) ->
  (forall id2, id2 <> id -> (forall pid, u'.(u_running) !! pid <> Some id2) ->
     is_Some (u.(u_fibers) !! id2) -> forall pid, u.(u_running) !! pid <> Some id2) ->
  (forall pid id2, u'.(u_running) !! pid = Some id2 ->
     is_Some (u'.(u_fibers) !! id2) /\ is_Some (a'.(sp_last) !! g)) ->
  continues a' c u'.
Proof.
  intros [H1 H2 H3 H4 H5 H6 H7 H8 H9 H10] Hu Hle Hid Hlast Hf Hsf Hrun Hsl Hcode Hpark Hlive.
  split; try done.
  - by rewrite Hu.
  - intros id2. rewrite Hf, Hsf, !lookup_insert_is_Some, H4.
    split; intros [?|[??]]; [left; congruence|right|left; congruence|right]; split; congruence.
  - intros id2 F2 f2. rewrite Hf, Hsf. destruct (decide (id2 = id)) as [->|Hne].
    + rewrite !lookup_insert_eq. intros. by simplify_eq.
    + rewrite !lookup_insert_ne by congruence. eauto.
  - intros id2 F2 f2 r. rewrite Hf, Hsf. destruct (decide (id2 = id)) as [->|Hne].
    + rewrite !lookup_insert_eq. intros. simplify_eq. by apply Hcode.
    + rewrite !lookup_insert_ne by congruence. intros HF2 Hf2 Hp. eapply H6; eauto.
  - intros id2. rewrite Hf, lookup_insert_is_Some. intros [<-|[_ Hi]]; [done|]. specialize (H7 _ Hi). lia.
  - intros pid id2 Hr. by apply (Hlive pid).
  - intros pid id2 Hr. by apply (Hlive pid id2).
Qed.

(** *** The calls *)

Section Calls.
Context (a : spec) (c : client) (u : ustate) (pid : Z) (k : Z -> L) (R : pt_regs).
Context (Hc : continues a c u) (Hsv : c.(saved) !! R.(ip) = None) (He : entry R.(ip) = None).

(** The client when the call returns at [l']. *)
Definition returns_at (l' : L) : client :=
  Client (<[R.(ip) := k]> c.(saved)) (set_local pid l' c.(cl_user)).

Lemma returns_continues l' b :
  b.(sp_last) = a.(sp_last) -> b.(sp_fibers) = a.(sp_fibers) -> b.(sp_running) = a.(sp_running) ->
  continues b (returns_at l') (resumes pid l' u).
Proof. by apply continues_resumes. Qed.

Lemma convert_continues l' (a' : spec) F :
  u.(u_running) !! pid = None -> F.(sf_slots) = ∅ ->
  a'.(sp_last) = <[g := u.(u_last) + 1]> a.(sp_last) ->
  a'.(sp_fibers) = <[(g, u.(u_last) + 1) := F]> a.(sp_fibers) ->
  a'.(sp_running) = <[(g, pid) := u.(u_last) + 1]> a.(sp_running) ->
  continues a' (returns_at l') (resumes pid l' (runs pid (u.(u_last) + 1) (add_fiber (UFiber k ∅) u))).
Proof.
  intros Hno HF Hl Hf Hr.
  eapply (continues_put _ _ (returns_at l') _ _ (u_last u + 1));
    [by apply (returns_continues l' a)|done|simpl; lia|simpl; lia| |simpl; done|exact Hf| |done| | |].
  - rewrite Hl. by rewrite lookup_insert_eq.
  - intros q. rewrite Hr. simpl. destruct (decide (q = pid)) as [->|Hne]; [by rewrite !lookup_insert_eq|].
    rewrite !lookup_insert_ne by congruence. apply (cn_running _ _ _ Hc).
  - intros r Hp. destruct (Hp pid). simpl. apply lookup_insert_eq.
  - intros id2 Hne Hp Hi q Hq. apply (Hp q). simpl. rewrite lookup_insert_ne; [done|].
    intros <-. simpl in Hq. congruence.
  - intros q id2. simpl. rewrite Hl, lookup_insert_eq. intros [[<- <-]|[Hne Hq]]%lookup_insert_Some.
    + rewrite lookup_insert_eq. eauto.
    + split; [|eauto]. apply lookup_insert_is_Some. right. split; [|by eapply (cn_runs _ _ _ Hc)].
      intros <-. apply (cn_runs _ _ _ Hc), (cn_ids _ _ _ Hc) in Hq. lia.
Qed.

Lemma create_continues l' (a' : spec) F f :
  F.(sf_slots) = ∅ -> (fun h => h F.(sf_regs).(di)) <$> entry F.(sf_regs).(ip) = Some f ->
  a'.(sp_last) = <[g := u.(u_last) + 1]> a.(sp_last) ->
  a'.(sp_fibers) = <[(g, u.(u_last) + 1) := F]> a.(sp_fibers) -> a'.(sp_running) = a.(sp_running) ->
  continues a' (returns_at l') (resumes pid l' (add_fiber (UFiber (fun _ => f) ∅) u)).
Proof.
  intros HF Hent Hl Hf Hr.
  eapply (continues_put _ _ (returns_at l') _ _ (u_last u + 1));
    [by apply (returns_continues l' a)|done|simpl; lia|simpl; lia| |simpl; done|exact Hf| |done| | |].
  - rewrite Hl. by rewrite lookup_insert_eq.
  - intros q. rewrite Hr. simpl. apply (cn_running _ _ _ Hc).
  - intros r _. unfold resume. simpl.
    assert (Hip : F.(sf_regs).(ip) <> R.(ip)) by (intros Heq; by rewrite Heq, He in Hent).
    rewrite lookup_insert_ne by congruence. destruct (saved c !! ip (sf_regs F)) eqn:Hs; [|exact Hent].
    by rewrite (cn_saved _ _ _ Hc) in Hent by eauto.
  - intros id2 Hne Hp _. exact Hp.
  - intros q id2 Hq. simpl. rewrite Hl, lookup_insert_eq. split; [|eauto].
    apply lookup_insert_is_Some. destruct (decide (u_last u + 1 = id2)); [by left|right].
    split; [done|]. by eapply (cn_runs _ _ _ Hc).
Qed.

Lemma switch_continues l' (a' : spec) id0 f0 F0 id :
  u.(u_running) !! pid = Some id0 -> u.(u_fibers) !! id0 = Some f0 -> is_Some (u.(u_fibers) !! id) ->
  (forall q, u.(u_running) !! q <> Some id) -> f0.(u_slots) = F0.(sf_slots) -> F0.(sf_regs) = R ->
  a'.(sp_last) = a.(sp_last) -> a'.(sp_fibers) = <[(g, id0) := F0]> a.(sp_fibers) ->
  a'.(sp_running) = <[(g, pid) := id]> a.(sp_running) ->
  continues a' (returns_at l') (resumes pid l' (runs pid id (set_fiber id0 (UFiber k f0.(u_slots)) u))).
Proof.
  intros Hrun Hf0 Hid Hpark Hsl HR Hl Hf Hr.
  eapply (continues_put _ _ (returns_at l') _ _ id0);
    [by apply (returns_continues l' a)|done|simpl; lia| | |simpl; done|exact Hf| |exact Hsl| | |].
  - simpl. eapply (cn_ids _ _ _ Hc); eauto.
  - rewrite Hl. simpl. apply (cn_last _ _ _ Hc).
  - intros q. rewrite Hr. simpl. destruct (decide (q = pid)) as [->|Hne]; [by rewrite !lookup_insert_eq|].
    rewrite !lookup_insert_ne by congruence. apply (cn_running _ _ _ Hc).
  - intros r _. simpl. rewrite HR. apply resume_saved.
  - intros id2 Hne Hp Hi q Hq. simpl in Hq, Hp. destruct (decide (q = pid)) as [->|Hne2]; [congruence|].
    apply (Hp q). by rewrite lookup_insert_ne.
  - intros q id2. simpl. rewrite Hl. intros [[<- <-]|[Hne Hq]]%lookup_insert_Some.
    + split; [by apply lookup_insert_is_Some'; right|]. by eapply (cn_known _ _ _ Hc pid id0).
    + split; [apply lookup_insert_is_Some'; right; by eapply (cn_runs _ _ _ Hc)|by eapply (cn_known _ _ _ Hc)].
Qed.

Lemma storage_continues l' (a' : spec) id f F m :
  u.(u_running) !! pid = Some id -> is_Some (u.(u_fibers) !! id) -> F.(sf_slots) = m ->
  a'.(sp_last) = a.(sp_last) -> a'.(sp_fibers) = <[(g, id) := F]> a.(sp_fibers) ->
  a'.(sp_running) = a.(sp_running) ->
  continues a' (returns_at l') (resumes pid l' (set_fiber id (UFiber f m) u)).
Proof.
  intros Hrun Hid Hm Hl Hf Hr.
  eapply (continues_put _ _ (returns_at l') _ _ id);
    [by apply (returns_continues l' a)|done|simpl; lia| | |simpl; done|exact Hf| |done| | |].
  - simpl. eapply (cn_ids _ _ _ Hc); eauto.
  - rewrite Hl. simpl. apply (cn_last _ _ _ Hc).
  - intros q. rewrite Hr. simpl. apply (cn_running _ _ _ Hc).
  - intros r2 Hp. by destruct (Hp pid).
  - intros id2 Hne Hp _. exact Hp.
  - intros q id2 Hq. rewrite Hl. split; [simpl; apply lookup_insert_is_Some'; right; by eapply (cn_runs _ _ _ Hc)|].
    by eapply (cn_known _ _ _ Hc).
Qed.
End Calls.

Lemma call_continues a c u pid l e k R r a' R' l' :
  continues a c u -> calls l e k -> c.(saved) !! R.(ip) = None -> entry R.(ip) = None ->
  @sv_call _ spec_service a pid R e r a' -> @sv_regs _ spec_service a' pid = Some R' ->
  resume (<[R.(ip) := k]> c.(saved)) R' r = Some l' ->
  exists u', fiber_call pid k u e u' /\ continues a' (returns_at c pid k R l') u'.
Proof.
  intros Hc Hcalls Hsv He (ts & tk & Htk & Hg & HR & Hs) HR' Hres.
  pose proof (cn_running _ _ _ Hc pid) as Hrn. pose proof (cn_last _ _ _ Hc) as Hlast.
  assert (Hback : a'.(sp_tasks) = ts -> k r = l').
  { intros Hts. simpl in HR'. rewrite Hts, Htk in HR'. simpl in HR'. injection HR' as <-.
    rewrite HR, resume_saved in Hres. by injection Hres. }
  inversion Hs as [tk1 i Ht Hno Hi|tk1 id Ht Hr|tk1 id i sp sz fn param Ht Hr Hi|tk1 sp sz fn param Ht Hr
    |tk1 id0 F0 id F Ht Hr HF0 HF Hfree|tk1 id0 id pid' Ht Hr Hr'|tk1 id Ht Hno
    |tk1 id F op r1 m Ht Hr HF Hfls|tk1 op Ht Hr|tk1 id F pid2 id2 Ht Hr HF Hr2 Hne|tk1 id Ht Hr Hall|tk1 Ht Hr|tk1 Ht|];
    try (by inversion Hcalls; congruence); subst e r a'; simpl in *; rewrite Htk in Ht; injection Ht as <-;
    rewrite Hg in *.
  - rewrite <- (Hback eq_refl). subst i. rewrite <- Hlast in *. eexists.
    split; [apply fc_convert; congruence|].
    eapply (convert_continues a c u pid k R Hc Hsv He); [congruence| |done..]. done.
  - rewrite <- (Hback eq_refl). eexists. split; [eapply fc_convert_again; by rewrite Hrn|]. by apply (returns_continues a).
  - rewrite <- (Hback eq_refl). rewrite Hi in Hlast. simpl in Hlast. subst i.
    assert (exists f, entry fn = Some f) as [f Hf].
    { inversion Hcalls as [? ? ? ? ? ? Hno|? ? ? ? ? Ha]; [by destruct (Hno sp sz fn param)|].
      by apply entry_created in Ha. }
    eexists. split; [eapply fc_create; [by rewrite Hrn|done]|].
    eapply (create_continues a c u pid k R Hc Hsv He); [| |done..]; [done|]. simpl. by rewrite Hf.
  - rewrite <- (Hback eq_refl). eexists. split; [eapply fc_create_none; by rewrite Hrn|]. by apply (returns_continues a).
  - rewrite lookup_insert_eq in HR'. simpl in HR'. injection HR' as <-.
    destruct (proj2 (cn_fibers _ _ _ Hc id0)) as [f0 Hf0]; [eauto|].
    destruct (proj2 (cn_fibers _ _ _ Hc id)) as [f Hf]; [eauto|].
    assert (Hpark : forall q, u_running u !! q <> Some id) by (intros q; rewrite (cn_running _ _ _ Hc); apply Hfree).
    rewrite (resume_mono _ _ _ _ _ (u_code f 0)) in Hres; [|done|done|by eapply (cn_code _ _ _ Hc)].
    injection Hres as <-. eexists. split; [eapply fc_switch; [by rewrite Hrn|done|done|exact Hpark]|].
    eapply (switch_continues a c u pid k R Hc Hsv He); [by rewrite Hrn|done|eauto|done| | |done..]; [|exact HR].
    simpl. by eapply (cn_slots _ _ _ Hc).
  - rewrite <- (Hback eq_refl). eexists. split; [|by apply (returns_continues a)].
    eapply fc_switch_refused; [by rewrite Hrn|by rewrite (cn_running _ _ _ Hc)].
  - rewrite <- (Hback eq_refl). eexists. split; [eapply fc_switch_missing|by apply (returns_continues a)]. rewrite Hrn.
    destruct Hno as [?|Hno]; [by left|right]. apply eq_None_not_Some. intros Hx%(cn_fibers _ _ _ Hc).
    rewrite Hno in Hx. by destruct Hx.
  - rewrite <- (Hback eq_refl). destruct (proj2 (cn_fibers _ _ _ Hc id)) as [f Hf]; [eauto|].
    rewrite <- (cn_slots _ _ _ Hc id F f) in Hfls by done.
    eexists. split; [eapply fc_fls; [by rewrite Hrn|done|exact Hfls]|].
    eapply (storage_continues a c u pid k R Hc Hsv He); [by rewrite Hrn|eauto| |done..]. done.
  - rewrite <- (Hback eq_refl). eexists. split; [eapply fc_fls_none; by rewrite Hrn|]. by apply (returns_continues a).
Qed.

(** ** Programs on the module run continuations *)

Context {KOk : KernelOk K}.

Lemma module_fiber_running s a pid :
  wf s -> implements s a -> module_fiber s pid = a.(sp_running) !! (g, pid).
Proof.
  intros Hwf Ha. apply option_eq. intros id. unfold module_fiber. split.
  - intros (f & Hr & (F & HF & ->)%fmap_Some)%bind_Some.
    apply running_spec in Hr as (t & T & Ht & HT & Hsel); [|done].
    apply thread_for_spec in Ht as (T' & Pr & HT' & Hpid & HP & Hid); [|done]. simplify_eq.
    apply (im_running _ _ Ha). exists t, T'. split; [done|]. unfold thread_key, running_view.
    rewrite HP, Hsel. simpl. by rewrite HF.
  - intros Hr. destruct (spec_running_inv _ _ _ _ _ Hwf Ha Hr) as (f & F & t & Hrun & HF & Hid & _).
    rewrite Hrun. simpl. rewrite HF. simpl. by rewrite Hid.
Qed.

(** The registers after a call name a continuation. *)
Lemma resume_defined a c u pid l e k t r a' (tk : task) ts :
  continues a c u -> c.(saved) !! t = None -> entry t = None -> calls l e k ->
  ts !! pid = Some (entering t tk) -> spec_step (outside ts pid a) e r a' ->
  exists R' l', regs <$> a'.(sp_tasks) !! pid = Some R' /\ resume (<[t := k]> c.(saved)) R' r = Some l'.
Proof.
  intros Hc Ht He Hcalls Htk Hs.
  assert (Hdef : a'.(sp_tasks) = ts -> exists R' l', regs <$> a'.(sp_tasks) !! pid = Some R' /\
            resume (<[t := k]> c.(saved)) R' r = Some l').
  { intros ->. rewrite Htk. eexists _, (k r). split; [done|]. by rewrite (resume_saved _ _ (regs (entering t tk))). }
  inversion Hs as [| | | |tk1 id0 F0 id F Ht1 Hr HF0 HF Hfree| | | | | | | | |]; subst; try (by apply Hdef).
  simpl in *. rewrite lookup_insert_eq. rewrite Htk in Ht1. injection Ht1 as <-. simpl in *.
  destruct (proj2 (cn_fibers _ _ _ Hc id)) as [f Hf]; [eauto|].
  eexists _, (u_code f 0). split; [done|]. apply resume_mono; [done|done|].
  eapply (cn_code _ _ _ Hc); [done|done|]. intros q. rewrite (cn_running _ _ _ Hc). apply Hfree.
Qed.

(** A call of the module is a call of its specification. *)
Lemma module_call_refines n s a pid R e r s' R' :
  good n s -> 0 <= n -> n + 1 < INT_MAX -> implements s a ->
  @sv_call _ module_service s pid R e r s' -> @sv_regs _ module_service s' pid = Some R' ->
  exists a', @sv_call _ spec_service a pid R e r a' /\ @sv_regs _ spec_service a' pid = Some R' /\
    implements s' a' /\ good (n + 2) s'.
Proof.
  intros Hg Hn Hb Ha (s1 & tk & Hsame & Hcur & Htk & Htg & HR & Hrun) HR'.
  assert (Hg1 : good (n + 1) s1).
  { destruct Hg as [Hwf Hids]. split; [by rewrite <- Hsame|].
    eapply ids_below_mono; [|by rewrite <- Hsame]. lia. }
  pose proof (implements_same_module _ _ _ Ha Hsame) as Ha1. rewrite Hcur in Ha1.
  destruct (event_refines (n + 1) s1 _ e r s' Hg1 ltac:(lia) Ha1 Hrun) as (a' & Hs & Ha').
  exists a'. split_and!; [by exists s1.(tasks), tk| |done|].
  - simpl in *. by rewrite (im_tasks _ _ Ha').
  - replace (n + 2) with (n + 1 + 1) by lia. eapply step_good; [done|lia|by eapply step_event].
Qed.

(** With memory a call is always possible, and the thread always goes on. *)
Lemma call_possible n s a c u pid l e k (tk : task) :
  good n s -> 0 <= n -> n + 1 < INT_MAX -> implements s a -> continues a c u ->
  stale_reads = true -> (forall used, is_Some (kmalloc used)) -> calls l e k ->
  exists R r s' R' l',
    c.(saved) !! R.(ip) = None /\ entry R.(ip) = None /\
    @sv_call _ module_service s pid R e r s' /\ @sv_regs _ module_service s' pid = Some R' /\
    resume (<[R.(ip) := k]> c.(saved)) R' r = Some l'.
Proof.
  intros Hg Hn Hb Ha Hc Hst Hmem Hcalls.
  destruct (entry_free (dom c.(saved))) as (t & Ht & He). apply not_elem_of_dom in Ht.
  set (tk1 := entering t tk).
  set (s1 := enter t pid tk s).
  assert (Hsame : same_module s s1) by done.
  assert (Hev : e <> ETimer) by (by inversion Hcalls).
  destruct (event_has_outcome s1 tk1 e) as (r & s' & Ho);
    [rewrite <- Hsame; apply Hg|done|done|simpl; apply lookup_insert_eq|done|].
  assert (Hg1 : good (n + 1) s1).
  { destruct Hg as [Hwf Hids]. split; [by rewrite <- Hsame|].
    eapply ids_below_mono; [|by rewrite <- Hsame]. lia. }
  assert (Hrun : run_event e s1 = Some (r, s')).
  { eapply outcome_event_aux; [done|lia|]. eapply out_task; [|done]. simpl. apply lookup_insert_eq. }
  pose proof (implements_same_module _ _ _ Ha Hsame) as Ha1.
  destruct (event_refines (n + 1) s1 _ e r s' Hg1 ltac:(lia) Ha1 Hrun) as (a' & Hs & Ha').
  assert (Hregs : exists R' l', regs <$> s'.(tasks) !! pid = Some R' /\ resume (<[t := k]> c.(saved)) R' r = Some l').
  { rewrite <- (im_tasks _ _ Ha'). eapply resume_defined; [exact Hc|exact Ht|exact He|exact Hcalls| |exact Hs].
    simpl. apply lookup_insert_eq. }
  destruct Hregs as (R' & l' & HR' & Hl'). exists tk1.(regs), r, s', R', l'. split_and!; [done|done| |done|done].
  exists s1, tk1. split_and!; [done|done|simpl; apply lookup_insert_eq|done|done|done].
Qed.

Definition started (pid : Z) (l : L) : user := User {[ pid := l ]} [] globals false.
Definition start_client (pid : Z) (l : L) : client := Client ∅ (started pid l).
Definition start_fibers (pid : Z) (l : L) : ustate := UState 0 ∅ ∅ (started pid l).

Lemma start_continues a pid l :
  a.(sp_last) = ∅ -> a.(sp_fibers) = ∅ -> a.(sp_running) = ∅ ->
  continues a (start_client pid l) (start_fibers pid l).
Proof.
  intros H1 H2 H3. split; simpl; rewrite ?H1, ?H2, ?H3; try done.
  - intros id. by rewrite !lookup_empty.
  - intros id Hid. rewrite lookup_empty in Hid. by destruct Hid.
  - intros t Ht. rewrite lookup_empty in Ht. by destruct Ht.
Qed.

Lemma run_continues n s pid l s' c :
  initial s -> 2 * Z.of_nat n < INT_MAX ->
  @client_run _ module_service n (s, start_client pid l) (s', c) ->
  exists a u, good (2 * Z.of_nat n) s' /\ implements s' a /\ continues a c u /\
    fiber_run n (start_fibers pid l) u.
Proof.
  intros Hi Hn Hrun. remember (s, start_client pid l) as x eqn:Hx. remember (s', c) as y eqn:Hy.
  revert s' c Hy Hn. induction Hrun as [x|n x [s1 c1] z Hrun IH Hstep]; intros s' c Hy Hn; subst x.
  - simplify_eq. eexists _, _. split_and!; [|by apply implements_initial|by apply start_continues|apply fr_refl].
    split; [by apply wf_initial|]. destruct Hi as (_ & _ & Hph & _). intros p Pr. by rewrite Hph.
  - destruct (IH eq_refl s1 c1 eq_refl ltac:(lia)) as (a & u & Hg & Ha & Hc & Hf).
    pose proof (cn_user _ _ _ Hc) as Hu. pose proof Hg as [Hwf _].
    inversion Hstep as [? ? q l1 u' Hex Hl Hls|? ? q l1 e k R r ? R' l' Hex Hl Hcl Hsv He Hcall HR' Hres]; subst.
    + simplify_eq. exists a, (UState u.(u_last) u.(u_fibers) u.(u_running) u'). split_and!.
      * eapply good_mono; [|done]. lia.
      * done.
      * by destruct Hc; split.
      * eapply fr_step; [done|]. rewrite <- Hu in *. eapply fs_local; [done..|].
        simpl in Hls. rewrite (module_fiber_running _ _ _ Hwf Ha) in Hls. by rewrite (cn_running _ _ _ Hc).
    + simplify_eq. destruct (module_call_refines _ _ _ _ _ _ _ _ _ Hg ltac:(lia) ltac:(lia) Ha Hcall HR')
        as (a' & Hcall' & HR2 & Ha' & Hg').
      destruct (call_continues a c1 u q l1 e k R r a' R' l') as (u' & Hfc & Hc'); try done.
      exists a', u'. split_and!; [|done|done|].
      * eapply good_mono; [|done]. lia.
      * eapply fr_step; [done|]. rewrite <- Hu in *. by eapply fs_call.
Qed.

Lemma run_can_call n s pid0 l0 s' c pid l e k (tk : task) :
  initial s -> 2 * Z.of_nat n + 1 < INT_MAX ->
  @client_run _ module_service n (s, start_client pid0 l0) (s', c) ->
  stale_reads = true -> (forall used, is_Some (kmalloc used)) ->
  c.(cl_user).(exited) = false -> c.(cl_user).(locals) !! pid = Some l -> calls l e k ->
  exists y, @client_step _ module_service (s', c) y.
Proof.
  intros Hi Hn Hrun Hst Hmem Hex Hl Hcalls.
  destruct (run_continues n s pid0 l0 s' c Hi ltac:(lia) Hrun) as (a & u & Hg & Ha & Hc & _).
  destruct (call_possible (2 * Z.of_nat n) s' a c u pid l e k tk) as (R & r & s2 & R' & l' & ? & ? & ? & ? & ?);
    [done|lia|lia|done..|].
  eexists. eapply cs_call; eauto.
Qed.

(** C4: Programs that use fibers.  Whatever the threads of a process do on the
    module, calls of all of them interleaved in any order, their program is in a
    state that it reaches when every fiber is a continuation with storage and a
    switch exchanges continuations: the output, the memory and the point each
    thread has reached agree, and so does the fiber each thread runs. *)
Theorem clients_run_continuations n s pid l s' c :
  initial s -> 2 * Z.of_nat n < INT_MAX ->
  @client_run _ module_service n (s, start_client pid l) (s', c) ->
  exists u, fiber_run n (start_fibers pid l) u /\ u.(u_user) = c.(cl_user) /\
    forall q, module_fiber s' q = u.(u_running) !! q.
Proof.
  intros Hi Hn Hrun. destruct (run_continues n s pid l s' c Hi Hn Hrun) as (a & u & [Hwf _] & Ha & Hc & Hf).
  exists u. split_and!; [done|apply Hc|]. intros q.
  by rewrite (module_fiber_running _ _ _ Hwf Ha), (cn_running _ _ _ Hc).
Qed.
End Client.
