(* ===== verification/FiberLogic.v ===== *)
(** * Reasoning about one fiber at a time

    A program of many threads and fibers is correct when each of its fibers is:
    an assertion about one fiber, its local state, its storage and what it has
    printed, that the steps of that fiber preserve, holds for every fiber in
    every run.  The other fibers, the thread a fiber runs on and the signals do
    not matter.

    What fibers share is described by a value [g] beside the program (how many
    fibers are done, say), that a step may change: [S g last mem] tells what it
    means for the memory, and each fiber and thread keeps its assertion when
    another one changes it ([keeps]).  [shared_logic_sound] is the theorem;
    [fiber_logic_sound] is the case of assertions that do not mention anything
    shared. *)

From S2P Require Import Prelude Kernel State CStr Fibers Heap Runs Kprobes Safety Fls Outcome System Views Scenario Exclusion Switching Spec Refinement Client.

Section SharedLogic.
Context {L : Type} {P : Program (L := L)}.

(** The steps from a local state, with what is printed and the memory. *)
Inductive next (mem : gmap Z Z) (l : L) : list line -> L -> gmap Z Z -> Prop :=
  | next_tau l' : act l = Tau l' -> next mem l [] l' mem
  | next_print ln l' : act l = Print ln l' -> next mem l [ln] l' mem
  | next_spawn l1 l' : act l = Spawn l1 l' -> next mem l [] l' mem
  | next_alloc n k a vs :
      act l = Alloc n k -> length vs = n -> words_at a vs ##ₘ mem ->
      next mem l [] (k a) (words_at a vs ∪ mem)
  | next_store a v l' :
      act l = Store a v l' -> is_Some (mem !! a) -> next mem l [] l' (<[a := v]> mem)
  | next_load a k v : act l = Load a k -> mem !! a = Some v -> next mem l [] (k v) mem
  | next_atomic a f k v :
      act l = Atomic a f k -> mem !! a = Some v -> next mem l [] (k v) (<[a := f v]> mem)
  | next_any q k v : act l = Any q k -> q v = true -> next mem l [] (k v) mem
  | next_signal l' : on_signal l = Some l' -> next mem l [] l' mem.

(** The same by the action, for programs that a proof takes point by point. *)
Definition effect (mem : gmap Z Z) (a : action) (lns : list line) (l' : L) (mem' : gmap Z Z) : Prop :=
  match a with
  | Tau l1 => lns = [] /\ l' = l1 /\ mem' = mem
  | Print ln l1 => lns = [ln] /\ l' = l1 /\ mem' = mem
  | Spawn _ l1 => lns = [] /\ l' = l1 /\ mem' = mem
  | Alloc n k => exists x vs, length vs = n /\ words_at x vs ##ₘ mem /\
      lns = [] /\ l' = k x /\ mem' = words_at x vs ∪ mem
  | Store x v l1 => is_Some (mem !! x) /\ lns = [] /\ l' = l1 /\ mem' = <[x := v]> mem
  | Load x k => exists v, mem !! x = Some v /\ lns = [] /\ l' = k v /\ mem' = mem
  | Atomic x f k => exists v, mem !! x = Some v /\ lns = [] /\ l' = k v /\ mem' = <[x := f v]> mem
  | Any q k => exists v, q v = true /\ lns = [] /\ l' = k v /\ mem' = mem
  | _ => False
  end.

Lemma next_effect mem l lns l' mem' :
  next mem l lns l' mem' ->
  (on_signal l = Some l' /\ lns = [] /\ mem' = mem) \/ effect mem (act l) lns l' mem'.
Proof.
  destruct 1 as [? Ha|? ? Ha|? ? Ha|? ? ? ? Ha|? ? ? Ha|? ? ? Ha|? ? ? ? Ha|? ? ? Ha|? Ha];
    [right; rewrite Ha; simpl; naive_solver..|by left].
Qed.

(** What the fiber [id] has printed. *)
Definition printed (id : Z) (u : user (L := L)) : list line :=
  omap (fun x => if decide (x.1 = Some id) then Some x.2 else None) u.(out).

Context {G : Type}.

Inductive owner := Thread (pid : Z) | Fiber (id : Z).

#[export] Instance owner_eq_dec : EqDecision owner.
Proof. solve_decision. Defined.

(** The assertions of all but the owners [A] survive the change of [g]. *)
Definition keeps (I : G -> Z -> L -> gmap Z Z -> list line -> Prop) (J : G -> Z -> L -> Prop)
    (A : list owner) (g g' : G) : Prop :=
  (forall id l m o, Fiber id ∉ A -> I g id l m o -> I g' id l m o) /\
  (forall pid l, Thread pid ∉ A -> J g pid l -> J g' pid l).

(** [I g id l m o]: the assertion about the fiber [id] at [l] with storage [m]
    that has printed [o]; [J g pid l]: about a thread that is not a fiber;
    [S g last mem]: about the memory, when [last] fibers have been made. *)
Class SharedLogic (I : G -> Z -> L -> gmap Z Z -> list line -> Prop) (J : G -> Z -> L -> Prop)
    (S : G -> Z -> gmap Z Z -> Prop) := {
  sl_next g last mem id l m o lns l' mem' :
    I g id l m o -> 0 < id <= last -> S g last mem -> next mem l lns l' mem' ->
    exists g', keeps I J [Fiber id] g g' /\ S g' last mem' /\ I g' id l' m (o ++ lns);
  sl_convert_again g id l m o k : I g id l m o -> act l = Call EConvert k -> I g id (k (-1)) m o;
  sl_create g last mem id l m o fn size param k f :
    I g id l m o -> 0 < id <= last -> S g last mem -> act l = Create fn size param k -> entry fn = Some f ->
    exists g', keeps I J [Fiber id; Fiber (last + 1)] g g' /\ S g' (last + 1) mem /\
      I g' id (k (last + 1)) m o /\ I g' (last + 1) (f param) ∅ [];
  sl_switch g id l m o id' k r :
    I g id l m o -> act l = Call (ESwitch id') k -> r = 0 \/ r = -1 -> I g id (k r) m o;
  sl_fls g id l m o op k r m' :
    I g id l m o -> act l = Call (EFls op) k -> fls_step op r m m' -> I g id (k r) m' o;
  sl_spawned g q l l1 l' : act l = Spawn l1 l' -> J g q l1;
  sl_thread_next g last mem pid l lns l' mem' :
    J g pid l -> S g last mem -> next mem l lns l' mem' ->
    exists g', keeps I J [Thread pid] g g' /\ S g' last mem' /\ J g' pid l';
  sl_thread_convert g last mem pid l k :
    J g pid l -> S g last mem -> act l = Call EConvert k ->
    exists g', keeps I J [Thread pid; Fiber (last + 1)] g g' /\ S g' (last + 1) mem /\
      forall r, I g' (last + 1) (k r) ∅ [];
  sl_thread_create g pid l fn size param k :
    J g pid l -> act l = Create fn size param k -> J g pid (k (-1));
  sl_thread_switch g pid l id k : J g pid l -> act l = Call (ESwitch id) k -> J g pid (k (-1));
  sl_thread_fls g pid l op k : J g pid l -> act l = Call (EFls op) k -> J g pid (k (fls_failure op))
}.

Context (I : G -> Z -> L -> gmap Z Z -> list line -> Prop) (J : G -> Z -> L -> Prop).
Context (S : G -> Z -> gmap Z Z -> Prop) {SL : SharedLogic I J S}.

Definition thread_holds (g : G) (pid : Z) (l : L) (u : ustate) : Prop :=
  match u.(u_running) !! pid with
  | Some id => exists f, u.(u_fibers) !! id = Some f /\ I g id l f.(u_slots) (printed id u.(u_user))
  | None => J g pid l
  end.

(** All of it, but for what thread [x] is about to do. *)
Record holds_but (x : option Z) (g : G) (u : ustate) : Prop := {
  h_thread pid l : x <> Some pid -> u.(u_user).(locals) !! pid = Some l -> thread_holds g pid l u;
  h_parked id f : u.(u_fibers) !! id = Some f -> (forall pid, u.(u_running) !! pid <> Some id) ->
    I g id (f.(u_code) 0) f.(u_slots) (printed id u.(u_user));
  h_unique p q id : u.(u_running) !! p = Some id -> u.(u_running) !! q = Some id -> p = q;
  h_locals pid id : u.(u_running) !! pid = Some id -> is_Some (u.(u_user).(locals) !! pid);
  h_runs pid id : u.(u_running) !! pid = Some id -> is_Some (u.(u_fibers) !! id);
  h_last : 0 <= u.(u_last);
  h_fibers id : is_Some (u.(u_fibers) !! id) <-> 0 < id <= u.(u_last);
  h_out id ln : (Some id, ln) ∈ u.(u_user).(out) -> is_Some (u.(u_fibers) !! id)
}.

Definition holds (g : G) (u : ustate) : Prop :=
  holds_but None g u /\ S g u.(u_last) u.(u_user).(memory).

Lemma holds_forget g u pid : holds g u -> holds_but (Some pid) g u.
Proof. intros [Hh _]. destruct Hh. split; try done. intros q l _ Hq. eauto. Qed.

Lemma printed_by id o (lns : list line) u v :
  v.(out) = u.(out) ++ ((fun ln => (o, ln)) <$> lns) ->
  printed id v = printed id u ++ if decide (o = Some id) then lns else [].
Proof.
  intros Hv. unfold printed. rewrite Hv, omap_app. f_equal. clear Hv.
  induction lns as [|ln lns IH]; [by case_decide|]. csimpl. rewrite IH. by case_decide.
Qed.

Lemma printed_none id u : (forall ln, (Some id, ln) ∉ u.(out)) -> printed id u = [].
Proof.
  intros Hno. unfold printed. destruct (omap _ _) as [|x l] eqn:Ho; [done|].
  assert (Hx : x ∈ x :: l) by left. rewrite <- Ho in Hx. apply list_elem_of_omap in Hx as ([o ln] & Hin & Hx).
  simpl in Hx. case_decide as Hd; [subst o|done]. by apply Hno in Hin.
Qed.

Lemma h_running g u pid id :
  holds g u -> u.(u_running) !! pid = Some id ->
  exists l f, u.(u_user).(locals) !! pid = Some l /\ u.(u_fibers) !! id = Some f /\
    I g id l f.(u_slots) (printed id u.(u_user)).
Proof.
  intros [Hh _] Hr. destruct (h_locals _ _ _ Hh _ _ Hr) as [l Hl].
  pose proof (h_thread _ _ _ Hh _ _ ltac:(done) Hl) as Ht. unfold thread_holds in Ht. rewrite Hr in Ht.
  destruct Ht as (f & Hf & HI). eauto.
Qed.

Lemma running_made g u pid id : holds g u -> u.(u_running) !! pid = Some id -> 0 < id <= u.(u_last).
Proof. intros [Hh _] Hr. by eapply (h_fibers _ _ _ Hh), (h_runs _ _ _ Hh). Qed.

(** ** Changes of what is shared *)

(** The owners [A] are what thread [pid] runs, and fibers that do not exist. *)
Definition concerns (pid : Z) (u : ustate (L := L)) (A : list owner) : Prop :=
  forall o, o ∈ A -> match o with
    | Thread q => q = pid
    | Fiber id => u.(u_running) !! pid = Some id \/ u.(u_last) < id
    end.

Lemma change_but pid A g g' u :
  holds_but (Some pid) g u -> keeps I J A g g' -> concerns pid u A -> holds_but (Some pid) g' u.
Proof.
  intros Hh [HI HJ] HA. split; try apply Hh.
  - intros q l Hne Hq. pose proof (h_thread _ _ _ Hh _ _ Hne Hq) as Ht. unfold thread_holds in *.
    destruct (u_running u !! q) as [id|] eqn:Hr.
    + destruct Ht as (f & Hf & Ht). exists f. split; [done|]. apply HI; [|done].
      intros [Hp|Hlt]%HA; [by rewrite (h_unique _ _ _ Hh pid q id) in Hne|].
      pose proof (proj1 (h_fibers _ _ _ Hh id) ltac:(eauto)). lia.
    + apply HJ; [|done]. intros ->%HA. done.
  - intros id f Hf Hp. apply HI; [|by apply (h_parked _ _ _ Hh)].
    intros [Hr|Hlt]%HA; [by destruct (Hp pid)|]. pose proof (proj1 (h_fibers _ _ _ Hh id) ltac:(eauto)). lia.
Qed.

(** ** Changes of the threads and fibers *)

(** Thread [pid] goes on, and may print. *)
Lemma goes_on g u v pid l' lns :
  holds_but (Some pid) g u -> is_Some (u.(u_user).(locals) !! pid) ->
  v.(locals) = <[pid := l']> u.(u_user).(locals) ->
  v.(out) = u.(u_user).(out) ++ ((fun ln => (u.(u_running) !! pid, ln)) <$> lns) ->
  match u.(u_running) !! pid with
  | Some id => exists f, u.(u_fibers) !! id = Some f /\ I g id l' f.(u_slots) (printed id u.(u_user) ++ lns)
  | None => J g pid l'
  end ->
  holds_but None g (UState u.(u_last) u.(u_fibers) u.(u_running) v).
Proof.
  intros Hh Hl Hv Ho Hgo.
  assert (Hpr : forall id, u.(u_running) !! pid <> Some id -> printed id v = printed id u.(u_user)).
  { intros id Hne. by rewrite (printed_by id _ _ _ _ Ho), decide_False, app_nil_r. }
  split; simpl; try apply Hh.
  - intros q l2 _. rewrite Hv. intros [[<- <-]|[Hne Hq]]%lookup_insert_Some; unfold thread_holds; simpl.
    + destruct (u_running u !! pid) as [id|] eqn:Hr; [|done].
      by rewrite (printed_by id _ _ _ _ Ho), decide_True.
    + pose proof (h_thread _ _ _ Hh q l2 ltac:(congruence) Hq) as Ht. unfold thread_holds in Ht.
      destruct (u_running u !! q) as [id|] eqn:Hr; [|auto]. rewrite Hpr; [done|].
      intros Hp. by eapply Hne, (h_unique _ _ _ Hh).
  - intros id f Hf Hp. rewrite Hpr by done. by apply (h_parked _ _ _ Hh).
  - intros q id Hq. rewrite Hv. apply lookup_insert_is_Some'. right. by eapply (h_locals _ _ _ Hh).
  - intros id ln. rewrite Ho, elem_of_app. intros [Hin|Hin]; [by eapply (h_out _ _ _ Hh)|].
    apply list_elem_of_fmap in Hin as (x & Hx & _). injection Hx as Hx _. by eapply (h_runs _ _ _ Hh).
Qed.

(** A call that does nothing else. *)
Lemma resumes_holds g u pid l l' :
  holds g u -> u.(u_user).(locals) !! pid = Some l ->
  (forall id m o, u.(u_running) !! pid = Some id -> I g id l m o -> I g id l' m o) ->
  (u.(u_running) !! pid = None -> J g pid l -> J g pid l') -> holds g (resumes pid l' u).
Proof.
  intros Hh Hl HI HJ. split; [|apply Hh]. eapply (goes_on g u _ pid l' []); try done.
  - by apply holds_forget.
  - simpl. by rewrite app_nil_r.
  - pose proof (h_thread _ _ _ (proj1 Hh) _ _ ltac:(done) Hl) as Ht. unfold thread_holds in Ht.
    destruct (u_running u !! pid) as [id|]; [|auto]. destruct Ht as (f & Hf & Ht).
    exists f. rewrite app_nil_r. auto.
Qed.

(** A new fiber: it has printed nothing. *)
Lemma new_fiber_printed x g u id : holds_but x g u -> u.(u_last) < id -> printed id u.(u_user) = [].
Proof. intros Hh Hid. apply printed_none. intros ln Hin%(h_out _ _ _ Hh)%(h_fibers _ _ _ Hh). lia. Qed.

Lemma new_fiber_runs x g u pid id : holds_but x g u -> u.(u_last) < id -> u.(u_running) !! pid <> Some id.
Proof. intros Hh Hid Hr%(h_runs _ _ _ Hh)%(h_fibers _ _ _ Hh). lia. Qed.

Lemma add_fiber_but x g u f :
  holds_but x g u -> I g (u.(u_last) + 1) (f.(u_code) 0) f.(u_slots) [] -> holds_but x g (add_fiber f u).
Proof.
  intros Hh Hf. assert (Hid : u_last u < u_last u + 1) by lia. split; simpl.
  - intros q l Hx Hq. pose proof (h_thread _ _ _ Hh _ _ Hx Hq) as Ht. unfold thread_holds in *. simpl.
    destruct (u_running u !! q) as [id|] eqn:Hr; [|done]. rewrite lookup_insert_ne; [done|].
    intros <-. by apply (new_fiber_runs _ _ _ q _ Hh Hid).
  - intros id f'. intros [[<- <-]|[Hne Hf']]%lookup_insert_Some Hp.
    + by rewrite (new_fiber_printed _ _ _ _ Hh Hid).
    + by apply (h_parked _ _ _ Hh).
  - apply (h_unique _ _ _ Hh).
  - apply (h_locals _ _ _ Hh).
  - intros q id Hq%(h_runs _ _ _ Hh). apply lookup_insert_is_Some'. by right.
  - pose proof (h_last _ _ _ Hh). lia.
  - intros id. pose proof (h_last _ _ _ Hh). rewrite lookup_insert_is_Some', (h_fibers _ _ _ Hh). lia.
  - intros id ln Hin%(h_out _ _ _ Hh). apply lookup_insert_is_Some'. by right.
Qed.

(** The storage of the fiber that thread [pid] runs, and where it would go on. *)
Lemma set_fiber_but g u pid id f :
  holds_but (Some pid) g u -> u.(u_running) !! pid = Some id -> holds_but (Some pid) g (set_fiber id f u).
Proof.
  intros Hh Hr. split; simpl; try apply Hh.
  - intros q l Hne Hq. pose proof (h_thread _ _ _ Hh _ _ Hne Hq) as Ht. unfold thread_holds in *. simpl.
    destruct (u_running u !! q) as [id2|] eqn:Hr2; [|done].
    rewrite lookup_insert_ne; [done|]. intros <-. by rewrite (h_unique _ _ _ Hh pid q id) in Hne.
  - intros id2 f2 [[<- <-]|[Hne Hf2]]%lookup_insert_Some Hp; [by destruct (Hp pid)|].
    by apply (h_parked _ _ _ Hh).
  - intros q id2 Hq%(h_runs _ _ _ Hh). apply lookup_insert_is_Some'. by right.
  - intros id2. rewrite lookup_insert_is_Some', (h_fibers _ _ _ Hh).
    pose proof (proj1 (h_fibers _ _ _ Hh id) (h_runs _ _ _ Hh _ _ Hr)). naive_solver.
  - intros id2 ln Hin%(h_out _ _ _ Hh). apply lookup_insert_is_Some'. by right.
Qed.

(** Thread [pid] runs a parked fiber, at the state [l'] in which the fiber goes
    on; the fiber it leaves is parked. *)
Lemma runs_but g u pid id f l' :
  holds_but (Some pid) g u -> is_Some (u.(u_user).(locals) !! pid) ->
  (forall id0 f0, u.(u_running) !! pid = Some id0 -> u.(u_fibers) !! id0 = Some f0 ->
     I g id0 (f0.(u_code) 0) f0.(u_slots) (printed id0 u.(u_user))) ->
  u.(u_fibers) !! id = Some f -> (forall q, u.(u_running) !! q <> Some id) ->
  I g id l' f.(u_slots) (printed id u.(u_user)) -> holds_but None g (resumes pid l' (runs pid id u)).
Proof.
  intros Hh Hl Hr Hf Hp HI. split; simpl.
  - intros q l2 _ [[<- <-]|[Hne Hq]]%lookup_insert_Some; unfold thread_holds; simpl.
    + rewrite lookup_insert_eq. by eexists.
    + rewrite lookup_insert_ne by done. apply (h_thread _ _ _ Hh); [congruence|done].
  - intros id2 f2 Hf2 Hp2. destruct (decide (u_running u !! pid = Some id2)); [by apply Hr|].
    apply (h_parked _ _ _ Hh); [done|]. intros q Hq. apply (Hp2 q). rewrite lookup_insert_ne; [done|]. congruence.
  - intros q1 q2 id2 [[<- <-]|[Hn1 H1]]%lookup_insert_Some [[<- H2]|[Hn2 H2]]%lookup_insert_Some.
    + done.
    + by destruct (Hp q2).
    + subst. by destruct (Hp q1).
    + by eapply (h_unique _ _ _ Hh).
  - intros q id2 Hq. apply lookup_insert_is_Some'. apply lookup_insert_Some in Hq as [[<- _]|[_ Hq]]; [by left|].
    right. by eapply (h_locals _ _ _ Hh).
  - intros q id2 [[<- <-]|[_ Hq]]%lookup_insert_Some; [eauto|]. by eapply (h_runs _ _ _ Hh).
  - apply (h_last _ _ _ Hh).
  - apply (h_fibers _ _ _ Hh).
  - apply (h_out _ _ _ Hh).
Qed.

(** A new thread. *)
Lemma spawn_holds g u q l1 :
  holds g u -> u.(u_user).(locals) !! q = None -> J g q l1 ->
  holds g (UState u.(u_last) u.(u_fibers) u.(u_running) (set_local q l1 u.(u_user))).
Proof.
  intros [Hh HS] Hq Hj. split; [|done].
  assert (Hr : u_running u !! q = None).
  { apply eq_None_not_Some. intros [id Hr]. destruct (h_locals _ _ _ Hh _ _ Hr). congruence. }
  split; simpl; try apply Hh.
  - intros p l _ [[<- <-]|[Hne Hp]]%lookup_insert_Some; unfold thread_holds; simpl; [by rewrite Hr|].
    by apply (h_thread _ _ _ Hh).
  - intros p id Hp. apply lookup_insert_is_Some'. right. by eapply (h_locals _ _ _ Hh).
Qed.

(** ** The steps *)

Lemma concerns_running u pid id : u.(u_running) !! pid = Some id -> concerns pid u [Fiber id].
Proof. intros Hr o ->%list_elem_of_singleton. by left. Qed.

Lemma concerns_new u pid o :
  match o with Thread q => q = pid | Fiber id => u.(u_running) !! pid = Some id end ->
  concerns pid u [o; Fiber (u.(u_last) + 1)].
Proof.
  intros Ho o' [-> | ->%list_elem_of_singleton]%elem_of_cons; [|right; lia].
  destruct o; [done|by left].
Qed.

Lemma next_holds g pid u v l lns l' :
  holds g u -> u.(u_user).(locals) !! pid = Some l ->
  next u.(u_user).(memory) l lns l' v.(memory) ->
  v.(locals) = <[pid := l']> u.(u_user).(locals) ->
  v.(out) = u.(u_user).(out) ++ ((fun ln => (u.(u_running) !! pid, ln)) <$> lns) ->
  exists g', holds g' (UState u.(u_last) u.(u_fibers) u.(u_running) v).
Proof.
  intros Hh Hl Hn Hv Ho. pose proof (h_thread _ _ _ (proj1 Hh) _ _ ltac:(done) Hl) as Ht.
  pose proof (holds_forget _ _ pid Hh) as Hb. unfold thread_holds in Ht.
  destruct (u_running u !! pid) as [id|] eqn:Hr.
  - destruct Ht as (f & Hf & HI).
    destruct (sl_next _ _ _ _ _ _ _ _ _ _ HI (running_made _ _ _ _ Hh Hr) (proj2 Hh) Hn) as (g' & Hk & HS & HI').
    exists g'. split; [|exact HS].
    eapply (goes_on g' u v pid l' lns); [by eapply change_but, concerns_running|eauto|done|by rewrite Hr|].
    rewrite Hr. eauto.
  - destruct (sl_thread_next _ _ _ _ _ _ _ _ Ht (proj2 Hh) Hn) as (g' & Hk & HS & HJ').
    exists g'. split; [|exact HS].
    eapply (goes_on g' u v pid l' lns); [|eauto|done|by rewrite Hr|by rewrite Hr].
    eapply change_but; [done..|]. by intros o ->%list_elem_of_singleton.
Qed.

Lemma local_holds g pid l u v :
  holds g u -> u.(u_user).(locals) !! pid = Some l -> local_step pid (u.(u_running) !! pid) u.(u_user) l v ->
  exists g', holds g' (UState u.(u_last) u.(u_fibers) u.(u_running) v).
Proof.
  intros Hh Hl Hs. destruct Hs as [l Ha|l l' Ha|l ln l' Ha|l q l1 l' Ha Hq|l a vs n k Ha Hn Hm|l a v l' Ha Hm|l a v k Ha Hm
    |l a v f k Ha Hm|l v q k Ha Hm|l l' Ha];
    try (eapply (next_holds g pid u _ l []); [done|done|by econstructor|done|symmetry; apply app_nil_r]).
  - exists g. by destruct Hh as [[] ?]; split.
  - eapply (next_holds g pid u _ l [ln]); [done|done|by constructor|done|done].
  - destruct (next_holds g pid u (set_local pid l' u.(u_user)) l [] l') as [g' Hh'];
      [done|done|by econstructor|done|symmetry; apply app_nil_r|].
    exists g'. apply (spawn_holds g' (UState u.(u_last) u.(u_fibers) u.(u_running) (set_local pid l' u.(u_user))));
      [done| |by eapply sl_spawned].
    simpl. rewrite lookup_insert_ne; [done|congruence].
Qed.

Lemma convert_holds g pid l k u :
  holds g u -> u.(u_user).(locals) !! pid = Some l -> act l = Call EConvert k -> u.(u_running) !! pid = None ->
  exists g', holds g' (resumes pid (k (u.(u_last) + 1)) (runs pid (u.(u_last) + 1) (add_fiber (UFiber k ∅) u))).
Proof.
  intros Hh Hl Ha Hr. pose proof (h_thread _ _ _ (proj1 Hh) _ _ ltac:(done) Hl) as Ht. unfold thread_holds in Ht.
  rewrite Hr in Ht. destruct (sl_thread_convert _ _ _ _ _ _ Ht (proj2 Hh) Ha) as (g' & Hk & HS & HI).
  assert (Hb : holds_but (Some pid) g' u).
  { eapply change_but; [by apply holds_forget|done|by apply concerns_new]. }
  assert (Hid : u_last u < u_last u + 1) by lia.
  exists g'. split; [|exact HS]. eapply (runs_but g' (add_fiber (UFiber k ∅) u)); simpl.
  - by apply add_fiber_but.
  - eauto.
  - by rewrite Hr.
  - apply lookup_insert_eq.
  - intros q. by eapply new_fiber_runs.
  - by rewrite (new_fiber_printed _ _ _ _ Hb Hid).
Qed.

Lemma create_holds g pid l fn size param k id f u :
  holds g u -> u.(u_user).(locals) !! pid = Some l -> act l = Create fn size param k ->
  u.(u_running) !! pid = Some id -> entry fn = Some f ->
  exists g', holds g' (resumes pid (k (u.(u_last) + 1)) (add_fiber (UFiber (fun _ => f param) ∅) u)).
Proof.
  intros Hh Hl Ha Hr He. destruct (h_running _ _ _ _ Hh Hr) as (l0 & f0 & Hl0 & Hf0 & HI). simplify_eq.
  destruct (sl_create _ _ _ _ _ _ _ _ _ _ _ _ HI (running_made _ _ _ _ Hh Hr) (proj2 Hh) Ha He) as (g' & Hk & HS & HI0 & HI1).
  exists g'. split; [|exact HS]. set (u1 := add_fiber _ u).
  eapply (goes_on g' u1 _ pid _ []); simpl.
  - apply add_fiber_but; [|done]. eapply change_but; [by apply holds_forget|done|by apply concerns_new].
  - eauto.
  - done.
  - by rewrite app_nil_r.
  - rewrite Hr. exists f0. rewrite app_nil_r. split; [|done]. rewrite lookup_insert_ne; [done|].
    intros <-. pose proof (proj1 (h_fibers _ _ _ (proj1 Hh) (u_last u + 1)) ltac:(eauto)). lia.
Qed.

Lemma switch_holds g pid l k id0 f0 id f u :
  holds g u -> u.(u_user).(locals) !! pid = Some l -> act l = Call (ESwitch id) k ->
  u.(u_running) !! pid = Some id0 -> u.(u_fibers) !! id0 = Some f0 -> u.(u_fibers) !! id = Some f ->
  (forall q, u.(u_running) !! q <> Some id) ->
  holds g (resumes pid (f.(u_code) 0) (runs pid id (set_fiber id0 (UFiber k f0.(u_slots)) u))).
Proof.
  intros Hh Hl Ha Hr Hf0 Hf Hp. destruct (h_running _ _ _ _ Hh Hr) as (l0 & f1 & Hl0 & Hf1 & HI). simplify_eq.
  assert (Hne : id <> id0) by (intros ->; by destruct (Hp pid)).
  split; [|apply Hh]. eapply (runs_but g (set_fiber id0 (UFiber k (u_slots f0)) u)); simpl.
  - by apply set_fiber_but; [apply holds_forget|].
  - eauto.
  - intros id2 f2 Hr2. simplify_eq. rewrite lookup_insert_eq. intros. simplify_eq. eapply sl_switch; eauto.
  - by rewrite lookup_insert_ne.
  - done.
  - by apply (h_parked _ _ _ (proj1 Hh)).
Qed.

Lemma fls_holds g pid l k op r m id f u :
  holds g u -> u.(u_user).(locals) !! pid = Some l -> act l = Call (EFls op) k ->
  u.(u_running) !! pid = Some id -> u.(u_fibers) !! id = Some f -> fls_step op r f.(u_slots) m ->
  holds g (resumes pid (k r) (set_fiber id (UFiber f.(u_code) m) u)).
Proof.
  intros Hh Hl Ha Hr Hf Hst. destruct (h_running _ _ _ _ Hh Hr) as (l0 & f1 & Hl0 & Hf1 & HI). simplify_eq.
  split; [|apply Hh]. set (u1 := set_fiber _ _ u).
  eapply (goes_on g u1 _ pid _ []); simpl.
  - by apply set_fiber_but; [apply holds_forget|].
  - eauto.
  - done.
  - by rewrite app_nil_r.
  - rewrite Hr, lookup_insert_eq. eexists. split; [done|]. rewrite app_nil_r. by eapply sl_fls.
Qed.

Lemma calls_create_inv l stack fn size param k :
  calls l (ECreate stack size fn param) k -> act l = Create fn size param k.
Proof.
  inversion 1 as [? ? Ha ? ? ? Hno|? ? ? ? ? Ha]; subst; [by destruct (Hno stack size fn param)|done].
Qed.

Lemma call_holds g pid l e k u u' :
  holds g u -> u.(u_user).(locals) !! pid = Some l -> calls l e k -> fiber_call pid k u e u' ->
  exists g', holds g' u'.
Proof.
  intros Hh Hl Hc Hs.
  destruct Hs as [Hr|stack size fn param f id Hr He|id0 f0 id f Hr Hf0 Hf Hp|id0 id q Hr Hq|id Hno
                 |op id f r m Hr Hf Hst|id Hr|stack size fn param Hr|op Hr];
    first [apply calls_create_inv in Hc as Ha
          |assert (Ha : act l = Call _ k) by (inversion Hc; subst; eassumption)].
  - by eapply convert_holds.
  - by eapply create_holds.
  - exists g. by eapply switch_holds.
  - exists g. eapply resumes_holds; [done|done| |congruence]. intros. eapply sl_switch; eauto.
  - exists g. eapply resumes_holds; [done|done| |]; intros.
    + eapply sl_switch; eauto.
    + by eapply sl_thread_switch.
  - exists g. by eapply fls_holds.
  - exists g. eapply resumes_holds; [done|done| |congruence]. intros. by eapply sl_convert_again.
  - exists g. eapply resumes_holds; [done|done|congruence|]. intros. by eapply sl_thread_create.
  - exists g. eapply resumes_holds; [done|done|congruence|]. intros. by eapply sl_thread_fls.
Qed.

(** The assertions hold in every state of every run, when that about threads
    holds in the beginning. *)
Theorem shared_logic_sound g n pid l u :
  J g pid l -> S g 0 globals -> fiber_run n (start_fibers pid l) u -> exists g', holds g' u.
Proof.
  intros Hj HS Hrun. remember (start_fibers pid l) as u0 eqn:Hu0.
  induction Hrun as [u|n u v w _ IH Hs]; subst u.
  - exists g. split; [|done]. split; simpl; try done.
    + by intros q l2 _ [<- <-]%lookup_singleton_Some.
    + intros id. rewrite lookup_empty, is_Some_alt. split; [done|lia].
    + intros id ln Hin. by apply elem_of_nil in Hin.
  - destruct (IH eq_refl) as [g' Hh]. destruct Hs; [by eapply local_holds|by eapply call_holds].
Qed.

(** Whatever a fiber has printed, its assertion holds. *)
Lemma holds_printed g u id :
  holds g u -> printed id u.(u_user) <> [] -> exists l m, I g id l m (printed id u.(u_user)).
Proof.
  intros Hh Hpr.
  assert (Hf : is_Some (u_fibers u !! id)).
  { unfold printed in Hpr. destruct (omap _ _) as [|x o] eqn:Ho; [done|].
    assert (Hx : x ∈ x :: o) by left. rewrite <- Ho in Hx. apply list_elem_of_omap in Hx as ([i ln] & Hin & Hx).
    simpl in Hx. case_decide as Hd; [subst i|done]. by apply (h_out _ _ _ (proj1 Hh)) in Hin. }
  destruct Hf as [f Hf]. destruct (decide (id ∈ (map_img u.(u_running) : gset Z))) as [Hr|Hr].
  - apply elem_of_map_img in Hr as [pid Hr].
    destruct (h_running _ _ _ _ Hh Hr) as (l & f1 & _ & _ & HI). eauto.
  - exists (u_code f 0), (u_slots f). apply (h_parked _ _ _ (proj1 Hh)); [done|]. intros pid Hp.
    apply Hr, elem_of_map_img. eauto.
Qed.

End SharedLogic.

(** ** Assertions that mention nothing shared *)

Section FiberLogic.
Context {L : Type} {P : Program (L := L)}.

(** [I l m o]: the assertion about a fiber at [l] with storage [m] that has
    printed [o]; [J l]: about a thread that is not a fiber. *)
Class FiberLogic (I : L -> gmap Z Z -> list line -> Prop) (J : L -> Prop) := {
  fl_next l m o mem lns l' mem' : I l m o -> next mem l lns l' mem' -> I l' m (o ++ lns);
  fl_convert_again l m o k : I l m o -> act l = Call EConvert k -> I (k (-1)) m o;
  fl_create l m o fn size param k r : I l m o -> act l = Create fn size param k -> I (k r) m o;
  fl_created l m o fn size param k f :
    I l m o -> act l = Create fn size param k -> entry fn = Some f -> I (f param) ∅ [];
  fl_switch l m o id k r : I l m o -> act l = Call (ESwitch id) k -> r = 0 \/ r = -1 -> I (k r) m o;
  fl_fls l m o op k r m' : I l m o -> act l = Call (EFls op) k -> fls_step op r m m' -> I (k r) m' o;
  fl_thread_next l mem lns l' mem' : J l -> next mem l lns l' mem' -> J l';
  fl_thread_spawned l l1 l' : act l = Spawn l1 l' -> J l1;
  fl_thread_convert l k r : J l -> act l = Call EConvert k -> I (k r) ∅ [];
  fl_thread_create l fn size param k : J l -> act l = Create fn size param k -> J (k (-1));
  fl_thread_switch l id k : J l -> act l = Call (ESwitch id) k -> J (k (-1));
  fl_thread_fls l op k : J l -> act l = Call (EFls op) k -> J (k (fls_failure op))
}.

Context (I : L -> gmap Z Z -> list line -> Prop) (J : L -> Prop) {FL : FiberLogic I J}.

Definition fiber_assertion (_ : unit) (_ : Z) : L -> gmap Z Z -> list line -> Prop := I.
Definition thread_assertion (_ : unit) (_ : Z) : L -> Prop := J.
Definition no_sharing (_ : unit) (_ : Z) (_ : gmap Z Z) : Prop := True.

Lemma keeps_unit A g g' : keeps fiber_assertion thread_assertion A g g'.
Proof. done. Qed.

#[export] Instance fiber_logic_shared : SharedLogic fiber_assertion thread_assertion no_sharing.
Proof.
  split; unfold fiber_assertion, thread_assertion, no_sharing; intros.
  - exists tt. split_and!; [done|done|by eapply fl_next].
  - by eapply fl_convert_again.
  - exists tt. split_and!; [done|done|by eapply fl_create|by eapply fl_created].
  - by eapply fl_switch.
  - by eapply fl_fls.
  - by eapply fl_thread_spawned.
  - exists tt. split_and!; [done|done|by eapply fl_thread_next].
  - exists tt. split_and!; [done|done|]. intros r. by eapply fl_thread_convert.
  - by eapply fl_thread_create.
  - by eapply fl_thread_switch.
  - by eapply fl_thread_fls.
Qed.

Theorem fiber_logic_sound n pid l u :
  J l -> fiber_run n (start_fibers pid l) u -> holds fiber_assertion thread_assertion no_sharing tt u.
Proof.
  intros Hj Hrun.
  destruct (shared_logic_sound fiber_assertion thread_assertion no_sharing tt n pid l u Hj Logic.I Hrun) as [[] Hh].
  exact Hh.
Qed.
End FiberLogic.
