(* ===== verification/MainProgram.v ===== *)
(** * The demonstration program fiberlib/main.c

    Two fibers that take turns: [main] converts itself, creates a fiber that
    runs [function], and both switch to each other, with loops and output in
    between.  [main_terminates] is the whole behaviour of the program: every run
    on the module prints a prefix of one text, goes on as long as it has not
    exited, ends after a number of steps that is known beforehand, and has then
    printed all of it.

    The two local variables that the output depends on are floating point
    numbers, of the formats binary32 and binary64. *)

From S2P Require Import Prelude Kernel State CStr Fibers Heap Runs Kprobes Safety Fls Outcome System Views Scenario Exclusion Switching Spec Refinement Client.

(** ** Numbers *)

Definition double_add : spec_float -> spec_float -> spec_float := SFadd 53 1024.
Definition double_ltb : spec_float -> spec_float -> bool := SFltb.

(** The constants 0.0, 0.5, 0.6, 1 and 1.5 of type double. *)
Definition d0 : spec_float := S754_zero false.
Definition d05 : spec_float := S754_finite false 4503599627370496 (-53).
Definition d06 : spec_float := S754_finite false 5404319552844595 (-53).
Definition d1 : spec_float := S754_finite false 4503599627370496 (-52).
Definition d15 : spec_float := S754_finite false 6755399441055744 (-52).

(** Conversions between the formats. *)
Definition round_to (prec emax : Z) (x : spec_float) : spec_float :=
  match x with
  | S754_finite s m e => binary_round prec emax s m e
  | _ => x
  end.
Definition to_float : spec_float -> spec_float := round_to 24 128.
Definition to_double : spec_float -> spec_float := round_to 53 1024.

(** [x += d] for a [float x] and a [double d]. *)
Definition float_add (x d : spec_float) : spec_float := to_float (double_add (to_double x) d).
(** [x > d] *)
Definition float_gtb (x d : spec_float) : bool := double_ltb d (to_double x).

Definition LOOP : Z := 10000000.

(** ** The program *)

(** The points of [main] and of [function], with the variables that matter
    from there on. *)
Inductive point :=
  | M_start
  | M_convert
  | M_converted
  | M_create
  | M_switch1 (new_fiber : Z)
  | M_loop1 (new_fiber counter : Z) (x : spec_float)
  | M_switch2 (new_fiber counter : Z) (x : spec_float)
  | M_loop2 (new_fiber counter : Z) (x : spec_float)
  | M_switch3 (new_fiber : Z)
  | M_loop3 (new_fiber counter : Z)
  | M_switch4 (new_fiber : Z)
  | M_exit
  | F_start (parameters : Z)
  | F_alloc
  | F_set (index : Z)
  | F_get (index : Z)
  | F_loop1 (counter : Z)
  | F_switch1
  | F_loop2 (counter : Z) (x : spec_float)
  | F_switch2 (x : spec_float)
  | F_after2 (x : spec_float)
  | F_loop3 (counter : Z)
  | F_switch3
  | F_exit.

Section MainProgram.
(** The addresses of [function] and of the variable [c]. *)
Context (function_address c_address : Z).

Definition say (s : string) (l : point) : action (L := point) := Print (Line s []) l.

Definition main_act (l : point) : action :=
  match l with
  | M_start => say "Starting main...\n" M_convert
  | M_convert => Call EConvert (fun _ => M_converted)
  | M_converted => say "ConvertThreadToFiber done\n" M_create
  | M_create => Create function_address 6 c_address (fun r => M_switch1 (s32 r))
  | M_switch1 nf => Call (ESwitch nf) (fun _ => M_loop1 nf 0 d0)
  | M_loop1 nf counter x =>
      if counter mod LOOP =? 0
      then Print (Line "bella, %f\n" [ADouble x]) (M_switch2 nf counter (double_add x d05))
      else Tau (M_loop1 nf (s64 (counter + 1)) x)
  | M_switch2 nf counter x => Call (ESwitch nf) (fun _ => M_loop2 nf counter x)
  | M_loop2 nf counter x =>
      if counter mod LOOP =? 0
      then Print (Line "bella, %f\n" [ADouble x]) (M_switch3 nf)
      else Tau (M_loop2 nf (s64 (counter + 1)) x)
  | M_switch3 nf => Call (ESwitch nf) (fun _ => M_loop3 nf 0)
  | M_loop3 nf counter =>
      if counter <? LOOP then say "hilmnopq\n" (M_loop3 nf (s64 (counter + 1))) else Tau (M_switch4 nf)
  | M_switch4 nf => Call (ESwitch nf) (fun _ => M_exit)
  | M_exit => Exit
  | F_start _ => say "Starting function...\n" F_alloc
  | F_alloc => Call (EFls FlsAlloc) F_set
  | F_set index => Call (EFls (FlsSetValue index 123456)) (fun _ => F_get index)
  | F_get index => Call (EFls (FlsGetValue index)) (fun _ => F_loop1 0)
  | F_loop1 counter =>
      if counter mod LOOP =? 0 then say "ciao\n" F_switch1 else Tau (F_loop1 (s64 (counter + 1)))
  | F_switch1 => Call (ESwitch 1) (fun _ => F_loop2 0 d0)
  | F_loop2 counter x =>
      let x := if counter mod LOOP =? 0 then float_add x d05 else x in
      if float_gtb x d1 then Tau (F_switch2 x) else Tau (F_loop2 (s64 (counter + 1)) x)
  | F_switch2 x => Call (ESwitch 1) (fun _ => F_after2 x)
  | F_after2 x =>
      let x := float_add x d06 in
      if float_gtb x d15 then say "bellaaaaaaaaaaa\n" (F_loop3 0) else Tau (F_loop3 0)
  | F_loop3 counter =>
      if counter <? LOOP then say "abcdefg\n" (F_loop3 (s64 (counter + 1))) else Tau F_switch3
  | F_switch3 => Call (ESwitch 1) (fun _ => F_exit)
  | F_exit => Exit
  end.

Definition main_entry (a : Z) : option (Z -> point) :=
  if a =? function_address then Some F_start else None.

#[export] Instance main_program : Program (L := point).
Proof.
  refine {| act := main_act; entry := main_entry; on_signal _ := None; globals := ∅ |}.
  - intros [] fn size param k; simpl; unfold say; repeat case_match; intros; simplify_eq.
    unfold main_entry. by rewrite Z.eqb_refl.
  - intros used. destruct (exist_fresh (used ∪ {[ function_address ]})) as [t Ht].
    exists t. split; [set_solver|]. unfold main_entry. replace (t =? function_address) with false; [done|].
    symmetry. apply Z.eqb_neq. set_solver.
Defined.

(** ** The text it prints *)

Definition by_main : option Z := Some 1.
Definition by_function : option Z := Some 2.

Definition text0 : list (option Z * line) := [(None, Line "Starting main...\n" [])].
Definition text1 := text0 ++ [(by_main, Line "ConvertThreadToFiber done\n" [])].
Definition text2 := text1 ++ [(by_function, Line "Starting function...\n" [])].
Definition text3 := text2 ++ [(by_function, Line "ciao\n" [])].
Definition text4 := text3 ++ [(by_main, Line "bella, %f\n" [ADouble d0])].
Definition text5 := text4 ++ [(by_main, Line "bella, %f\n" [ADouble d05])].
Definition text6 := text5 ++ [(by_function, Line "bellaaaaaaaaaaa\n" [])].
Definition text7 (n : Z) := text6 ++ replicate (Z.to_nat n) (by_function, Line "abcdefg\n" []).
Definition text8 (n : Z) := text7 LOOP ++ replicate (Z.to_nat n) (by_main, Line "hilmnopq\n" []).

Definition main_output : list (option Z * line) := text8 LOOP.

(** ** Where the program can be *)

(** What has been printed at a point. *)
Definition text_at (l : point) : list (option Z * line) :=
  match l with
  | M_start => []
  | M_convert | M_converted => text0
  | M_create | M_switch1 _ | F_start _ => text1
  | F_alloc | F_set _ | F_get _ | F_loop1 _ => text2
  | F_switch1 | M_loop1 _ _ _ => text3
  | M_switch2 _ _ _ | F_loop2 _ _ | F_switch2 _ | M_loop2 _ _ _ => text4
  | M_switch3 _ | F_after2 _ => text5
  | F_loop3 c => text7 c
  | F_switch3 => text7 LOOP
  | M_loop3 _ c => text8 c
  | M_switch4 _ | F_exit | M_exit => text8 LOOP
  end.

(** The value of [x] when the loop of [function] reaches [counter]. *)
Definition x_at (counter : Z) : spec_float :=
  if counter <=? 0 then d0
  else if counter <=? LOOP then S754_finite false 8388608 (-24) else S754_finite false 8388608 (-23).
Definition x_end : spec_float := S754_finite false 12582912 (-23).

(** The continuation of the fiber that does not run. *)
Definition parked (l : point) : point :=
  match l with
  | M_switch1 _ => F_start c_address
  | F_start _ | F_alloc | F_set _ | F_get _ | F_loop1 _ | F_switch1 => M_loop1 2 0 d0
  | M_loop1 _ _ _ | M_switch2 _ _ _ => F_loop2 0 d0
  | F_loop2 _ _ | F_switch2 _ => M_loop2 2 0 d05
  | M_loop2 _ _ _ | M_switch3 _ => F_after2 x_end
  | F_after2 _ | F_loop3 _ | F_switch3 => M_loop3 2 0
  | M_loop3 _ _ | M_switch4 _ => F_exit
  | _ => M_exit
  end.

Definition in_main (l : point) : bool :=
  match l with
  | F_start _ | F_alloc | F_set _ | F_get _ | F_loop1 _ | F_switch1 | F_loop2 _ _ | F_switch2 _
  | F_after2 _ | F_loop3 _ | F_switch3 | F_exit => false
  | _ => true
  end.

(** The values of the variables. *)
Definition locals_ok (l : point) : Prop :=
  match l with
  | M_switch1 nf | M_switch3 nf | M_switch4 nf => nf = 2
  | M_loop1 nf c x => nf = 2 /\ c = 0 /\ x = d0
  | M_switch2 nf c x | M_loop2 nf c x => nf = 2 /\ c = 0 /\ x = d05
  | M_loop3 nf c => nf = 2 /\ 0 <= c <= LOOP
  | F_loop1 c => c = 0
  | F_loop2 c x => 0 <= c <= 2 * LOOP /\ x = x_at c
  | F_switch2 x | F_after2 x => x = x_end
  | F_loop3 c => 0 <= c <= LOOP
  | _ => True
  end.

(** The fibers: none, the one of the thread, or both of them. *)
Definition both (pid : Z) (l : point) (u : ustate (L := point)) : Prop :=
  u.(u_last) = 2 /\ u.(u_running) = {[ pid := if in_main l then 1 else 2 ]} /\
  exists f1 f2, u.(u_fibers) = {[ 1 := f1; 2 := f2 ]} /\
    forall r, (if in_main l then f2 else f1).(u_code) r = parked l.

Definition fibers_ok (pid : Z) (l : point) (u : ustate (L := point)) : Prop :=
  match l with
  | M_start | M_convert => u.(u_last) = 0 /\ u.(u_fibers) = ∅ /\ u.(u_running) = ∅
  | M_converted | M_create =>
      u.(u_last) = 1 /\ u.(u_running) = {[ pid := 1 ]} /\ exists f, u.(u_fibers) = {[ 1 := f ]}
  | _ => both pid l u
  end.

Definition created (l : point) : bool :=
  match l with M_start | M_convert | M_converted | M_create => false | _ => true end.

Definition at_point (pid : Z) (l : point) (u : ustate) : Prop :=
  u.(u_user) = User {[ pid := l ]} (text_at l) ∅ false /\ locals_ok l /\ fibers_ok pid l u.

(** The steps that are left. *)
Definition left (l : point) : Z :=
  match l with
  | M_exit | F_exit => 1
  | M_switch4 _ => 2
  | M_loop3 _ c => LOOP - c + 3
  | F_switch3 => LOOP + 4
  | F_loop3 c => 2 * LOOP - c + 5
  | F_after2 _ => 2 * LOOP + 6
  | M_switch3 _ => 2 * LOOP + 7
  | M_loop2 _ _ _ => 2 * LOOP + 8
  | F_switch2 _ => 2 * LOOP + 9
  | F_loop2 c _ => 4 * LOOP - c + 10
  | M_switch2 _ _ _ => 4 * LOOP + 11
  | M_loop1 _ _ _ => 4 * LOOP + 12
  | F_switch1 => 4 * LOOP + 13
  | F_loop1 _ => 4 * LOOP + 14
  | F_get _ => 4 * LOOP + 15
  | F_set _ => 4 * LOOP + 16
  | F_alloc => 4 * LOOP + 17
  | F_start _ => 4 * LOOP + 18
  | M_switch1 _ => 4 * LOOP + 19
  | M_create => 4 * LOOP + 20
  | M_converted => 4 * LOOP + 21
  | M_convert => 4 * LOOP + 22
  | M_start => 4 * LOOP + 23
  end.

(** *** Steps of the only thread *)

Lemma only_thread pid l u u' :
  at_point pid l u -> fiber_step u u' ->
  (exists v, local_step pid (u.(u_running) !! pid) u.(u_user) l v /\
     u' = UState u.(u_last) u.(u_fibers) u.(u_running) v) \/
  (exists e k, calls l e k /\ fiber_call pid k u e u').
Proof.
  intros (Hu & _ & _) Hs.
  assert (Hq : forall q l1, locals (u_user u) !! q = Some l1 -> q = pid /\ l1 = l).
  { intros q l1. rewrite Hu. simpl. intros [<- <-]%lookup_singleton_Some. done. }
  destruct Hs as [q l1 v Hex Hl Hls|q l1 e k v Hex Hl Hcl Hfc]; destruct (Hq _ _ Hl) as [-> ->]; eauto 10.
Qed.

Lemma step_tau pid l l' u u' :
  at_point pid l u -> main_act l = Tau l' -> fiber_step u u' -> u' = resumes pid l' u.
Proof.
  intros Hat Ha Hs. destruct (only_thread _ _ _ _ Hat Hs) as [(v & Hv & ->)|(e & k & Hc & _)].
  - inversion Hv; simpl in *; simplify_eq; try (rewrite Ha in *; simplify_eq). done.
  - inversion Hc; simpl in *; rewrite Ha in *; simplify_eq.
Qed.

Lemma step_print pid l ln l' u u' :
  at_point pid l u -> main_act l = Print ln l' -> fiber_step u u' ->
  u' = UState u.(u_last) u.(u_fibers) u.(u_running)
         (set_local pid l' (print (u.(u_running) !! pid) ln u.(u_user))).
Proof.
  intros Hat Ha Hs. destruct (only_thread _ _ _ _ Hat Hs) as [(v & Hv & ->)|(e & k & Hc & _)].
  - inversion Hv; simpl in *; simplify_eq; try (rewrite Ha in *; simplify_eq). done.
  - inversion Hc; simpl in *; rewrite Ha in *; simplify_eq.
Qed.

Lemma step_call pid l e k u u' :
  at_point pid l u -> main_act l = Call e k -> fiber_step u u' -> fiber_call pid k u e u'.
Proof.
  intros Hat Ha Hs. destruct (only_thread _ _ _ _ Hat Hs) as [(v & Hv & ->)|(e' & k' & Hc & Hf)].
  - inversion Hv; simpl in *; simplify_eq; rewrite Ha in *; simplify_eq.
  - inversion Hc; simpl in *; rewrite Ha in *; by simplify_eq.
Qed.

Lemma step_create pid l fn size param k u u' :
  at_point pid l u -> main_act l = Create fn size param k -> fiber_step u u' ->
  exists stack, fiber_call pid k u (ECreate stack size fn param) u'.
Proof.
  intros Hat Ha Hs. destruct (only_thread _ _ _ _ Hat Hs) as [(v & Hv & ->)|(e & k' & Hc & Hf)].
  - inversion Hv; simpl in *; simplify_eq; rewrite Ha in *; simplify_eq.
  - inversion Hc; simpl in *; rewrite Ha in *; simplify_eq; eauto.
Qed.

Lemma step_exit pid l u u' :
  at_point pid l u -> main_act l = Exit -> fiber_step u u' ->
  u' = UState u.(u_last) u.(u_fibers) u.(u_running) (leave u.(u_user)).
Proof.
  intros Hat Ha Hs. destruct (only_thread _ _ _ _ Hat Hs) as [(v & Hv & ->)|(e & k & Hc & _)].
  - inversion Hv; simpl in *; simplify_eq; try (rewrite Ha in *; simplify_eq). done.
  - inversion Hc; simpl in *; rewrite Ha in *; simplify_eq.
Qed.

Lemma fibers_ok_both pid l u : created l = true -> fibers_ok pid l u <-> both pid l u.
Proof. by destruct l. Qed.

(** The other fiber does not change while one computes. *)
Lemma both_same pid l l' u v :
  both pid l u -> v.(u_last) = u.(u_last) -> v.(u_fibers) = u.(u_fibers) -> v.(u_running) = u.(u_running) ->
  in_main l' = in_main l -> parked l' = parked l -> both pid l' v.
Proof. unfold both. intros Hb -> -> -> -> ->. exact Hb. Qed.

(** A switch from one fiber to the other. *)
Lemma step_switch pid l l1 id u u' :
  at_point pid l u -> main_act l = Call (ESwitch id) (fun _ => l1) ->
  id = (if in_main l then 2 else 1) -> created l = true -> created (parked l) = true ->
  text_at (parked l) = text_at l -> in_main (parked l) = negb (in_main l) ->
  parked (parked l) = l1 -> locals_ok (parked l) ->
  fiber_step u u' -> at_point pid (parked l) u'.
Proof.
  intros Hat Ha Hid Hcr Hcr' Htext Hin Hpp Hlok Hs. pose proof (step_call _ _ _ _ _ _ Hat Ha Hs) as Hc.
  destruct Hat as (Hu & Hl & Hf). rewrite fibers_ok_both in Hf by done.
  destruct Hf as (Hlast & Hrun & f1 & f2 & Hfib & Hcode).
  assert (Hme : u_running u !! pid = Some (if in_main l then 1 else 2)).
  { rewrite Hrun. apply lookup_singleton_eq. }
  inversion Hc as [| |id0 g0 id' g Hr Hg0 Hg Hp|id0 id' q Hr Hq|id' Hno| | | |]; subst.
  - assert (Hcd : u_code g 0 = parked l).
    { rewrite <- (Hcode 0). rewrite Hfib in Hg. destruct (in_main l); simplify_map_eq; done. }
    rewrite Hcd. split; [|split; [exact Hlok|apply fibers_ok_both; [done|split; [|split]]]].
    + simpl. rewrite Hu. unfold set_local. simpl. rewrite Htext. f_equal. apply insert_singleton_eq.
    + done.
    + simpl. rewrite Hrun, insert_singleton_eq, Hin. by destruct (in_main l).
    + simpl. rewrite Hme in Hr. injection Hr as <-. rewrite Hfib, Hin. destruct (in_main l); simpl.
      * eexists _, _. rewrite insert_insert_eq. split; [reflexivity|]. intros. simpl. congruence.
      * eexists _, _. rewrite (insert_insert_ne _ 2 1) by done. rewrite insert_singleton_eq.
        split; [reflexivity|]. intros. simpl. congruence.
  - rewrite Hrun in Hq. apply lookup_singleton_Some in Hq as [<- Hq]. by destruct (in_main l).
  - destruct Hno as [Hno|Hno]; [congruence|]. rewrite Hfib in Hno. destruct (in_main l); simplify_map_eq.
Qed.

(** Computing and printing. *)
Lemma step_compute pid l l' u u' :
  at_point pid l u -> main_act l = Tau l' -> created l = true -> created l' = true ->
  text_at l' = text_at l -> in_main l' = in_main l -> parked l' = parked l -> locals_ok l' ->
  fiber_step u u' -> at_point pid l' u'.
Proof.
  intros Hat Ha Hc Hc' Ht Hi Hp Hl Hs. rewrite (step_tau _ _ _ _ _ Hat Ha Hs).
  destruct Hat as (Hu & _ & Hf). rewrite fibers_ok_both in Hf by done. split; [|split; [done|]].
  - simpl. rewrite Hu, Ht. unfold set_local. simpl. by rewrite insert_singleton_eq.
  - apply fibers_ok_both; [done|]. by eapply both_same.
Qed.

Lemma step_say pid l ln l' u u' :
  at_point pid l u -> main_act l = Print ln l' -> created l = true -> created l' = true ->
  text_at l' = text_at l ++ [(if in_main l then by_main else by_function, ln)] ->
  in_main l' = in_main l -> parked l' = parked l -> locals_ok l' ->
  fiber_step u u' -> at_point pid l' u'.
Proof.
  intros Hat Ha Hc Hc' Ht Hi Hp Hl Hs. rewrite (step_print _ _ _ _ _ _ Hat Ha Hs).
  destruct Hat as (Hu & _ & Hf). rewrite fibers_ok_both in Hf by done. split; [|split; [done|]].
  - destruct Hf as (_ & Hr & _). simpl. rewrite Hu, Ht, Hr, lookup_singleton_eq. unfold set_local, print. simpl.
    rewrite insert_singleton_eq. by destruct (in_main l).
  - apply fibers_ok_both; [done|]. by eapply both_same.
Qed.

(** Local storage, which [function] uses. *)
Lemma step_fls pid l op k u u' :
  at_point pid l u -> main_act l = Call (EFls op) k -> created l = true -> in_main l = false ->
  (forall r, created (k r) = true /\ text_at (k r) = text_at l /\ in_main (k r) = false /\
     parked (k r) = parked l /\ locals_ok (k r)) ->
  fiber_step u u' -> exists r, at_point pid (k r) u'.
Proof.
  intros Hat Ha Hc Hi Hk Hs. pose proof (step_call _ _ _ _ _ _ Hat Ha Hs) as Hcall.
  destruct Hat as (Hu & _ & Hf). rewrite fibers_ok_both in Hf by done.
  destruct Hf as (Hlast & Hrun & f1 & f2 & Hfib & Hcode). rewrite Hi in *.
  inversion Hcall as [| | | | |op' id f r m Hr Hg Hst| | |op' Hr]; subst;
    rewrite Hrun, lookup_singleton_eq in Hr; [|done]. injection Hr as <-.
  destruct (Hk r) as (Hc' & Ht & Hi' & Hp & Hl). exists r. split; [|split; [done|]].
  - simpl. rewrite Hu, Ht. unfold set_local. simpl. by rewrite insert_singleton_eq.
  - apply fibers_ok_both; [done|]. split; [done|]. rewrite Hi'. split; [done|]. simpl. rewrite Hfib.
    exists f1, (UFiber f.(u_code) m). split; [|by rewrite Hp].
    by rewrite (insert_insert_ne _ 2 1), insert_singleton_eq.
Qed.

Lemma replicate_next {A} (l : list A) x n :
  0 <= n -> l ++ replicate (Z.to_nat (n + 1)) x = (l ++ replicate (Z.to_nat n) x) ++ [x].
Proof.
  intros. replace (Z.to_nat (n + 1)) with (Z.to_nat n + 1)%nat by lia.
  by rewrite replicate_add, app_assoc.
Qed.

Lemma text7_next n : 0 <= n -> text7 (n + 1) = text7 n ++ [(by_function, Line "abcdefg\n" [])].
Proof. exact (replicate_next text6 _ n). Qed.

Lemma text8_next n : 0 <= n -> text8 (n + 1) = text8 n ++ [(by_main, Line "hilmnopq\n" [])].
Proof. exact (replicate_next (text7 LOOP) _ n). Qed.

Lemma text7_first : text7 0 = text5 ++ [(by_function, Line "bellaaaaaaaaaaa\n" [])].
Proof. done. Qed.

Lemma text8_first : text8 0 = text7 LOOP.
Proof. apply app_nil_r. Qed.

(** An iteration of the loop that adds to [x]. *)
Lemma loop_x c :
  0 <= c <= 2 * LOOP ->
  let x := if c mod LOOP =? 0 then float_add (x_at c) d05 else x_at c in
  float_gtb x d1 = (c =? 2 * LOOP) /\ x = if c =? 2 * LOOP then x_end else x_at (c + 1).
Proof.
  intros Hc. assert (HL : 0 < LOOP) by done. unfold x_at.
  destruct (decide (c = 0)) as [->|H0]; [split; by vm_compute|].
  destruct (decide (c = LOOP)) as [->|H1]; [split; by vm_compute|].
  destruct (decide (c = 2 * LOOP)) as [->|H2]; [split; by vm_compute|].
  assert (Hm : c mod LOOP <> 0).
  { intros Hm. apply Z.mod_divide in Hm as [k ->]; [|lia]. assert (0 < k < 2) by nia. assert (k = 1) by lia. lia. }
  rewrite (proj2 (Z.eqb_neq _ _) Hm), !(proj2 (Z.eqb_neq _ _) H2), !(proj2 (Z.leb_gt _ 0)) by lia.
  destruct (Z.leb_spec c LOOP), (Z.leb_spec (c + 1) LOOP); try lia; (split; [by vm_compute|done]).
Qed.

Lemma loops_x c :
  0 <= c <= 2 * LOOP ->
  main_act (F_loop2 c (x_at c)) =
    Tau (if c =? 2 * LOOP then F_switch2 x_end else F_loop2 (c + 1) (x_at (c + 1))).
Proof.
  intros Hc. destruct (loop_x c Hc) as [Hgt Hx]. assert (2 * LOOP < 2 ^ 31) by done. cbn [main_act].
  rewrite Hgt, Hx, s64_small by lia. by destruct (c =? 2 * LOOP).
Qed.

(** Where a step leads. *)
Definition next (pid : Z) (l : point) (u' : ustate) : Prop :=
  exists l', at_point pid l' u' /\ left l = left l' + 1.

Definition finished (pid : Z) (l : point) (u' : ustate (L := point)) : Prop :=
  u'.(u_user) = leave (User {[ pid := l ]} main_output ∅ false) /\ left l = 1.

Ltac computes l' :=
  left; exists l'; split; [eapply (step_compute _ _ l'); first [eassumption | reflexivity | simpl; done]|simpl; lia].
Ltac says l' :=
  left; exists l'; split; [eapply (step_say _ _ _ l'); first [eassumption | reflexivity | simpl; done]|simpl; lia].
Ltac switches l :=
  left; exists (parked l); split; [eapply (step_switch _ l); first [eassumption | reflexivity | simpl; done]|simpl; lia].

(** An iteration of a loop that prints. *)
Lemma prints_on (k : Z -> point) ln e c :
  0 <= c < LOOP ->
  (if c <? LOOP then Print ln (k (s64 (c + 1))) else e) = Print ln (k (c + 1)) /\
  0 <= c + 1 <= LOOP.
Proof.
  intros Hc. assert (LOOP < 2 ^ 31) by done. rewrite (proj2 (Z.ltb_lt _ _)), s64_small by lia. by split; [|lia].
Qed.

#[local] Opaque LOOP text7 text8.

(** Before both fibers are there. *)
Lemma start_step pid l u u' :
  created l = false -> at_point pid l u -> fiber_step u u' -> next pid l u' \/ finished pid l u'.
Proof.
  intros Hcr Hat Hs. pose proof Hat as (Hu & Hl & Hf). destruct l; try done; simpl in Hl, Hf.
  - left. exists M_convert. rewrite (step_print _ _ _ _ _ _ Hat eq_refl Hs). split; [|simpl; lia].
    destruct Hf as (Hl1 & Hf1 & Hr). split; [|done]. simpl. rewrite Hu, Hr, lookup_empty.
    unfold set_local, print. simpl. by rewrite insert_singleton_eq.
  - left. exists M_converted. split; [|simpl; lia]. destruct Hf as (Hl1 & Hf1 & Hr1).
    pose proof (step_call _ _ _ _ _ _ Hat eq_refl Hs) as Hc.
    inversion Hc as [Hn| | | | | |id Hn| |]; subst; [|by rewrite Hr1, lookup_empty in Hn].
    split; [|split; [done|]]; simpl.
    + rewrite Hu. unfold set_local. simpl. by rewrite insert_singleton_eq.
    + rewrite Hl1, Hr1, Hf1. split_and!; [done|done|by eexists].
  - left. exists M_create. rewrite (step_print _ _ _ _ _ _ Hat eq_refl Hs). split; [|simpl; lia].
    destruct Hf as (Hl1 & Hr & Hf1). split; [|done]. simpl. rewrite Hu, Hr, lookup_singleton_eq.
    unfold set_local, print. simpl. by rewrite insert_singleton_eq.
  - left. exists (M_switch1 2). split; [|simpl; lia]. destruct Hf as (Hl1 & Hr1 & f & Hf1).
    destruct (step_create _ _ _ _ _ _ _ _ Hat eq_refl Hs) as [stack Hc].
    inversion Hc as [|? ? ? ? f' id Hr He| | | | | |? ? ? ? Hr|]; subst;
      [|by rewrite Hr1, lookup_singleton_eq in Hr].
    unfold entry in He. simpl in He. unfold main_entry in He. rewrite Z.eqb_refl in He. injection He as <-.
    split; [|split; [done|]]; simpl.
    + rewrite Hu, Hl1. unfold set_local. simpl. by rewrite insert_singleton_eq.
    + unfold both. simpl. rewrite Hl1, Hr1, Hf1. split_and!; [done|done|].
      exists f, (UFiber (fun _ => F_start c_address) ∅). split; [|done].
      by rewrite <- (insert_empty (M := gmap Z) 1 f), insert_insert_ne, insert_empty.
Qed.

Lemma in_main_step pid l u u' :
  created l = true -> in_main l = true -> at_point pid l u -> fiber_step u u' ->
  next pid l u' \/ finished pid l u'.
Proof.
  intros Hcr Hi Hat Hs. pose proof Hat as (Hu & Hl & Hf). assert (HL : 0 < LOOP) by done.
  destruct l as [| | | |nf|nf c x|nf c x|nf c x|nf|nf c|nf| |p| |i|i|c| |c x|x|x|c| |]; try done; simpl in Hl, Hf;
    clear Hi.
  - subst nf. switches (M_switch1 2).
  - destruct Hl as (-> & -> & ->). says (M_switch2 2 0 d05).
  - destruct Hl as (-> & -> & ->). switches (M_switch2 2 0 d05).
  - destruct Hl as (-> & -> & ->). says (M_switch3 2).
  - subst nf. switches (M_switch3 2).
  - destruct Hl as [-> Hc]. destruct (decide (c < LOOP)).
    + destruct (prints_on (M_loop3 2) (Line "hilmnopq\n" []) (Tau (M_switch4 2)) c) as [Ha ?]; [lia|].
      left. exists (M_loop3 2 (c + 1)). split; [|simpl; lia].
      eapply step_say; [exact Hat|exact Ha|done|done|apply text8_next; lia|done|done|done|exact Hs].
    + assert (c = LOOP) as -> by lia. computes (M_switch4 2).
  - subst nf. switches (M_switch4 2).
  - right. rewrite (step_exit _ _ _ _ Hat eq_refl Hs). split; [|done]. simpl. by rewrite Hu.
Qed.

Lemma in_function_step pid l u u' :
  created l = true -> in_main l = false -> at_point pid l u -> fiber_step u u' ->
  next pid l u' \/ finished pid l u'.
Proof.
  intros Hcr Hi Hat Hs. pose proof Hat as (Hu & Hl & Hf). assert (HL : 0 < LOOP) by done.
  destruct l as [| | | |nf|nf c x|nf c x|nf c x|nf|nf c|nf| |p| |i|i|c| |c x|x|x|c| |]; try done; simpl in Hl, Hf;
    clear Hi.
  - says F_alloc.
  - left. destruct (step_fls _ F_alloc _ F_set _ _ Hat eq_refl eq_refl eq_refl ltac:(done) Hs) as [r Hr].
    exists (F_set r). split; [done|simpl; lia].
  - left. destruct (step_fls _ (F_set i) _ _ _ _ Hat eq_refl eq_refl eq_refl ltac:(done) Hs) as [r Hr].
    exists (F_get i). split; [done|simpl; lia].
  - left. destruct (step_fls _ (F_get i) _ _ _ _ Hat eq_refl eq_refl eq_refl ltac:(done) Hs) as [r Hr].
    exists (F_loop1 0). split; [done|simpl; lia].
  - subst c. says F_switch1.
  - switches F_switch1.
  - left. destruct Hl as [Hc ->]. pose proof (loops_x c Hc) as Ha. destruct (Z.eqb_spec c (2 * LOOP)) as [->|].
    + exists (F_switch2 x_end). split; [|simpl; lia]. eapply step_compute; [exact Hat|exact Ha|done..].
    + exists (F_loop2 (c + 1) (x_at (c + 1))). split; [|simpl; lia].
      eapply step_compute; [exact Hat|exact Ha|done..|split; [lia|done]|exact Hs].
  - subst x. switches (F_switch2 x_end).
  - subst x. pose proof text7_first. assert (0 <= 0 <= LOOP) by lia. says (F_loop3 0).
  - destruct (decide (c < LOOP)).
    + destruct (prints_on F_loop3 (Line "abcdefg\n" []) (Tau F_switch3) c) as [Ha ?]; [lia|].
      left. exists (F_loop3 (c + 1)). split; [|simpl; lia].
      eapply step_say; [exact Hat|exact Ha|done|done|apply text7_next; lia|done|done|done|exact Hs].
    + assert (c = LOOP) as -> by lia. computes F_switch3.
  - left. exists (M_loop3 2 0). split; [|simpl; lia].
    eapply (step_switch _ F_switch3); [exact Hat|done..|apply text8_first|done|done|simpl; lia|exact Hs].
  - right. rewrite (step_exit _ _ _ _ Hat eq_refl Hs). split; [|done]. simpl. by rewrite Hu.
Qed.

Lemma main_step pid l u u' :
  at_point pid l u -> fiber_step u u' -> next pid l u' \/ finished pid l u'.
Proof.
  destruct (created l) eqn:Hcr; [|by apply start_step].
  destruct (in_main l) eqn:Hi; [by apply in_main_step|by apply in_function_step].
Qed.

#[local] Transparent text7 text8.

(** ** The behaviour of the program *)

Definition total_steps : Z := 4 * LOOP + 23.

Lemma main_runs n pid u :
  fiber_run n (start_fibers pid M_start) u ->
  (exists l, at_point pid l u /\ left l + Z.of_nat n = total_steps) \/
  (u.(u_user).(exited) = true /\ u.(u_user).(out) = main_output /\ Z.of_nat n = total_steps).
Proof.
  intros Hrun. remember (start_fibers pid M_start) as u0 eqn:Hu0.
  induction Hrun as [u|n u v w _ IH Hs]; subst u.
  - left. exists M_start. by split.
  - destruct (IH eq_refl) as [(l & Hat & Hn)|(Hex & _)].
    + destruct (main_step _ _ _ _ Hat Hs) as [(l' & Hat' & Hl')|[Hw Hl']].
      * left. exists l'. split; [done|lia].
      * right. rewrite Hw. split_and!; [done|done|lia].
    + exfalso. destruct Hs; congruence.
Qed.

Lemma prefix_replicate {A} (l : list A) (x : A) m n :
  (m <= n)%nat -> l ++ replicate m x `prefix_of` l ++ replicate n x.
Proof. intros. apply prefix_app. exists (replicate (n - m) x). rewrite <- replicate_add. f_equal. lia. Qed.

#[local] Opaque LOOP.

Lemma text7_prefix n : n <= LOOP -> text7 n `prefix_of` text7 LOOP.
Proof. intros. apply (prefix_replicate text6 (by_function, Line "abcdefg\n" []) (Z.to_nat n) (Z.to_nat LOOP)).
 lia. Qed.

Lemma text8_prefix n : n <= LOOP -> text8 n `prefix_of` main_output.
Proof. intros. apply (prefix_replicate (text7 LOOP) (by_main, Line "hilmnopq\n" []) (Z.to_nat n) (Z.to_nat LOOP)).
 lia. Qed.

Lemma text6_prefix n : text6 `prefix_of` text7 n.
Proof. by exists (replicate (Z.to_nat n) (by_function, Line "abcdefg\n" [])). Qed.

Lemma text7_end : text7 LOOP `prefix_of` main_output.
Proof. by exists (replicate (Z.to_nat LOOP) (by_main, Line "hilmnopq\n" [])). Qed.

#[local] Opaque text7 text8 main_output.

Lemma text_prefix l : locals_ok l -> text_at l `prefix_of` main_output.
Proof.
  assert (Hearly : forall t, (exists r, text6 = t ++ r) -> t `prefix_of` main_output).
  { intros t [r Hr]. trans text6; [by exists r|]. trans (text7 LOOP); [apply text6_prefix|apply text7_end]. }
  intros Hl. destruct l; simpl in Hl |- *;
    lazymatch goal with
    | |- text7 LOOP `prefix_of` _ => exact text7_end
    | |- text7 _ `prefix_of` _ => trans (text7 LOOP); [apply text7_prefix; lia|exact text7_end]
    | |- text8 _ `prefix_of` _ => apply text8_prefix; lia
    | |- _ => apply Hearly; eexists; reflexivity
    end.
Qed.

Context {K : Kernel} {KOk : KernelOk K} (g : Z).

(** At every point but the last the program can go on. *)
Lemma main_can_step n s pid l u s' c (tk : task) :
  initial s -> 2 * Z.of_nat n + 1 < INT_MAX ->
  @client_run _ _ _ _ (module_service g) n (s, start_client pid M_start) (s', c) ->
  stale_reads = true -> (forall used, is_Some (kmalloc used)) ->
  at_point pid l u -> u.(u_user) = c.(cl_user) ->
  exists y, @client_step _ _ _ _ (module_service g) (s', c) y.
Proof.
  intros Hi Hn Hrun Hst Hmem (Hu & _ & _) Huc. rewrite Hu in Huc.
  assert (Hex : exited (cl_user c) = false) by (by rewrite <- Huc).
  assert (Hl : locals (cl_user c) !! pid = Some l) by (rewrite <- Huc; apply lookup_singleton_eq).
  assert (Hcall : forall e k, calls l e k -> exists y, @client_step _ _ _ _ (module_service g) (s', c) y).
  { intros e k Hc. eapply run_can_call; eauto. }
  assert (Hloc : forall v, local_step pid (module_fiber g s' pid) (cl_user c) l v ->
            exists y, @client_step _ _ _ _ (module_service g) (s', c) y).
  { intros v Hv. eexists. by eapply cs_local. }
  destruct (main_act l) as [| |l'|ln l'|e k|fn size param k| | | | | |] eqn:Ha;
    try (by destruct l; simpl in Ha; unfold say in Ha; repeat case_match).
  - eapply Hloc, ls_exit, Ha.
  - eapply Hloc, ls_tau, Ha.
  - eapply Hloc, ls_print, Ha.
  - eapply Hcall, calls_call; [exact Ha|..];
      by destruct l; simpl in Ha; unfold say in Ha; repeat case_match; simplify_eq.
  - eapply Hcall, (calls_create _ 0 fn size param k), Ha.
Qed.

(** A run on the module that is not too long for the identifiers. *)
Lemma main_on_module n s pid s' c :
  initial s -> 2 * Z.of_nat n + 1 < INT_MAX ->
  @client_run _ _ _ _ (module_service g) n (s, start_client pid M_start) (s', c) ->
  (exists l u, at_point pid l u /\ u.(u_user) = c.(cl_user) /\ left l + Z.of_nat n = total_steps) \/
  (c.(cl_user).(exited) = true /\ c.(cl_user).(out) = main_output /\ Z.of_nat n = total_steps).
Proof.
  intros Hi Hn Hrun.
  destruct (run_continues g n s pid M_start s' c Hi ltac:(lia) Hrun) as (a & u & _ & _ & Hc & Hf).
  pose proof (cn_user _ _ _ _ Hc) as Hu.
  destruct (main_runs _ _ _ Hf) as [(l & Hat & Hleft)|Hend]; [left; by exists l, u|right; by rewrite <- Hu].
Qed.

Lemma total_steps_small n : Z.of_nat n <= total_steps -> 2 * Z.of_nat n + 1 < INT_MAX.
Proof. assert (2 * total_steps + 1 < INT_MAX) by done. lia. Qed.

Lemma left_positive l : locals_ok l -> 0 < left l.
Proof. assert (0 < LOOP) by done. destruct l; simpl; lia. Qed.

Lemma main_ends n s pid s' c :
  initial s -> @client_run _ _ _ _ (module_service g) n (s, start_client pid M_start) (s', c) ->
  Z.of_nat n <= total_steps.
Proof.
  intros Hi Hrun. destruct (decide (Z.of_nat n <= total_steps)) as [|Hgt]; [done|exfalso].
  assert (H0 : 0 <= total_steps) by done.
  destruct (client_run_prefix n (Z.to_nat total_steps) _ _ Hrun) as ([s1 c1] & z & Hrun1 & Hstep); [lia|].
  destruct (main_on_module _ _ _ _ _ Hi (total_steps_small (Z.to_nat total_steps) ltac:(lia)) Hrun1) as [(l & u & Hat & _ & Hl)|(Hex & _)].
  - pose proof (left_positive l (proj1 (proj2 Hat))). lia.
  - inversion Hstep; congruence.
Qed.

(** C32: The program fiberlib/main.c, with a stack that is large enough for its
    fiber (main.c itself gives it 6 bytes).  However it is scheduled, what it has
    printed on the module is at every time the beginning of one text (the
    greeting, the numbers 0.0 and 0.5 that the fiber of [main] adds up, the line
    of [function] that depends on a float, ten million lines of one fiber, then
    ten million of the other); it exits after [total_steps] steps, never earlier,
    and has then printed all of the text; before, it can always go on. *)
Theorem main_terminates n s pid s' c (tk : task) :
  initial s -> @client_run _ _ _ _ (module_service g) n (s, start_client pid M_start) (s', c) ->
  c.(cl_user).(out) `prefix_of` main_output /\ Z.of_nat n <= total_steps /\
  (Z.of_nat n < total_steps -> stale_reads = true -> (forall used, is_Some (kmalloc used)) ->
     exists y, @client_step _ _ _ _ (module_service g) (s', c) y) /\
  (c.(cl_user).(exited) = true <-> Z.of_nat n = total_steps) /\
  (Z.of_nat n = total_steps -> c.(cl_user).(out) = main_output).
Proof.
  intros Hi Hrun. pose proof (main_ends _ _ _ _ _ Hi Hrun) as Hle. pose proof (total_steps_small _ Hle) as Hn.
  destruct (main_on_module _ _ _ _ _ Hi Hn Hrun) as [(l & u & Hat & Hu & Hleft)|(Hex & Hout & Hend)].
  - destruct Hat as (Hl & Hlok & Hf). pose proof (left_positive l Hlok) as Hpos.
    rewrite <- Hu, Hl. split_and!; [by apply text_prefix|done| |split; [done|lia]|lia].
    intros _ Hst Hmem. by apply (main_can_step n s pid l u s' c tk).
  - rewrite Hex, Hout. split_and!; [done|lia|lia|done|done].
Qed.

End MainProgram.

Import Reference.

(** [function] is at 5000 and [c] at 77.  The first ten steps of a run: the
    thread converts itself, makes a fiber and switches to it. *)
Definition first_steps : list (Z * Z) :=
  [(10, 0); (10, 101); (10, 0); (10, 102); (10, 103); (10, 0); (10, 104); (10, 105); (10, 106); (10, 0)].

Lemma main_terminates_witness :
  exists c : client (L := point), c.(cl_user).(out) `prefix_of` main_output /\ length c.(cl_user).(out) = 4%nat.
Proof.
  pose (P := main_program 5000 77).
  computed (client_execs 10 first_steps (boot, start_client 10 M_start)) x Hx. destruct x as [s' c].
  pose proof (client_execs_run 10 _ _ _ Hx) as Hrun. exists c. split.
  - destruct (main_terminates 5000 77 10 _ boot 10 s' c (user_task 10 1) ltac:(repeat split) Hrun) as [H _].
    exact H.
  - apply (fmap_field (fun x => length (x.2).(cl_user).(out)) _ _ _ Hx). vm_compute. reflexivity.
Defined.

Lemma clients_run_continuations_witness :
  exists (c : client) u, @fiber_run _ (main_program 5000 77) 10 (@start_fibers _ (main_program 5000 77) 10 M_start) u /\ u.(u_user) = c.(cl_user) /\
    u.(u_running) !! 10 = Some 2 /\ c.(cl_user).(locals) !! 10 = Some F_switch1.
Proof.
  pose (P := main_program 5000 77).
  computed (client_execs 10 first_steps (boot, start_client 10 M_start)) x Hx. destruct x as [s' c].
  pose proof (client_execs_run 10 _ _ _ Hx) as Hrun.
  destruct (clients_run_continuations 10 10 boot 10 M_start s' c ltac:(repeat split) ltac:(done) Hrun)
    as (u & Hf & Hu & Hr).
  exists c, u. split; [exact Hf|]. split; [exact Hu|]. split.
  - rewrite <- Hr. apply (fmap_field (fun x => module_fiber 10 x.1 10) _ _ _ Hx). vm_compute. reflexivity.
  - apply (fmap_field (fun x => (x.2).(cl_user).(locals) !! 10) _ _ _ Hx). vm_compute. reflexivity.
Defined.
