(* ===== verification/Multithread.v ===== *)
(** * The demonstration program fiberlib/multithread.c

    Nine threads, each of which converts itself and makes a fiber that runs
    [foo]; [foo] switches back to the fiber that made it and then allocates,
    sets, reads and frees a slot of its local storage, for ever.  An alarm
    interrupts any of the threads at any point, and its handler switches to
    fiber 10: fibers move from thread to thread.  [multithread_counts]: every
    fiber still gets slot 0 each time, finds there what it has put there, and
    frees it, so that the values it prints are 0, 1, 2 and so on.

    The points of the program are labels between its statements; a statement
    that reads variables in memory before it prints is a chain of [Eval]s.  The
    alarm may come at any time here, also when the program has not asked for it
    yet and inside its handler: that is more than the program can see.

    A call of the module is one step.  In the module a switch can meet the
    creation of the fiber it asks for ([published_too_early] of Parallel.v): here
    the handler of one thread, which switches to fiber 10, with the call of
    another that creates it.  Such runs of the program are not among those of
    this file. *)

From S2P Require Import Prelude Kernel State CStr Fibers Heap Runs Kprobes Safety Fls Outcome System Views Scenario Exclusion Switching Spec Refinement Client FiberLogic.

Definition NUM_THREADS : Z := 9.

(** [struct thread_info]: two words, at its address and 8 bytes further. *)
Definition data (t : Z) : Z := t.
Definition data2 (t : Z) : Z := t + 8.
Definition thread_info_words : nat := 2.
Definition element (t i : Z) : Z := t + 16 * i.

Inductive point :=
  | Eval (addr : Z) (k : Z -> point)
  | Say (ln : line) (l : point)
  (* main *)
  | M_start
  | M_convert
  | M_info
  | M_for (t_info i : Z)
  | M_create (t_info i : Z)
  | M_signal
  | M_alarm
  | M_join
  (* thread_function *)
  | T_start (t : Z)
  | T_convert (t : Z)
  | T_info (t k : Z)
  | T_data (t k t_info : Z)
  | T_zero (t k t_info : Z)
  | T_create (t t_info : Z)
  | T_data2 (t t_info new_fiber : Z)
  | T_again (t new_fiber : Z)
  (* foo *)
  | F_start (param : Z)
  | F_again (t counter : Z)
  | F_reload (t counter : Z)
  | F_switch (t counter id : Z)
  | F_alloc (t counter : Z)
  | F_test (t counter index : Z)
  | F_set (t counter index : Z)
  | F_get (t counter index : Z)
  | F_free (t counter index res : Z)
  | F_freed (t counter index res : Z) (ok : bool)
  | F_returned (t counter res : Z)
  | F_exit
  (* alarm_handler, which interrupted [l] *)
  | H_start (l : point)
  | H_print (l : point)
  | H_switch (l : point)
  | H_test (l : point) (ret : Z).

Definition index_format : string := "FIBER %d: index given is %ld\n".
Definition cannot_free_format : string := "FIBER %d: cannot free index %ld\n".
Definition returned_format : string := "FIBER %d: returned value %lld\n".

Section Multithread.
Context (foo_address : Z).

Definition multithread_act (l : point) : action :=
  match l with
  | Eval a k => Load a k
  | Say ln l => Print ln l
  | M_start => Print (Line "MAIN: Starting main...\n" []) M_convert
  | M_convert =>
      Call EConvert (fun r =>
        Say (Line "MAIN: ConvertThreadToFiber done, main fiber id %d\n" [AInt (s32 r)]) M_info)
  | M_info => Alloc (Z.to_nat NUM_THREADS * thread_info_words) (fun t_info => M_for t_info 0)
  | M_for t_info i =>
      if i <? NUM_THREADS then Store (data (element t_info i)) i (M_create t_info i) else Tau M_signal
  | M_create t_info i => Spawn (T_start (element t_info i)) (M_for t_info (i + 1))
  | M_signal => Tau M_alarm
  | M_alarm => Tau M_join
  | M_join => Wait
  | T_start t =>
      Load (data t) (fun d => Say (Line "THREAD %ld: Starting thread...\n" [AInt (s64 d)]) (T_convert t))
  | T_convert t =>
      Call EConvert (fun r => Eval (data t) (fun d =>
        Say (Line "THREAD %ld: ConvertThreadToFiber done, fiber id %d\n" [AInt (s64 d); AInt (s32 r)])
          (T_info t (s32 r))))
  | T_info t k => Alloc thread_info_words (T_data t k)
  | T_data t k t_info => Store (data t_info) (u64 k) (T_zero t k t_info)
  | T_zero t k t_info => Store (data2 t_info) 0 (T_create t t_info)
  | T_create t t_info => Create foo_address (2 * 4096) t_info (fun r => T_data2 t t_info (s32 r))
  | T_data2 t t_info new_fiber =>
      Store (data2 t_info) (u64 new_fiber) (Eval (data t) (fun d =>
        Say (Line "THREAD %ld: CreateFiber done, new fiber_id %d\n" [AInt (s64 d); AInt new_fiber])
          (T_again t new_fiber)))
  | T_again t new_fiber =>
      Call (ESwitch new_fiber) (fun _ => Eval (data t) (fun d =>
        Say (Line "THREAD %ld: again on thread\n" [AInt (s64 d)]) (T_again t new_fiber)))
  | F_start param => Tau (F_again param 0)
  | F_again t counter =>
      Load (data2 t) (fun d2 => Eval (data t) (fun d =>
        Say (Line "FIBER %d: old thread %d\n" [AInt (s32 d2); AInt (s32 d)]) (F_reload t counter)))
  | F_reload t counter => Load (data t) (F_switch t counter)
  | F_switch t counter id => Call (ESwitch (s32 id)) (fun _ => F_alloc t counter)
  | F_alloc t counter =>
      Call (EFls FlsAlloc) (fun index => Eval (data2 t) (fun d2 =>
        Say (Line index_format [AInt (s32 d2); AInt index]) (F_test t counter index)))
  | F_test t counter index => if index =? -1 then Tau F_exit else Tau (F_set t counter index)
  | F_set t counter index =>
      Call (EFls (FlsSetValue index counter)) (fun _ => F_get t (s64 (counter + 1)) index)
  | F_get t counter index =>
      Call (EFls (FlsGetValue index)) (fun res => Eval (data2 t) (fun d2 =>
        Say (Line "FIBER %d: trying to free index %ld\n" [AInt (s32 d2); AInt index])
          (F_free t counter index (s64 res))))
  | F_free t counter index res =>
      Call (EFls (FlsFree index)) (fun r => F_freed t counter index res (negb (r =? 0)))
  | F_freed t counter index res ok =>
      if ok then Tau (F_returned t counter res)
      else Load (data2 t) (fun d2 =>
        Say (Line cannot_free_format [AInt (s32 d2); AInt index]) (F_returned t counter res))
  | F_returned t counter res =>
      Load (data2 t) (fun d2 =>
        Say (Line returned_format [AInt (s32 d2); AInt res]) (F_again t counter))
  | F_exit => Exit
  | H_start l => Tau (H_print l)
  | H_print l => Print (Line "ALARM HANDLER: Trying to switch to fiber 10\n" []) (H_switch l)
  | H_switch l => Call (ESwitch 10) (fun r => H_test l (s32 r))
  | H_test l ret =>
      if ret =? -1
      then Print (Line "CANNOT SWITCH TO THREAD 10!!!!!!!!!!!!!!!!!!!!!!!!!!!!!!!!!!!!!!!!!\n" []) l
      else Tau l
  end.

Definition multithread_entry (a : Z) : option (Z -> point) :=
  if a =? foo_address then Some F_start else None.

#[export] Instance multithread_program : Program (L := point).
Proof.
  refine {| act := multithread_act; entry := multithread_entry; on_signal l := Some (H_start l); globals := ∅ |}.
  - intros l fn size param k Ha. destruct l; simpl in Ha; repeat case_match; simplify_eq.
    unfold multithread_entry. by rewrite Z.eqb_refl.
  - intros used. destruct (exist_fresh (used ∪ {[ foo_address ]})) as [t Ht].
    exists t. split; [set_solver|]. unfold multithread_entry.
    replace (t =? foo_address) with false; [done|]. symmetry. apply Z.eqb_neq. set_solver.
Defined.

(** ** What a fiber prints *)

(** The values that it says were returned. *)
Definition returned (o : list line) : list Z :=
  omap (fun ln => if decide (ln.(fmt) = returned_format)
                  then match ln.(args) with [_; AInt v] => Some v | _ => None end else None) o.

#[global] Arguments returned : simpl never.

(** No line reports a failure: the index is 0, and was freed. *)
Definition fine (ln : line) : Prop :=
  ln.(fmt) <> cannot_free_format /\
  (ln.(fmt) = index_format -> exists id, ln.(args) = [id; AInt 0]).

(** ** The assertion about a fiber *)

(** The first [n] values of the counter. *)
Definition counted (n : nat) : list Z := (fun i => s64 (Z.of_nat i)) <$> seq 0 n.

(** A fiber at [l] with storage [m] that has printed the values [r]. *)
Fixpoint fiber_at (l : point) (m : gmap Z Z) (r : list Z) : Prop :=
  match l with
  | Eval _ k => forall v, fiber_at (k v) m r
  | Say ln l => fine ln /\ fiber_at l m (r ++ returned [ln])
  | F_start _ => m = ∅ /\ r = []
  | F_again _ c | F_reload _ c | F_switch _ c _ | F_alloc _ c =>
      m = ∅ /\ exists n, r = counted n /\ c = s64 (Z.of_nat n)
  | F_test _ c index | F_set _ c index =>
      index = 0 /\ exists v n, m = {[ 0 := v ]} /\ r = counted n /\ c = s64 (Z.of_nat n)
  | F_get _ c index =>
      index = 0 /\ exists n, m = {[ 0 := s64 (Z.of_nat n) ]} /\ r = counted n /\ c = s64 (Z.of_nat (S n))
  | F_free _ c index res =>
      index = 0 /\ exists n, m = {[ 0 := s64 (Z.of_nat n) ]} /\ r = counted n /\
        c = s64 (Z.of_nat (S n)) /\ res = s64 (Z.of_nat n)
  | F_freed _ c index res ok =>
      ok = true /\ m = ∅ /\ exists n, r = counted n /\ c = s64 (Z.of_nat (S n)) /\ res = s64 (Z.of_nat n)
  | F_returned _ c res =>
      m = ∅ /\ exists n, r = counted n /\ c = s64 (Z.of_nat (S n)) /\ res = s64 (Z.of_nat n)
  | F_exit => False
  | H_start l | H_print l | H_switch l | H_test l _ => fiber_at l m r
  | _ => r = [] /\ m = ∅
  end.

Definition fiber_ok (l : point) (m : gmap Z Z) (o : list line) : Prop :=
  fiber_at l m (returned o) /\ Forall fine o.

(** A thread that is not a fiber yet. *)
Fixpoint thread_ok (l : point) : Prop :=
  match l with
  | Eval _ k => forall v, thread_ok (k v)
  | Say _ l | H_start l | H_print l | H_switch l | H_test l _ => thread_ok l
  | M_start | M_convert | T_start _ | T_convert _ => True
  | _ => False
  end.

Lemma counted_next n : counted (S n) = counted n ++ [s64 (Z.of_nat n)].
Proof. unfold counted. by rewrite seq_S, fmap_app. Qed.

Lemma counted_small n : Z.of_nat n < INT_MAX -> counted n = seqZ 0 (Z.of_nat n).
Proof.
  intros Hn. unfold counted, seqZ. rewrite Nat2Z.id. apply list_fmap_ext. intros i x Hx.
  apply lookup_seq in Hx as [-> Hi]. rewrite s64_small; lia.
Qed.

Lemma counted_app r x n : r ++ x = counted n -> r = counted (length r).
Proof.
  intros Hn. assert (Hr : r = take (length r) (counted n)) by (by rewrite <- Hn, take_app_length).
  assert (Hlen : (length r <= n)%nat).
  { apply (f_equal length) in Hn. unfold counted in Hn. rewrite length_app, length_fmap, length_seq in Hn. lia. }
  rewrite Hr at 1. unfold counted. rewrite <- fmap_take, take_seq. by rewrite Nat.min_l.
Qed.

Lemma s64_next n : s64 (s64 (Z.of_nat n) + 1) = s64 (Z.of_nat (S n)).
Proof.
  unfold sw. replace (Z.of_nat (S n) + 2 ^ (64 - 1)) with (Z.of_nat n + 2 ^ (64 - 1) + 1) by lia.
  rewrite <- (Zplus_mod_idemp_l (Z.of_nat n + _) 1). do 2 f_equal. lia.
Qed.

Lemma s64_again x : s64 (s64 x) = s64 x.
Proof. apply s64_small. pose proof (sw_range 64 x). lia. Qed.

(** The lines of the other statements. *)
Lemma fine_line f a : f <> cannot_free_format -> f <> index_format -> fine (Line f a).
Proof. intros H1 H2. by split. Qed.

Lemma returned_nothing f a : f <> returned_format -> returned [Line f a] = [].
Proof. intros Hf. unfold returned. simpl. by rewrite decide_False. Qed.

Lemma returned_value a v : returned [Line returned_format [a; AInt v]] = [v].
Proof. reflexivity. Qed.

Lemma fiber_says m r f a l :
  f <> cannot_free_format -> f <> index_format -> f <> returned_format ->
  fiber_at l m r -> fiber_at (Say (Line f a) l) m r.
Proof.
  intros ? ? ? Hl. split; [by apply fine_line|]. by rewrite returned_nothing, app_nil_r.
Qed.

Lemma fiber_evals m r a k : (forall v, fiber_at (k v) m r) -> fiber_at (Eval a k) m r.
Proof. done. Qed.

Ltac says :=
  cbv beta; repeat (apply fiber_evals; intros ?; cbv beta); apply fiber_says; [done|done|done|].

Lemma next_ok l m r mem lns l' mem' :
  fiber_at l m r -> next mem l lns l' mem' -> fiber_at l' m (r ++ returned lns) /\ Forall fine lns.
Proof.
  intros Hl Hn. destruct Hn as [l' Ha|ln l' Ha|l1 l' Ha|n k a vs Ha|a v l' Ha|a k v Ha|a f k v Ha|q k v Ha Hv|l' Ha].
  - rewrite app_nil_r. split; [|done].
    destruct l; simpl in Ha, Hl; repeat case_match; simplify_eq; simpl; try done.
    + destruct Hl as [-> ->]. split; [done|by exists 0%nat].
    + by destruct Hl as [-> _].
    + by destruct Hl.
  - rewrite Forall_singleton.
    destruct l; simpl in Ha, Hl; repeat case_match; simplify_eq; [tauto|..].
    all: rewrite returned_nothing, app_nil_r by done; split; [exact Hl|by apply fine_line].
  - rewrite app_nil_r. split; [|done]. destruct l; simpl in Ha, Hl; repeat case_match; simplify_eq. done.
  - rewrite app_nil_r. split; [|done]. destruct l; simpl in Ha, Hl; repeat case_match; simplify_eq; done.
  - rewrite app_nil_r. split; [|done]. destruct l; simpl in Ha, Hl; repeat case_match; simplify_eq; try done.
    says. exact Hl.
  - rewrite app_nil_r. split; [|done]. destruct l; simpl in Ha, Hl; repeat case_match; simplify_eq; try done.
    + says. exact Hl.
    + says. exact Hl.
    + by destruct Hl.
    + simpl. destruct Hl as (-> & n & -> & -> & ->). split; [by apply fine_line|].
      rewrite returned_value. split; [done|]. exists (S n). by rewrite counted_next.
  - destruct l; simpl in Ha; repeat case_match; simplify_eq.
  - destruct l; simpl in Ha; repeat case_match; simplify_eq.
  - rewrite app_nil_r. split; [|done]. simpl in Ha. by simplify_eq.
Qed.

(** Calls of local storage. *)
Lemma fls_ok l m r op k x m' :
  fiber_at l m r -> act l = Call (EFls op) k -> fls_step op x m m' -> fiber_at (k x) m' r.
Proof.
  intros Hl Ha Hs. destruct l; simpl in Ha, Hl; repeat case_match; simplify_eq.
  - destruct Hl as [-> Hl]. apply fls_step_alloc_inv in Hs as [(Hx & _ & Hlt & v & ->)|(-> & -> & Hfull)].
    + assert (x = 0) as ->.
      { destruct (decide (x = 0)) as [|Hne]; [done|]. destruct (Hlt 0 ltac:(lia)) as [w Hw].
        by rewrite lookup_empty in Hw. }
      intros d. split.
      * split; [done|]. intros _. by eexists.
      * rewrite returned_nothing, app_nil_r by done. split; [done|].
        destruct Hl as (n & -> & ->). by exists v, n.
    + destruct (Hfull 0) as [w Hw]; [done|]. by rewrite lookup_empty in Hw.
  - destruct Hl as (-> & v & n & -> & -> & ->). inversion Hs; simplify_map_eq.
    split; [done|]. exists n. rewrite insert_singleton_eq, s64_next. done.
  - destruct Hl as (-> & n & -> & -> & ->). says. inversion Hs; simplify_map_eq.
    split; [done|]. exists n. rewrite s64_again. done.
  - destruct Hl as (-> & n & -> & -> & -> & ->). inversion Hs; simplify_map_eq.
    split; [done|]. rewrite delete_singleton_eq. split; [done|]. by exists n.
Qed.

Lemma fiber_ok_next l m o mem lns l' mem' :
  fiber_ok l m o -> next mem l lns l' mem' -> fiber_ok l' m (o ++ lns).
Proof.
  intros [Hl Ho] Hn. destruct (next_ok _ _ _ _ _ _ _ Hl Hn) as [Hl' Hf]. split.
  - unfold returned in *. by rewrite omap_app.
  - by apply Forall_app.
Qed.

Lemma thread_ok_next l mem lns l' mem' : thread_ok l -> next mem l lns l' mem' -> thread_ok l'.
Proof.
  intros Hl Hn. destruct Hn as [l' Ha|ln l' Ha|l1 l' Ha|n k a vs Ha|a v l' Ha|a k v Ha|a f k v Ha|q k v Ha Hv|l' Ha];
    destruct l; simpl in Ha, Hl; repeat case_match; simplify_eq; done.
Qed.

#[export] Instance multithread_logic : FiberLogic fiber_ok thread_ok.
Proof.
  split.
  - exact fiber_ok_next.
  - intros l m o k Hl Ha. destruct l; simpl in Ha; repeat case_match; simplify_eq.
    + destruct Hl as [Hl Ho]. split; [|done]. simpl in Hl. says. destruct Hl as [Hl ->]. done.
    + destruct Hl as [Hl Ho]. split; [|done]. simpl in Hl. says. destruct Hl as [Hl ->]. done.
  - intros l m o fn size param k r [Hl Ho] Ha. destruct l; simpl in Ha; repeat case_match; simplify_eq.
    by split.
  - intros l m o fn size param k f [Hl Ho] Ha He. destruct l; simpl in Ha; repeat case_match; simplify_eq.
    unfold entry in He. simpl in He. unfold multithread_entry in He. rewrite Z.eqb_refl in He. simplify_eq.
    by split.
  - intros l m o id k r [Hl Ho] Ha _. split; [|done].
    destruct l; simpl in Ha; repeat case_match; simplify_eq; [|done..].
    says. exact Hl.
  - intros l m o op k r m' [Hl Ho] Ha Hs. split; [|done]. by eapply fls_ok.
  - apply thread_ok_next.
  - intros l l1 l' Ha. destruct l; simpl in Ha; repeat case_match; simplify_eq. done.
  - intros l k r Hl Ha. destruct l; simpl in Ha, Hl; repeat case_match; simplify_eq; (split; [|done]); by says.
  - intros l fn size param k Hl Ha. destruct l; simpl in Ha, Hl; repeat case_match; simplify_eq; done.
  - intros l id k Hl Ha. destruct l; simpl in Ha, Hl; repeat case_match; simplify_eq; done.
  - intros l op k Hl Ha. destruct l; simpl in Ha, Hl; repeat case_match; simplify_eq; done.
Qed.

(** ** The behaviour of the program *)

Lemma fiber_at_counted l m r : fiber_at l m r -> exists n, r = counted n.
Proof.
  revert m r. induction l as [a k IH|ln l IH| | | | | | | | | | | | | | | | | | | | | | | | | | | |
    |l IH|l IH|l IH|l IH ret]; intros m r Hl; simpl in Hl;
    try (by apply (IH 0 m)); try (by apply (IH m)); try (by destruct Hl; exists 0%nat);
    try (by repeat (destruct Hl as [? Hl]); subst; eexists).
  destruct Hl as [_ [n Hn]%IH]. exists (length r). by eapply counted_app.
Qed.

(** No thread leaves the program. *)
Lemma never_exits n pid u : fiber_run n (start_fibers pid M_start) u -> u.(u_user).(exited) = false.
Proof.
  intros Hrun. remember (start_fibers pid M_start) as u0 eqn:Hu0.
  induction Hrun as [u|n u v w Hrun IH Hs]; subst u; [done|].
  pose proof (fiber_logic_sound fiber_ok thread_ok n pid M_start v Logic.I Hrun) as Hh.
  specialize (IH eq_refl). destruct Hs as [q l u' Hex Hl Hs|q l e k u' Hex Hl Hc Hs].
  - destruct Hs as [l Ha| | | | | | | | |]; try done. exfalso.
    pose proof (h_thread _ _ _ _ _ (proj1 Hh) _ _ ltac:(done) Hl) as Ht. unfold thread_holds in Ht.
    destruct (u_running v !! q).
    + destruct Ht as (f & _ & Ht & _). destruct l; simpl in Ha, Ht; repeat case_match; done.
    + destruct l; simpl in Ha, Ht; repeat case_match; done.
  - by destruct Hs.
Qed.

(** A step prints a line at most. *)
Lemma out_length n pid u : fiber_run n (start_fibers pid M_start) u -> (length u.(u_user).(out) <= n)%nat.
Proof.
  intros Hrun. remember (start_fibers pid M_start) as u0 eqn:Hu0.
  induction Hrun as [u|n u v w Hrun IH Hs]; subst u; [done|]. specialize (IH eq_refl).
  destruct Hs as [q l u' Hex Hl Hs|q l e k u' Hex Hl Hc Hs].
  - destruct Hs; simpl; rewrite ?length_app; simpl; lia.
  - destruct Hs; simpl; lia.
Qed.

Lemma returned_length id (u : user (L := point)) :
  (length (returned (printed id u)) <= length u.(out))%nat.
Proof. unfold returned, printed. etrans; apply length_omap_le. Qed.

Context {K : Kernel} {KOk : KernelOk K} (g : Z).

(** C33: The program fiberlib/multithread.c.  On the module, with its calls
    taken as atomic, whatever the order in which its threads run, wherever the
    alarm interrupts them and on whatever threads the fibers come to run: the
    program does not exit, the values that a fiber prints as returned by
    FlsGetValue are 0, 1, 2 and so on without gap, every FlsAlloc has given it the
    index 0, and no FlsFree has failed.  An alarm that switches to fiber 10 inside
    the call that creates it is not covered: see [published_too_early]. *)
Theorem multithread_counts n s pid s' c :
  initial s -> 2 * Z.of_nat n < INT_MAX ->
  @client_run _ _ _ _ (module_service g) n (s, start_client pid M_start) (s', c) ->
  c.(cl_user).(exited) = false /\
  forall id, (exists k, returned (printed id c.(cl_user)) = seqZ 0 k) /\
    forall ln, ln ∈ printed id c.(cl_user) ->
      ln.(fmt) <> cannot_free_format /\
      (ln.(fmt) = index_format -> exists a, ln.(args) = [a; AInt 0]).
Proof.
  intros Hi Hn Hrun.
  destruct (run_continues g n s pid M_start s' c Hi Hn Hrun) as (a & u & _ & _ & Hc & Hf).
  rewrite <- (cn_user _ _ _ _ Hc). split; [by eapply never_exits|]. intros id.
  pose proof (fiber_logic_sound fiber_ok thread_ok n pid M_start u Logic.I Hf) as Hh.
  destruct (decide (printed id (u_user u) = [])) as [->|Hne].
  { split; [by exists 0|]. by intros ln Hin%elem_of_nil. }
  destruct (holds_printed _ _ _ _ _ _ Hh Hne) as (l & m & Hl & Hfine).
  split; [|intros ln Hin; by rewrite Forall_forall in Hfine; apply Hfine].
  apply fiber_at_counted in Hl as [k Hk]. exists (Z.of_nat k). rewrite Hk. apply counted_small.
  pose proof (returned_length id (u_user u)) as Hlen. rewrite Hk in Hlen. unfold counted in Hlen.
  rewrite length_fmap, length_seq in Hlen. pose proof (out_length _ _ _ Hf). lia.
Qed.

End Multithread.

Import Reference.

(** [foo] is at the address 77.  Thread 10 runs [main] until it has made thread
    11, which runs [thread_function] and then [foo] once. *)
Definition first_round : list (Z * Z) :=
  imap (fun i pid => (pid, 1000 * (Z.of_nat i + 1))) (replicate 5 10) ++ [(10, 11)] ++
  imap (fun i pid => (pid, 1000 * (Z.of_nat i + 7))) (replicate 34 11).

Lemma multithread_counts_witness :
  exists c : client (L := point),
    returned (printed 3 c.(cl_user)) = [0] /\ c.(cl_user).(exited) = false /\
    exists k, returned (printed 3 c.(cl_user)) = seqZ 0 k.
Proof.
  pose (P := multithread_program 77).
  computed (client_execs 10 first_round (boot, start_client 10 M_start)) x Hx. destruct x as [s' c].
  pose proof (client_execs_run 10 _ _ _ Hx) as Hrun. exists c.
  destruct (multithread_counts 77 10 40 boot 10 s' c ltac:(repeat split) ltac:(done) Hrun) as [Hex Hall].
  split; [|split; [exact Hex|exact (proj1 (Hall 3))]].
  apply (fmap_field (fun x => returned (printed 3 (x.2).(cl_user))) _ _ _ Hx). vm_compute. reflexivity.
Defined.
