(* ===== verification/UserMem.v ===== *)
(** * User memory

    The memory of the process that calls the module, as the kernel services
    [access_ok], [copy_from_user] and [copy_to_user] see it, and the layout of
    integers and of [struct fiber_arguments] in it (little endian, 64 bits).
    [UserAccess] is the interface to the services and [UserAccessOk] their
    documented behaviour. *)

From S2P Require Import Prelude Kernel.

(** Bytes of memory are integers from 0 to 255. *)
Abbreviation bytes := (list Z).

Class UserAccess (K : Kernel) : Type := {
  (** The byte at an address, when the address is mapped. *)
  user_byte : user_mem -> Z -> option Z;
  (** [access_ok(VERIFY_READ, addr, size)]: the range is below the limit of the
      addresses of user space. *)
  access_ok : Z -> Z -> bool;
  (** The bytes read, or [None] where the call reports bytes it did not copy. *)
  copy_from_user : user_mem -> Z -> Z -> option bytes;
  (** The memory after the call, and the number of bytes not copied. *)
  copy_to_user : user_mem -> Z -> bytes -> user_mem * Z
}.

Class UserAccessOk (K : Kernel) (U : UserAccess K) : Prop := {
  copy_from_user_Some m a n bs :
    0 <= n ->
    copy_from_user m a n = Some bs <->
    Z.of_nat (length bs) = n /\
    forall i, 0 <= i < n -> user_byte m (a + i) = bs !! Z.to_nat i;
  copy_to_user_mapped m a bs :
    (forall i, 0 <= i < Z.of_nat (length bs) -> is_Some (user_byte m (a + i))) ->
    (copy_to_user m a bs).2 = 0;
  copy_to_user_unmapped m a bs i :
    0 <= i < Z.of_nat (length bs) -> user_byte m (a + i) = None -> (copy_to_user m a bs).2 <> 0;
  copy_to_user_done m a bs i :
    (copy_to_user m a bs).2 = 0 -> 0 <= i < Z.of_nat (length bs) ->
    user_byte (copy_to_user m a bs).1 (a + i) = bs !! Z.to_nat i;
  copy_to_user_other m a bs b :
    ~ (a <= b < a + Z.of_nat (length bs)) ->
    user_byte (copy_to_user m a bs).1 b = user_byte m b
}.

(** ** Little endian integers *)

(** The [n] low bytes of [x], the lowest first. *)
Fixpoint le_bytes (n : nat) (x : Z) : bytes :=
  match n with
  | O => []
  | S n' => x mod 256 :: le_bytes n' (x / 256)
  end.

(** The number [bs] stands for. *)
Fixpoint le_value (bs : bytes) : Z :=
  match bs with
  | [] => 0
  | b :: bs' => b + 256 * le_value bs'
  end.

Lemma le_bytes_length n x : length (le_bytes n x) = n.
Proof. revert x. induction n; intros; simpl; auto. Qed.

Lemma le_value_bytes n x : le_value (le_bytes n x) = x mod 2 ^ (8 * Z.of_nat n).
Proof.
  revert x. induction n as [|n IH]; intros x.
  - simpl. by rewrite Z.mod_1_r.
  - cbn [le_bytes le_value]. rewrite IH.
    replace (8 * Z.of_nat (S n)) with (8 + 8 * Z.of_nat n) by lia.
    rewrite Z.pow_add_r by lia. change (2 ^ 8) with 256.
    symmetry. apply Z.rem_mul_r; [lia|]. apply Z.pow_pos_nonneg; lia.
Qed.

Lemma le_u64 x : le_value (le_bytes 8 x) = u64 x.
Proof. apply (le_value_bytes 8). Qed.

Lemma le_u32 x : le_value (le_bytes 4 x) = u32 x.
Proof. apply (le_value_bytes 4). Qed.

(** Conversion to a signed type sees only the low bits. *)
Lemma sw_uw w x : 0 <= w -> sw w (uw w x) = sw w x.
Proof. intros. unfold sw, uw. by rewrite Zplus_mod_idemp_l. Qed.

Lemma s64_u64 x : s64 (u64 x) = s64 x.
Proof. apply (sw_uw 64). done. Qed.

(** ** [struct fiber_arguments] *)

(** The fields as they are used: [fiber_id] is a [pid_t]; the others are 64-bit
    words, which the kernel reads as unsigned, as the signed [long index] and
    [long long buffer], or as addresses. *)
Record fiber_arguments := FiberArguments {
  fa_stack_pointer : Z;
  fa_stack_size : Z;
  fa_start_function_address : Z;
  fa_start_function_arguments : Z;
  fa_fiber_id : Z;
  fa_index : Z;
  fa_buffer : Z
}.

Definition sizeof_fiber_arguments : Z := 56.

(** The bytes of the structure, with four bytes of padding after [fiber_id]. *)
Definition encode_arguments (fa : fiber_arguments) : bytes :=
  le_bytes 8 fa.(fa_stack_pointer) ++ le_bytes 8 fa.(fa_stack_size) ++
  le_bytes 8 fa.(fa_start_function_address) ++ le_bytes 8 fa.(fa_start_function_arguments) ++
  le_bytes 4 fa.(fa_fiber_id) ++ le_bytes 4 0 ++
  le_bytes 8 fa.(fa_index) ++ le_bytes 8 fa.(fa_buffer).

Definition field (offset size : nat) (bs : bytes) : Z := le_value (take size (drop offset bs)).

(** The structure the kernel finds in these bytes. *)
Definition decode_arguments (bs : bytes) : fiber_arguments :=
  FiberArguments (field 0 8 bs) (field 8 8 bs) (field 16 8 bs) (field 24 8 bs)
    (s32 (field 32 4 bs)) (s64 (field 40 8 bs)) (s64 (field 48 8 bs)).

Lemma encode_arguments_length fa : length (encode_arguments fa) = 56%nat.
Proof. unfold encode_arguments. rewrite !length_app, !le_bytes_length. done. Qed.

Lemma decode_encode fa :
  decode_arguments (encode_arguments fa) =
    FiberArguments (u64 fa.(fa_stack_pointer)) (u64 fa.(fa_stack_size))
      (u64 fa.(fa_start_function_address)) (u64 fa.(fa_start_function_arguments))
      (s32 fa.(fa_fiber_id)) (s64 fa.(fa_index)) (s64 fa.(fa_buffer)).
Proof.
  unfold decode_arguments, encode_arguments, field.
  rewrite <- (sw_uw 32 fa.(fa_fiber_id)), <- (sw_uw 64 fa.(fa_index)), <- (sw_uw 64 fa.(fa_buffer)) by done.
  rewrite <- !le_u64, <- le_u32. done.
Qed.

(** ** A reference instance: a partial map from addresses to bytes *)

Fixpoint read_bytes (m : gmap Z Z) (a : Z) (n : nat) : option bytes :=
  match n with
  | O => Some []
  | S n' => b ← m !! a; bs ← read_bytes m (a + 1) n'; Some (b :: bs)
  end.

Fixpoint write_bytes (m : gmap Z Z) (a : Z) (bs : bytes) : gmap Z Z * Z :=
  match bs with
  | [] => (m, 0)
  | b :: bs' => match m !! a with
                | Some _ => write_bytes (<[a := b]> m) (a + 1) bs'
                | None => (m, Z.of_nat (length bs))
                end
  end.

#[export] Instance reference_access : UserAccess Reference.kernel := {
  user_byte (m : gmap Z Z) a := m !! a;
  access_ok a n := a + n <=? 2 ^ 47;
  copy_from_user (m : gmap Z Z) a n := read_bytes m a (Z.to_nat n);
  copy_to_user (m : gmap Z Z) a bs := write_bytes m a bs
}.

Lemma read_bytes_Some m a n bs :
  read_bytes m a n = Some bs <->
  length bs = n /\ forall i, 0 <= i < Z.of_nat n -> m !! (a + i) = bs !! Z.to_nat i.
Proof.
  revert a bs. induction n as [|n IH]; intros a bs; simpl.
  - split; [intros [= <-]; split; [done|lia]|]. intros [Hl _]. by destruct bs.
  - destruct (m !! a) as [b|] eqn:Hb; simpl.
    2: { split; [done|]. intros [Hl Hi]. specialize (Hi 0 ltac:(lia)). rewrite Z.add_0_r, Hb in Hi.
         by destruct bs. }
    split.
    + destruct (read_bytes m (a + 1) n) as [bs'|] eqn:Hr; [|done]. simpl. intros [= <-].
      apply IH in Hr as [Hl Hi]. split; [simpl; by rewrite Hl|]. intros i Hin.
      destruct (decide (i = 0)) as [->|]; [by rewrite Z.add_0_r, Hb|].
      replace (a + i) with (a + 1 + (i - 1)) by lia. rewrite Hi by lia.
      replace (Z.to_nat i) with (S (Z.to_nat (i - 1))) by lia. done.
    + intros [Hl Hi]. destruct bs as [|b' bs']; [done|].
      assert (b' = b) as ->.
      { specialize (Hi 0 ltac:(lia)). rewrite Z.add_0_r, Hb in Hi. simpl in Hi. congruence. }
      rewrite (proj2 (IH (a + 1) bs')); [done|]. split; [simpl in Hl; lia|]. intros i Hin.
      replace (a + 1 + i) with (a + (i + 1)) by lia. rewrite Hi by lia.
      by replace (Z.to_nat (i + 1)) with (S (Z.to_nat i)) by lia.
Qed.

Lemma write_bytes_before m a bs b :
  ~ (a <= b < a + Z.of_nat (length bs)) -> (write_bytes m a bs).1 !! b = m !! b.
Proof.
  revert m a. induction bs as [|c bs IH]; intros m a Hb; simpl in *; [done|].
  destruct (m !! a) eqn:Ha; [|done]. rewrite IH by lia. rewrite lookup_insert_ne by lia. done.
Qed.

Lemma write_bytes_done m a bs i :
  (write_bytes m a bs).2 = 0 -> 0 <= i < Z.of_nat (length bs) ->
  (write_bytes m a bs).1 !! (a + i) = bs !! Z.to_nat i.
Proof.
  revert m a i. induction bs as [|c bs IH]; intros m a i H0 Hi; simpl in *; [lia|].
  destruct (m !! a) eqn:Ha; [|simpl in H0; lia].
  destruct (decide (i = 0)) as [->|].
  - rewrite write_bytes_before by lia. rewrite Z.add_0_r, lookup_insert_eq. done.
  - replace (a + i) with (a + 1 + (i - 1)) by lia. rewrite IH by (done || lia).
    by replace (Z.to_nat i) with (S (Z.to_nat (i - 1))) by lia.
Qed.

Lemma write_bytes_result m a bs :
  (write_bytes m a bs).2 = 0 <->
  forall i, 0 <= i < Z.of_nat (length bs) -> is_Some (m !! (a + i)).
Proof.
  revert m a. induction bs as [|c bs IH]; intros m a; simpl.
  - split; [intros _ i; lia|done].
  - destruct (m !! a) as [x|] eqn:Ha; simpl.
    + rewrite IH. split.
      * intros Hall i Hi. destruct (decide (i = 0)) as [->|]; [rewrite Z.add_0_r, Ha; eauto|].
        specialize (Hall (i - 1) ltac:(lia)). replace (a + 1 + (i - 1)) with (a + i) in Hall by lia.
        by rewrite lookup_insert_ne in Hall by lia.
      * intros Hall i Hi. rewrite lookup_insert_ne by lia.
        replace (a + 1 + i) with (a + (i + 1)) by lia. apply Hall. lia.
    + split; [lia|]. intros Hall. destruct (Hall 0) as [y Hy]; [lia|]. rewrite Z.add_0_r in Hy. congruence.
Qed.

#[export] Instance reference_access_ok : UserAccessOk Reference.kernel reference_access.
Proof.
  split; simpl.
  - intros m a n bs Hn. rewrite read_bytes_Some. split; intros [Hl Hi]; (split; [lia|]);
      intros i Hin; apply Hi; lia.
  - intros m a bs. apply write_bytes_result.
  - intros m a bs i Hi Hnone Hres. rewrite write_bytes_result in Hres.
    destruct (Hres i Hi) as [x Hx]. unfold user_mem in *. simpl in *. congruence.
  - intros m a bs i. apply write_bytes_done.
  - intros m a bs b. apply write_bytes_before.
Qed.
