(* ===== verification/Ioctl.v ===== *)
(** * The system call

    [module/ioctl.c]: the command numbers, the message that publishes them, and
    [fibers_ioctl], which decodes the arguments in user memory and calls the
    handler of the command for the running task. *)

From S2P Require Import Prelude Kernel State CStr Fibers Heap Runs Kprobes Safety Fls Outcome System Scenario Switching UserMem.

Definition MESSAGE_MAX_LEN : Z := 256.
Definition EFAULT : Z := 14.
Definition EINVAL : Z := 22.

(** [_IO(type, nr)] of the kernel headers. *)
Class IoctlCodes : Type := { IO : Z -> Z -> Z }.

(** Different commands of a device have different codes, and the code of a
    device number below 2^12 is a positive [int]. *)
Class IoctlCodesOk (C : IoctlCodes) : Prop := {
  IO_inj major nr nr' : 0 <= nr < 256 -> 0 <= nr' < 256 -> IO major nr = IO major nr' -> nr = nr';
  IO_range major nr : 0 <= major < 2 ^ 12 -> 0 <= nr < 256 -> 0 <= IO major nr < 2 ^ 31
}.

(** Codes of commands without arguments: the type above eight bits of number. *)
#[export] Instance reference_codes : IoctlCodes := { IO major nr := major * 256 + nr }.

#[export] Instance reference_codes_ok : IoctlCodesOk reference_codes.
Proof. split; simpl; lia. Qed.

Section Ioctl.
Context {K : Kernel} {U : UserAccess K} {C : IoctlCodes}.

(** [ioctl.h] *)
Definition IOCTL_CONVERT_THREAD_TO_FIBER (major : Z) : Z := IO major 0.
Definition IOCTL_CREATE_FIBER (major : Z) : Z := IO major 1.
Definition IOCTL_SWITCH_TO_FIBER (major : Z) : Z := IO major 2.
Definition IOCTL_FLS_ALLOC (major : Z) : Z := IO major 3.
Definition IOCTL_FLS_FREE (major : Z) : Z := IO major 4.
Definition IOCTL_FLS_GETVALUE (major : Z) : Z := IO major 5.
Definition IOCTL_FLS_SETVALUE (major : Z) : Z := IO major 6.

Definition line (n : Z) : cstring := format_ld n ++ [NL].

(** The message left in [string_message]. *)
Definition publish_ioctl_message (major : Z) : cstring :=
  snprintf MESSAGE_MAX_LEN
    (line (IOCTL_CONVERT_THREAD_TO_FIBER major) ++ line (IOCTL_CREATE_FIBER major) ++
     line (IOCTL_SWITCH_TO_FIBER major) ++ line (IOCTL_FLS_ALLOC major) ++
     line (IOCTL_FLS_FREE major) ++ line (IOCTL_FLS_GETVALUE major) ++
     line (IOCTL_FLS_SETVALUE major)).

(** The check and the copy every command with arguments starts with. *)
Definition read_arguments (arg : Z) : kM (option fiber_arguments) :=
  if negb (access_ok arg sizeof_fiber_arguments) then mret None
  else
    let! m := mreads umem in
    match copy_from_user m arg sizeof_fiber_arguments with
    | None => mret None
    | Some bs => mret (Some (decode_arguments bs))
    end.

Definition fibers_ioctl (major cmd arg : Z) : kM Z :=
  let! thread_id := current_pid in
  if cmd =? IOCTL_CONVERT_THREAD_TO_FIBER major then
    do_ConvertThreadToFiber thread_id
  else if cmd =? IOCTL_CREATE_FIBER major then
    let! o := read_arguments arg in
    match o with
    | None => mret (- EFAULT)
    | Some fa =>
        do_CreateFiber fa.(fa_stack_pointer) fa.(fa_stack_size)
          fa.(fa_start_function_address) fa.(fa_start_function_arguments) thread_id
    end
  else if cmd =? IOCTL_SWITCH_TO_FIBER major then
    let! o := read_arguments arg in
    match o with
    | None => mret (- EFAULT)
    | Some fa => do_SwitchToFiber fa.(fa_fiber_id) thread_id
    end
  else if cmd =? IOCTL_FLS_ALLOC major then
    do_FlsAlloc thread_id
  else if cmd =? IOCTL_FLS_FREE major then
    let! o := read_arguments arg in
    match o with
    | None => mret (- EFAULT)
    | Some fa => let! b := do_FlsFree fa.(fa_index) thread_id in mret (Z.b2z b)
    end
  else if cmd =? IOCTL_FLS_GETVALUE major then
    let! o := read_arguments arg in
    match o with
    | None => mret (- EFAULT)
    | Some fa =>
        let! ret := do_FlsGetValue fa.(fa_index) thread_id in
        let! m := mreads umem in
        let (m', left) := copy_to_user m (u64 fa.(fa_buffer)) (le_bytes 8 ret) in
        do! mmodify (set_umem m');
        if left =? 0 then mret 0 else mret (- EFAULT)
    end
  else if cmd =? IOCTL_FLS_SETVALUE major then
    let! o := read_arguments arg in
    match o with
    | None => mret (- EFAULT)
    | Some fa => do! do_FlsSetValue fa.(fa_index) fa.(fa_buffer) thread_id; mret 0
    end
  else mret (- EINVAL).

(** ** The commands as a table *)

(** The event command [nr] with arguments [fa] stands for; [FLS_GETVALUE]
    returns its result in memory and is apart. *)
Definition request (nr : Z) (fa : fiber_arguments) : option event :=
  match nr with
  | 0 => Some EConvert
  | 1 => Some (ECreate fa.(fa_stack_pointer) fa.(fa_stack_size)
                 fa.(fa_start_function_address) fa.(fa_start_function_arguments))
  | 2 => Some (ESwitch fa.(fa_fiber_id))
  | 3 => Some (EFls FlsAlloc)
  | 4 => Some (EFls (FlsFree fa.(fa_index)))
  | 6 => Some (EFls (FlsSetValue fa.(fa_index) fa.(fa_buffer)))
  | _ => None
  end.

(** Commands that read the structure. *)
Definition has_arguments (nr : Z) : bool := negb ((nr =? 0) || (nr =? 3)).

(** The structure user memory holds at [arg], when it can be read. *)
Definition arguments_at (m : user_mem) (arg : Z) : option fiber_arguments :=
  if access_ok arg sizeof_fiber_arguments then
    decode_arguments <$> copy_from_user m arg sizeof_fiber_arguments
  else None.

Lemma read_arguments_run arg s :
  read_arguments arg s = Some (arguments_at s.(umem) arg, s).
Proof.
  unfold read_arguments, arguments_at. destruct (access_ok arg _); simpl; [|done].
  unfold mthen, mreads. by destruct (copy_from_user _ _ _).
Qed.

Context {COk : IoctlCodesOk C}.

Lemma IO_eqb major nr nr' :
  0 <= nr < 256 -> 0 <= nr' < 256 -> (IO major nr =? IO major nr') = (nr =? nr').
Proof.
  intros H H'. destruct (Z.eqb_spec nr nr') as [->|Hne]; [apply Z.eqb_refl|].
  apply Z.eqb_neq. intros Heq. by apply Hne, (IO_inj major).
Qed.

(** The comparisons of [fibers_ioctl] with the code of command [nr]. *)
Ltac ioctl_branch :=
  unfold fibers_ioctl, IOCTL_CONVERT_THREAD_TO_FIBER, IOCTL_CREATE_FIBER, IOCTL_SWITCH_TO_FIBER,
    IOCTL_FLS_ALLOC, IOCTL_FLS_FREE, IOCTL_FLS_GETVALUE, IOCTL_FLS_SETVALUE;
  rewrite ?IO_eqb by lia; unfold current_pid; rewrite mthen_reads; cbn [Z.eqb Pos.eqb];
  try (erewrite mthen_eq by apply read_arguments_run).

Lemma fibers_ioctl_run major nr arg s fa e :
  request nr fa = Some e ->
  has_arguments nr = false \/ arguments_at s.(umem) arg = Some fa ->
  fibers_ioctl major (IO major nr) arg s = run_event e s.
Proof.
  intros Hreq Harg. rewrite run_event_eq.
  assert (nr = 0 \/ nr = 1 \/ nr = 2 \/ nr = 3 \/ nr = 4 \/ nr = 6) as Hnr.
  { unfold request in Hreq. destruct nr as [|p|p]; [lia| |done].
    do 3 (destruct p as [p|p|]; try lia; try done). }
  destruct Hnr as [->|[->|[->|[->|[->| ->]]]]]; injection Hreq as <-; ioctl_branch; try done;
    destruct Harg as [Harg|Harg]; try done; rewrite Harg; done.
Qed.

(** Where the structure cannot be read, a command that needs it returns
    -EFAULT and changes nothing; a number that is not a command of the device
    returns -EINVAL and changes nothing. *)
Lemma ioctl_errors major cmd arg s :
  (forall nr, 0 <= nr <= 6 -> has_arguments nr = true -> cmd = IO major nr ->
     arguments_at s.(umem) arg = None -> fibers_ioctl major cmd arg s = Some (- EFAULT, s)) /\
  ((forall nr, 0 <= nr <= 6 -> cmd <> IO major nr) ->
     fibers_ioctl major cmd arg s = Some (- EINVAL, s)).
Proof.
  split.
  - intros nr Hnr Hargs -> Hnone.
    assert (nr = 1 \/ nr = 2 \/ nr = 4 \/ nr = 5 \/ nr = 6) as Hcases.
    { unfold has_arguments in Hargs. lia. }
    destruct Hcases as [->|[->|[->|[->| ->]]]]; ioctl_branch; by rewrite Hnone.
  - intros Hother. unfold fibers_ioctl, current_pid. rewrite mthen_reads.
    assert (forall nr, 0 <= nr <= 6 -> (cmd =? IO major nr) = false) as Hf.
    { intros nr Hnr. apply Z.eqb_neq, Hother, Hnr. }
    unfold IOCTL_CONVERT_THREAD_TO_FIBER, IOCTL_CREATE_FIBER, IOCTL_SWITCH_TO_FIBER,
      IOCTL_FLS_ALLOC, IOCTL_FLS_FREE, IOCTL_FLS_GETVALUE, IOCTL_FLS_SETVALUE.
    rewrite !Hf by lia. done.
Qed.

Lemma ioctl_get_run major arg s fa ret :
  arguments_at s.(umem) arg = Some fa ->
  do_FlsGetValue fa.(fa_index) s.(current) s = Some (ret, s) ->
  let w := copy_to_user s.(umem) (u64 fa.(fa_buffer)) (le_bytes 8 ret) in
  fibers_ioctl major (IO major 5) arg s =
    Some (if w.2 =? 0 then 0 else - EFAULT, set_umem w.1 s).
Proof.
  intros Harg Hget w. ioctl_branch. rewrite Harg.
  erewrite mthen_eq by exact Hget. rewrite mthen_reads. fold w.
  destruct w as [m' left]. rewrite mthen_modify. simpl. by destruct (left =? 0).
Qed.

(** What [FlsGetValue] answers the running task. *)
Definition stored_value (s : kstate) (tk : task) (i : Z) : Z :=
  default (-1) (f ← running s tk.(tgid) s.(current); F ← s.(fiber_heap) !! f; slots F !! i).

Context {KOk : KernelOk K} {UOk : UserAccessOk K U}.

Lemma get_value_run n s tk i :
  good n s -> s.(tasks) !! s.(current) = Some tk ->
  do_FlsGetValue i s.(current) s = Some (stored_value s tk i, s).
Proof.
  intros [Hwf _] Htk. unfold stored_value.
  destruct (running s tk.(tgid) s.(current)) as [f|] eqn:Hf; simpl.
  - destruct (running_caller _ _ _ _ Hwf Hf) as (p & P & t & T & Hc & Hsel).
    destruct (caller_fiber _ _ _ _ _ _ _ Hwf Hc) as (f' & F & ? & HF & _).
    assert (f' = f) as -> by congruence. rewrite HF. simpl. rewrite slots_lookup.
    pose proof (run_fls_some (FlsGetValue i) s tk s.(current) f F (wf_heap _ Hwf) Htk Hf HF) as Hrun.
    simpl in Hrun. rewrite Hrun. by rewrite set_fiber_heap_id.
  - apply (run_fls_none (FlsGetValue i) s tk); [apply Hwf|done..].
Qed.

(** [FLS_GETVALUE] stores the value of the slot, or -1, in the eight bytes at
    the address the caller gave, and returns 0; where one of them is not mapped
    it returns -EFAULT.  It changes no other byte of user memory and nothing in
    the module. *)
Lemma ioctl_get_value n major s tk arg fa :
  reach n s -> n < INT_MAX -> s.(tasks) !! s.(current) = Some tk ->
  arguments_at s.(umem) arg = Some fa ->
  exists r m',
    fibers_ioctl major (IO major 5) arg s = Some (r, set_umem m' s) /\
    ((forall i, 0 <= i < 8 -> is_Some (user_byte s.(umem) (u64 fa.(fa_buffer) + i))) ->
       r = 0 /\ copy_from_user m' (u64 fa.(fa_buffer)) 8 = Some (le_bytes 8 (stored_value s tk fa.(fa_index)))) /\
    ((exists i, 0 <= i < 8 /\ user_byte s.(umem) (u64 fa.(fa_buffer) + i) = None) -> r = - EFAULT) /\
    (forall b, ~ (u64 fa.(fa_buffer) <= b < u64 fa.(fa_buffer) + 8) -> user_byte m' b = user_byte s.(umem) b).
Proof.
  intros Hr Hn Htk Harg. apply reach_good in Hr as [? Hg]; [|lia].
  pose proof (get_value_run n s tk fa.(fa_index) Hg Htk) as Hget.
  pose proof (ioctl_get_run major arg s fa _ Harg Hget) as Hrun. cbv zeta in Hrun.
  set (bs := le_bytes 8 (stored_value s tk fa.(fa_index))) in *.
  assert (Z.of_nat (length bs) = 8) as Hlen by (unfold bs; by rewrite le_bytes_length).
  set (b := u64 fa.(fa_buffer)) in *. clearbody bs b.
  set (w := copy_to_user s.(umem) b bs) in *.
  exists (if w.2 =? 0 then 0 else - EFAULT), w.1. split; [exact Hrun|]. split_and!.
  - intros Hmap. assert (w.2 = 0) as Hw by (apply copy_to_user_mapped; by rewrite Hlen).
    rewrite Hw. split; [done|]. apply copy_from_user_Some; [done|]. split; [done|].
    intros i Hi. apply copy_to_user_done; [done|]. by rewrite Hlen.
  - intros (i & Hi & Hnone). destruct (Z.eqb_spec w.2 0) as [Hw|]; [|done]. exfalso.
    apply (copy_to_user_unmapped s.(umem) b bs i); [by rewrite Hlen|done|exact Hw].
  - intros a Ha. apply copy_to_user_other. by rewrite Hlen.
Qed.

(** C24: A command of the device runs the handler it stands for, called by the
    running task with the arguments found in user memory, and returns its
    result.  [FLS_GETVALUE] stores the value of the slot, or -1, in the eight
    bytes at the address the caller gave and returns 0, or -EFAULT where one of
    them is not mapped; it changes no other byte of user memory and nothing in the
    module.  Where the arguments cannot be read a command that needs them returns
    -EFAULT, and a number that is no command of the device -EINVAL; both change
    nothing. *)
Theorem ioctl_runs_handler n major arg s tk :
  reach n s -> n < INT_MAX -> s.(tasks) !! s.(current) = Some tk ->
  (forall nr fa e, request nr fa = Some e ->
     has_arguments nr = false \/ arguments_at s.(umem) arg = Some fa ->
     fibers_ioctl major (IO major nr) arg s = run_event e s) /\
  (forall fa, arguments_at s.(umem) arg = Some fa ->
     let b := u64 fa.(fa_buffer) in
     exists r m',
       fibers_ioctl major (IO major 5) arg s = Some (r, set_umem m' s) /\
       ((forall i, 0 <= i < 8 -> is_Some (user_byte s.(umem) (b + i))) ->
          r = 0 /\ copy_from_user m' b 8 = Some (le_bytes 8 (stored_value s tk fa.(fa_index)))) /\
       ((exists i, 0 <= i < 8 /\ user_byte s.(umem) (b + i) = None) -> r = - EFAULT) /\
       (forall x, ~ (b <= x < b + 8) -> user_byte m' x = user_byte s.(umem) x)) /\
  (forall nr, 0 <= nr <= 6 -> has_arguments nr = true -> arguments_at s.(umem) arg = None ->
     fibers_ioctl major (IO major nr) arg s = Some (- EFAULT, s)) /\
  (forall cmd, (forall nr, 0 <= nr <= 6 -> cmd <> IO major nr) ->
     fibers_ioctl major cmd arg s = Some (- EINVAL, s)).
Proof.
  intros Hr Hn Htk. split_and!.
  - intros nr fa e. apply fibers_ioctl_run.
  - intros fa Hfa. by eapply ioctl_get_value.
  - intros nr Hnr Hargs Hnone. by eapply (proj1 (ioctl_errors major (IO major nr) arg s)).
  - intros cmd. apply (ioctl_errors major cmd arg s).
Qed.
End Ioctl.

(** ** Applications to a run *)

Import Reference.

(** User memory that holds the bytes [bs] at address [a]. *)
Definition memory_of (a : Z) (bs : bytes) : gmap Z Z :=
  list_to_map (zip (seqZ a (Z.of_nat (length bs))) bs).

(** Thread 10 has at address 4096 a structure that asks for fiber 2, slot 0 and
    the buffer at address 8192, which is zero. *)
Definition asking : @fiber_arguments := FiberArguments 65536 4096 5000 77 2 0 8192.
Definition asking_memory : gmap Z Z :=
  memory_of 4096 (encode_arguments asking) ∪ memory_of 8192 (replicate 8 0).
Definition asking_10 : kstate := set_umem asking_memory thread_10.

Lemma asking_10_reach : reach 8 asking_10.
Proof. eapply (reach_step 7); [exact thread_10_reach|]. by apply step_outside. Qed.

#[global] Opaque asking_10.

Lemma asking_arguments : arguments_at asking_10.(umem) 4096 = Some asking.
Proof. vm_compute. reflexivity. Qed.

(** The buffer at address 8192 is mapped. *)
Lemma asking_buffer i : 0 <= i < 8 -> is_Some (user_byte asking_10.(umem) (8192 + i)).
Proof.
  intros Hi. assert (copy_from_user asking_10.(umem) 8192 8 = Some (replicate 8 0)) as H.
  { vm_compute. reflexivity. }
  apply copy_from_user_Some in H as [_ Hb]; [|lia]. rewrite Hb by lia.
  apply lookup_lt_is_Some_2. rewrite length_replicate. lia.
Qed.

Lemma ioctl_runs_handler_witness :
  fibers_ioctl 240 (IO 240 2) 4096 asking_10 = run_event (ESwitch 2) asking_10 /\
  (exists m', fibers_ioctl 240 (IO 240 5) 4096 asking_10 = Some (0, set_umem m' asking_10)) /\
  fibers_ioctl 240 (IO 240 4) 100 asking_10 = Some (- EFAULT, asking_10) /\
  fibers_ioctl 240 7 4096 asking_10 = Some (- EINVAL, asking_10).
Proof.
  computed (tasks asking_10 !! 10) tk Htk.
  assert (tasks asking_10 !! current asking_10 = Some tk) as Hcur by exact Htk.
  destruct (ioctl_runs_handler 8 240 4096 asking_10 tk asking_10_reach eq_refl Hcur)
    as (Hrun & Hget & _ & Hinval).
  destruct (ioctl_runs_handler 8 240 100 asking_10 tk asking_10_reach eq_refl Hcur) as (_ & _ & Hfault & _).
  split_and!.
  - apply (Hrun 2 asking); [reflexivity|right; exact asking_arguments].
  - destruct (Hget asking asking_arguments) as (r & m' & H & Hok & _).
    destruct (Hok asking_buffer) as [-> _]. exists m'. exact H.
  - apply (Hfault 4); [split; discriminate|reflexivity|vm_compute; reflexivity].
  - apply Hinval. intros nr Hnr. simpl. lia.
Defined.
