(* ===== verification/Device.v ===== *)
(** * The device

    [module/device.c]: registration of [/dev/fibers] and its undoing, the read
    that hands out the published message, open and close. *)

From S2P Require Import Prelude Kernel State CStr Fibers Heap Runs Kprobes Safety Fls Outcome System Scenario UserMem Ioctl.

(** A pointer in the last page of the address space is an error ([ERR_PTR]). *)
Definition IS_ERR (p : Z) : bool := 2 ^ 64 - 4095 <=? u64 p.
Definition PTR_ERR (p : Z) : Z := s64 p.

(** The driver core of the kernel.  Its state is [core]; [chrdevs], [classes] and
    [devices] are the major numbers, the classes and the devices (of a class,
    with a number) that exist in it.  An operation that follows a pointer to a
    class answers [None] where that faults. *)
Class DriverCore : Type := {
  core : Type;
  chrdevs : core -> gset Z;
  classes : core -> gset Z;
  devices : core -> gset (Z * Z);
  MKDEV : Z -> Z -> Z;
  register_chrdev : core -> Z * core;
  unregister_chrdev : Z -> core -> core;
  class_create : core -> Z * core;
  set_devnode : Z -> core -> option core;
  device_create : Z -> Z -> core -> option (Z * core);
  device_destroy : Z -> Z -> core -> option core;
  class_destroy : Z -> core -> option core
}.

(** What exists in the core. *)
Definition holds `{DriverCore} (k : core) (M C : gset Z) (D : gset (Z * Z)) : Prop :=
  chrdevs k = M /\ classes k = C /\ devices k = D.
Definition same_core `{DriverCore} (k k' : core) : Prop :=
  holds k' (chrdevs k) (classes k) (devices k).

(** What is documented of it: a creation either fails and changes nothing, or
    adds something new; a class that exists can be used; destroying takes away
    what is named; NULL and error pointers are refused where the kernel tests
    for them.  Nothing is said of a class that was destroyed. *)
Class DriverCoreOk (DC : DriverCore) : Prop := {
  chrdev_range k M : M ∈ chrdevs k -> 0 <= M < 2 ^ 12;
  class_address k c : c ∈ classes k -> c <> 0 /\ IS_ERR c = false;
  device_class k c d : (c, d) ∈ devices k -> c ∈ classes k;
  register_chrdev_ok k : let (r, k') := register_chrdev k in
    -4095 <= r < 0 /\ same_core k k' \/
    0 <= r < 2 ^ 12 /\ r ∉ chrdevs k /\ holds k' ({[r]} ∪ chrdevs k) (classes k) (devices k);
  unregister_chrdev_ok k M :
    holds (unregister_chrdev M k) (chrdevs k ∖ {[M]}) (classes k) (devices k);
  class_create_ok k : let (c, k') := class_create k in
    IS_ERR c = true /\ same_core k k' \/
    IS_ERR c = false /\ c ∉ classes k /\ holds k' (chrdevs k) ({[c]} ∪ classes k) (devices k);
  set_devnode_ok k c : c ∈ classes k -> exists k', set_devnode c k = Some k' /\ same_core k k';
  device_create_ok k c d : c ∈ classes k -> exists p k', device_create c d k = Some (p, k') /\
    (IS_ERR p = true /\ same_core k k' \/
     IS_ERR p = false /\ holds k' (chrdevs k) (classes k) ({[(c, d)]} ∪ devices k));
  device_destroy_ok k c d : c ∈ classes k -> exists k', device_destroy c d k = Some k' /\
    holds k' (chrdevs k) (classes k) (devices k ∖ {[(c, d)]});
  device_destroy_null k d : exists k', device_destroy 0 d k = Some k' /\ same_core k k';
  class_destroy_ok k c : c ∈ classes k -> (forall d, (c, d) ∉ devices k) ->
    exists k', class_destroy c k = Some k' /\ holds k' (chrdevs k) (classes k ∖ {[c]}) (devices k);
  class_destroy_null k c : c = 0 \/ IS_ERR c = true ->
    exists k', class_destroy c k = Some k' /\ same_core k k'
}.

(** The variables of [device.c] and the message of [ioctl.c], with the core and
    the references the module loader counts. *)
Record device_state `{DriverCore} := DeviceState {
  major : Z;
  class_fibers : Z;
  dev_fibers : Z;
  string_message : bytes;
  the_core : core;
  module_refs : Z
}.
#[global] Arguments DeviceState {_}.
#[global] Arguments major {_}.
#[global] Arguments class_fibers {_}.
#[global] Arguments dev_fibers {_}.
#[global] Arguments string_message {_}.
#[global] Arguments the_core {_}.
#[global] Arguments module_refs {_}.

(** A character array of [MESSAGE_MAX_LEN] bytes that holds a C string. *)
Definition char_array (s : cstring) : bytes :=
  (char_code <$> s) ++ replicate (Z.to_nat MESSAGE_MAX_LEN - length s) 0.

(** [strnlen]: the number of bytes before the first zero. *)
Fixpoint strnlen (bs : bytes) : Z :=
  match bs with
  | [] => 0
  | b :: bs' => if b =? 0 then 0 else 1 + strnlen bs'
  end.

(** [len] bytes of an array from [off] on, or a fault outside the array. *)
Definition slice (bs : bytes) (off len : Z) : option bytes :=
  if (0 <=? off) && (0 <=? len) && (off + len <=? Z.of_nat (length bs))
  then Some (take (Z.to_nat len) (drop (Z.to_nat off) bs))
  else None.

Section Device.
Context {K : Kernel} {U : UserAccess K} {C : IoctlCodes}.

(** [fibers_read]: the result, and the new position in the file. *)
Definition fibers_read (message : bytes) (buf len off : Z) : kM (Z * Z) :=
  if strnlen message <=? u64 off then mret (0, off)
  else
    let i := Z.min len (strnlen message) in
    let! bs := mderef (fun _ => slice message off i) in
    let! m := mreads umem in
    let (m', left) := copy_to_user m buf bs in
    do! mmodify (set_umem m');
    if left =? 0 then mret (i, off + i) else mret (- EFAULT, off).

Context {DC : DriverCore}.

Definition fiber_open (module_get : bool) (d : device_state) : Z * device_state :=
  if negb module_get then (-1, d)
  else (0, DeviceState d.(major) d.(class_fibers) d.(dev_fibers) d.(string_message) d.(the_core)
             (d.(module_refs) + 1)).

Definition fiber_close (d : device_state) : kM (Z * device_state) :=
  do! process_cleanup;
  mret (0, DeviceState d.(major) d.(class_fibers) d.(dev_fibers) d.(string_message) d.(the_core)
             (d.(module_refs) - 1)).

(** [None] is a fault. *)
Definition register_fiber_device (d : device_state) : option (Z * device_state) :=
  let (maj, k) := register_chrdev d.(the_core) in
  let d := DeviceState maj d.(class_fibers) d.(dev_fibers) d.(string_message) k d.(module_refs) in
  if d.(major) <? 0 then Some (s32 d.(major), d)
  else
    let (c, k) := class_create d.(the_core) in
    let d := DeviceState d.(major) c d.(dev_fibers) d.(string_message) k d.(module_refs) in
    if IS_ERR d.(class_fibers) then
      let k := unregister_chrdev (u32 d.(major)) d.(the_core) in
      Some (s32 (PTR_ERR d.(class_fibers)),
            DeviceState d.(major) d.(class_fibers) d.(dev_fibers) d.(string_message) k d.(module_refs))
    else
      k ← set_devnode d.(class_fibers) d.(the_core);
      '(v, k) ← device_create d.(class_fibers) (MKDEV d.(major) 0) k;
      let d := DeviceState d.(major) d.(class_fibers) v d.(string_message) k d.(module_refs) in
      if IS_ERR d.(dev_fibers) then
        k ← class_destroy d.(class_fibers) d.(the_core);
        let k := unregister_chrdev (u32 d.(major)) k in
        Some (s32 (PTR_ERR d.(dev_fibers)),
              DeviceState d.(major) d.(class_fibers) d.(dev_fibers) d.(string_message) k d.(module_refs))
      else
        Some (0, DeviceState d.(major) d.(class_fibers) d.(dev_fibers)
                   (char_array (publish_ioctl_message d.(major))) d.(the_core) d.(module_refs)).

Definition unregister_fiber_device (d : device_state) : option device_state :=
  k ← device_destroy d.(class_fibers) (MKDEV d.(major) 0) d.(the_core);
  k ← class_destroy d.(class_fibers) k;
  let k := unregister_chrdev (u32 d.(major)) k in
  Some (DeviceState d.(major) d.(class_fibers) d.(dev_fibers) d.(string_message) k d.(module_refs)).

(** [fiber_user_devnode]: the name of the node, [None] when [kasprintf] has no
    memory, and the mode (0666) where the caller asks for one. *)
Definition fiber_user_devnode (dev_name : cstring) (allocated : bool) (mode : option Z)
  : option cstring * option Z :=
  (if allocated then Some dev_name else None, (fun _ => 438) <$> mode).

(** Before the module is loaded, on a core [k]. *)
Definition unloaded (k : core) : device_state := DeviceState 0 0 0 (char_array []) k 0.

(** ** Registration *)

Context {DCOk : DriverCoreOk DC}.

(** The device on a core: a major number, a class and one device of it. *)
Definition in_place (d : device_state) (k : core) : Prop :=
  d.(major) ∈ chrdevs k /\ d.(class_fibers) ∈ classes k /\
  forall n, (d.(class_fibers), n) ∈ devices k <-> n = MKDEV d.(major) 0.

(** What the core holds besides the device. *)
Definition without_device (d : device_state) (k k' : core) : Prop :=
  holds k' (chrdevs k ∖ {[d.(major)]}) (classes k ∖ {[d.(class_fibers)]})
    (devices k ∖ {[(d.(class_fibers), MKDEV d.(major) 0)]}).

Lemma take_back {A} `{Countable A} (x : A) (X : gset A) : x ∉ X -> ({[x]} ∪ X) ∖ {[x]} = X.
Proof. set_solver. Qed.

Lemma here_l {A} `{Countable A} (x : A) (X : gset A) : x ∈ {[x]} ∪ X.
Proof. set_solver. Qed.

Lemma error_address p : IS_ERR p = true -> p <> 0 /\ forall k : core, p ∉ classes k.
Proof.
  intros H. split; [by intros ->|]. intros k Hp. apply class_address in Hp as [_ ?]. congruence.
Qed.

Lemma error_negative p : IS_ERR p = true -> s32 (PTR_ERR p) < 0.
Proof.
  unfold IS_ERR, PTR_ERR. intros H. pose proof (uw_range 64 p). rewrite <- s64_u64.
  assert (s64 (u64 p) = u64 p - 2 ^ 64) as ->.
  { replace (u64 p) with (u64 p - 2 ^ 64 + 1 * 2 ^ 64) at 1 by lia. unfold sw.
    rewrite <- Z.add_assoc, (Z.add_comm (1 * _)), Z.add_assoc, Z.mod_add by lia.
    rewrite Z.mod_small; lia. }
  rewrite s32_small; lia.
Qed.

Lemma same_core_of (k1 k2 : core) M X D : holds k1 M X D -> same_core k1 k2 -> holds k2 M X D.
Proof. unfold same_core, holds. intros (<- & <- & <-). done. Qed.

Lemma unregister_chrdev_run (k : core) M (k0 : core) X D :
  0 <= M < 2 ^ 12 -> M ∉ chrdevs k0 -> holds k ({[M]} ∪ chrdevs k0) X D ->
  holds (unregister_chrdev (u32 M) k) (chrdevs k0) X D.
Proof.
  intros HM Hnew (H1 & H2 & H3). rewrite uw_small by lia.
  unfold holds. destruct (unregister_chrdev_ok k M) as (-> & -> & ->).
  split_and!; [rewrite H1; by rewrite take_back|done..].
Qed.

(** The registration either succeeds, with the device in place, fresh, and the
    message published; or fails with a negative result, and the core holds what
    it held before.  The pointer to the class is then NULL, if there was no major
    number, and otherwise points to no class. *)
Lemma device_registration (k : core) :
  exists r d, register_fiber_device (unloaded k) = Some (r, d) /\
    ((r = 0 /\ in_place d d.(the_core) /\ without_device d d.(the_core) k /\ 0 <= d.(major) < 2 ^ 12 /\
      d.(string_message) = char_array (publish_ioctl_message d.(major))) \/
     (r < 0 /\ same_core k d.(the_core) /\
      ((-4095 <= d.(major) < 0 /\ d.(class_fibers) = 0) \/ (d.(class_fibers) <> 0 /\ d.(class_fibers) ∉ classes k)))).
Proof.
  unfold register_fiber_device, unloaded, in_place, without_device.
  cbn [major class_fibers dev_fibers string_message the_core module_refs].
  pose proof (register_chrdev_ok k) as Hreg. destruct (register_chrdev k) as [M k1].
  destruct Hreg as [[Hneg Hsame]|(HM & Hnew & H1)].
  { replace (M <? 0) with true by lia. eexists _, _. split; [done|]. right. cbn.
    split; [rewrite s32_small; lia|]. split; [done|left; lia]. }
  replace (M <? 0) with false by lia. cbn [the_core].
  pose proof (class_create_ok k1) as Hcls. destruct (class_create k1) as [c k2].
  cbn [major class_fibers dev_fibers string_message the_core module_refs].
  destruct Hcls as [[Herr Hsame]|(Herr & Hfresh & H2)]; rewrite Herr.
  { eexists _, _. split; [done|]. right.
    cbn [major class_fibers dev_fibers string_message the_core module_refs].
    split; [by apply error_negative|]. split; [|right; by split; apply error_address].
    eapply unregister_chrdev_run; [done..|]. by eapply same_core_of. }
  destruct H1 as (HM1 & HC1 & HD1). rewrite HM1, HC1, HD1 in H2. rewrite HC1 in Hfresh.
  assert (c ∈ classes k2) as Hc2 by (destruct H2 as (_ & -> & _); apply here_l).
  pose proof (class_address k2 c Hc2) as [Hc0 _].
  destruct (set_devnode_ok k2 c Hc2) as (k3 & -> & H3). cbn [mbind option_bind].
  apply (same_core_of k2 k3 _ _ _ H2) in H3 as (HM3 & HC3 & HD3).
  destruct (device_create_ok k3 c (MKDEV M 0)) as (v & k4 & -> & H4); [rewrite HC3; apply here_l|].
  rewrite HM3, HC3, HD3 in H4. cbn [mbind option_bind].
  cbn [major class_fibers dev_fibers string_message the_core module_refs].
  assert (forall n, (c, n) ∉ devices k) as Hno by (intros n Hn; by apply device_class in Hn).
  destruct H4 as [[Hv H4]|(Hv & HM4 & HC4 & HD4)]; rewrite Hv.
  - destruct H4 as (HM4 & HC4 & HD4). rewrite HM3 in HM4. rewrite HC3 in HC4. rewrite HD3 in HD4.
    destruct (class_destroy_ok k4 c) as (k5 & -> & HM5 & HC5 & HD5);
      [rewrite HC4; apply here_l|by intros n; rewrite HD4|].
    cbn [mbind option_bind]. eexists _, _. split; [done|]. right.
    cbn [major class_fibers dev_fibers string_message the_core module_refs].
    split; [by apply error_negative|]. split; [|by right].
    eapply unregister_chrdev_run; [done..|]. unfold holds. rewrite HM5, HC5, HD5, HM4, HC4, HD4.
    by rewrite take_back.
  - eexists _, _. split; [done|]. left.
    cbn [major class_fibers dev_fibers string_message the_core module_refs].
    split; [done|]. rewrite HM4, HC4, HD4. split_and!; [apply here_l|apply here_l| | |lia|lia|done].
    + intros n. rewrite elem_of_union, elem_of_singleton. specialize (Hno n). naive_solver.
    + by rewrite !take_back.
Qed.

(** Taking the device away leaves the rest.  Without a major number the pointer to
    the class is NULL, and nothing happens. *)
Lemma device_removal d :
  0 <= d.(major) < 2 ^ 12 -> in_place d d.(the_core) ->
  exists d', unregister_fiber_device d = Some d' /\ without_device d d.(the_core) d'.(the_core).
Proof.
  intros HM (_ & Hc & Hdev). unfold unregister_fiber_device, without_device.
  destruct (device_destroy_ok d.(the_core) _ (MKDEV d.(major) 0) Hc) as (k1 & -> & H1 & H2 & H3).
  cbn [mbind option_bind].
  destruct (class_destroy_ok k1 d.(class_fibers)) as (k2 & -> & H4 & H5 & H6).
  { by rewrite H2. }
  { intros n. rewrite H3, elem_of_difference, elem_of_singleton, Hdev. naive_solver. }
  cbn [mbind option_bind]. eexists. split; [done|]. cbn [the_core]. rewrite uw_small by lia.
  unfold holds. destruct (unregister_chrdev_ok k2 d.(major)) as (-> & -> & ->).
  by rewrite H4, H5, H6, H1, H2, H3.
Qed.

Lemma nothing_removed d :
  -4095 <= d.(major) < 0 -> d.(class_fibers) = 0 ->
  exists d', unregister_fiber_device d = Some d' /\ same_core d.(the_core) d'.(the_core).
Proof.
  intros HM Hc. unfold unregister_fiber_device. rewrite Hc.
  destruct (device_destroy_null d.(the_core) (MKDEV d.(major) 0)) as (k1 & -> & H1). cbn [mbind option_bind].
  destruct (class_destroy_null k1 0) as (k2 & -> & H2); [by left|]. cbn [mbind option_bind].
  eexists. split; [done|]. cbn [the_core]. apply (same_core_of _ k2) in H1; [|done].
  destruct H1 as (H1 & H3 & H4).
  destruct (unregister_chrdev_ok k2 (u32 d.(major))) as (H5 & H6 & H7).
  split_and!; [|congruence..]. rewrite H5, H1. assert (u32 d.(major) ∉ chrdevs d.(the_core)); [|set_solver].
  intros Hin%chrdev_range. replace (u32 d.(major)) with (d.(major) + 2 ^ 32) in Hin; [lia|].
  unfold uw. rewrite <- (Z.mod_add d.(major) 1 (2 ^ 32)) by lia. rewrite Z.mod_small; lia.
Qed.

(** ** The message *)

Lemma char_code_ascii c : 0 <= char_code c < 256.
Proof. unfold char_code. pose proof (N_ascii_bounded c). lia. Qed.

Lemma strnlen_array (s : cstring) :
  Forall (fun c => char_code c <> 0) s -> Z.of_nat (length s) < MESSAGE_MAX_LEN ->
  strnlen (char_array s) = Z.of_nat (length s).
Proof.
  intros Hs Hlen. unfold char_array.
  assert (exists k, Z.to_nat MESSAGE_MAX_LEN - length s = S k)%nat as [k ->].
  { exists (Z.to_nat MESSAGE_MAX_LEN - length s - 1)%nat. unfold MESSAGE_MAX_LEN in *. lia. }
  clear Hlen. induction Hs as [|c s Hc _ IH]; [done|].
  rewrite fmap_cons. cbn [app strnlen length].
  destruct (Z.eqb_spec (char_code c) 0); [done|]. rewrite IH. lia.
Qed.

Lemma char_array_length (s : cstring) :
  Z.of_nat (length s) <= MESSAGE_MAX_LEN -> Z.of_nat (length (char_array s)) = MESSAGE_MAX_LEN.
Proof.
  intros H. unfold char_array. rewrite length_app, length_fmap, length_replicate. lia.
Qed.

Context {COk : IoctlCodesOk C}.

Lemma format_ld_chars n :
  0 <= n -> Forall (fun c => is_digit c = true) (format_ld n).
Proof. intros Hn. unfold format_ld. destruct (n <? 0) eqn:E; [lia|]. by apply udec_digits. Qed.

Lemma format_ld_length n : 0 <= n < 2 ^ 31 -> (length (format_ld n) <= 10)%nat.
Proof.
  intros Hn. unfold format_ld. destruct (n <? 0) eqn:E; [lia|].
  apply udec_length_bound; [lia|]. split; [lia|]. transitivity (2 ^ 31); [lia|]. done.
Qed.

(** The lines of a list of numbers. *)
Definition lines (ns : list Z) : cstring := concat (line <$> ns).

Definition codes (mj : Z) : list Z := IO mj <$> [0; 1; 2; 3; 4; 5; 6].

Lemma codes_range mj : 0 <= mj < 2 ^ 12 -> Forall (fun n => 0 <= n < 2 ^ 31) (codes mj).
Proof. intros Hm. unfold codes. simpl. repeat constructor; apply IO_range; lia. Qed.

Lemma lines_length ns :
  Forall (fun n => 0 <= n < 2 ^ 31) ns -> (length (lines ns) <= 11 * length ns)%nat.
Proof.
  unfold lines. induction 1 as [|n ns Hn _ IH]; [done|]. cbn [fmap list_fmap concat].
  unfold line at 1. rewrite !length_app. pose proof (format_ld_length n Hn). simpl in *. lia.
Qed.

Lemma lines_nonzero ns :
  Forall (fun n => 0 <= n) ns -> Forall (fun c => char_code c <> 0) (lines ns).
Proof.
  unfold lines. induction 1 as [|n ns Hn _ IH]; [constructor|]. cbn [fmap list_fmap concat].
  unfold line at 1. rewrite !Forall_app. split_and!; [|by repeat constructor|done].
  eapply Forall_impl; [by apply format_ld_chars|]. intros c ?%is_digit_range. lia.
Qed.

(** The message is complete: it fits in the array. *)
Lemma publish_lines mj : 0 <= mj < 2 ^ 12 -> publish_ioctl_message mj = lines (codes mj).
Proof.
  intros Hm. pose proof (lines_length _ (codes_range mj Hm)) as Hlen.
  unfold publish_ioctl_message, snprintf.
  change (line (IOCTL_CONVERT_THREAD_TO_FIBER mj) ++ _) with
    (line (IO mj 0) ++ line (IO mj 1) ++ line (IO mj 2) ++ line (IO mj 3) ++ line (IO mj 4) ++
     line (IO mj 5) ++ line (IO mj 6)).
  assert (lines (codes mj) = line (IO mj 0) ++ line (IO mj 1) ++ line (IO mj 2) ++ line (IO mj 3) ++
            line (IO mj 4) ++ line (IO mj 5) ++ line (IO mj 6)) as Heq.
  { unfold lines, codes. cbn [fmap list_fmap concat]. by rewrite app_nil_r. }
  rewrite <- Heq. apply take_ge. unfold codes in Hlen at 2. simpl length in Hlen.
  unfold MESSAGE_MAX_LEN. lia.
Qed.

(** The array that [register_fiber_device] fills. *)
Lemma message_facts mj :
  0 <= mj < 2 ^ 12 ->
  let msg := char_array (publish_ioctl_message mj) in
  Z.of_nat (length msg) = 256 /\ 2 * strnlen msg <= 256 /\ 0 < strnlen msg /\
  strnlen msg = Z.of_nat (length (lines (codes mj))) /\
  msg = (char_code <$> lines (codes mj)) ++ replicate (256 - length (lines (codes mj))) 0.
Proof.
  intros Hm msg. unfold msg. rewrite publish_lines by done.
  pose proof (lines_length _ (codes_range mj Hm)) as Hlen. unfold codes in Hlen at 2. simpl length in Hlen.
  assert (Forall (fun n => 0 <= n) (codes mj)) as Hpos.
  { eapply Forall_impl; [by apply codes_range|]. simpl. lia. }
  rewrite strnlen_array; [|by apply lines_nonzero|unfold MESSAGE_MAX_LEN; lia].
  rewrite char_array_length by (unfold MESSAGE_MAX_LEN; lia). split_and!; [done|lia| |done|done].
  unfold lines, codes, line. cbn [fmap list_fmap concat]. rewrite !length_app. simpl. lia.
Qed.

Context {UOk : UserAccessOk K U}.

(** C25: Reading the published message never leaves the array.  At or after its
    end a read returns 0; before it, a read of [len] bytes into mapped memory
    delivers as many bytes of the array from the position on as [len] and the
    length of the whole message allow - a reader that starts in the middle gets
    the bytes after the end of the message as well. *)
Theorem device_read mj buf len off s :
  0 <= mj < 2 ^ 12 -> 0 <= len -> 0 <= off < 2 ^ 63 ->
  let msg := char_array (publish_ioctl_message mj) in
  let L := strnlen msg in
  exists r off' m',
    fibers_read msg buf len off s = Some ((r, off'), set_umem m' s) /\
    (L <= off -> r = 0 /\ off' = off /\ m' = s.(umem)) /\
    (off < L -> (forall i, 0 <= i < Z.min len L -> is_Some (user_byte s.(umem) (buf + i))) ->
       r = Z.min len L /\ off' = off + r /\
       copy_from_user m' buf r = Some (take (Z.to_nat r) (drop (Z.to_nat off) msg))).
Proof.
  intros Hm Hlen0 Hoff msg L. destruct (message_facts mj Hm) as (Hlen & Htwice & Hpos & _ & _).
  fold msg in Hlen, Htwice, Hpos. fold L in Htwice, Hpos.
  unfold fibers_read. fold L. rewrite u64_small by lia.
  destruct (L <=? off) eqn:E.
  - exists 0, off, s.(umem). split; [unfold mret; by destruct s|]. split; [done|]. intros. lia.
  - set (i := Z.min len L).
    assert (slice msg off i = Some (take (Z.to_nat i) (drop (Z.to_nat off) msg))) as Hslice.
    { unfold slice. replace (_ && _ && _) with true by lia. done. }
    set (bs := take (Z.to_nat i) (drop (Z.to_nat off) msg)) in *.
    assert (Z.of_nat (length bs) = i) as Hbs by (unfold bs; rewrite length_take, length_drop; lia).
    unfold mthen at 1, mderef. rewrite Hslice, mthen_reads.
    pose proof (copy_to_user_mapped s.(umem) buf bs) as Hmap.
    pose proof (fun j => copy_to_user_done s.(umem) buf bs j) as Hdone.
    destruct (copy_to_user s.(umem) buf bs) as [m' left]. simpl in Hmap, Hdone. rewrite mthen_modify.
    destruct (Z.eqb_spec left 0) as [Hl|Hl].
    + exists i, (off + i), m'. split; [done|]. split; [lia|]. intros _ Hall. split_and!; [done..|].
      fold bs. apply copy_from_user_Some; [lia|]. split; [done|]. intros j Hj. apply Hdone; lia.
    + exists (- EFAULT), off, m'. split; [done|]. split; [lia|]. intros _ Hall. exfalso.
      apply Hl, Hmap. intros j Hj. apply Hall. unfold i in Hbs. lia.
Qed.

End Device.

(** ** A concrete driver core

    It has one major number to give, and room for one class, at one address, with
    one device; it may refuse to create devices. *)

Record small_core := SmallCore { sc_major : bool; sc_class : option (option Z); sc_devices : bool }.

Definition small_register_chrdev (k : small_core) : Z * small_core :=
  if k.(sc_major) then (-16, k) else (240, SmallCore true k.(sc_class) k.(sc_devices)).
Definition small_unregister_chrdev (M : Z) (k : small_core) : small_core :=
  if M =? 240 then SmallCore false k.(sc_class) k.(sc_devices) else k.
Definition small_class_create (k : small_core) : Z * small_core :=
  match k.(sc_class) with
  | Some _ => (-12, k)
  | None => (4096, SmallCore k.(sc_major) (Some None) k.(sc_devices))
  end.
Definition small_device_create (c d : Z) (k : small_core) : option (Z * small_core) :=
  if c =? 4096 then
    match k.(sc_class) with
    | Some None =>
        if k.(sc_devices) then Some (8192, SmallCore k.(sc_major) (Some (Some d)) k.(sc_devices))
        else Some (-12, k)
    | Some (Some d') => if d =? d' then Some (8192, k) else Some (-12, k)
    | None => None
    end
  else None.
Definition small_device_destroy (c d : Z) (k : small_core) : option small_core :=
  if c =? 0 then Some k
  else if c =? 4096 then
    match k.(sc_class) with
    | Some (Some d') => Some (if d =? d' then SmallCore k.(sc_major) (Some None) k.(sc_devices) else k)
    | Some None => Some k
    | None => None
    end
  else None.
Definition small_class_destroy (c : Z) (k : small_core) : option small_core :=
  if (c =? 0) || IS_ERR c then Some k
  else if c =? 4096 then
    match k.(sc_class) with
    | Some _ => Some (SmallCore k.(sc_major) None k.(sc_devices))
    | None => None
    end
  else None.

#[export] Instance small_driver_core : DriverCore := {
  core := small_core;
  chrdevs k := if k.(sc_major) then {[240]} else ∅;
  classes k := if k.(sc_class) then {[4096]} else ∅;
  devices k := match k.(sc_class) with Some (Some d) => {[(4096, d)]} | _ => ∅ end;
  MKDEV M n := M * 2 ^ 20 + n;
  register_chrdev := small_register_chrdev;
  unregister_chrdev := small_unregister_chrdev;
  class_create := small_class_create;
  set_devnode c k := if (c =? 4096) && bool_decide (is_Some k.(sc_class)) then Some k else None;
  device_create := small_device_create;
  device_destroy := small_device_destroy;
  class_destroy := small_class_destroy
}.

Lemma small_class_live (k : small_core) c : c ∈ classes k -> c = 4096 /\ exists o, k.(sc_class) = Some o.
Proof. simpl. destruct (sc_class k); [intros ->%elem_of_singleton; eauto|by intros ?%elem_of_empty]. Qed.

#[export] Instance small_driver_core_ok : DriverCoreOk small_driver_core.
Proof.
  split.
  - intros k M. simpl. destruct (sc_major k); [intros ->%elem_of_singleton; lia|by intros ?%elem_of_empty].
  - by intros k c [-> _]%small_class_live.
  - intros [M [[n|]|] b] c d; simpl; set_solver.
  - intros [[] cl b]; simpl; [left; split; [lia|done]|right]. split; [lia|]. split; [set_solver|].
    split_and!; simpl; [set_solver|done..].
  - intros [[] cl b] M; simpl; unfold small_unregister_chrdev; destruct (Z.eqb_spec M 240) as [->|];
      (split_and!; [simpl; set_solver|done..]).
  - intros [M [cl|] b]; simpl; [by left|right]. split; [done|]. split; [set_solver|].
    split_and!; simpl; [done|set_solver|done].
  - intros k c [-> [o Ho]]%small_class_live. simpl. rewrite Ho. by exists k.
  - intros [M cl b] c d [-> [o Ho]]%small_class_live. simpl in Ho. subst cl. simpl. unfold small_device_create. simpl.
    destruct o as [n|]; simpl; [destruct (Z.eqb_spec d n) as [->|]|destruct b]; eexists _, _; (split; [done|]).
    + right. split; [done|]. split_and!; simpl; set_solver.
    + by left.
    + right. split; [done|]. split_and!; simpl; set_solver.
    + by left.
  - intros [M cl b] c d [-> [o Ho]]%small_class_live. simpl in Ho. subst cl. simpl. unfold small_device_destroy. simpl.
    destruct o as [n|]; simpl; [destruct (Z.eqb_spec d n) as [->|]|]; eexists; (split; [done|]);
      split_and!; simpl; set_solver.
  - intros k d. by exists k.
  - intros [M cl b] c [-> [o Ho]]%small_class_live Hno. simpl in Ho. subst cl. eexists. split; [done|].
    destruct o as [n|]; [destruct (Hno n); simpl; set_solver|]. split_and!; simpl; set_solver.
  - intros k c Hc. exists k. split; [|done]. simpl. unfold small_class_destroy.
    destruct Hc as [->| ->]; [done|]. by rewrite orb_true_r.
Qed.

Lemma small_dead_class c n k : c <> 0 -> c ∉ classes k -> device_destroy c n k = None.
Proof.
  simpl. unfold small_device_destroy. intros H0 Hc. destruct (Z.eqb_spec c 0); [done|].
  destruct (Z.eqb_spec c 4096) as [->|]; [|done]. destruct (sc_class k); [set_solver|done].
Qed.

(** ** Applications *)

Import Reference.

(** A process whose memory has 8 bytes at 8192 reads there from position 3. *)
Lemma device_read_witness :
  exists m',
    fibers_read (char_array (publish_ioctl_message 240)) 8192 8 3 asking_10 = Some ((8, 11), set_umem m' asking_10) /\
    copy_from_user m' 8192 8 = Some (take 8 (drop 3 (char_array (publish_ioctl_message 240)))).
Proof.
  destruct (device_read 240 8192 8 3 asking_10) as (r & off' & m' & H & _ & Hmap); [lia|lia|lia|].
  assert (HL : Z.min 8 (strnlen (char_array (publish_ioctl_message 240))) = 8) by (vm_compute; reflexivity).
  destruct Hmap as (Hr & Hoff & Hc).
  - vm_compute. reflexivity.
  - rewrite HL. exact asking_buffer.
  - rewrite HL in Hr. subst off'. rewrite Hr in H, Hc. exists m'. split; [exact H|exact Hc].
Defined.
