(* ===== verification/FiberLib.v ===== *)
(** * The library

    [fiberlib/fiberlib.c]: the constructor, which reads the command numbers from
    the device, and the calls of the interface, each a system call with the
    arguments packed in a structure on the stack of the caller.  The library
    runs in the same state as the module; the addresses of its automatic
    variables are arguments of the definitions.  The bytes [strtok] overwrites
    are those of a local buffer nobody reads again, and are not written back. *)

From S2P Require Import Prelude Kernel State CStr Fibers Heap Runs Kprobes Safety Fls Outcome System Scenario Switching UserMem Ioctl Device.

Definition MAX_IOCTL_CMDS : nat := 7.
Definition EINTR : Z := 4.
Definition EBADF : Z := 9.

Record lib_state := LibState { fd : Z; ioctl_numbers : list Z; fiberlib_initialized : Z }.

(** ** [strtok(s, newline)]

    The next token and what follows it; [None] is a scan that leaves the buffer. *)

Fixpoint skip_delimiters (bs : bytes) : option bytes :=
  match bs with
  | [] => None
  | b :: bs' => if b =? 10 then skip_delimiters bs' else Some bs
  end.

Fixpoint token (bs : bytes) : option (cstring * bytes) :=
  match bs with
  | [] => None
  | b :: bs' =>
      if b =? 0 then Some ([], bs)
      else if b =? 10 then Some ([], bs')
      else '(t, rest) ← token bs'; Some (char_of b :: t, rest)
  end.

Definition strtok (bs : bytes) : option (option (cstring * bytes)) :=
  bs' ← skip_delimiters bs;
  match bs' with
  | 0 :: _ => Some None
  | _ => Some <$> token bs'
  end.

(** The loop over the tokens: the next one is looked for before the counter is
    compared with [MAX_IOCTL_CMDS]. *)
Fixpoint parse_numbers (left : nat) (t : option (cstring * bytes)) (numbers : list Z)
  : option (list Z) :=
  match t, left with
  | None, _ => Some numbers
  | Some _, O => Some numbers
  | Some (s, rest), S left' =>
      let numbers := <[(MAX_IOCTL_CMDS - left)%nat := strtol s]> numbers in
      t' ← strtok rest;
      parse_numbers left' t' numbers
  end.

Section FiberLib.
Context {K : Kernel} {U : UserAccess K} {C : IoctlCodes}.

(** ** The constructor *)

(** The loop that reads the device into [buf]; [None] where it gives up. *)
Fixpoint read_loop (fuel : nat) (fd : Z) (message : bytes) (buf bytes_read off : Z)
  : kM (option Z) :=
  match fuel with
  | O => mfault
  | S fuel' =>
      let! (r, off') := if fd <? 0 then mret (- EBADF, off)
                        else fibers_read message (buf + bytes_read) (256 - bytes_read) off in
      let ret := if r <? 0 then -1 else r in
      let errno := - r in
      if ret =? 0 then mret (Some bytes_read)
      else if (ret <? 0) && (errno =? - EINTR) then read_loop fuel' fd message buf bytes_read off'
      else if ret <? 0 then mret None
      else read_loop fuel' fd message buf (bytes_read + ret) off'
  end.

Definition fiberlib_init (fuel : nat) (fd : Z) (message : bytes) (buf : Z) : kM lib_state :=
  let! o := read_loop fuel fd message buf 0 0 in
  match o with
  | None => mret (LibState fd (replicate MAX_IOCTL_CMDS 0) 0)
  | Some _ =>
      let! bs := mderef (fun s => copy_from_user s.(umem) buf 256) in
      let! numbers := mderef (fun _ => t ← strtok bs; parse_numbers MAX_IOCTL_CMDS t (replicate MAX_IOCTL_CMDS 0)) in
      mret (LibState fd numbers 1)
  end.

(** ** The calls *)

(** [ioctl(fd, number, arg)] of the C library: errors are reported as -1. *)
Definition ioctl (major : Z) (l : lib_state) (nr : nat) (arg : Z) : kM Z :=
  if l.(fd) <? 0 then mret (-1)
  else
    let! r := fibers_ioctl major (u32 (nth nr l.(ioctl_numbers) 0)) arg in
    mret (if (-4095 <=? r) && (r <? 0) then -1 else r).

(** An automatic variable is initialised in memory. *)
Definition store (a : Z) (bs : bytes) : kM unit :=
  let! m := mreads umem in
  let (m', left) := copy_to_user m a bs in
  if left =? 0 then mmodify (set_umem m') else mfault.

(** [&f], with [f] at address [a]. *)
Definition ioctl_with (major : Z) (l : lib_state) (nr : nat) (a : Z) (f : fiber_arguments) : kM Z :=
  do! store a (encode_arguments f);
  ioctl major l nr a.

Definition ConvertThreadToFiber (major : Z) (l : lib_state) : kM Z :=
  let! r := ioctl major l 0 0 in mret (s32 r).

(** [stack]: the block [posix_memalign] answers, if any. *)
Definition CreateFiber (major : Z) (l : lib_state) (a : Z) (stack : option Z)
    (function_pointer stack_size parameters : Z) : kM Z :=
  match stack with
  | None => mret (-1)
  | Some stack_pointer =>
      do! store stack_pointer (replicate (Z.to_nat stack_size) 0);
      let! r := ioctl_with major l 1 a
                  (FiberArguments stack_pointer stack_size function_pointer parameters 0 0 0) in
      mret (s32 r)
  end.

Definition SwitchToFiber (major : Z) (l : lib_state) (a : Z) (fiber_id : Z) : kM Z :=
  ioctl_with major l 2 a (FiberArguments 0 0 0 0 fiber_id 0 0).

Definition lib_FlsAlloc (major : Z) (l : lib_state) : kM Z := ioctl major l 3 0.

(** The [int] that [ioctl] returns is converted to [bool]. *)
Definition lib_FlsFree (major : Z) (l : lib_state) (a : Z) (index : Z) : kM bool :=
  let! r := ioctl_with major l 4 a (FiberArguments 0 0 0 0 0 index 0) in
  mret (negb (r =? 0)).

Definition lib_FlsSetValue (major : Z) (l : lib_state) (a : Z) (buffer index : Z) : kM unit :=
  do! ioctl_with major l 6 a (FiberArguments 0 0 0 0 0 index buffer);
  mret tt.

(** [v]: the address of the local variable for the result. *)
Definition lib_FlsGetValue (major : Z) (l : lib_state) (a v : Z) (index : Z) : kM Z :=
  do! store v (le_bytes 8 0);
  do! ioctl_with major l 5 a (FiberArguments 0 0 0 0 0 index v);
  let! bs := mderef (fun s => copy_from_user s.(umem) v 8) in
  mret (s64 (le_value bs)).

(** ** Reading the message *)

Lemma char_of_code c : char_of (char_code c) = c.
Proof. unfold char_of, char_code. rewrite N2Z.id. apply ascii_N_embedding. Qed.

Lemma token_line s rest :
  Forall (fun c => is_digit c = true) s ->
  token ((char_code <$> s ++ [NL]) ++ rest) = Some (s, rest).
Proof.
  induction 1 as [|c s Hc _ IH]; [done|].
  cbn [app fmap list_fmap token]. apply is_digit_range in Hc as Hr.
  destruct (Z.eqb_spec (char_code c) 0); [lia|].
  destruct (Z.eqb_spec (char_code c) 10); [lia|].
  change ((fix go l := match l with [] => [] | x :: l0 => char_code x :: go l0 end) (s ++ [NL]))
    with (char_code <$> (s ++ [NL])). rewrite IH. simpl. by rewrite char_of_code.
Qed.

Lemma strtok_line n rest :
  0 <= n -> strtok ((char_code <$> line n) ++ rest) = Some (Some (format_ld n, rest)).
Proof.
  intros Hn. pose proof (format_ld_chars n Hn) as Hd. unfold line.
  pose proof (token_line (format_ld n) rest Hd) as Htok.
  assert (format_ld n <> []) as Hnil.
  { unfold format_ld. destruct (n <? 0) eqn:E; [lia|]. apply (udec_not_nil 19). }
  destruct (format_ld n) as [|c s]; [done|]. inversion Hd as [|? ? Hc _]; subst.
  apply is_digit_range in Hc as Hr. unfold strtok. cbn [app fmap list_fmap skip_delimiters] in *.
  destruct (Z.eqb_spec (char_code c) 10); [lia|]. cbn [mbind option_bind].
  destruct (char_code c) as [|q|q] eqn:Ec; [lia| |lia]. by rewrite Htok.
Qed.

(** A buffer with a zero byte is not left. *)
Lemma token_total bs : 0 ∈ bs -> is_Some (token bs).
Proof.
  induction bs as [|b bs IH]; [by intros ?%elem_of_nil|]. simpl.
  rewrite elem_of_cons. destruct (Z.eqb_spec b 0) as [->|Hb]; [eauto|].
  destruct (b =? 10); [eauto|]. intros [Heq|H]; [congruence|].
  destruct (IH H) as [[t rest] ->]. simpl. eauto.
Qed.

Lemma strtok_total bs : 0 ∈ bs -> is_Some (strtok bs).
Proof.
  intros H. unfold strtok.
  assert (exists bs', skip_delimiters bs = Some bs' /\ 0 ∈ bs') as (bs' & -> & H').
  { induction bs as [|b bs IH]; [by apply elem_of_nil in H|]. simpl.
    destruct (Z.eqb_spec b 10) as [->|]; [|eauto].
    apply elem_of_cons in H as [|H]; [done|auto]. }
  simpl. destruct bs' as [|b bs']; [by apply elem_of_nil in H'|].
  apply token_total in H' as [x Hx]. destruct b as [|q|q]; rewrite ?Hx; simpl; eauto.
Qed.

(** A buffer without a zero byte and without a newline is left. *)
Lemma token_overrun bs : 0 ∉ bs -> 10 ∉ bs -> token bs = None.
Proof.
  induction bs as [|b bs IH]; [done|]. rewrite !not_elem_of_cons. intros [Hb H0] [Hb' H10].
  cbn [token]. destruct (Z.eqb_spec b 0); [congruence|]. destruct (Z.eqb_spec b 10); [congruence|].
  by rewrite IH.
Qed.

Lemma strtok_overrun bs : 0 ∉ bs -> 10 ∉ bs -> strtok bs = None.
Proof.
  intros H0 H10. unfold strtok. destruct bs as [|b bs]; [done|]. cbn [skip_delimiters].
  apply not_elem_of_cons in H0 as [Hb H0], H10 as [Hb' H10].
  destruct (Z.eqb_spec b 10); [congruence|]. cbn [mbind option_bind].
  assert (token (b :: bs) = None) as Htok by (apply token_overrun; by rewrite not_elem_of_cons).
  destruct b; [done|by rewrite Htok..].
Qed.

(** The loop reads the numbers of the remaining lines, and looks for another one
    in what follows. *)
Lemma parse_lines ns pre rest :
  Forall (fun n => 0 <= n < 2 ^ 31) ns -> (length ns + length pre = MAX_IOCTL_CMDS)%nat -> ns <> [] ->
  (t ← strtok ((char_code <$> lines ns) ++ rest);
   parse_numbers (length ns) t (pre ++ replicate (length ns) 0)) = (_ ← strtok rest; Some (pre ++ ns)).
Proof.
  intros Hns. revert pre. induction Hns as [|n ns Hn Hns IH]; intros pre Hlen Hne; [done|].
  unfold lines. cbn [fmap list_fmap concat]. rewrite fmap_app, <- (app_assoc _ _ rest).
  rewrite strtok_line by lia. cbn [mbind option_bind parse_numbers length replicate].
  assert ((MAX_IOCTL_CMDS - S (length ns) = length pre)%nat) as -> by (simpl in Hlen; lia).
  rewrite insert_app_r_alt, Nat.sub_diag by lia. cbn [insert list_insert].
  assert (strtol (format_ld n) = n) as ->.
  { rewrite <- (app_nil_r (format_ld n)). apply strtol_format_ld; [lia|done]. }
  destruct ns as [|n' ns].
  - simpl. destruct (strtok rest) as [t|]; [|done]. simpl. by destruct t as [[? ?]|].
  - specialize (IH (pre ++ [n])). fold (lines (n' :: ns)).
    rewrite <- (app_assoc pre [n] (replicate _ 0)), <- (app_assoc pre [n] (n' :: ns)) in IH.
    apply IH; [rewrite length_app; simpl in *; lia|done].
Qed.

Context {COk : IoctlCodesOk C} {UOk : UserAccessOk K U}.

(** What a buffer holds after bytes were written at its start. *)
Lemma copied_prefix m a bs m' junk :
  copy_from_user m a 256 = Some junk -> Z.of_nat (length bs) <= 256 ->
  copy_to_user m a bs = (m', 0) ->
  copy_from_user m' a 256 = Some (bs ++ drop (length bs) junk).
Proof.
  intros Hjunk Hlen Hw. apply copy_from_user_Some in Hjunk as [Hl Hj]; [|done].
  assert (m' = (copy_to_user m a bs).1) as -> by (by rewrite Hw).
  apply copy_from_user_Some; [done|]. split; [rewrite length_app, length_drop; lia|].
  intros i Hi. destruct (decide (i < Z.of_nat (length bs))) as [Hlt|Hge].
  - rewrite copy_to_user_done; [|by rewrite Hw|lia]. rewrite lookup_app_l by lia. done.
  - rewrite copy_to_user_other by lia. rewrite Hj, lookup_app_r, lookup_drop by lia.
    f_equal. lia.
Qed.

Lemma mapped_prefix m a bs junk :
  copy_from_user m a 256 = Some junk -> Z.of_nat (length bs) <= 256 -> (copy_to_user m a bs).2 = 0.
Proof.
  intros Hjunk Hlen. apply copy_from_user_Some in Hjunk as [Hl Hj]; [|done].
  apply copy_to_user_mapped. intros i Hi. rewrite Hj by lia. apply lookup_lt_is_Some_2. lia.
Qed.

Lemma fibers_read_all mj buf s junk :
  0 <= mj < 2 ^ 12 -> copy_from_user s.(umem) buf 256 = Some junk ->
  let msg := char_array (publish_ioctl_message mj) in
  let text := char_code <$> lines (codes mj) in
  exists m', copy_to_user s.(umem) buf text = (m', 0) /\
    fibers_read msg buf 256 0 s = Some ((strnlen msg, strnlen msg), set_umem m' s).
Proof.
  intros Hm Hjunk msg text.
  destruct (message_facts mj Hm) as (Hlen & Htwice & Hpos & Hstr & Hmsg).
  fold msg in Hlen, Htwice, Hpos, Hstr, Hmsg.
  assert (Z.of_nat (length text) = strnlen msg) as Htext by (unfold text; by rewrite length_fmap).
  assert (slice msg 0 (strnlen msg) = Some text) as Hslice.
  { unfold slice. replace (_ && _ && _) with true by lia. f_equal. rewrite <- Htext, Nat2Z.id. change (drop (Z.to_nat 0) msg) with msg.
    rewrite Hmsg. apply take_app_length. }
  pose proof (mapped_prefix s.(umem) buf text junk Hjunk ltac:(lia)) as Hres.
  destruct (copy_to_user s.(umem) buf text) as [m' left] eqn:Hw. simpl in Hres. subst left.
  exists m'. split; [done|]. unfold fibers_read.
  replace (strnlen msg <=? u64 0) with false by (rewrite u64_small by lia; lia).
  replace (Z.min 256 (strnlen msg)) with (strnlen msg) by lia.
  unfold mthen at 1, mderef. rewrite Hslice, mthen_reads, Hw. done.
Qed.

(** The constructor, for any contents of its buffer: it looks for an eighth
    number behind the message. *)
Lemma fiberlib_init_run mj fd buf junk s fuel :
  0 <= mj < 2 ^ 12 -> 0 <= fd -> copy_from_user s.(umem) buf 256 = Some junk -> (2 <= fuel)%nat ->
  exists m',
    fiberlib_init fuel fd (char_array (publish_ioctl_message mj)) buf s =
      match strtok (drop (length (lines (codes mj))) junk) with
      | Some _ => Some (LibState fd (codes mj) 1, set_umem m' s)
      | None => None
      end.
Proof.
  intros Hm Hfd Hjunk Hfuel. destruct fuel as [|[|fuel]]; [lia|lia|].
  destruct (message_facts mj Hm) as (Hlen & Htwice & Hpos & Hstr & Hmsg).
  destruct (fibers_read_all mj buf s junk Hm Hjunk) as (m' & Hw & Hread).
  set (msg := char_array (publish_ioctl_message mj)) in *.
  exists m'. unfold fiberlib_init.
  assert (read_loop (S (S fuel)) fd msg buf 0 0 s = Some (Some (strnlen msg), set_umem m' s)) as Hloop.
  { cbn [read_loop]. replace (fd <? 0) with false by lia.
    rewrite Z.add_0_r, Z.sub_0_r. erewrite mthen_eq by exact Hread. cbv beta iota zeta.
    replace (strnlen msg <? 0) with false by lia. replace (strnlen msg =? 0) with false by lia.
    cbn [andb]. rewrite Z.add_0_l. unfold fibers_read.
    rewrite u64_small by lia. rewrite Z.leb_refl.
    replace (strnlen msg <? 0) with false by lia. replace (strnlen msg =? 0) with false by lia. done. }
  erewrite mthen_eq by exact Hloop.
  assert (Z.of_nat (length (char_code <$> lines (codes mj))) <= 256) as Hfits by (rewrite length_fmap; lia).
  pose proof (copied_prefix _ _ _ _ _ Hjunk Hfits Hw) as Hbuf.
  rewrite length_fmap in Hbuf. unfold mthen at 1, mderef at 1.
  change (umem (set_umem m' s)) with m'. rewrite Hbuf.
  unfold mthen at 1, mderef at 1.
  pose proof (parse_lines (codes mj) [] (drop (length (lines (codes mj))) junk) (codes_range mj Hm)) as Hparse.
  specialize (Hparse eq_refl ltac:(done)). simpl app in Hparse.
  change (length (codes mj)) with MAX_IOCTL_CMDS in Hparse.
  change (replicate MAX_IOCTL_CMDS 0) with [0; 0; 0; 0; 0; 0; 0]. rewrite Hparse.
  destruct (strtok (drop _ junk)); reflexivity.
Qed.

(** C23: The constructor of the library recovers the seven command numbers the
    module published, whatever its buffer contained behind them, as long as there
    is a zero byte.  The message is read without one: when what the buffer
    contained behind it holds neither a zero byte nor a newline, [strtok] runs out
    of the buffer. *)
Theorem fiberlib_init_numbers mj fd buf junk s fuel :
  0 <= mj < 2 ^ 12 -> 0 <= fd -> copy_from_user s.(umem) buf 256 = Some junk -> (2 <= fuel)%nat ->
  let rest := drop (length (lines (codes mj))) junk in
  let init := fiberlib_init fuel fd (char_array (publish_ioctl_message mj)) buf s in
  (0 ∈ rest ->
     exists m', init = Some (LibState fd (IO mj <$> [0; 1; 2; 3; 4; 5; 6]) 1, set_umem m' s)) /\
  (0 ∉ rest -> 10 ∉ rest -> init = None).
Proof.
  intros Hm Hfd Hjunk Hfuel rest init.
  destruct (fiberlib_init_run mj fd buf junk s fuel) as (m' & Hrun); [done..|].
  fold rest in Hrun. fold init in Hrun. split.
  - intros [t Ht]%strtok_total. rewrite Ht in Hrun. by exists m'.
  - intros H0 H10. by rewrite strtok_overrun in Hrun.
Qed.

(** ** The calls *)

(** The value [ioctl] returns for the result [r] of the system call. *)
Definition ioctl_result (r : Z) : Z := if (-4095 <=? r) && (r <? 0) then -1 else r.

(** The structure the kernel reads where the library stored [f]. *)
Definition received (f : fiber_arguments) : fiber_arguments :=
  FiberArguments (u64 f.(fa_stack_pointer)) (u64 f.(fa_stack_size))
    (u64 f.(fa_start_function_address)) (u64 f.(fa_start_function_arguments))
    (s32 f.(fa_fiber_id)) (s64 f.(fa_index)) (s64 f.(fa_buffer)).

(** [n] bytes at [a] are mapped. *)
Definition mapped (m : user_mem) (a n : Z) : Prop :=
  forall i, 0 <= i < n -> is_Some (user_byte m (a + i)).

(** The library knows the numbers of device [mj]. *)
Definition initialised (mj : Z) (l : lib_state) : Prop :=
  0 <= mj < 2 ^ 12 /\ 0 <= l.(fd) /\ l.(ioctl_numbers) = codes mj.

Lemma initialised_code mj l (nr : nat) :
  initialised mj l -> (nr < 7)%nat -> u32 (nth nr l.(ioctl_numbers) 0) = IO mj (Z.of_nat nr).
Proof.
  intros (Hm & _ & ->) Hnr.
  assert (nth nr (codes mj) 0 = IO mj (Z.of_nat nr)) as ->.
  { do 7 (destruct nr as [|nr]; [done|]). lia. }
  apply uw_small. pose proof (IO_range mj (Z.of_nat nr) Hm ltac:(lia)). lia.
Qed.

(** A variable that is stored is found in memory, and nothing else changes. *)
Lemma store_run a bs s :
  mapped s.(umem) a (Z.of_nat (length bs)) ->
  exists m', store a bs s = Some (tt, set_umem m' s) /\
    copy_from_user m' a (Z.of_nat (length bs)) = Some bs /\
    (forall b, ~ (a <= b < a + Z.of_nat (length bs)) -> user_byte m' b = user_byte s.(umem) b).
Proof.
  intros Hmap. pose proof (copy_to_user_mapped s.(umem) a bs Hmap) as Hres.
  exists (copy_to_user s.(umem) a bs).1. split_and!.
  - unfold store. rewrite mthen_reads. destruct (copy_to_user s.(umem) a bs) as [m' left].
    simpl in Hres. by subst left.
  - apply copy_from_user_Some; [lia|]. split; [done|]. intros i Hi. by apply copy_to_user_done.
  - intros b Hb. by apply copy_to_user_other.
Qed.

Lemma received_at m a f :
  access_ok a 56 = true -> copy_from_user m a 56 = Some (encode_arguments f) ->
  arguments_at m a = Some (received f).
Proof.
  intros Hok Hcopy. unfold arguments_at, sizeof_fiber_arguments. rewrite Hok, Hcopy. simpl.
  by rewrite decode_encode.
Qed.

(** A call of the library with arguments is the event its command stands for,
    caused by the calling task in the state where the structure has been stored
    on its stack; errors are reported as -1. *)
Lemma library_request mj l (nr : nat) a f e s :
  initialised mj l -> (nr < 7)%nat -> request (Z.of_nat nr) (received f) = Some e ->
  access_ok a 56 = true -> mapped s.(umem) a 56 ->
  exists m',
    (forall b, ~ (a <= b < a + 56) -> user_byte m' b = user_byte s.(umem) b) /\
    ioctl_with mj l nr a f s =
      (let! r := run_event e in mret (ioctl_result r)) (set_umem m' s).
Proof.
  intros Hl Hnr Hreq Hok Hmap.
  pose proof (encode_arguments_length f) as Hlen.
  destruct (store_run a (encode_arguments f) s) as (m' & Hstore & Hcopy & Hother);
    rewrite Hlen in *; [done|].
  exists m'. split; [done|]. unfold ioctl_with.
  erewrite mthen_eq by exact Hstore. unfold ioctl.
  replace (l.(fd) <? 0) with false by (destruct Hl as (_ & ? & _); lia).
  rewrite (initialised_code mj l nr Hl Hnr). unfold mthen.
  rewrite (fibers_ioctl_run mj (Z.of_nat nr) a (set_umem m' s) (received f) e Hreq); [done|].
  right. by apply received_at.
Qed.

(** A call without arguments. *)
Lemma library_plain_request mj l (nr : nat) e s :
  initialised mj l -> (nr < 7)%nat -> has_arguments (Z.of_nat nr) = false ->
  request (Z.of_nat nr) (FiberArguments 0 0 0 0 0 0 0) = Some e ->
  ioctl mj l nr 0 s = (let! r := run_event e in mret (ioctl_result r)) s.
Proof.
  intros Hl Hnr Hno Hreq. unfold ioctl.
  replace (l.(fd) <? 0) with false by (destruct Hl as (_ & ? & _); lia).
  rewrite (initialised_code mj l nr Hl Hnr). unfold mthen.
  rewrite (fibers_ioctl_run mj (Z.of_nat nr) 0 s (FiberArguments 0 0 0 0 0 0 0) e Hreq); [done|by left].
Qed.

Lemma u64_s64_address x : 0 <= x < 2 ^ 63 -> u64 (s64 x) = x.
Proof. intros H. rewrite s64_small, u64_small by lia. done. Qed.

Context {KOk : KernelOk K}.

Lemma stored_value_umem s m tk i : stored_value (set_umem m s) tk i = stored_value s tk i.
Proof. done. Qed.

(** The stored bytes stay mapped. *)
Lemma mapped_after m m' a n v k bs :
  copy_from_user m' a n = Some bs -> 0 <= n ->
  (forall b, ~ (a <= b < a + n) -> user_byte m' b = user_byte m b) ->
  mapped m v k -> mapped m' v k.
Proof.
  intros Hcopy Hn Hother Hmap i Hi. apply copy_from_user_Some in Hcopy as [Hl Hb]; [|done].
  destruct (decide (a <= v + i < a + n)) as [Hin|Hout].
  - replace (v + i) with (a + (v + i - a)) by lia. rewrite Hb by lia.
    apply lookup_lt_is_Some_2. lia.
  - rewrite Hother by done. by apply Hmap.
Qed.

(** [FlsGetValue] of the library: through the structure on the stack, the
    system call, the module and the copy back. *)
Lemma library_get_value n mj l a v i s tk :
  reach n s -> n < INT_MAX -> s.(tasks) !! s.(current) = Some tk ->
  initialised mj l -> access_ok a 56 = true -> mapped s.(umem) a 56 -> mapped s.(umem) v 8 ->
  v + 8 <= a \/ a + 56 <= v -> 0 <= v < 2 ^ 63 ->
  exists m',
    lib_FlsGetValue mj l a v i s = Some (s64 (stored_value s tk (s64 i)), set_umem m' s).
Proof.
  intros Hr Hn Htk Hl Hok Hma Hmv Hdisj Hv. apply reach_good in Hr as [? Hg]; [|lia].
  set (f := FiberArguments 0 0 0 0 0 i v).
  destruct (store_run v (le_bytes 8 0) s Hmv) as (m1 & Hst1 & Hc1 & Ho1).
  change (Z.of_nat (length (le_bytes 8 0))) with 8 in *.
  pose proof (encode_arguments_length f) as Hlen.
  destruct (store_run a (encode_arguments f) (set_umem m1 s)) as (m2 & Hst2 & Hc2 & Ho2); rewrite Hlen in *.
  { by eapply mapped_after. }
  change (umem (set_umem m1 s)) with m1 in *. change (set_umem m2 (set_umem m1 s)) with (set_umem m2 s) in *.
  assert (mapped m2 v 8) as Hmv2 by (by eapply (mapped_after m1); [| | |eapply mapped_after]).
  pose proof (received_at m2 a f Hok Hc2) as Hargs.
  assert (good n (set_umem m2 s)) as Hg2.
  { destruct Hg as [Hwf Hids]. split; [|done]. by destruct Hwf. }
  pose proof (get_value_run n (set_umem m2 s) tk (fa_index (received f)) Hg2 Htk) as Hget.
  rewrite stored_value_umem in Hget. change (fa_index (received f)) with (s64 i) in Hget.
  pose proof (ioctl_get_run mj a (set_umem m2 s) (received f) _ Hargs Hget) as Hrun. cbv zeta in Hrun.
  change (fa_buffer (received f)) with (s64 v) in Hrun. rewrite u64_s64_address in Hrun by done.
  set (ret := stored_value s tk (s64 i)) in *. change (umem (set_umem m2 s)) with m2 in *.
  assert ((copy_to_user m2 v (le_bytes 8 ret)).2 = 0) as Hw by (by apply copy_to_user_mapped).
  rewrite Hw in Hrun. set (m3 := (copy_to_user m2 v (le_bytes 8 ret)).1) in *.
  change (set_umem m3 (set_umem m2 s)) with (set_umem m3 s) in Hrun.
  assert (copy_from_user m3 v 8 = Some (le_bytes 8 ret)) as Hread.
  { apply copy_from_user_Some; [done|]. split; [by rewrite le_bytes_length|].
    intros j Hj. apply copy_to_user_done; [done|]. by rewrite le_bytes_length. }
  exists m3. unfold lib_FlsGetValue. erewrite mthen_eq by exact Hst1.
  unfold ioctl_with, ioctl. rewrite mthen_assoc. fold f. erewrite mthen_eq by exact Hst2.
  replace (l.(fd) <? 0) with false by (destruct Hl as (_ & ? & _); lia).
  rewrite (initialised_code mj l 5 Hl) by lia. rewrite mthen_assoc.
  erewrite mthen_eq by exact Hrun. rewrite mthen_ret_l.
  unfold mthen, mderef. change (umem (set_umem m3 s)) with m3. rewrite Hread.
  unfold mret. by rewrite le_u64, s64_u64.
Qed.

(** When the device could not be opened [FlsFree] reports success: the -1 of
    the failed system call is converted to true. *)
Lemma library_free_without_device mj l a i s :
  l.(fd) < 0 -> mapped s.(umem) a 56 ->
  exists m', lib_FlsFree mj l a i s = Some (true, set_umem m' s).
Proof.
  intros Hfd Hmap. set (f := FiberArguments 0 0 0 0 0 i 0).
  pose proof (encode_arguments_length f) as Hlen.
  destruct (store_run a (encode_arguments f) s) as (m' & Hst & _); [by rewrite Hlen|].
  exists m'. unfold lib_FlsFree, ioctl_with. fold f. rewrite mthen_assoc.
  erewrite mthen_eq by exact Hst. unfold ioctl.
  replace (l.(fd) <? 0) with true by lia. done.
Qed.

(** The result of event [e] for the caller of the library: [c] converts it to
    the type of the function. *)
Definition called {A} (e : event) (c : Z -> A) : kM A :=
  let! r := run_event e in mret (c (ioctl_result r)).

(** [m'] differs from [m] in the [n] bytes at [a] at most. *)
Definition only_at (a n : Z) (m m' : user_mem) : Prop :=
  forall b, ~ (a <= b < a + n) -> user_byte m' b = user_byte m b.

Lemma mthen_called {A} (q : kM Z) e (c : Z -> A) s s' :
  q s = (let! r := run_event e in mret (ioctl_result r)) s' ->
  (let! r := q in mret (c r)) s = called e c s'.
Proof.
  intros H. unfold called, mthen in *. rewrite H. by destruct (run_event e s') as [[r s'']|].
Qed.

(** The stack is cleared before the structure is filled. *)
Lemma library_create mj l a s sp size fn param :
  initialised mj l -> access_ok a 56 = true -> mapped s.(umem) a 56 ->
  0 <= size -> mapped s.(umem) sp size -> sp + size <= a \/ a + 56 <= sp ->
  exists m',
    copy_from_user m' sp size = Some (replicate (Z.to_nat size) 0) /\
    (forall b, ~ (a <= b < a + 56) -> ~ (sp <= b < sp + size) ->
       user_byte m' b = user_byte s.(umem) b) /\
    CreateFiber mj l a (Some sp) fn size param s =
      called (ECreate (u64 sp) (u64 size) (u64 fn) (u64 param)) s32 (set_umem m' s).
Proof.
  intros Hl Hok Hma Hsize Hms Hdisj.
  set (zeros := replicate (Z.to_nat size) 0).
  assert (Z.of_nat (length zeros) = size) as Hlen by (unfold zeros; rewrite length_replicate; lia).
  destruct (store_run sp zeros s) as (m1 & Hst & Hc1 & Ho1); rewrite Hlen in *; [done|].
  destruct (library_request mj l 1 a (FiberArguments sp size fn param 0 0 0)
              (ECreate (u64 sp) (u64 size) (u64 fn) (u64 param)) (set_umem m1 s))
    as (m2 & Ho2 & Hcall); [done|lia|done|done|by eapply mapped_after|].
  change (umem (set_umem m1 s)) with m1 in *.
  change (set_umem m2 (set_umem m1 s)) with (set_umem m2 s) in *.
  exists m2. split_and!.
  - apply copy_from_user_Some in Hc1 as [_ Hb]; [|lia].
    apply copy_from_user_Some; [lia|]. split; [done|]. intros i Hi. rewrite Ho2 by lia. by apply Hb.
  - intros b Hb1 Hb2. rewrite Ho2 by done. by apply Ho1.
  - unfold CreateFiber. fold zeros. erewrite mthen_eq by exact Hst. by apply mthen_called.
Qed.

End FiberLib.

(** ** Applications to a run *)

Import Reference.

Definition library : lib_state := LibState 3 (codes 240) 1.

Lemma library_initialised : initialised 240 library.
Proof. split; [|split]; [done|done|reflexivity]. Qed.

(** A buffer of zeros at address 0, and thread 10 with a zeroed stack there. *)
Definition zeroed_10 : kstate := set_umem (memory_of 0 (replicate 256 0)) thread_10.

Lemma zeroed_10_reach : reach 8 zeroed_10.
Proof. eapply (reach_step 7); [exact thread_10_reach|]. by apply step_outside. Qed.

#[global] Opaque zeroed_10.

Lemma zeroed_buffer : copy_from_user zeroed_10.(umem) 0 256 = Some (replicate 256 0).
Proof. vm_compute. reflexivity. Qed.

Lemma zeroed_mapped a n : 0 <= a -> a + n <= 256 -> mapped zeroed_10.(umem) a n.
Proof.
  intros Ha Hn i Hi. pose proof zeroed_buffer as H. apply copy_from_user_Some in H as [_ Hb]; [|lia].
  specialize (Hb (a + i) ltac:(lia)). rewrite Z.add_0_l in Hb. rewrite Hb.
  apply lookup_lt_is_Some_2. rewrite length_replicate. lia.
Qed.

(** The same with a buffer that was full of ones. *)
Definition littered_10 : kstate := set_umem (memory_of 0 (replicate 256 1)) thread_10.

Lemma fiberlib_init_numbers_witness :
  (exists m', fiberlib_init 2 3 (char_array (publish_ioctl_message 240)) 0 zeroed_10 =
    Some (library, set_umem m' zeroed_10)) /\
  fiberlib_init 2 3 (char_array (publish_ioctl_message 240)) 0 littered_10 = None.
Proof.
  split.
  - apply (fiberlib_init_numbers 240 3 0 (replicate 256 0) zeroed_10 2);
      [done|lia|exact zeroed_buffer|lia|vm_compute; left].
  - apply (fiberlib_init_numbers 240 3 0 (replicate 256 1) littered_10 2);
      [done|lia|vm_compute; reflexivity|lia|..];
      rewrite drop_replicate; intros [Heq _]%elem_of_replicate; discriminate Heq.
Defined.

