(* ===== verification/Proc.v ===== *)
(** * The files under /proc

    [module/proc.c], which lists the fibers of a process as files and reads
    them, and the two return probes of [module/kprobes.c] that add the directory of
    the fibers to the directory of the process, over the functions of the kernel
    they call. *)

From S2P Require Import Prelude Kernel State CStr Fibers Heap Runs Kprobes Safety Fls Outcome System Views Scenario Switching UserMem Ioctl Device.

Definition PROC_STAT_LEN : Z := 512.
Definition ENOENT : Z := 2.

(** [S_IFREG|S_IRUGO] *)
Definition fiber_file_mode : Z := 33060.

(** The fields of [struct pid_entry] that the module assigns; [fop] is always
    [f_fops] and [iop] is NULL. *)
Record pid_entry := PidEntry { pe_name : option cstring; pe_len : Z; pe_mode : Z }.
Definition zero_entry : pid_entry := PidEntry None 0 0.

(** ** Text *)

Definition text (s : string) : cstring := String.list_ascii_of_string s.

(** Hexadecimal digits, most significant first: [%016lx] with 16 of them. *)
Definition hex_char (d : Z) : ascii := if d <? 10 then char_of (48 + d) else char_of (87 + d).
Fixpoint hex (digits : nat) (n : Z) : cstring :=
  match digits with
  | O => []
  | S k => hex k (n / 16) ++ [hex_char (n mod 16)]
  end.

(** ** The directory of the fibers in the directory of a process *)

(** [NOD], [DIR] and the array [additional] of [kprobes.h]; of the operations,
    the functions that are named. *)
Definition S_IFDIR : Z := 16384.
Definition S_IRUGO : Z := 292.
Definition S_IXUGO : Z := 73.

Definition NOD (name : string) (mode : Z) : pid_entry :=
  PidEntry (Some (text name)) (Z.of_nat (String.length name)) mode.
Definition DIR (name : string) (mode : Z) : pid_entry := NOD name (Z.lor S_IFDIR mode).
Definition fibers_entry : pid_entry := DIR "fibers" (Z.lor S_IRUGO S_IXUGO).
Definition additional : list pid_entry := [fibers_entry].

(** The functions of the kernel around the probes, over a state [vfs] of the file
    system.  Those that walk over an array get a pointer to it, here the function
    from an index, which may be negative, to the entry found there; [None] is an
    entry that cannot be read, and their result for a fault.  [dir_emit] adds an
    entry to a listing.  [beyond i] is what memory holds where entry [i] of
    [additional] would be, outside of the array. *)
Class ProcFS : Type := {
  vfs : Type;
  ctx_pos : Z -> vfs -> Z;
  dir_emit : Z -> pid_entry -> vfs -> vfs;
  proc_pident_readdir : Z -> Z -> (Z -> option pid_entry) -> Z -> vfs -> option vfs;
  proc_pident_lookup : Z -> Z -> (Z -> option pid_entry) -> Z -> vfs -> option vfs;
  proc_tgid_base_readdir : Z -> Z -> vfs -> Z * vfs;
  proc_tgid_base_lookup : Z -> Z -> vfs -> Z * vfs;
  task_of_file : Z -> option Z;
  task_of_inode : Z -> option Z;
  beyond : Z -> option pid_entry
}.

(** [proc_pident_readdir(file, ctx, ents, n)] lists the entries with the indices
    from [ctx->pos - 2] below [n]: none, one, or more, of which it reads the first.
    [proc_pident_lookup(dir, dentry, ents, n)] looks for a name from entry 0 on, and
    reads no others than these [n]. *)
Class ProcFSOk (V : ProcFS) : Prop := {
  readdir_past file ctx ents n v :
    n <= ctx_pos ctx v - 2 -> proc_pident_readdir file ctx ents n v = Some v;
  readdir_last file ctx ents n v :
    2 <= ctx_pos ctx v -> ctx_pos ctx v - 2 = n - 1 ->
    proc_pident_readdir file ctx ents n v = (fun e => dir_emit ctx e v) <$> ents (n - 1);
  readdir_first file ctx ents n v :
    2 <= ctx_pos ctx v -> ctx_pos ctx v - 2 < n -> ents (ctx_pos ctx v - 2) = None ->
    proc_pident_readdir file ctx ents n v = None;
  lookup_first dir dentry ents n v :
    0 < n -> ents 0 = None -> proc_pident_lookup dir dentry ents n v = None;
  lookup_reads dir dentry ents n v :
    (forall i, 0 <= i < n -> is_Some (ents i)) -> is_Some (proc_pident_lookup dir dentry ents n v)
}.

Section Probes.
Context {K : Kernel} {V : ProcFS}.

(** Entry [i] of the array, which may be outside of it, and the entries behind
    the pointer [additional - k]. *)
Definition additional_entry (i : Z) : option pid_entry :=
  if (0 <=? i) && (i <? Z.of_nat (length additional)) then additional !! Z.to_nat i else beyond i.
Definition additional_minus (k : Z) : Z -> option pid_entry := fun i => additional_entry (i - k).

(** The return handlers after they have read the data of the probe instance.
    [nents] is an [int] shared by all of them, [pos] an [unsigned int]. *)
Definition proc_insert_dir (nents file ctx : Z) (v : vfs) : kM (Z * vfs) :=
  let! pid := mderef (fun _ => task_of_file file) in
  let nents := if nents =? 0 then s32 (ctx_pos ctx v) else nents in
  let! t := load_task pid in
  let! p := find_process_by_tgid t.(tgid) in
  match p with
  | None => mret (nents, v)
  | Some _ =>
      let pos := u32 nents in
      let! v := mderef (fun _ =>
        proc_pident_readdir file ctx (additional_minus (u32 (pos - 2))) (u32 (pos - 1)) v) in
      mret (nents, v)
  end.

Definition proc_lookup_dir (nents inode dentry : Z) (v : vfs) : kM vfs :=
  let! pid := mderef (fun _ => task_of_inode inode) in
  let! t := load_task pid in
  let! p := find_process_by_tgid t.(tgid) in
  match p with
  | None => mret v
  | Some _ =>
      if nents =? 0 then mret v
      else
        let pos := u32 nents in
        mderef (fun _ =>
          proc_pident_lookup inode dentry (additional_minus (u32 (pos - 2))) (u32 (pos - 1)) v)
  end.

Context {KOk : KernelOk K} {VOk : ProcFSOk V}.

Lemma find_process_step n s g A (k : option ptr -> kM A) :
  reach n s -> n <= INT_MAX -> mthen (find_process_by_tgid g) k s = k (process_at s g) s.
Proof.
  intros Hr Hn. apply reach_good in Hr as [_ [Hwf _]]; [|done].
  by erewrite mthen_eq by (apply find_process_run, Hwf).
Qed.

(** The task of a file or inode and its process. *)
Lemma task_process_step n s pid tk o A (k : option ptr -> kM A) :
  reach n s -> n <= INT_MAX -> o = Some pid -> s.(tasks) !! pid = Some tk ->
  (let! pid := mderef (fun _ => o) in
   let! t := load_task pid in let! p := find_process_by_tgid t.(tgid) in k p) s =
  k (process_at s tk.(tgid)) s.
Proof.
  intros Hr Hn -> Htk. erewrite mthen_eq by done. unfold load_task.
  erewrite mthen_eq by (by apply mderef_eq). by apply (find_process_step n).
Qed.

Lemma additional_minus_in k : additional_minus k k = Some fibers_entry.
Proof. unfold additional_minus. by rewrite Z.sub_diag. Qed.

Lemma additional_minus_out k i : i < k -> additional_minus k i = beyond (i - k).
Proof. intros H. unfold additional_minus, additional_entry. by replace (0 <=? i - k) with false by lia. Qed.

(** The listing of a process with fibers, once the size of its directory is
    known: the original one reached its end, or not, or is past it. *)
Lemma insert_dir_run n s pid tk p nents file ctx v :
  reach n s -> n <= INT_MAX -> task_of_file file = Some pid -> s.(tasks) !! pid = Some tk ->
  process_at s tk.(tgid) = Some p ->
  let size := if nents =? 0 then s32 (ctx_pos ctx v) else nents in
  2 <= size < 2 ^ 31 ->
  (ctx_pos ctx v = size -> proc_insert_dir nents file ctx v s = Some ((size, dir_emit ctx fibers_entry v), s)) /\
  (size < ctx_pos ctx v -> proc_insert_dir nents file ctx v s = Some ((size, v), s)) /\
  (2 <= ctx_pos ctx v < size -> beyond (ctx_pos ctx v - size) = None ->
     proc_insert_dir nents file ctx v s = None).
Proof.
  intros Hr Hn Hf Htk Hp size Hsize. unfold proc_insert_dir.
  rewrite (task_process_step n s pid tk) by done. rewrite Hp. fold size.
  rewrite !(uw_small 32 size), !uw_small by (rewrite ?uw_small; lia).
  split_and!.
  - intros Hpos. unfold mthen, mderef. rewrite readdir_last by lia.
    replace (size - 1 - 1) with (size - 2) by lia. by rewrite additional_minus_in.
  - intros Hpos. unfold mthen, mderef. by rewrite readdir_past by lia.
  - intros Hpos Hout. unfold mthen, mderef. rewrite readdir_first; [done|lia|lia|].
    rewrite additional_minus_out by lia. by replace (ctx_pos ctx v - 2 - (size - 2)) with (ctx_pos ctx v - size) by lia.
Qed.

(** A lookup, once the size is known: it starts [nents - 2] entries before the
    array. *)
Lemma lookup_dir_run n s pid tk p nents inode dentry v :
  reach n s -> n <= INT_MAX -> task_of_inode inode = Some pid -> s.(tasks) !! pid = Some tk ->
  process_at s tk.(tgid) = Some p -> 2 <= nents < 2 ^ 31 ->
  (2 < nents -> beyond (2 - nents) = None -> proc_lookup_dir nents inode dentry v s = None) /\
  ((forall i, 2 - nents <= i < 0 -> is_Some (beyond i)) ->
     exists v', proc_lookup_dir nents inode dentry v s = Some (v', s)).
Proof.
  intros Hr Hn Hf Htk Hp Hsize. unfold proc_lookup_dir.
  rewrite (task_process_step n s pid tk) by done. rewrite Hp. replace (nents =? 0) with false by lia.
  rewrite !(uw_small 32 nents), !uw_small by (rewrite ?uw_small; lia). unfold mderef. split.
  - intros H2 Hout. rewrite lookup_first; [done|lia|].
    rewrite additional_minus_out by lia. by replace (0 - (nents - 2)) with (2 - nents) by lia.
  - intros Hin. destruct (lookup_reads inode dentry (additional_minus (nents - 2)) (nents - 1) v) as [v' ->].
    + intros i Hi. destruct (decide (i = nents - 2)) as [->|Hne]; [by rewrite additional_minus_in|].
      rewrite additional_minus_out by lia. apply Hin. lia.
    + by exists v'.
Qed.
End Probes.

Section Proc.
Context {K : Kernel} {U : UserAccess K}.

(** The text of the file of a fiber. *)
Definition stat_text (F : fiber) : cstring :=
  text "Currently Ongoing: " ++
  text (if decide (F.(attached_thread) = None) then "no" else "yes") ++ [NL] ++
  text "Start Address: 0x" ++ hex 16 F.(start_address) ++ [NL] ++
  text "Creator thread: " ++ format_ld F.(creator_thread) ++ [NL] ++
  text "# of current activations: " ++ format_ld F.(activation_counter) ++ [NL] ++
  text "# of failed activations: " ++ format_ld F.(failed_activation_counter) ++ [NL] ++
  text "Total execution time in user space: " ++ format_ld (F.(total_time) / 1000000000) ++ [NL].

(** ** The directory *)

(** The loop over the fibers of a process: entry [counter] of the array is
    written, which faults outside of it. *)
Fixpoint fill_entries (heap : gmap ptr fiber) (l : list ptr) (counter : nat)
    (entries : list pid_entry) : option (list pid_entry) :=
  match l with
  | [] => Some entries
  | f :: l' =>
      match heap !! f with
      | None => None
      | Some F =>
          if decide (counter < length entries)%nat then
            fill_entries heap l' (S counter)
              (<[counter := PidEntry (Some F.(name)) (Z.of_nat (length F.(name))) fiber_file_mode]> entries)
          else None
      end
  end.

(** The array both operations build; [allocated] tells whether [kmalloc] has
    memory. *)
Definition fiber_base_stuff (allocated : bool) (p : ptr) : kM (list pid_entry * Z) :=
  let! P := load_process p in
  let nents := P.(last_fiber_id) in
  if allocated then
    let! entries := mderef (fun s =>
      fill_entries s.(fiber_heap) (hash_each P.(fibers)) 0 (replicate (Z.to_nat nents) zero_entry)) in
    mret (entries, nents)
  else mfault.

(** [task]: the pid of the task of the directory, if it still exists. *)
Definition proc_fiber_base_readdir (readdir : list pid_entry -> Z -> Z) (allocated : bool)
    (task : option Z) : kM Z :=
  match task with
  | None => mret (- ENOENT)
  | Some pid =>
      let! t := load_task pid in
      let! p := find_process_by_tgid t.(tgid) in
      match p with
      | None => mret 0
      | Some p =>
          let! (entries, nents) := fiber_base_stuff allocated p in
          mret (readdir entries nents)
      end
  end.

Definition proc_fiber_base_lookup {D} (ERR_PTR : Z -> D) (NULL : D) (look : list pid_entry -> Z -> D)
    (allocated : bool) (task : option Z) : kM D :=
  match task with
  | None => mret (ERR_PTR (- ENOENT))
  | Some pid =>
      let! t := load_task pid in
      let! p := find_process_by_tgid t.(tgid) in
      match p with
      | None => mret NULL
      | Some p =>
          let! (entries, nents) := fiber_base_stuff allocated p in
          mret (look entries nents)
      end
  end.

(** ** The file of a fiber *)

(** [kstrtoul(name, 10, &id)] is [kstrtoul name]; the result is the number of
    bytes delivered and the new position. *)
Definition proc_fiber_read (kstrtoul : cstring -> option Z) (file_name : cstring) (buf len off : Z)
    (task : option Z) : kM (Z * Z) :=
  let! pid := mderef (fun _ => task) in
  let! t := load_task pid in
  let! ep := find_process_by_tgid t.(tgid) in
  match ep with
  | None => mret (0, off)
  | Some ep =>
      match kstrtoul file_name with
      | None => mret (0, off)
      | Some fiber_id =>
          let! fp := find_fiber_by_id (s32 fiber_id) ep in
          match fp with
          | None => mret (0, off)
          | Some fp =>
              let! F := load_fiber fp in
              let proc_stat_string := char_code <$> snprintf PROC_STAT_LEN (stat_text F) in
              let n := Z.of_nat (length proc_stat_string) in
              if n <=? u64 off then mret (0, off)
              else
                let i := Z.min len n in
                let! m := mreads umem in
                let (m', left) := copy_to_user m buf (take (Z.to_nat i) proc_stat_string) in
                do! mmodify (set_umem m');
                if left =? 0 then mret (i, off + i) else mret (- EFAULT, off)
          end
      end
  end.

(** ** Facts *)

Lemma hex_length k n : length (hex k n) = k.
Proof. revert n. induction k as [|k IH]; intros n; [done|]. simpl. rewrite length_app, IH. simpl. lia. Qed.

Lemma format_ld_length_any n : (length (format_ld n) <= 21)%nat.
Proof.
  unfold format_ld. destruct (n <? 0).
  - pose proof (udec_length 20 (- n)). cbn [length]. lia.
  - pose proof (udec_length 20 n). lia.
Qed.

(** The text fits in the buffer of the read. *)
Lemma stat_text_fits F : snprintf PROC_STAT_LEN (stat_text F) = stat_text F.
Proof.
  unfold snprintf. apply take_ge. unfold stat_text. rewrite !length_app, hex_length.
  pose proof (format_ld_length_any F.(creator_thread)).
  pose proof (format_ld_length_any F.(activation_counter)).
  pose proof (format_ld_length_any F.(failed_activation_counter)).
  pose proof (format_ld_length_any (F.(total_time) / 1000000000)).
  change (Z.to_nat (PROC_STAT_LEN - 1)) with 511%nat.
  destruct (decide (F.(attached_thread) = None)); simpl length; lia.
Qed.

Definition entry_of (F : fiber) : pid_entry :=
  PidEntry (Some F.(name)) (Z.of_nat (length F.(name))) fiber_file_mode.

(** With as many entries as fibers the loop stays in the array and fills it. *)
Lemma fill_entries_run heap l (Fs : list fiber) pre :
  Forall2 (fun f F => heap !! f = Some F) l Fs ->
  fill_entries heap l (length pre) (pre ++ replicate (length l) zero_entry) = Some (pre ++ (entry_of <$> Fs)).
Proof.
  intros H. revert pre. induction H as [|f F l Fs HF _ IH]; intros pre.
  - simpl. by rewrite app_nil_r.
  - cbn [fill_entries length replicate]. rewrite HF, decide_True by (rewrite length_app; simpl; lia).
    rewrite insert_app_r_alt, Nat.sub_diag by lia. cbn [insert list_insert].
    specialize (IH (pre ++ [entry_of F])). rewrite length_app, <- !app_assoc in IH. simpl in IH.
    replace (length pre + 1)%nat with (S (length pre)) in IH by lia. exact IH.
Qed.

Context {KOk : KernelOk K}.

(** The fibers of a process, in the order of its table; their ids are 1 to the
    last id. *)
Lemma process_fibers s p P :
  wf s -> s.(process_heap) !! p = Some P ->
  exists Fs, Forall2 (fun f F => s.(fiber_heap) !! f = Some F) (hash_each P.(fibers)) Fs /\
    Z.of_nat (length Fs) = P.(last_fiber_id) /\
    (fiber_id <$> Fs) ≡ₚ seqZ 1 P.(last_fiber_id) /\
    Forall (fun F => F.(name) = format_ld F.(fiber_id)) Fs.
Proof.
  intros Hwf HP. destruct (ho_process _ _ _ _ (wf_heap _ Hwf) p P HP) as [_ Htbl _ Hlast Hids].
  pose proof (tbl_nodup _ _ _ _ Htbl) as Hnd.
  assert (exists Fs, Forall2 (fun f F => s.(fiber_heap) !! f = Some F /\ fiber_of p F) (hash_each P.(fibers)) Fs)
    as [Fs HFs].
  { assert (forall f, f ∈ hash_each P.(fibers) -> exists F, s.(fiber_heap) !! f = Some F /\ fiber_of p F) as Hall.
    { intros f Hf. by apply (tbl_elem _ _ _ _ Htbl) in Hf. }
    clear Hlast Hnd. induction (hash_each P.(fibers)) as [|f l IH]; [by exists []|].
    destruct (Hall f) as [F HF]; [left|]. destruct IH as [Fs HFs]; [intros g Hg; apply Hall; by right|].
    exists (F :: Fs). by constructor. }
  assert (length Fs = length (hash_each P.(fibers))) as Hlen by (symmetry; by eapply Forall2_length).
  exists Fs. split; [eapply Forall2_impl; [done|by intros ? ? []]|]. split; [lia|]. split.
  - assert (NoDup (fiber_id <$> Fs)) as Hndi.
    { clear Hlast Hlen. revert Fs HFs. induction (hash_each P.(fibers)) as [|f l IH]; intros Fs HFs;
        inversion HFs as [|? F ? Fs' [HF HofF] HFs']; subst; [constructor|].
      apply NoDup_cons in Hnd as [Hf Hnd]. cbn [fmap list_fmap]. constructor; [|by apply IH].
      intros (G & Heq & HG)%list_elem_of_fmap. apply list_elem_of_lookup in HG as [i HG].
      destruct (Forall2_lookup_r _ _ _ _ _ HFs' HG) as (g & Hg & HGg & HofG).
      assert (f = g) as -> by (eapply (tbl_inj _ _ _ _ Htbl); done).
      apply Hf. by eapply list_elem_of_lookup_2. }
    apply submseteq_length_Permutation; [|rewrite length_fmap, length_seqZ; lia].
    apply NoDup_submseteq; [done|]. intros id (F & -> & HF)%list_elem_of_fmap.
    apply list_elem_of_lookup in HF as [i HF].
    destruct (Forall2_lookup_r _ _ _ _ _ HFs HF) as (g & _ & HGg & HofG).
    apply elem_of_seqZ. pose proof (Hids g F HGg HofG). lia.
  - apply Forall_lookup. intros i F HF. destruct (Forall2_lookup_r _ _ _ _ _ HFs HF) as (g & _ & HGg & _).
    rewrite (fo_name _ _ _ _ (ho_fiber _ _ _ _ (wf_heap _ Hwf) g F HGg)).
    unfold snprintf. apply take_ge. pose proof (format_ld_length_any F.(fiber_id)). lia.
Qed.

Lemma fiber_base_stuff_run s p P :
  wf s -> s.(process_heap) !! p = Some P ->
  exists Fs, fiber_base_stuff true p s = Some ((entry_of <$> Fs, P.(last_fiber_id)), s) /\
    Z.of_nat (length Fs) = P.(last_fiber_id) /\
    (fiber_id <$> Fs) ≡ₚ seqZ 1 P.(last_fiber_id) /\
    Forall (fun F => F.(name) = format_ld F.(fiber_id)) Fs.
Proof.
  intros Hwf HP. destruct (process_fibers s p P Hwf HP) as (Fs & HFs & Hlen & Hids & Hnames).
  exists Fs. split; [|done]. unfold fiber_base_stuff, load_process. mstep.
  pose proof (fill_entries_run s.(fiber_heap) _ Fs [] HFs) as Hfill. simpl in Hfill.
  assert (length (hash_each P.(fibers)) = Z.to_nat P.(last_fiber_id)) as Heq.
  { rewrite <- Hlen, Nat2Z.id. by eapply Forall2_length. }
  rewrite Heq in Hfill. unfold mthen, mderef. by rewrite Hfill.
Qed.

(** C26: Listing the fibers of a process writes inside the array it allocated, and
    hands over one regular file per fiber: the names are the decimal numbers
    from 1 to the last id, each once.  The lookup of a file sees the same
    entries. *)
Theorem proc_directory n s pid tk p P (readdir : list pid_entry -> Z -> Z) :
  reach n s -> n <= INT_MAX -> s.(tasks) !! pid = Some tk ->
  process_at s tk.(tgid) = Some p -> s.(process_heap) !! p = Some P ->
  exists entries,
    proc_fiber_base_readdir readdir true (Some pid) s = Some (readdir entries P.(last_fiber_id), s) /\
    (forall (look : list pid_entry -> Z -> Z),
       proc_fiber_base_lookup id 0 look true (Some pid) s = Some (look entries P.(last_fiber_id), s)) /\
    Z.of_nat (length entries) = P.(last_fiber_id) /\
    (pe_name <$> entries) ≡ₚ ((fun i => Some (format_ld i)) <$> seqZ 1 P.(last_fiber_id)) /\
    Forall (fun e => pe_mode e = fiber_file_mode /\
              exists nm, pe_name e = Some nm /\ pe_len e = Z.of_nat (length nm)) entries.
Proof.
  intros Hr Hn Htk Hp HP. apply reach_good in Hr as [_ [Hwf _]]; [|done].
  destruct (fiber_base_stuff_run s p P Hwf HP) as (Fs & Hrun & Hlen & Hids & Hnames).
  assert (forall A (k : option ptr -> kM A), mthen (find_process_by_tgid tk.(tgid)) k s = k (Some p) s) as Hfind.
  { intros A k. erewrite mthen_eq by (apply find_process_run, Hwf). by rewrite Hp. }
  exists (entry_of <$> Fs). split_and!.
  - unfold proc_fiber_base_readdir, load_task. mstep. rewrite Hfind. by erewrite mthen_eq by exact Hrun.
  - intros look. unfold proc_fiber_base_lookup, load_task. mstep. rewrite Hfind. by erewrite mthen_eq by exact Hrun.
  - by rewrite length_fmap.
  - assert (pe_name <$> (entry_of <$> Fs) = (fun i => Some (format_ld i)) <$> (fiber_id <$> Fs)) as ->.
    + clear -Hnames. induction Hnames as [|F Fs HF _ IH]; [done|]. rewrite !fmap_cons, IH. simpl. by rewrite HF.
    + by rewrite Hids.
  - apply Forall_fmap, Forall_true. intros F. split; [done|]. by exists F.(name).
Qed.

Context {UOk : UserAccessOk K U}.

(** Reading the file of a fiber.  The text is never cut by the buffer.  A read
    at or after the end of the text returns 0; any other delivers the beginning
    of the text - whatever the position, so that a reader with a small buffer
    gets the first bytes again and again. *)
Theorem proc_file_read n s pid tk (kstrtoul : cstring -> option Z) file_name fid f F buf len off :
  reach n s -> n <= INT_MAX -> s.(tasks) !! pid = Some tk ->
  kstrtoul file_name = Some fid -> 0 <= fid < 2 ^ 31 ->
  fiber_for s tk.(tgid) fid = Some f -> s.(fiber_heap) !! f = Some F ->
  0 <= len -> 0 <= off < 2 ^ 63 ->
  let L := Z.of_nat (length (stat_text F)) in
  exists r off' m',
    proc_fiber_read kstrtoul file_name buf len off (Some pid) s = Some ((r, off'), set_umem m' s) /\
    (L <= off -> r = 0 /\ m' = s.(umem)) /\
    (off < L -> (forall i, 0 <= i < Z.min len L -> is_Some (user_byte s.(umem) (buf + i))) ->
       r = Z.min len L /\ off' = off + r /\
       copy_from_user m' buf r = Some (char_code <$> take (Z.to_nat r) (stat_text F))).
Proof.
  intros Hr Hn Htk Hk Hfid Hf HF Hlen Hoff L. apply reach_good in Hr as [_ [Hwf _]]; [|done].
  unfold fiber_for in Hf. destruct (process_at s tk.(tgid)) as [p|] eqn:Hp; [|done]. simpl in Hf.
  pose proof Hp as (P & HP & _)%process_at_spec; [|done].
  unfold proc_fiber_read, load_task, load_fiber.
  erewrite mthen_eq by (by apply mderef_eq). mstep.
  erewrite mthen_eq by (apply find_process_run, Hwf). rewrite Hp, Hk.
  erewrite mthen_eq by (eapply find_fiber_run; [apply Hwf|done]).
  rewrite s32_small, Hf by lia. mstep. rewrite stat_text_fits, length_fmap. fold L.
  rewrite u64_small by lia. destruct (L <=? off) eqn:E.
  - exists 0, off, s.(umem). split; [unfold mret; by destruct s|]. split; [done|]. intros; lia.
  - rewrite <- fmap_take. set (bs := char_code <$> take (Z.to_nat (Z.min len L)) (stat_text F)).
    assert (Z.of_nat (length bs) = Z.min len L) as Hbs.
    { unfold bs. rewrite length_fmap, length_take. lia. }
    rewrite mthen_reads.
    pose proof (copy_to_user_mapped s.(umem) buf bs) as Hmap.
    pose proof (fun j => copy_to_user_done s.(umem) buf bs j) as Hdone.
    destruct (copy_to_user s.(umem) buf bs) as [m' left]. simpl in Hmap, Hdone. rewrite mthen_modify.
    destruct (Z.eqb_spec left 0) as [Hl|Hl].
    + exists (Z.min len L), (off + Z.min len L), m'. split; [done|]. split; [lia|]. intros _ Hall.
      split_and!; [done..|]. fold bs. apply copy_from_user_Some; [lia|]. split; [done|].
      intros j Hj. apply Hdone; lia.
    + exists (- EFAULT), off, m'. split; [done|]. split; [lia|]. intros _ Hall. exfalso.
      apply Hl, Hmap. intros j Hj. apply Hall. lia.
Qed.

End Proc.

(** ** Applications to a run *)

Import Reference.

Lemma proc_directory_witness :
  exists entries,
    proc_fiber_base_readdir (fun l _ => Z.of_nat (length l)) true (Some 11) thread_10 =
      Some (Z.of_nat (length entries), thread_10) /\
    (pe_name <$> entries) ≡ₚ ((fun i => Some (format_ld i)) <$> seqZ 1 3).
Proof.
  computed (tasks thread_10 !! 11) tk Htk. assert (tgid tk = 10) as Hg by computed_field Htk.
  computed (process_heap thread_10 !! 1%positive) P HP.
  assert (last_fiber_id P = 3) as Hlast by computed_field HP.
  destruct (proc_directory 7 thread_10 11 tk 1 P (fun l _ => Z.of_nat (length l))) as (entries & H1 & _ & _ & H2 & _);
    [exact thread_10_reach|discriminate|exact Htk|rewrite Hg; vm_compute; reflexivity|exact HP|].
  exists entries. rewrite Hlast in H2. split; [exact H1|exact H2].
Defined.

Definition one_name (s : cstring) : option Z := if decide (s = format_ld 2) then Some 2 else None.

Lemma proc_file_read_witness :
  exists r off' m',
    proc_fiber_read one_name (format_ld 2) 0 512 0 (Some 11) thread_10 = Some ((r, off'), set_umem m' thread_10).
Proof.
  computed (tasks thread_10 !! 11) tk Htk. assert (tgid tk = 10) as Hg by computed_field Htk.
  computed (fiber_heap thread_10 !! 2%positive) F HF.
  destruct (proc_file_read 7 thread_10 11 tk one_name (format_ld 2) 2 2 F 0 512 0) as (r & off' & m' & H & _);
    [exact thread_10_reach|discriminate|exact Htk|reflexivity|lia|rewrite Hg; vm_compute; reflexivity
    |exact HF|lia|lia|].
  exists r, off', m'. exact H.
Defined.
