(* ===== verification/Module.v ===== *)
(** * The module as the kernel loads it

    [module/module.c] with the registration of the probes of
    [module/kprobes.c], and what the kernel runs for a function with probes on
    it: the entry handlers, which keep the arguments of the call, the function,
    and the return handlers, which use them. *)

From S2P Require Import Prelude Kernel State CStr Fibers Heap Runs Kprobes Safety Fls Outcome System Views Scenario Switching UserMem Ioctl Device Proc.

(** ** Probes *)

(** The handlers of the module. *)
Inductive handler :=
  | H_exit_cleanup
  | H_fiber_timer
  | H_entry_proc_insert_dir
  | H_proc_insert_dir
  | H_entry_proc_lookup_dir
  | H_proc_lookup_dir.

#[export] Instance handler_eq_dec : EqDecision handler.
Proof. solve_decision. Defined.

(** The fields of [struct kprobe] and [struct kretprobe] the module assigns; a
    probe is placed by the name of a function or, for [do_exit], by its
    address.  [registered] is what the kernel holds for it. *)
Record probe := Probe {
  symbol_name : option string;
  pre_handler : option handler;
  entry_handler : option handler;
  ret_handler : option handler;
  data_size : Z;
  registered : bool
}.

Definition zero_probe : probe := Probe None None None None 0 false.

(** The globals of [kprobes.h]. *)
Record probes := Probes {
  do_exit_kp : probe;
  finish_task_switch_krp : probe;
  proc_readdir_krp : probe;
  proc_lookup_krp : probe;
  readdir : Z;
  look : Z;
  setattr : Z;
  getattr : Z;
  inode_ops_getattr : Z;
  inode_ops_setattr : Z
}.

Definition no_probes : probes := Probes zero_probe zero_probe zero_probe zero_probe 0 0 0 0 0 0.

(** What the kernel answers: the results of the four registrations, and the
    addresses of its symbols. *)
Record probe_answers := ProbeAnswers {
  do_exit_answer : Z;
  timer_answer : Z;
  readdir_answer : Z;
  lookup_answer : Z;
  kallsyms_lookup_name : string -> Z
}.

(** [register_kprobe] and [register_kretprobe] place the probe when they answer
    0; the unregistration takes it away. *)
Definition register (answer : Z) (p : probe) : probe :=
  Probe p.(symbol_name) p.(pre_handler) p.(entry_handler) p.(ret_handler) p.(data_size) (answer =? 0).
Definition unregister (p : probe) : probe :=
  Probe p.(symbol_name) p.(pre_handler) p.(entry_handler) p.(ret_handler) p.(data_size) false.

Definition sizeof_tgid_dir_data : Z := 16.
Definition sizeof_tgid_lookup_data : Z := 16.

Definition register_kprobe_do_exit (a : probe_answers) (s : probes) : Z * probes :=
  let kp := Probe (Some "do_exit"%string) (Some H_exit_cleanup) s.(do_exit_kp).(entry_handler)
              s.(do_exit_kp).(ret_handler) s.(do_exit_kp).(data_size) s.(do_exit_kp).(registered) in
  (0, Probes (register a.(do_exit_answer) kp) s.(finish_task_switch_krp) s.(proc_readdir_krp)
        s.(proc_lookup_krp) s.(readdir) s.(look) s.(setattr) s.(getattr) s.(inode_ops_getattr)
        s.(inode_ops_setattr)).

Definition unregister_kprobe_do_exit (s : probes) : Z * probes :=
  (0, Probes (unregister s.(do_exit_kp)) s.(finish_task_switch_krp) s.(proc_readdir_krp)
        s.(proc_lookup_krp) s.(readdir) s.(look) s.(setattr) s.(getattr) s.(inode_ops_getattr)
        s.(inode_ops_setattr)).

Definition register_kretprobe_finish_task_switch (a : probe_answers) (s : probes) : Z * probes :=
  let krp := s.(finish_task_switch_krp) in
  let krp := Probe (Some "finish_task_switch"%string) krp.(pre_handler) krp.(entry_handler)
               (Some H_fiber_timer) krp.(data_size) krp.(registered) in
  (0, Probes s.(do_exit_kp) (register a.(timer_answer) krp) s.(proc_readdir_krp)
        s.(proc_lookup_krp) s.(readdir) s.(look) s.(setattr) s.(getattr) s.(inode_ops_getattr)
        s.(inode_ops_setattr)).

Definition unregister_kretprobe_finish_task_switch (s : probes) : Z * probes :=
  (0, Probes s.(do_exit_kp) (unregister s.(finish_task_switch_krp)) s.(proc_readdir_krp)
        s.(proc_lookup_krp) s.(readdir) s.(look) s.(setattr) s.(getattr) s.(inode_ops_getattr)
        s.(inode_ops_setattr)).

Definition register_kretprobe_proc_fiber_dir (a : probe_answers) (s : probes) : Z * probes :=
  let kall := a.(kallsyms_lookup_name) in
  let dir := s.(proc_readdir_krp) in
  let dir := Probe (Some "proc_tgid_base_readdir"%string) dir.(pre_handler)
               (Some H_entry_proc_insert_dir) (Some H_proc_insert_dir) sizeof_tgid_dir_data dir.(registered) in
  let lkp := s.(proc_lookup_krp) in
  let lkp := Probe (Some "proc_tgid_base_lookup"%string) lkp.(pre_handler)
               (Some H_entry_proc_lookup_dir) (Some H_proc_lookup_dir) sizeof_tgid_lookup_data lkp.(registered) in
  (0, Probes s.(do_exit_kp) s.(finish_task_switch_krp) (register a.(readdir_answer) dir)
        (register a.(lookup_answer) lkp) (kall "proc_pident_readdir"%string) (kall "proc_pident_lookup"%string)
        (kall "proc_setattr"%string) (kall "pid_getattr"%string)
        (kall "pid_getattr"%string) (kall "proc_setattr"%string)).

Definition unregister_kretprobe_proc_fiber_dir (s : probes) : Z * probes :=
  (0, Probes s.(do_exit_kp) s.(finish_task_switch_krp) (unregister s.(proc_readdir_krp))
        (unregister s.(proc_lookup_krp)) s.(readdir) s.(look) s.(setattr) s.(getattr)
        s.(inode_ops_getattr) s.(inode_ops_setattr)).

(** ** Loading and unloading *)

Section Module.
Context {C : IoctlCodes} {DC : DriverCore}.

(** No result of a registration is looked at; [None] is a fault. *)
Definition fiber_init (a : probe_answers) (m : device_state * probes)
  : option (Z * (device_state * probes)) :=
  '(_, d) ← register_fiber_device m.1;
  let (_, s) := register_kprobe_do_exit a m.2 in
  let (_, s) := register_kretprobe_proc_fiber_dir a s in
  let (_, s) := register_kretprobe_finish_task_switch a s in
  Some (0, (d, s)).

Definition fiber_cleanup (m : device_state * probes) : option (device_state * probes) :=
  let (_, s) := unregister_kprobe_do_exit m.2 in
  let (_, s) := unregister_kretprobe_finish_task_switch s in
  let (_, s) := unregister_kretprobe_proc_fiber_dir s in
  d ← unregister_fiber_device m.1;
  Some (d, s).

(** The handlers the kernel runs when the function [fn] is entered and when it
    returns. *)
Definition all_probes (s : probes) : list probe :=
  [s.(do_exit_kp); s.(finish_task_switch_krp); s.(proc_readdir_krp); s.(proc_lookup_krp)].

Definition placed (fn : string) (p : probe) : bool :=
  p.(registered) && bool_decide (p.(symbol_name) = Some fn).

Definition on_entry (fn : string) (s : probes) : list handler :=
  concat ((fun p => if placed fn p then option_list p.(pre_handler) ++ option_list p.(entry_handler) else [])
    <$> all_probes s).
Definition on_return (fn : string) (s : probes) : list handler :=
  concat ((fun p => if placed fn p then option_list p.(ret_handler) else []) <$> all_probes s).

(** Which handlers a loaded module has: each with the function it is meant for
    and the answer to its registration. *)
Definition meant_on_entry (a : probe_answers) : list (string * handler * Z) :=
  [("do_exit"%string, H_exit_cleanup, a.(do_exit_answer));
   ("proc_tgid_base_readdir"%string, H_entry_proc_insert_dir, a.(readdir_answer));
   ("proc_tgid_base_lookup"%string, H_entry_proc_lookup_dir, a.(lookup_answer))].
Definition meant_on_return (a : probe_answers) : list (string * handler * Z) :=
  [("finish_task_switch"%string, H_fiber_timer, a.(timer_answer));
   ("proc_tgid_base_readdir"%string, H_proc_insert_dir, a.(readdir_answer));
   ("proc_tgid_base_lookup"%string, H_proc_lookup_dir, a.(lookup_answer))].

Lemma placed_elem fn p (l : list handler) h :
  h ∈ (if placed fn p then l else []) <-> (p.(registered) = true /\ p.(symbol_name) = Some fn) /\ h ∈ l.
Proof.
  unfold placed. destruct (registered p); simpl; [case_bool_decide|]; rewrite ?elem_of_nil; naive_solver.
Qed.

(** The events of System.v a function causes through the probes on it. *)
Definition handler_event (h : handler) : option event :=
  match h with H_exit_cleanup => Some EExit | H_fiber_timer => Some ETimer | _ => None end.
Definition probe_events (fn : string) (s : probes) : list event :=
  omap handler_event (on_entry fn s ++ on_return fn s).

(** Exactly the handlers whose registration succeeded run, each on the function
    it is meant for. *)
Definition probes_meant (a : probe_answers) (s : probes) : Prop :=
  (forall fn h, (h ∈ on_entry fn s <-> (fn, h, 0) ∈ meant_on_entry a) /\
     (h ∈ on_return fn s <-> (fn, h, 0) ∈ meant_on_return a)) /\
  (a.(do_exit_answer) = 0 -> probe_events "do_exit" s = [EExit]) /\
  (a.(timer_answer) = 0 -> probe_events "finish_task_switch" s = [ETimer]).

Definition no_handlers (s : probes) : Prop := forall fn, on_entry fn s = [] /\ on_return fn s = [].

(** The four probes after the registrations. *)
Definition registered_probes (a : probe_answers) (s : probes) : probes :=
  let (_, s) := register_kprobe_do_exit a s in
  let (_, s) := register_kretprobe_proc_fiber_dir a s in
  (register_kretprobe_finish_task_switch a s).2.

Lemma probe_events_once a fn e :
  let s := registered_probes a no_probes in
  (fn, e) = ("do_exit"%string, EExit) /\ a.(do_exit_answer) = 0 \/
  (fn, e) = ("finish_task_switch"%string, ETimer) /\ a.(timer_answer) = 0 ->
  probe_events fn s = [e].
Proof.
  intros s [[[= -> ->] Ha]|[[= -> ->] Ha]]; unfold probe_events, on_entry, on_return, all_probes, placed, s;
    simpl; rewrite Ha; simpl; by destruct (_ =? 0), (_ =? 0), (_ =? 0).
Qed.

(** The probes of a loaded module, and of one that is unloaded. *)
Lemma loaded_probes a d r d' :
  register_fiber_device d = Some (r, d') ->
  exists s, fiber_init a (d, no_probes) = Some (0, (d', s)) /\ probes_meant a s.
Proof.
  intros Hreg. unfold fiber_init. cbn [fst snd]. rewrite Hreg. cbn [mbind option_bind].
  exists (registered_probes a no_probes). split; [done|].
  split_and!; [|intros Ha; apply (probe_events_once a); tauto..]. intros fn h.
  unfold on_entry, on_return, all_probes, meant_on_entry, meant_on_return.
  cbn [fmap list_fmap concat]. rewrite !elem_of_app, !placed_elem, !elem_of_cons, !elem_of_nil.
  simpl. rewrite !elem_of_cons, !elem_of_nil, !Z.eqb_eq. intuition congruence.
Qed.

Lemma cleaned_probes m d :
  unregister_fiber_device m.1 = Some d ->
  exists s, fiber_cleanup m = Some (d, s) /\ no_handlers s.
Proof.
  intros Hd. unfold fiber_cleanup. cbn [unregister_kprobe_do_exit unregister_kretprobe_finish_task_switch
    unregister_kretprobe_proc_fiber_dir]. rewrite Hd. eexists. split; [done|]. by split.
Qed.

Definition with_core (d : device_state) (k : core) : device_state :=
  DeviceState d.(major) d.(class_fibers) d.(dev_fibers) d.(string_message) k d.(module_refs).

(** A module whose device could not be registered, with a class that is an error
    or has been destroyed. *)
Lemma cleanup_faults m :
  (forall n, device_destroy m.1.(class_fibers) n m.1.(the_core) = None) -> fiber_cleanup m = None.
Proof. intros H. unfold fiber_cleanup, unregister_fiber_device. by rewrite H. Qed.

Context {DCOk : DriverCoreOk DC}.

End Module.

(** ** The probes on the directory of a process *)

(** [struct tgid_dir_data] and [struct tgid_lookup_data] in memory. *)
Record tgid_dir_data := TgidDirData { dd_file : Z; dd_ctx : Z }.
Record tgid_lookup_data := TgidLookupData { ld_dentry : Z; ld_inode : Z }.

Definition encode_dir_data (d : tgid_dir_data) : bytes := le_bytes 8 d.(dd_file) ++ le_bytes 8 d.(dd_ctx).
Definition decode_dir_data (bs : bytes) : tgid_dir_data := TgidDirData (field 0 8 bs) (field 8 8 bs).
Definition encode_lookup_data (d : tgid_lookup_data) : bytes :=
  le_bytes 8 d.(ld_dentry) ++ le_bytes 8 d.(ld_inode).
Definition decode_lookup_data (bs : bytes) : tgid_lookup_data := TgidLookupData (field 0 8 bs) (field 8 8 bs).

(** [memcpy] to the beginning of a buffer; [None] past its end. *)
Definition memcpy (dst src : bytes) : option bytes :=
  if decide (length src <= length dst)%nat then Some (src ++ drop (length src) dst) else None.

(** The registers a call is made with, as far as they carry arguments. *)
Record call_regs := CallRegs { c_di : Z; c_si : Z }.

Definition entry_proc_insert_dir (data : bytes) (r : call_regs) : option (Z * bytes) :=
  (fun d => (0, d)) <$> memcpy data (encode_dir_data (TgidDirData r.(c_di) r.(c_si))).
Definition entry_proc_lookup_dir (data : bytes) (r : call_regs) : option (Z * bytes) :=
  (fun d => (0, d)) <$> memcpy data (encode_lookup_data (TgidLookupData r.(c_si) r.(c_di))).

Lemma field_0_8 x y : field 0 8 (le_bytes 8 x ++ le_bytes 8 y) = u64 x.
Proof. unfold field. rewrite drop_0, take_app_length' by (by rewrite le_bytes_length). apply le_u64. Qed.

Lemma field_8_8 x y rest : field 8 8 (le_bytes 8 x ++ le_bytes 8 y ++ rest) = u64 y.
Proof.
  unfold field. rewrite drop_app_length' by (by rewrite le_bytes_length).
  rewrite take_app_length' by (by rewrite le_bytes_length). apply le_u64.
Qed.

Lemma memcpy_16 x y n : (16 <= n)%nat ->
  exists rest, memcpy (replicate n 0) (le_bytes 8 x ++ le_bytes 8 y) = Some (le_bytes 8 x ++ le_bytes 8 y ++ rest).
Proof.
  intros Hn. exists (replicate (n - 16) 0). unfold memcpy.
  rewrite length_app, !le_bytes_length, length_replicate, decide_True by lia.
  by rewrite drop_replicate, <- app_assoc.
Qed.

(** A call of a function with a return probe on it: the entry handler fills the
    data of the probe instance, the function runs, and the return handler runs
    with the data. *)
Section Directory.
Context {K : Kernel} {V : ProcFS}.

Definition return_proc_insert_dir (data : bytes) (nents : Z) (v : vfs) : kM (Z * vfs) :=
  let d := decode_dir_data data in proc_insert_dir nents d.(dd_file) d.(dd_ctx) v.

Definition return_proc_lookup_dir (data : bytes) (nents : Z) (v : vfs) : kM vfs :=
  let d := decode_lookup_data data in proc_lookup_dir nents d.(ld_inode) d.(ld_dentry) v.

(** The result of the call, [nents] afterwards, and the state of the file system. *)
Definition probed_readdir (p : probe) (nents file ctx : Z) (v : vfs) : kM (Z * Z * vfs) :=
  match entry_proc_insert_dir (replicate (Z.to_nat p.(data_size)) 0) (CallRegs file ctx) with
  | None => mfault
  | Some (_, data) =>
      let (r, v) := proc_tgid_base_readdir file ctx v in
      let! (nents, v) := return_proc_insert_dir data nents v in
      mret (r, nents, v)
  end.

Definition probed_lookup (p : probe) (nents inode dentry : Z) (v : vfs) : kM (Z * vfs) :=
  match entry_proc_lookup_dir (replicate (Z.to_nat p.(data_size)) 0) (CallRegs inode dentry) with
  | None => mfault
  | Some (_, data) =>
      let (r, v) := proc_tgid_base_lookup inode dentry v in
      let! v := return_proc_lookup_dir data nents v in
      mret (r, v)
  end.

Context {KOk : KernelOk K} {VOk : ProcFSOk V}.

Lemma dir_data_kept p file ctx :
  sizeof_tgid_dir_data <= p.(data_size) -> 0 <= file < 2 ^ 64 -> 0 <= ctx < 2 ^ 64 ->
  exists data, entry_proc_insert_dir (replicate (Z.to_nat p.(data_size)) 0) (CallRegs file ctx) = Some (0, data) /\
    decode_dir_data data = TgidDirData file ctx.
Proof.
  unfold sizeof_tgid_dir_data. intros Hs Hf Hc. unfold entry_proc_insert_dir, encode_dir_data. cbn [dd_file dd_ctx c_di c_si].
  destruct (memcpy_16 file ctx (Z.to_nat p.(data_size))) as [rest ->]; [lia|]. eexists. split; [done|].
  unfold decode_dir_data. rewrite field_8_8. unfold field at 1. rewrite drop_0, take_app_length' by (by rewrite le_bytes_length).
  by rewrite le_u64, !u64_small by lia.
Qed.

Lemma lookup_data_kept p inode dentry :
  sizeof_tgid_lookup_data <= p.(data_size) -> 0 <= inode < 2 ^ 64 -> 0 <= dentry < 2 ^ 64 ->
  exists data, entry_proc_lookup_dir (replicate (Z.to_nat p.(data_size)) 0) (CallRegs inode dentry) = Some (0, data) /\
    decode_lookup_data data = TgidLookupData dentry inode.
Proof.
  unfold sizeof_tgid_lookup_data. intros Hs Hf Hc. unfold entry_proc_lookup_dir, encode_lookup_data.
  cbn [ld_dentry ld_inode c_di c_si].
  destruct (memcpy_16 dentry inode (Z.to_nat p.(data_size))) as [rest ->]; [lia|]. eexists. split; [done|].
  unfold decode_lookup_data. rewrite field_8_8. unfold field at 1. rewrite drop_0, take_app_length' by (by rewrite le_bytes_length).
  by rewrite le_u64, !u64_small by lia.
Qed.

(** What a probed call does, from what the function and the return handler do. *)
Lemma probed_readdir_eq p nents file ctx v s :
  p.(data_size) = sizeof_tgid_dir_data -> 0 <= file < 2 ^ 64 -> 0 <= ctx < 2 ^ 64 ->
  probed_readdir p nents file ctx v s =
    let (r, v1) := proc_tgid_base_readdir file ctx v in
    (let! (m, v2) := proc_insert_dir nents file ctx v1 in mret (r, m, v2)) s.
Proof.
  intros Hsz Hf Hc. unfold probed_readdir, return_proc_insert_dir.
  destruct (dir_data_kept p file ctx) as (data & -> & ->); [unfold sizeof_tgid_dir_data in *; lia|done|done|].
  by destruct (proc_tgid_base_readdir file ctx v).
Qed.

Lemma probed_lookup_eq p nents inode dentry v s :
  p.(data_size) = sizeof_tgid_lookup_data -> 0 <= inode < 2 ^ 64 -> 0 <= dentry < 2 ^ 64 ->
  probed_lookup p nents inode dentry v s =
    let (r, v1) := proc_tgid_base_lookup inode dentry v in
    (let! v2 := proc_lookup_dir nents inode dentry v1 in mret (r, v2)) s.
Proof.
  intros Hsz Hi Hd. unfold probed_lookup, return_proc_lookup_dir.
  destruct (lookup_data_kept p inode dentry) as (data & -> & ->);
    [unfold sizeof_tgid_lookup_data in *; lia|done|done|].
  by destruct (proc_tgid_base_lookup inode dentry v).
Qed.

(** C28: Listing and looking up the directory of a process with the probes on.
    For a process that never used fibers both are what they are without the
    module.  For another one a listing whose original part reached the end of the
    directory is the original one followed by the entry "fibers"; one that stopped
    before, because the buffer of the caller was full, continues with memory
    before the array of the module, which faults where that cannot be read.  A
    lookup is the original one until the size of the directory is known; after
    that it always starts before the array, and where it does not fault it ends
    with the result of the original one, so that the one that finds "fibers" still
    reports that it does not exist. *)
Theorem probed_directory n s file inode pid tk p q dentry ctx nents (v : vfs) :
  reach n s -> n <= INT_MAX -> task_of_file file = Some pid -> task_of_inode inode = Some pid ->
  s.(tasks) !! pid = Some tk ->
  p.(data_size) = sizeof_tgid_dir_data -> q.(data_size) = sizeof_tgid_lookup_data ->
  0 <= file < 2 ^ 64 -> 0 <= ctx < 2 ^ 64 -> 0 <= inode < 2 ^ 64 -> 0 <= dentry < 2 ^ 64 ->
  let (r, v1) := proc_tgid_base_readdir file ctx v in
  let pos := ctx_pos ctx v1 in
  let size := if nents =? 0 then s32 pos else nents in
  let (r2, v2) := proc_tgid_base_lookup inode dentry v in
  (process_at s tk.(tgid) = None ->
     probed_readdir p nents file ctx v s = Some ((r, size, v1), s) /\
     probed_lookup q nents inode dentry v s = Some ((r2, v2), s)) /\
  (is_Some (process_at s tk.(tgid)) ->
     (2 <= size < 2 ^ 31 ->
        (pos = size -> probed_readdir p nents file ctx v s = Some ((r, size, dir_emit ctx fibers_entry v1), s)) /\
        (size < pos -> probed_readdir p nents file ctx v s = Some ((r, size, v1), s)) /\
        (2 <= pos < size -> beyond (pos - size) = None -> probed_readdir p nents file ctx v s = None)) /\
     (nents = 0 -> probed_lookup q nents inode dentry v s = Some ((r2, v2), s)) /\
     (2 <= nents < 2 ^ 31 ->
        (2 < nents -> beyond (2 - nents) = None -> probed_lookup q nents inode dentry v s = None) /\
        ((forall i, 2 - nents <= i < 0 -> is_Some (beyond i)) ->
           exists v3, probed_lookup q nents inode dentry v s = Some ((r2, v3), s)))).
Proof.
  intros Hr Hn Htf Hti Htk Hsz Hsz' Hf Hc Hi Hd.
  pose proof (probed_readdir_eq p nents file ctx v s Hsz Hf Hc) as Hread.
  pose proof (probed_lookup_eq q nents inode dentry v s Hsz' Hi Hd) as Hlook.
  destruct (proc_tgid_base_readdir file ctx v) as [r v1].
  destruct (proc_tgid_base_lookup inode dentry v) as [r2 v2].
  rewrite Hread, Hlook. split; [intros Hp|intros [p' Hp]; split_and!].
  - unfold mthen, proc_insert_dir, proc_lookup_dir.
    rewrite !(task_process_step n s pid tk) by done. by rewrite Hp.
  - intros Hsize. unfold mthen.
    destruct (insert_dir_run n s pid tk p' nents file ctx v1) as (H1 & H2 & H3); [done..|].
    split_and!; [intros Hpos; by rewrite H1|intros Hpos; by rewrite H2|intros Hpos Hout; by rewrite H3].
  - intros ->. unfold mthen, proc_lookup_dir. rewrite (task_process_step n s pid tk) by done. by rewrite Hp.
  - intros Hsize. unfold mthen.
    destruct (lookup_dir_run n s pid tk p' nents inode dentry v2) as (H1 & H2); [done..|].
    split; [intros; by rewrite H1|]. intros Hin. destruct (H2 Hin) as [v3 ->]. by exists v3.
Qed.
End Directory.

(** ** Applications *)

Import Reference.

Definition partial_answers : probe_answers := ProbeAnswers 0 (-2) 0 0 (fun _ => 4096).

Definition fresh_core (b : bool) : core (DriverCore := small_driver_core) := SmallCore false None b.


(** A file system that records the entries it lists, and the position.  The
    original listing stops at position [stop]; [around] is the memory around the
    array. *)
Definition listing : Type := list pid_entry * Z.
Fixpoint list_entries (count : nat) (ents : Z -> option pid_entry) (i : Z) (v : listing) : option listing :=
  match count with
  | O => Some v
  | S count' => e ← ents i; list_entries count' ents (i + 1) (v.1 ++ [e], v.2 + 1)
  end.
Fixpoint read_entries (count : nat) (ents : Z -> option pid_entry) (i : Z) (v : listing) : option listing :=
  match count with
  | O => Some v
  | S count' => ents i ≫= fun _ => read_entries count' ents (i + 1) v
  end.

#[local] Instance recording (stop : Z) (around : Z -> option pid_entry) : ProcFS := {
  vfs := listing;
  ctx_pos _ v := v.2;
  dir_emit _ e v := (v.1 ++ [e], v.2 + 1);
  proc_pident_readdir _ _ ents n v := list_entries (Z.to_nat (n - (v.2 - 2))) ents (v.2 - 2) v;
  proc_pident_lookup _ _ ents n v := read_entries (Z.to_nat n) ents 0 v;
  proc_tgid_base_readdir _ _ v := (0, (v.1, stop));
  proc_tgid_base_lookup _ _ v := (-2, v);
  task_of_file _ := Some 11;
  task_of_inode _ := Some 11;
  beyond := around
}.

Lemma read_entries_some count ents i v :
  (forall j, i <= j < i + Z.of_nat count -> is_Some (ents j)) -> is_Some (read_entries count ents i v).
Proof.
  revert i. induction count as [|count IH]; intros i H; [by eexists|]. simpl.
  destruct (H i) as [e ->]; [lia|]. simpl. apply IH. intros j Hj. apply H. lia.
Qed.

#[local] Instance recording_ok stop around : ProcFSOk (recording stop around).
Proof.
  split; simpl.
  - intros file ctx ents n v H. by replace (Z.to_nat (n - (v.2 - 2))) with 0%nat by lia.
  - intros file ctx ents n v H2 H. replace (Z.to_nat (n - (v.2 - 2))) with 1%nat by lia.
    rewrite H. simpl. by destruct (ents (n - 1)).
  - intros file ctx ents n v H2 H Hnone.
    assert (exists k, Z.to_nat (n - (v.2 - 2)) = S k) as [k ->] by (exists (Z.to_nat (n - (v.2 - 2)) - 1)%nat; lia).
    simpl. by rewrite Hnone.
  - intros dir dentry ents n v H Hnone.
    assert (exists k, Z.to_nat n = S k) as [k ->] by (exists (Z.to_nat n - 1)%nat; lia). simpl. by rewrite Hnone.
  - intros dir dentry ents n v H. apply read_entries_some. intros j Hj. apply H. lia.
Qed.

Definition ready_probe : probe := Probe None None None None 16 true.
Definition unreadable : Z -> option pid_entry := fun _ => None.
Definition readable : Z -> option pid_entry := fun _ => Some zero_entry.

(** A complete listing of a directory with 40 entries; one that stops at 20, and a
    lookup, with memory around the array that cannot be read; a lookup with memory
    that can. *)
Lemma probed_directory_witness :
  probed_readdir (V := recording 40 unreadable) ready_probe 0 1000 2000 ([], 2) thread_10 =
    Some ((0, 40, ([fibers_entry], 41)), thread_10) /\
  probed_readdir (V := recording 20 unreadable) ready_probe 40 1000 2000 ([], 2) thread_10 = None /\
  probed_lookup (V := recording 40 unreadable) ready_probe 40 3000 4000 ([], 2) thread_10 = None /\
  exists v3, probed_lookup (V := recording 40 readable) ready_probe 40 3000 4000 ([], 2) thread_10 =
    Some ((-2, v3), thread_10).
Proof.
  computed (tasks thread_10 !! 11) tk Htk. assert (tgid tk = 10) as Hg by computed_field Htk.
  assert (is_Some (process_at thread_10 tk.(tgid))) as Hp by (rewrite Hg; vm_compute; by eexists).
  pose (size (stop nents : Z) := if nents =? 0 then s32 stop else nents).
  assert (forall stop around nents,
    (2 <= size stop nents < 2 ^ 31 ->
       (stop = size stop nents ->
          probed_readdir (V := recording stop around) ready_probe nents 1000 2000 ([], 2) thread_10 =
          Some ((0, size stop nents, ([fibers_entry], stop + 1)), thread_10)) /\
       (2 <= stop < size stop nents -> around (stop - size stop nents) = None ->
          probed_readdir (V := recording stop around) ready_probe nents 1000 2000 ([], 2) thread_10 = None)) /\
    (2 <= nents < 2 ^ 31 ->
       (2 < nents -> around (2 - nents) = None ->
          probed_lookup (V := recording stop around) ready_probe nents 3000 4000 ([], 2) thread_10 = None) /\
       ((forall i, 2 - nents <= i < 0 -> is_Some (around i)) ->
          exists v3, probed_lookup (V := recording stop around) ready_probe nents 3000 4000 ([], 2) thread_10 =
            Some ((-2, v3), thread_10)))) as H.
  { intros stop around nents.
    destruct (probed_directory (V := recording stop around) 7 thread_10 1000 3000 11 tk ready_probe ready_probe
                4000 2000 nents ([], 2)) as [_ Hfibers];
      [exact thread_10_reach|discriminate|reflexivity|reflexivity|exact Htk|reflexivity|reflexivity|lia|lia|lia|lia|].
    destruct (Hfibers Hp) as (Hread & _ & Hlook). split; [|exact Hlook].
    intros Hsize. destruct (Hread Hsize) as (H1 & _ & H3). split; [exact H1|exact H3]. }
  split_and!.
  - apply (H 40 unreadable 0); [vm_compute; split; [discriminate|reflexivity]|reflexivity].
  - apply (H 20 unreadable 40); [unfold size; simpl; lia|unfold size; simpl; lia|reflexivity].
  - apply (H 40 unreadable 40); [lia|lia|reflexivity].
  - apply (H 40 readable 40); [lia|]. intros i _. by eexists.
Defined.
