(* ===== verification/Parallel.v ===== *)
(** * The handlers in parallel

    The kernel runs a handler for every task that calls the module, on any
    number of processors.  Here a handler is a sequence of atomic steps, each
    one access to shared memory: a lookup, a write of a field, an atomic
    operation, [spin_trylock].  [par_step] lets any task make the next step of
    its handler.  Run alone, a handler has the outcomes that the descriptions in
    Outcome.v list for its event, and no other ([handlers_alone]).

    A read-modify-write of a field that is no atomic operation in the source is
    one step as well, and so are a lookup in a hash table and an addition to it:
    the tables are more robust here than [linux/hashtable.h] makes them, which
    asks the callers to exclude each other.  Memory is sequentially consistent.

    [published_too_early] and [exit_race] are runs in which handlers meet: a
    fiber is in the table before it is ready, and the last thread of a process
    frees what another still uses.  For switches and storage operations among
    fibers that are ready, see ParallelSpec.v and ParallelRefinement.v. *)

From S2P Require Import Prelude Kernel State CStr Fibers Heap Runs Kprobes Safety Fls Outcome System Scenario.

(** ** Sequences of atomic steps *)

Section Proc.
Context {K : Kernel}.

Inductive proc (A : Type) : Type :=
  | Ret (a : A)
  | Act {B : Type} (m : kM B) (k : B -> proc A).
#[global] Arguments Ret {A} a.
#[global] Arguments Act {A B} m k.

Fixpoint pbind {A B} (p : proc A) (f : A -> proc B) : proc B :=
  match p with
  | Ret a => f a
  | Act m k => Act m (fun x => pbind (k x) f)
  end.

(** One step. *)
Definition act {A} (m : kM A) : proc A := Act m Ret.

(** All steps, one after the other. *)
Fixpoint run_alone {A} (p : proc A) : kM A :=
  match p with
  | Ret a => mret a
  | Act m k => let! x := m in run_alone (k x)
  end.

Lemma run_alone_bind {A B} (p : proc A) (f : A -> proc B) s :
  run_alone (pbind p f) s = mthen (run_alone p) (fun x => run_alone (f x)) s.
Proof.
  revert s. induction p as [a|C m k IH]; intros s; [done|]. simpl. rewrite mthen_assoc.
  unfold mthen. destruct (m s) as [[x s']|]; [apply IH|done].
Qed.

Lemma mthen_ext {A B} (m m' : kM A) (f f' : A -> kM B) s :
  m s = m' s -> (forall a s', m s = Some (a, s') -> f a s' = f' a s') -> mthen m f s = mthen m' f' s.
Proof. unfold mthen. intros -> Hf. destruct (m' s) as [[a s']|]; [by apply Hf|done]. Qed.
End Proc.

Notation "'let*' x ':=' p 'in' k" := (pbind p (fun x => k))
  (at level 10, x pattern, p at level 100, k at level 200) : fiber_scope.
Notation "'do*' p ; k" := (pbind p (fun _ => k))
  (at level 10, p at level 100, k at level 200) : fiber_scope.

(** ** The handlers *)

Section Parallel.
Context {K : Kernel}.

Definition set_fiber_id (v : Z) (r : fiber) : fiber :=
  Fiber (r.(fiber_lock)) v (r.(name)) (r.(attached_thread)) (r.(parent_process)) (r.(registers))
    (r.(fpu)) (r.(fiber_stack)) (r.(fiber_stack_size)) (r.(fls)) (r.(fls_bitmap))
    (r.(start_address)) (r.(creator_thread)) (r.(activation_counter))
    (r.(failed_activation_counter)) (r.(total_time)).
Definition set_creator_thread (v : Z) (r : fiber) : fiber :=
  Fiber (r.(fiber_lock)) (r.(fiber_id)) (r.(name)) (r.(attached_thread)) (r.(parent_process)) (r.(registers))
    (r.(fpu)) (r.(fiber_stack)) (r.(fiber_stack_size)) (r.(fls)) (r.(fls_bitmap))
    (r.(start_address)) v (r.(activation_counter))
    (r.(failed_activation_counter)) (r.(total_time)).

(** *** The macros of [init.h] *)

(** The fields of an object are assigned in the step that allocates it until it
    is added to a table: nobody else knows it. *)
Definition par_init_process : proc ptr :=
  let* p := act (let! p := mderef (fun s => kmalloc (dom s.(process_heap))) in
                 let! t := current_task in
                 let P := Process t.(tgid) 0 0 hash_init hash_init in
                 do! mmodify (fun s => set_process_heap (<[p := P]> s.(process_heap)) s);
                 mret (p, P)) in
  do* act (mmodify (fun s => set_processes (hash_add_rcu s.(processes) p.1 p.2.(process_id)) s));
  Ret p.1.

Definition par_init_thread (parent_process : ptr) (id : Z) : proc ptr :=
  let* t := act (let! t := mderef (fun s => kmalloc (dom s.(thread_heap))) in
                 let T := Thread id parent_process None in
                 do! mmodify (fun s => set_thread_heap (<[t := T]> s.(thread_heap)) s);
                 mret t) in
  do* act (alter_process parent_process (fun P => set_active_threads (s64 (P.(active_threads) + 1)) P));
  do* act (alter_process parent_process (fun P => set_threads (hash_add_rcu P.(threads) t id) P));
  Ret t.

(** [atomic64_inc_return(&(parent->last_fiber_id))] *)
Definition next_fiber_id (parent_process : ptr) : kM Z :=
  do! alter_process parent_process (fun P => set_last_fiber_id (s64 (P.(last_fiber_id) + 1)) P);
  let! P := load_process parent_process in
  mret (s32 P.(last_fiber_id)).

(** [garbage] is what [kmalloc] found in memory. *)
Definition par_init_fiber (garbage : fiber) (parent_process : ptr) (ss s_ptr : Z) : proc ptr :=
  let fiber_stack_size := u64 (if 0 <=? ss then ss else DEFAULT_STACK_SIZE) in
  let top := u64 (s_ptr + fiber_stack_size - 8) in
  let* f := act (let! f := mderef (fun s => kmalloc (dom s.(fiber_heap))) in
                 let! t := current_task in
                 let F := Fiber SPIN_LOCK_UNLOCKED garbage.(fiber_id) garbage.(name) None parent_process
                            (set_bp top (set_sp top t.(regs))) garbage.(fpu) s_ptr fiber_stack_size
                            (replicate (Z.to_nat MAX_FLS_POINTERS) 0) (bitmap_zero MAX_FLS_POINTERS)
                            garbage.(start_address) garbage.(creator_thread) garbage.(activation_counter)
                            garbage.(failed_activation_counter) garbage.(total_time) in
                 do! mmodify (fun s => set_fiber_heap (<[f := F]> s.(fiber_heap)) s);
                 mret f) in
  let* id := act (next_fiber_id parent_process) in
  do* act (alter_fiber f (set_fiber_id id));
  do* act (alter_process parent_process (fun P => set_fibers (hash_add_rcu P.(fibers) f id) P));
  do* act (let! t := current_task in alter_fiber f (set_start_address t.(regs).(ip)));
  do* act (let! pid := current_pid in alter_fiber f (set_creator_thread pid));
  do* act (alter_fiber f (set_activation_counter 0));
  do* act (alter_fiber f (set_failed_activation_counter 0));
  do* act (let! t := current_task in alter_fiber f (set_fpu t.(fx)));
  do* act (alter_fiber f (set_total_time 0));
  do* act (alter_fiber f (fun F => set_name (snprintf 256 (format_ld F.(fiber_id))) F));
  Ret f.

(** *** Conversion, creation, switch *)

Definition par_get_process : proc ptr :=
  do* act lock_processes;
  let* t := act current_task in
  let* o := act (find_process_by_tgid t.(tgid)) in
  let* ep := match o with None => par_init_process | Some ep => Ret ep end in
  do* act unlock_processes;
  Ret ep.

Definition par_ConvertThreadToFiber (garbage : fiber) (thread_id : Z) : proc Z :=
  let* ep := par_get_process in
  let* gp := act (find_thread_by_pid thread_id ep) in
  match gp with
  | Some _ => Ret (-1)
  | None =>
      let* gp := par_init_thread ep thread_id in
      let* fp := par_init_fiber garbage ep (-1) 0 in
      do* act (let! t := current_task in
               alter_fiber fp (fun F => set_registers (set_sp t.(regs).(sp) F.(registers)) F));
      do* act (let! t := current_task in
               alter_fiber fp (fun F => set_registers (set_bp t.(regs).(bp) F.(registers)) F));
      do* act (alter_fiber fp
                 (fun F => set_activation_counter (u64 (F.(activation_counter) + 1)) F));
      do* act (alter_fiber fp (set_attached_thread (Some gp)));
      do* act (alter_thread gp (set_selected_fiber (Some fp)));
      let* locked := act (trylock_fiber fp) in
      if negb locked then Ret (-1)
      else let* F := act (load_fiber fp) in Ret F.(fiber_id)
  end.

Definition par_CreateFiber (garbage : fiber)
    (stack_pointer stack_size fiber_function parameters thread_id : Z) : proc Z :=
  let* t := act current_task in
  let* ep := act (find_process_by_tgid t.(tgid)) in
  match ep with
  | None => Ret (-1)
  | Some ep =>
      let* gp := act (find_thread_by_pid thread_id ep) in
      match gp with
      | None => Ret (-1)
      | Some _ =>
          let* fp := par_init_fiber garbage ep stack_size stack_pointer in
          do* act (alter_fiber fp (fun F => set_registers (set_ip fiber_function F.(registers)) F));
          do* act (alter_fiber fp (fun F => set_registers (set_di parameters F.(registers)) F));
          do* act (alter_fiber fp (set_start_address fiber_function));
          let* F := act (load_fiber fp) in
          Ret F.(fiber_id)
      end
  end.

Definition par_switch_context (tp f : ptr) : proc Z :=
  do* act (alter_fiber f (set_attached_thread (Some tp)));
  do* act (alter_fiber f (fun F => set_activation_counter (u64 (F.(activation_counter) + 1)) F));
  let* prev_fiber := act (let! T := load_thread tp in not_null T.(selected_fiber)) in
  do* act (alter_thread tp (set_selected_fiber (Some f)));
  do* act (let! t := current_task in
           alter_fiber prev_fiber (fun F => set_total_time (u64 (F.(total_time) + t.(utime))) F));
  do* act (let! t := current_task in alter_fiber prev_fiber (set_registers t.(regs)));
  do* act (let! t := current_task in alter_fiber prev_fiber (set_fpu t.(fx)));
  do* act (alter_fiber prev_fiber (set_attached_thread None));
  do* act (unlock_fiber prev_fiber);
  do* act (let! F := load_fiber f in alter_current (set_regs F.(registers)));
  do* act (let! F := load_fiber f in alter_current (set_fx F.(fpu)));
  Ret 0.

Definition par_switch_refused (f : ptr) : proc Z :=
  do* act (alter_fiber f (fun F =>
             set_failed_activation_counter (s64 (F.(failed_activation_counter) + 1)) F));
  Ret (-1).

Definition par_SwitchToFiber (fiber_id thread_id : Z) : proc Z :=
  let* t := act current_task in
  let* ep := act (find_process_by_tgid t.(tgid)) in
  match ep with
  | None => Ret (-1)
  | Some ep =>
      let* tp := act (find_thread_by_pid thread_id ep) in
      match tp with
      | None => Ret (-1)
      | Some tp =>
          let* f := act (find_fiber_by_id fiber_id ep) in
          match f with
          | None => Ret (-1)
          | Some f =>
              let* locked := act (trylock_fiber f) in
              if negb locked then par_switch_refused f
              else
                let* F := act (load_fiber f) in
                if bool_decide (F.(attached_thread) <> None) then par_switch_refused f
                else par_switch_context tp f
          end
      end
  end.

(** *** Fiber local storage *)

Definition par_fls_fiber (thread_id : Z) : proc (option ptr) :=
  let* t := act current_task in
  let* p := act (find_process_by_tgid t.(tgid)) in
  match p with
  | None => Ret None
  | Some p =>
      let* o := act (find_thread_by_pid thread_id p) in
      match o with
      | None => Ret None
      | Some t => let* T := act (load_thread t) in Ret T.(selected_fiber)
      end
  end.

Definition flip_bit (f : ptr) (index : Z) : kM unit :=
  alter_fiber f (fun F => set_fls_bitmap (change_bit index F.(fls_bitmap)) F).

Definition par_FlsAlloc (thread_id : Z) : proc Z :=
  let* o := par_fls_fiber thread_id in
  match o with
  | None => Ret (-1)
  | Some f =>
      let* F := act (load_fiber f) in
      let index := find_first_zero_bit F.(fls_bitmap) MAX_FLS_POINTERS in
      if index =? MAX_FLS_POINTERS then
        do* act (load_process F.(parent_process));
        Ret (-1)
      else
        do* act (flip_bit f index);
        Ret index
  end.

Definition par_FlsFree (index thread_id : Z) : proc Z :=
  let* o := par_fls_fiber thread_id in
  match o with
  | None => Ret 0
  | Some f =>
      if bad_index index then Ret 0
      else
        let* F := act (load_fiber f) in
        if negb (test_bit index F.(fls_bitmap)) then Ret 0
        else
          do* act (flip_bit f index);
          Ret 1
  end.

Definition par_FlsGetValue (index thread_id : Z) : proc Z :=
  let* o := par_fls_fiber thread_id in
  match o with
  | None => Ret (-1)
  | Some f =>
      if bad_index index then Ret (-1)
      else
        let* F := act (load_fiber f) in
        if negb (test_bit index F.(fls_bitmap)) then Ret (-1)
        else act (let! F := load_fiber f in mderef (fun _ => F.(fls) !! Z.to_nat index))
  end.

Definition par_FlsSetValue (index value thread_id : Z) : proc Z :=
  let* o := par_fls_fiber thread_id in
  match o with
  | None => Ret 0
  | Some f =>
      if bad_index index then Ret 0
      else
        let* F := act (load_fiber f) in
        if negb (test_bit index F.(fls_bitmap)) then Ret 0
        else
          do* act (let! F := load_fiber f in
                   do! mderef (fun _ => F.(fls) !! Z.to_nat index);
                   alter_fiber f (fun F => set_fls (<[Z.to_nat index := value]> F.(fls)) F));
          Ret 0
  end.

Definition par_fls (op : fls_op) (thread_id : Z) : proc Z :=
  match op with
  | FlsAlloc => par_FlsAlloc thread_id
  | FlsFree i => par_FlsFree i thread_id
  | FlsGetValue i => par_FlsGetValue i thread_id
  | FlsSetValue i v => par_FlsSetValue i v thread_id
  end.

(** *** Exit and close *)

(** [atomic64_dec_return(&(t->parent->active_threads))] *)
Definition thread_leaves (parent_process : ptr) : kM Z :=
  do! alter_process parent_process (fun P => set_active_threads (s64 (P.(active_threads) - 1)) P);
  let! P := load_process parent_process in
  mret P.(active_threads).

(** The counter of [preempt_disable] belongs to the processor, and is changed in
    the step before which, or after which, the source changes it. *)
Definition par_release_fiber (prev_fiber : ptr) : proc unit :=
  do* act (do! preempt_disable; let! t := current_task in alter_fiber prev_fiber (set_registers t.(regs)));
  do* act (let! t := current_task in alter_fiber prev_fiber (set_fpu t.(fx)));
  do* act (do! alter_fiber prev_fiber (set_attached_thread None); preempt_enable);
  act (unlock_fiber prev_fiber).

(** [kfree(p)] in a loop over a table, and the read of the link of [p] after it. *)
Definition kfree_fiber (f : ptr) : kM unit :=
  do! load_fiber f;
  if stale_reads then mmodify (fun s => set_fiber_heap (delete f s.(fiber_heap)) s) else mfault.
Definition kfree_thread (t : ptr) : kM unit :=
  do! load_thread t;
  if stale_reads then mmodify (fun s => set_thread_heap (delete t s.(thread_heap)) s) else mfault.

Fixpoint par_kfree_each (kfree : ptr -> kM unit) (l : list ptr) : proc unit :=
  match l with
  | [] => Ret tt
  | p :: l' => do* act (kfree p); par_kfree_each kfree l'
  end.

Definition par_free_process (p : ptr) : proc unit :=
  do* act (do! load_process p; mmodify (fun s => set_processes (hash_del_rcu s.(processes) p) s));
  act (mmodify (fun s => set_process_heap (delete p s.(process_heap)) s)).

Definition par_exit_cleanup : proc Z :=
  let* tk := act current_task in
  let* p := act (find_process_by_tgid tk.(tgid)) in
  match p with
  | None => Ret 0
  | Some p =>
      let* t := act (let! pid := current_pid in find_thread_by_pid pid p) in
      match t with
      | None => Ret 0
      | Some t =>
          let* ret := act (let! T := load_thread t in thread_leaves T.(parent)) in
          let* T := act (load_thread t) in
          do* match T.(selected_fiber) with
              | Some prev_fiber => if ret =? 0 then Ret tt else par_release_fiber prev_fiber
              | None => Ret tt
              end;
          do* act (alter_process p (fun P => set_threads (hash_del_rcu P.(threads) t) P));
          do* act (do! load_thread t; mmodify (fun s => set_thread_heap (delete t s.(thread_heap)) s));
          if ret =? 0 then
            let* P := act (load_process p) in
            do* par_kfree_each kfree_fiber (hash_each P.(fibers));
            do* par_free_process p;
            Ret 0
          else Ret 0
      end
  end.

Definition par_process_cleanup : proc Z :=
  let* t := act current_task in
  let* o := act (find_process_by_tgid t.(tgid)) in
  match o with
  | None => Ret 0
  | Some p =>
      let* P := act (load_process p) in
      do* par_kfree_each kfree_thread (hash_each P.(threads));
      let* P := act (load_process p) in
      do* par_kfree_each kfree_fiber (hash_each P.(fibers));
      do* par_free_process p;
      Ret 0
  end.

(** The handler of an event of task [pid].  The scheduler probe is left out: it
    works on variables of its processor. *)
Definition par_event (garbage : fiber) (e : event) (pid : Z) : option (proc Z) :=
  match e with
  | EConvert => Some (par_ConvertThreadToFiber garbage pid)
  | ECreate sp sz fn param => Some (par_CreateFiber garbage sp sz fn param pid)
  | ESwitch id => Some (par_SwitchToFiber id pid)
  | EFls op => Some (par_fls op pid)
  | EExit => Some par_exit_cleanup
  | EClose => Some par_process_cleanup
  | ETimer => None
  end.

(** *** The machine

    The tasks run in parallel: one that is not in the module does what it wants
    with its registers, the others make the next step of their handlers, in any
    order.  A step that is not possible, as taking a spinlock that is held, is
    waited for; one that faults stays so. *)
Record config := Config { cf_state : kstate; cf_procs : gmap Z (proc Z) }.

Inductive label :=
  | LUser (pid : Z) (tk : task)
  | LCall (pid : Z) (e : event)
  | LReturn (pid : Z) (r : Z) (tk : task).

Inductive par_step : config -> option label -> config -> Prop :=
  | par_user s ps pid tk tk' :
      ps !! pid = None -> s.(tasks) !! pid = Some tk -> tk'.(tgid) = tk.(tgid) ->
      par_step (Config s ps) (Some (LUser pid tk')) (Config (set_tasks (<[pid := tk']> s.(tasks)) s) ps)
  | par_call s ps pid garbage e p :
      ps !! pid = None -> is_Some (s.(tasks) !! pid) -> par_event garbage e pid = Some p ->
      par_step (Config s ps) (Some (LCall pid e)) (Config s (<[pid := p]> ps))
  | par_act s ps pid {B} (m : kM B) k b s' :
      ps !! pid = Some (Act m k) -> m (set_current pid s) = Some (b, s') ->
      par_step (Config s ps) None (Config s' (<[pid := k b]> ps))
  | par_return s ps pid r tk :
      ps !! pid = Some (Ret r) -> s.(tasks) !! pid = Some tk ->
      par_step (Config s ps) (Some (LReturn pid r tk)) (Config s (delete pid ps)).

(** [par_run c l c']: a run from [c] to [c'] in which the calls and returns of
    [l] happen, in this order. *)
Inductive par_run : config -> list label -> config -> Prop :=
  | par_run_nil c : par_run c [] c
  | par_run_silent c c' l c'' : par_step c None c' -> par_run c' l c'' -> par_run c l c''
  | par_run_label c x c' l c'' :
      par_step c (Some x) c' -> par_run c' l c'' -> par_run c (x :: l) c''.

(** A schedule: who calls, who makes how many steps, who returns. *)
Inductive move := MCall (pid : Z) (e : event) | MSteps (pid : Z) (n : nat) | MReturn (pid : Z).

Fixpoint run_steps (pid : Z) (n : nat) (p : proc Z) (s : kstate) : option (proc Z * kstate) :=
  match n, p with
  | O, _ => Some (p, s)
  | S n', Ret _ => None
  | S n', Act m k =>
      match m (set_current pid s) with
      | Some (b, s') => run_steps pid n' (k b) s'
      | None => None
      end
  end.

Definition run_move (garbage : fiber) (x : move) (c : config) : option (list label * config) :=
  let '(Config s ps) := c in
  match x with
  | MCall pid e =>
      match ps !! pid, s.(tasks) !! pid, par_event garbage e pid with
      | None, Some _, Some p => Some ([LCall pid e], Config s (<[pid := p]> ps))
      | _, _, _ => None
      end
  | MSteps pid n =>
      match ps !! pid with
      | Some p =>
          match run_steps pid n p s with
          | Some (p', s') => Some ([], Config s' (<[pid := p']> ps))
          | None => None
          end
      | None => None
      end
  | MReturn pid =>
      match ps !! pid, s.(tasks) !! pid with
      | Some (Ret r), Some tk => Some ([LReturn pid r tk], Config s (delete pid ps))
      | _, _ => None
      end
  end.

Fixpoint run_moves (garbage : fiber) (l : list move) (c : config) : option (list label * config) :=
  match l with
  | [] => Some ([], c)
  | x :: l' =>
      match run_move garbage x c with
      | Some (tr, c') =>
          match run_moves garbage l' c' with
          | Some (tr', c'') => Some (tr ++ tr', c'')
          | None => None
          end
      | None => None
      end
  end.

(** ** A handler that runs alone *)

(** Both sides are unfolded to the lookups they make, and each lookup that
    decides is considered once. *)
#[local] Ltac unfold_steps :=
  cbv beta iota zeta delta [run_alone pbind act mthen mret mmodify mderef mreads mfault
    load_fiber load_thread load_process load_task current_task current_pid not_null
    alter_fiber alter_thread alter_process alter_task alter_current trylock_fiber unlock_fiber
    set_processes set_struct_process_lock set_process_heap set_thread_heap set_fiber_heap
    set_tasks set_current set_prev_task set_preempt_count set_umem
    processes struct_process_lock process_heap thread_heap fiber_heap tasks current
    prev_task preempt_count umem].
#[local] Ltac steps :=
  unfold_steps;
  repeat (match goal with
          | H : ?x = _ |- context [match ?x with _ => _ end] => rewrite H
          | |- context [match <[?p := _]> _ !! ?p with _ => _ end] => rewrite lookup_insert_eq
          | |- context [match ?x with _ => _ end] =>
              lazymatch x with context [match _ with _ => _ end] => fail | _ => destruct x eqn:? end
          end; try reflexivity).

Lemma switch_context_alone tp f s : run_alone (par_switch_context tp f) s = switch_context tp f s.
Proof. destruct s. unfold par_switch_context, switch_context. steps. Qed.

(** The first step, and the first part, of a handler. *)
Lemma alone_act {A B} (m : kM A) (k : A -> proc B) (f : A -> kM B) s :
  (forall a s', m s = Some (a, s') -> run_alone (k a) s' = f a s') ->
  run_alone (pbind (act m) k) s = mthen m f s.
Proof. intros H. by apply mthen_ext. Qed.

Lemma alone_part {A B} (p : proc A) (k : A -> proc B) (m : kM A) (f : A -> kM B) s :
  run_alone p s = m s -> (forall a s', m s = Some (a, s') -> run_alone (k a) s' = f a s') ->
  run_alone (pbind p k) s = mthen m f s.
Proof. intros Hp H. rewrite run_alone_bind. by apply mthen_ext; [|rewrite Hp]. Qed.

Lemma init_process_alone s : run_alone par_init_process s = init_process s.
Proof. destruct s. unfold par_init_process, init_process. steps. Qed.

Lemma init_thread_alone p id s : run_alone (par_init_thread p id) s = init_thread p id s.
Proof. destruct s. unfold par_init_thread, init_thread. steps. Qed.

Lemma init_fiber_alone garbage p ss s_ptr s :
  run_alone (par_init_fiber garbage p ss s_ptr) s = init_fiber p ss s_ptr s.
Proof.
  destruct s. unfold par_init_fiber, init_fiber, next_fiber_id. steps.
  all: rewrite ?insert_insert_eq; try done. 
Qed.

Lemma get_process_alone s : run_alone par_get_process s = get_process s.
Proof.
  unfold par_get_process, get_process. apply alone_act. intros _ s1 _.
  apply alone_act. intros t s2 _. apply alone_act. intros o s3 _.
  apply alone_part; [|done]. destruct o; [done|apply init_process_alone].
Qed.

Lemma convert_alone garbage tid s :
  run_alone (par_ConvertThreadToFiber garbage tid) s = do_ConvertThreadToFiber tid s.
Proof.
  unfold par_ConvertThreadToFiber, do_ConvertThreadToFiber.
  apply alone_part; [apply get_process_alone|]. intros ep s1 _.
  apply alone_act. intros [gp|] s2 _; [done|].
  apply alone_part; [apply init_thread_alone|]. intros gp s3 _.
  apply alone_part; [apply init_fiber_alone|]. intros fp s4 _.
  destruct s4. steps.
Qed.

Lemma create_alone garbage sp sz fn param tid s :
  run_alone (par_CreateFiber garbage sp sz fn param tid) s = do_CreateFiber sp sz fn param tid s.
Proof.
  unfold par_CreateFiber, do_CreateFiber. apply alone_act. intros t s1 _.
  apply alone_act. intros [ep|] s2 _; [|done].
  apply alone_act. intros [gp|] s3 _; [|done].
  apply alone_part; [apply init_fiber_alone|]. intros fp s4 _.
  destruct s4. steps.
Qed.

Lemma trylock_present f b s s' : trylock_fiber f s = Some (b, s') -> exists F, load_fiber f s' = Some (F, s').
Proof.
  unfold trylock_fiber, alter_fiber, load_fiber, mthen, mderef, mmodify, mret.
  destruct (fiber_heap s !! f) as [F|] eqn:HF; simpl; [|done]. rewrite HF. intros [= _ <-]. simpl.
  rewrite lookup_insert_eq. eauto.
Qed.

Lemma switch_alone id tid s : run_alone (par_SwitchToFiber id tid) s = do_SwitchToFiber id tid s.
Proof.
  unfold par_SwitchToFiber, do_SwitchToFiber. apply alone_act. intros t s1 _.
  apply alone_act. intros [ep|] s2 _; [|done].
  apply alone_act. intros [tp|] s3 _; [|done].
  apply alone_act. intros [f|] s4 _; [|done].
  apply alone_act. intros locked s5 (F & HF)%trylock_present. destruct locked.
  - apply alone_act. intros F' s6 _. simpl. case_bool_decide; [done|apply switch_context_alone].
  - by rewrite (mthen_eq _ _ _ _ _ HF).
Qed.

Lemma fls_fiber_alone tid s : run_alone (par_fls_fiber tid) s = fls_fiber tid s.
Proof.
  unfold par_fls_fiber, fls_fiber. apply alone_act. intros t s1 _.
  apply alone_act. intros [p|] s2 _; [|done].
  apply alone_act. by intros [o|] s3 _.
Qed.

Lemma fls_alone op tid s : run_alone (par_fls op tid) s = run_fls op tid s.
Proof.
  destruct op as [|i|i|i v]; unfold par_fls, run_fls;
    unfold par_FlsAlloc, par_FlsFree, par_FlsGetValue, par_FlsSetValue,
      do_FlsAlloc, do_FlsFree, do_FlsGetValue, do_FlsSetValue;
    rewrite ?mthen_assoc; (apply alone_part; [apply fls_fiber_alone|]);
    intros [f|] s1 _; try done; unfold flip_bit; destruct s1; steps.
Qed.

Lemma release_fiber_alone f s : run_alone (par_release_fiber f) s = release_fiber f s.
Proof. destruct s. unfold par_release_fiber, release_fiber, preempt_disable, preempt_enable. steps. Qed.

Lemma free_process_alone p s : run_alone (par_free_process p) s = free_process p s.
Proof. destruct s. unfold par_free_process, free_process. steps. Qed.

Lemma kfree_fiber_run f s :
  kfree_fiber f s =
    match s.(fiber_heap) !! f with
    | Some _ => if stale_reads then Some (tt, set_fiber_heap (delete f s.(fiber_heap)) s) else None
    | None => None
    end.
Proof.
  unfold kfree_fiber, load_fiber, mthen, mderef, mmodify, mfault.
  destruct (s.(fiber_heap) !! f); [|done]. by destruct stale_reads.
Qed.

Lemma kfree_fibers_alone l s : run_alone (par_kfree_each kfree_fiber l) s = kfree_fibers l s.
Proof.
  unfold kfree_fibers. revert s. induction l as [|f l IH]; intros s; [by destruct s|].
  change (run_alone (par_kfree_each kfree_fiber (f :: l)) s)
    with (mthen (kfree_fiber f) (fun _ => run_alone (par_kfree_each kfree_fiber l)) s).
  unfold mthen. rewrite kfree_fiber_run. simpl.
  destruct (fiber_heap s !! f); [|done]. destruct stale_reads; [|done]. by rewrite IH.
Qed.

Lemma kfree_thread_run t s :
  kfree_thread t s =
    match s.(thread_heap) !! t with
    | Some _ => if stale_reads then Some (tt, set_thread_heap (delete t s.(thread_heap)) s) else None
    | None => None
    end.
Proof.
  unfold kfree_thread, load_thread, mthen, mderef, mmodify, mfault.
  destruct (s.(thread_heap) !! t); [|done]. by destruct stale_reads.
Qed.

Lemma kfree_threads_alone l s : run_alone (par_kfree_each kfree_thread l) s = kfree_threads l s.
Proof.
  unfold kfree_threads. revert s. induction l as [|t l IH]; intros s; [by destruct s|].
  change (run_alone (par_kfree_each kfree_thread (t :: l)) s)
    with (mthen (kfree_thread t) (fun _ => run_alone (par_kfree_each kfree_thread l)) s).
  unfold mthen. rewrite kfree_thread_run. simpl.
  destruct (thread_heap s !! t); [|done]. destruct stale_reads; [|done]. by rewrite IH.
Qed.

(** The thread structure may be read before or after the counter changes. *)
Lemma thread_leaves_eq {A} t (g : thread -> Z -> kM A) s :
  (let! T := load_thread t in
   do! alter_process T.(parent) (fun P => set_active_threads (s64 (P.(active_threads) - 1)) P);
   let! P := load_process T.(parent) in g T P.(active_threads)) s =
  (let! ret := (let! T := load_thread t in thread_leaves T.(parent)) in
   let! T := load_thread t in g T ret) s.
Proof.
  unfold thread_leaves, alter_process, load_thread, load_process, mthen, mderef, mmodify, mret.
  destruct (thread_heap s !! t) as [T|] eqn:HT; [|done]. destruct (process_heap s !! parent T); [|done].
  simpl. rewrite lookup_insert_eq. cbn [set_process_heap thread_heap]. by rewrite HT.
Qed.

Lemma cleanup_alone s : run_alone par_process_cleanup s = process_cleanup s.
Proof.
  unfold par_process_cleanup, process_cleanup. apply alone_act. intros t s1 _.
  apply alone_act. intros [p|] s2 _; [|done]. apply alone_act. intros P s3 _.
  apply alone_part; [apply kfree_threads_alone|]. intros _ s4 _.
  apply alone_act. intros P' s5 _. apply alone_part; [apply kfree_fibers_alone|]. intros _ s6 _.
  apply alone_part; [apply free_process_alone|done].
Qed.

Lemma exit_alone s : run_alone par_exit_cleanup s = exit_cleanup s.
Proof.
  unfold par_exit_cleanup, exit_cleanup. apply alone_act. intros tk s1 _.
  apply alone_act. intros [p|] s2 _; [|done]. rewrite <- mthen_assoc.
  apply alone_act. intros [t|] s3 _; [|done].
  rewrite (thread_leaves_eq t (fun T ret =>
      do! match T.(selected_fiber) with
          | Some prev_fiber => if ret =? 0 then mret tt else release_fiber prev_fiber
          | None => mret tt
          end;
      do! alter_process p (fun P => set_threads (hash_del_rcu P.(threads) t) P);
      do! load_thread t;
      do! mmodify (fun s => set_thread_heap (delete t s.(thread_heap)) s);
      if ret =? 0 then
        let! P := load_process p in
        do! kfree_fibers (hash_each P.(fibers)); do! free_process p; mret 0
      else mret 0)).
  apply alone_act. intros ret s4 _. apply alone_act. intros T s5 _.
  apply alone_part; [|intros _ s6 _].
  { destruct (selected_fiber T); [|done]. destruct (ret =? 0); [done|apply release_fiber_alone]. }
  apply alone_act. intros _ s7 _. rewrite <- mthen_assoc. apply alone_act. intros _ s8 _.
  destruct (ret =? 0); [|done]. apply alone_act. intros P s9 _.
  apply alone_part; [apply kfree_fibers_alone|]. intros _ s10 _.
  by apply alone_part; [apply free_process_alone|].
Qed.

Lemma handlers_sequential garbage e pid p s :
  par_event garbage e pid = Some p -> s.(current) = pid -> run_alone p s = run_event e s.
Proof.
  intros He <-. rewrite run_event_eq. destruct e; simpl in He; simplify_eq.
  - apply convert_alone.
  - apply create_alone.
  - apply switch_alone.
  - apply fls_alone.
  - apply exit_alone.
  - apply cleanup_alone.
Qed.

(** C19: A handler taken apart into its accesses to shared memory, run in a
    reachable state without interference, returns [r] and leaves the module in
    [s'] exactly when the branch-by-branch description of its event says so. *)
Theorem handlers_alone {KOk : KernelOk K} n garbage e pid p s r s' :
  reach n s -> n < INT_MAX -> par_event garbage e pid = Some p -> s.(current) = pid ->
  (run_alone p s = Some (r, s') <-> outcome s e r s').
Proof.
  intros Hr Hn He Hpid. rewrite (handlers_sequential _ _ _ _ _ He Hpid).
  apply reach_good in Hr as [? Hg]; [|lia].
  split; intros Hx; [by eapply event_outcome_aux|by eapply outcome_event_aux].
Qed.

(** *** Schedules are runs *)

Lemma par_run_app c l c' l' c'' : par_run c l c' -> par_run c' l' c'' -> par_run c (l ++ l') c''.
Proof.
  induction 1 as [|? ? ? ? ? ? IH|? ? ? ? ? ? ? IH]; intros Hr; [done| |]; simpl;
    [eapply par_run_silent|eapply par_run_label]; eauto.
Qed.

Lemma run_steps_run pid n p s ps p' s' :
  ps !! pid = Some p -> run_steps pid n p s = Some (p', s') ->
  par_run (Config s ps) [] (Config s' (<[pid := p']> ps)).
Proof.
  revert p s ps. induction n as [|n IH]; intros p s ps Hp Hrun; simpl in Hrun.
  - simplify_eq. rewrite insert_id by done. constructor.
  - destruct p as [r|B m k]; [done|]. destruct (m (set_current pid s)) as [[b s1]|] eqn:Hm; [|done].
    apply (par_run_silent _ (Config s1 (<[pid := k b]> ps))); [by apply (par_act _ _ _ m)|].
    rewrite <- (insert_insert_eq ps pid p' (k b)). eapply IH; [apply lookup_insert_eq|done].
Qed.

Lemma run_move_run garbage x c tr c' : run_move garbage x c = Some (tr, c') -> par_run c tr c'.
Proof.
  destruct c as [s ps], x as [pid e|pid n|pid]; simpl.
  - destruct (ps !! pid) eqn:Hp; [done|]. destruct (tasks s !! pid) eqn:Ht; [|done].
    destruct (par_event garbage e pid) eqn:He; [|done]. intros [= <- <-].
    eapply par_run_label; [eapply (par_call _ _ _ garbage); eauto|apply par_run_nil].
  - destruct (ps !! pid) as [p|] eqn:Hp; [|done].
    destruct (run_steps pid n p s) as [[p' s']|] eqn:Hr; [|done]. intros [= <- <-].
    by eapply run_steps_run.
  - destruct (ps !! pid) as [[r|B m k]|] eqn:Hp; [|done..].
    destruct (tasks s !! pid) eqn:Ht; [|done]. intros [= <- <-].
    eapply par_run_label; [eapply par_return; eauto|apply par_run_nil].
Qed.

Lemma run_moves_run garbage ms c tr c' : run_moves garbage ms c = Some (tr, c') -> par_run c tr c'.
Proof.
  revert c tr. induction ms as [|x ms IH]; intros c tr Hr; simpl in Hr.
  - simplify_eq. constructor.
  - destruct (run_move garbage x c) as [[l c1]|] eqn:Hx; [|done].
    destruct (run_moves garbage ms c1) as [[l' c2]|] eqn:Hms; [|done]. simplify_eq.
    eapply par_run_app; [by eapply run_move_run|eauto].
Qed.
End Parallel.

(** ** Handlers that meet *)

Import Reference.

(** Memory that was never written. *)
Definition blank : fiber :=
  Fiber false 0 [] None 1%positive (user_regs 0) [] 0 0 [] 0 0 0 0 0 0.

(** [by_running]: both sides have the same value;
    [computed_field_of H f]: the value of [f] at a computed result. *)
Ltac by_running := match goal with |- _ = ?b => vm_cast_no_check (eq_refl b) end.
Ltac computed_field_of H f := refine (fmap_field f _ _ _ H _); by_running.

(** A schedule that starts after a script: its trace, and the state it leaves
    when no handler is in progress any more. *)
Definition scheduled (l : script) (ms : list move) : option (list label * kstate) :=
  match run_moves blank ms (Config (played l) ∅) with
  | Some (tr, Config s ps) => if decide (ps = ∅) then Some (tr, s) else None
  | None => None
  end.

Lemma scheduled_run l ms tr s :
  scheduled l ms = Some (tr, s) -> par_run (Config (played l) ∅) tr (Config s ∅).
Proof.
  unfold scheduled. destruct (run_moves _ _ _) as [[tr' [s' ps]]|] eqn:Hr; [|done].
  case_decide; [|done]. intros [= <- <-]. subst. by eapply run_moves_run.
Qed.

Lemma scheduled_trace l ms tr s tr' :
  scheduled l ms = Some (tr, s) -> fst <$> scheduled l ms = Some tr' ->
  par_run (Config (played l) ∅) tr' (Config s ∅).
Proof. intros H. rewrite H. intros [= <-]. by apply (scheduled_run _ ms). Qed.

(** Task 11 converts itself.  Its fiber, 2, is in the table when thread 10
    switches to it, and is attached and locked afterwards. *)
Definition convert_schedule : list move :=
  [MCall 11 EConvert; MSteps 11 13; MCall 10 (ESwitch 2); MSteps 10 17; MReturn 10;
   MSteps 11 12; MReturn 11].

(** Task 10 creates fiber 3 that is to start at 5000.  It is in the table when
    thread 11 switches to it, and gets its entry point afterwards. *)
Definition create_schedule : list move :=
  [MCall 10 (ECreate 65536 4096 5000 77); MSteps 10 9; MCall 11 (ESwitch 3); MSteps 11 17;
   MReturn 11; MSteps 10 9; MReturn 10].

(** A task after a switch to a fiber that is still being made: it has the
    registers [user_regs n] of the maker, apart from the stack pointer of the
    fiber, and no floating point state. *)
Definition half_made_regs (n sp : Z) : pt_regs := PtRegs (1000 + n) (2000 + n) sp sp [n].
Definition half_made (n time sp : Z) : task := Task 10 time (half_made_regs n sp) [].

Lemma convert_race :
  exists s f t t',
    par_run (Config (played [(10, EConvert)]) ∅)
      [LCall 11 EConvert; LCall 10 (ESwitch 2); LReturn 10 0 t; LReturn 11 (-1) t'] (Config s ∅) /\
    running s 10 10 = Some f /\ running s 10 11 = Some f.
Proof.
  computed (scheduled [(10, EConvert)] convert_schedule) r H. destruct r as [tr s].
  exists s, 2%positive, (half_made 2 100 18446744073709551609), (user_task 10 2).
  split; [apply (scheduled_trace _ _ _ _ _ H); by_running|].
  split; [computed_field_of H (fun r : list label * kstate => running r.2 10 10)
         |computed_field_of H (fun r : list label * kstate => running r.2 10 11)].
Qed.

Lemma create_race :
  exists s t t',
    par_run (Config (played [(10, EConvert); (11, EConvert)]) ∅)
      [LCall 10 (ECreate 65536 4096 5000 77); LCall 11 (ESwitch 3); LReturn 11 0 t; LReturn 10 3 t']
      (Config s ∅) /\
    t.(regs).(ip) = t'.(regs).(ip) /\ t.(regs).(ip) <> 5000.
Proof.
  computed (scheduled [(10, EConvert); (11, EConvert)] create_schedule) r H. destruct r as [tr s].
  exists s, (half_made 1 200 69624), (user_task 10 1).
  split; [apply (scheduled_trace _ _ _ _ _ H); by_running|]. by split.
Qed.

(** C20: A fiber can be found before it is ready.  A conversion is not safe
    against a switch by another thread: there is a run in parallel in which both
    return, the switch with success, and leave two threads that run the same
    fiber.  Nor is a creation: a thread that switches to a fiber while it is
    created returns to the place where the creator called the module, and not to
    the entry point of the fiber. *)
Theorem published_too_early :
  (exists s f t t',
     par_run (Config (played [(10, EConvert)]) ∅)
       [LCall 11 EConvert; LCall 10 (ESwitch 2); LReturn 10 0 t; LReturn 11 (-1) t'] (Config s ∅) /\
     running s 10 10 = Some f /\ running s 10 11 = Some f) /\
  (exists s t t',
     par_run (Config (played [(10, EConvert); (11, EConvert)]) ∅)
       [LCall 10 (ECreate 65536 4096 5000 77); LCall 11 (ESwitch 3); LReturn 11 0 t; LReturn 10 3 t']
       (Config s ∅) /\
     t.(regs).(ip) = t'.(regs).(ip) /\ t.(regs).(ip) <> 5000).
Proof. exact (conj convert_race create_race). Qed.

(** The next step of [pid] is a fault: it is not possible, and the only lock that
    is waited for is free. *)
Definition faulted (pid : Z) (c : config) : bool :=
  match c.(cf_procs) !! pid with
  | Some (Act m _) =>
      match m (set_current pid c.(cf_state)) with
      | Some _ => false
      | None => negb (spin_is_locked c.(cf_state).(struct_process_lock))
      end
  | _ => false
  end.

(** Both threads of a process exit.  Task 10 has counted itself out when task 11,
    as the last one, frees the process with all fibers. *)
Definition exit_schedule : list move :=
  [MCall 10 EExit; MSteps 10 5; MCall 11 EExit; MSteps 11 12; MReturn 11].

(** C21: Threads of a process that exit at the same time can use freed memory.
    There is a run in parallel, from a state with two converted threads, in which
    both exit, the one that leaves last frees the fibers while the other has still
    to save its registers in one of them, and the next step of the other faults. *)
Theorem exit_race :
  exists c, par_run (Config (played [(10, EConvert); (11, EConvert)]) ∅)
      [LCall 10 EExit; LCall 11 EExit; LReturn 11 0 (user_task 10 2)] c /\
    c.(cf_state).(fiber_heap) = ∅ /\ faulted 10 c = true.
Proof.
  computed (run_moves blank exit_schedule (Config (played [(10, EConvert); (11, EConvert)]) ∅)) r H.
  destruct r as [tr c]. pose proof (run_moves_run _ _ _ _ _ H) as Hrun.
  assert (tr = [LCall 10 EExit; LCall 11 EExit; LReturn 11 0 (user_task 10 2)]) as ->
    by computed_field_of H (fst (A := list label) (B := config)).
  exists c. split; [exact Hrun|].
  split; [computed_field_of H (fun r : list label * config => r.2.(cf_state).(fiber_heap))
         |computed_field_of H (fun r : list label * config => faulted 10 r.2)].
Qed.

Lemma handlers_alone_witness :
  exists p r s', par_event blank (ESwitch 2) 11 = Some p /\
    run_alone p (played setup) = Some (r, s') /\ outcome (played setup) (ESwitch 2) r s'.
Proof.
  destruct (par_event blank (ESwitch 2) 11) as [p|] eqn:He; [|discriminate He].
  destruct (returns_Some (run_alone p (played setup))) as [[r s'] Hr].
  { injection He as <-. vm_compute. reflexivity. }
  exists p, r, s'. split; [reflexivity|]. split; [exact Hr|].
  apply (handlers_alone 6 blank (ESwitch 2) 11 p); [apply (played_reach setup)|reflexivity|exact He| |exact Hr].
  vm_compute. reflexivity.
Defined.
