(* ===== verification/ParallelSpec.v ===== *)
(** * What handlers in parallel promise

    The specification of Spec.v makes a switch in one step.  Seen by other
    threads it is two: the caller takes the fiber it wants, and later leaves the
    one it has; in between it holds both, and others are refused by both.  The
    specification of this file has these steps, and lets the calls of all tasks
    proceed independently.  Storage operations are one step each.

    Conversion, creation, exit and the closing of the device are not part of it:
    they have to run alone ([published_too_early], [exit_race]). *)

From S2P Require Import Prelude Kernel State CStr Fibers Heap Runs Kprobes Safety Fls Outcome System Views Switching Spec Parallel.

Section ParallelSpec.
Context {K : Kernel}.

(** A fiber with the thread that holds it: the one that runs it, or has taken it
    in a switch that is not over yet. *)
Record pfiber := PFiber {
  pf_owner : option (Z * Z); pf_regs : pt_regs; pf_fpu : fx_regs; pf_slots : gmap Z Z
}.

(** How far a call is: nothing has happened yet, fiber [id] is taken, or the
    result is known. *)
Inductive phase := Called (e : event) | Taken (id : Z) | Answer (r : Z).

Record pspec := PSpec {
  ps_fibers : gmap (Z * Z) pfiber;
  ps_running : gmap (Z * Z) Z;
  ps_tasks : gmap Z task;
  ps_calls : gmap Z phase
}.

Definition put_fiber (k : Z * Z) (X : pfiber) (a : pspec) : pspec :=
  PSpec (<[k := X]> a.(ps_fibers)) a.(ps_running) a.(ps_tasks) a.(ps_calls).
Definition put_running (k : Z * Z) (id : Z) (a : pspec) : pspec :=
  PSpec a.(ps_fibers) (<[k := id]> a.(ps_running)) a.(ps_tasks) a.(ps_calls).
Definition put_task (pid : Z) (tk : task) (a : pspec) : pspec :=
  PSpec a.(ps_fibers) a.(ps_running) (<[pid := tk]> a.(ps_tasks)) a.(ps_calls).
Definition put_call (pid : Z) (ph : phase) (a : pspec) : pspec :=
  PSpec a.(ps_fibers) a.(ps_running) a.(ps_tasks) (<[pid := ph]> a.(ps_calls)).
Definition end_call (pid : Z) (a : pspec) : pspec :=
  PSpec a.(ps_fibers) a.(ps_running) a.(ps_tasks) (delete pid a.(ps_calls)).

Definition set_owner (o : option (Z * Z)) (X : pfiber) : pfiber :=
  PFiber o X.(pf_regs) X.(pf_fpu) X.(pf_slots).
Definition set_slots (m : gmap Z Z) (X : pfiber) : pfiber :=
  PFiber X.(pf_owner) X.(pf_regs) X.(pf_fpu) m.

(** A call of task [pid] proceeds. *)
Inductive proceed (pid : Z) (a : pspec) : pspec -> Prop :=
  | pr_take tk id0 id X :
      a.(ps_calls) !! pid = Some (Called (ESwitch id)) ->
      a.(ps_tasks) !! pid = Some tk -> a.(ps_running) !! (tk.(tgid), pid) = Some id0 ->
      a.(ps_fibers) !! (tk.(tgid), id) = Some X -> X.(pf_owner) = None ->
      proceed pid a
        (put_call pid (Taken id) (put_fiber (tk.(tgid), id) (set_owner (Some (tk.(tgid), pid)) X) a))
  | pr_busy tk id X :
      a.(ps_calls) !! pid = Some (Called (ESwitch id)) ->
      a.(ps_tasks) !! pid = Some tk ->
      a.(ps_fibers) !! (tk.(tgid), id) = Some X -> X.(pf_owner) <> None ->
      proceed pid a (put_call pid (Answer (-1)) a)
  | pr_none tk id :
      a.(ps_calls) !! pid = Some (Called (ESwitch id)) ->
      a.(ps_tasks) !! pid = Some tk ->
      a.(ps_running) !! (tk.(tgid), pid) = None \/ a.(ps_fibers) !! (tk.(tgid), id) = None ->
      proceed pid a (put_call pid (Answer (-1)) a)
  | pr_leave tk id0 X0 id X :
      a.(ps_calls) !! pid = Some (Taken id) ->
      a.(ps_tasks) !! pid = Some tk -> a.(ps_running) !! (tk.(tgid), pid) = Some id0 ->
      a.(ps_fibers) !! (tk.(tgid), id0) = Some X0 -> a.(ps_fibers) !! (tk.(tgid), id) = Some X ->
      proceed pid a
        (put_call pid (Answer 0)
          (put_task pid (Task tk.(tgid) tk.(utime) X.(pf_regs) X.(pf_fpu))
            (put_running (tk.(tgid), pid) id
              (put_fiber (tk.(tgid), id0) (PFiber None tk.(regs) tk.(fx) X0.(pf_slots)) a))))
  | pr_fls tk id X op r m :
      a.(ps_calls) !! pid = Some (Called (EFls op)) ->
      a.(ps_tasks) !! pid = Some tk -> a.(ps_running) !! (tk.(tgid), pid) = Some id ->
      a.(ps_fibers) !! (tk.(tgid), id) = Some X -> fls_step op r X.(pf_slots) m ->
      proceed pid a (put_call pid (Answer r) (put_fiber (tk.(tgid), id) (set_slots m X) a))
  | pr_fls_none tk op :
      a.(ps_calls) !! pid = Some (Called (EFls op)) ->
      a.(ps_tasks) !! pid = Some tk -> a.(ps_running) !! (tk.(tgid), pid) = None ->
      proceed pid a (put_call pid (Answer (fls_failure op)) a).

Inductive pspec_step (a : pspec) : option label -> pspec -> Prop :=
  | ps_user pid tk tk' :
      a.(ps_calls) !! pid = None -> a.(ps_tasks) !! pid = Some tk -> tk'.(tgid) = tk.(tgid) ->
      pspec_step a (Some (LUser pid tk')) (put_task pid tk' a)
  | ps_call pid e :
      a.(ps_calls) !! pid = None -> is_Some (a.(ps_tasks) !! pid) ->
      pspec_step a (Some (LCall pid e)) (put_call pid (Called e) a)
  | ps_proceed pid a' : proceed pid a a' -> pspec_step a None a'
  | ps_return pid r tk :
      a.(ps_calls) !! pid = Some (Answer r) -> a.(ps_tasks) !! pid = Some tk ->
      pspec_step a (Some (LReturn pid r tk)) (end_call pid a).

Inductive pspec_run : pspec -> list label -> pspec -> Prop :=
  | pspec_run_nil a : pspec_run a [] a
  | pspec_run_silent a a' l a'' :
      pspec_step a None a' -> pspec_run a' l a'' -> pspec_run a l a''
  | pspec_run_label a x a' l a'' :
      pspec_step a (Some x) a' -> pspec_run a' l a'' -> pspec_run a (x :: l) a''.

(** ** Between the two specifications

    A state of Spec.v as one in which no call is in progress, and back. *)

Definition owner_in (r : gmap (Z * Z) Z) (k : Z * Z) : option (Z * Z) :=
  fst <$> head (filter (fun x => x.1.1 = k.1 /\ x.2 = k.2) (map_to_list r)).

Definition start (b : spec) : pspec :=
  PSpec
    (map_imap (fun k F => Some (PFiber (owner_in b.(sp_running) k) F.(sf_regs) F.(sf_fpu) F.(sf_slots)))
       b.(sp_fibers))
    b.(sp_running) b.(sp_tasks) ∅.

Definition stop (last : gmap Z Z) (current : Z) (a : pspec) : spec :=
  Spec last ((fun X => SFiber X.(pf_regs) X.(pf_fpu) X.(pf_slots)) <$> a.(ps_fibers))
    a.(ps_running) a.(ps_tasks) current.

Lemma owner_in_Some r g id gp :
  owner_in r (g, id) = Some gp -> gp.1 = g /\ r !! gp = Some id.
Proof.
  unfold owner_in. destruct (filter _ _) as [|[[g' pid] id'] l] eqn:E; simpl; [done|]. intros [= <-].
  assert ((g', pid, id') ∈ filter (fun x : Z * Z * Z => x.1.1 = g /\ x.2 = id) (map_to_list r)) as H.
  { simpl in E. rewrite E. left. }
  apply list_elem_of_filter in H as [[Hg Hid] H]. simpl in *. subst.
  split; [done|]. by apply elem_of_map_to_list.
Qed.

Lemma owner_in_None r g id : owner_in r (g, id) = None -> forall pid, r !! (g, pid) <> Some id.
Proof.
  unfold owner_in. destruct (filter _ _) as [|x l] eqn:E; simpl; [|done]. intros _ pid Hr.
  assert ((g, pid, id) ∈ filter (fun x : Z * Z * Z => x.1.1 = g /\ x.2 = id) (map_to_list r)) as H.
  { apply list_elem_of_filter. split; [done|]. by apply elem_of_map_to_list. }
  simpl in E. rewrite E in H. by apply elem_of_nil in H.
Qed.

Lemma pspec_run_app a l a' l' a'' : pspec_run a l a' -> pspec_run a' l' a'' -> pspec_run a (l ++ l') a''.
Proof.
  induction 1 as [|? ? ? ? ? ? IH|? ? ? ? ? ? ? IH]; intros Hr; [done| |]; simpl;
    [eapply pspec_run_silent|eapply pspec_run_label]; eauto.
Qed.

Lemma proceed_run pid a a' : rtc (proceed pid) a a' -> pspec_run a [] a'.
Proof.
  induction 1 as [|a1 a2 a3 Hp _ IH]; [constructor|].
  eapply pspec_run_silent; [by eapply ps_proceed|done].
Qed.
End ParallelSpec.
