(* ===== verification/ParallelSim.v ===== *)
(** * Simulation between handlers in parallel and their specification

    A handler is verified alone, against what the others may do meanwhile
    ([rely]) and what it may do to them ([guar]): [sat] says that from here on
    each of its steps is matched by steps of the specification, keeps [psim] and
    respects the others.  [sat_sound] puts the handlers together. *)

From S2P Require Import Prelude Kernel State CStr Fibers Heap Runs Kprobes Safety Fls Outcome System Views Scenario Exclusion Switching Creation Lifecycle Spec Refinement Parallel ParallelSpec.

(** The lookup loop depends on the keys of the objects only. *)
Lemma find_loop_keys {A} (m m' : gmap ptr A) (key : A -> Z) id l :
  (forall p, key <$> m' !! p = key <$> m !! p) -> find_loop m' key id l = find_loop m key id l.
Proof.
  intros Hk. induction l as [|p l IH]; simpl; [done|]. specialize (Hk p).
  destruct (m' !! p), (m !! p); simplify_eq/=; [|done]. rewrite Hk, IH. done.
Qed.

Section Statics.
Context {K : Kernel} {KOk : KernelOk K}.

(** ** What does not change while handlers run in parallel

    [s0] is the state in which the parallel run starts: no handler is in
    progress in it. *)

Definition thread_static (T : thread) : Z * ptr := (T.(thread_id), T.(parent)).
Definition fiber_static (F : fiber) : Z * ptr * list ascii := (F.(fiber_id), F.(parent_process), F.(name)).

Record statics (s0 s : kstate) : Prop := {
  st_processes : s.(processes) = s0.(processes);
  st_lock : s.(struct_process_lock) = s0.(struct_process_lock);
  st_process_heap : s.(process_heap) = s0.(process_heap);
  st_threads t : thread_static <$> s.(thread_heap) !! t = thread_static <$> s0.(thread_heap) !! t;
  st_fibers f : fiber_static <$> s.(fiber_heap) !! f = fiber_static <$> s0.(fiber_heap) !! f
}.

Context (s0 : kstate) (Hwf0 : wf s0).

(** The keys of fibers and threads in the specification. *)
Definition fkey (f : ptr) : option (Z * Z) := F ← s0.(fiber_heap) !! f; fiber_key s0.(process_heap) F.
Definition tkey (t : ptr) : option (Z * Z) := T ← s0.(thread_heap) !! t; thread_key s0.(process_heap) T.

Lemma fkey_inj f f' k : fkey f = Some k -> fkey f' = Some k -> f = f'.
Proof using Hwf0 KOk.
  unfold fkey. destruct (fiber_heap s0 !! f) as [F|] eqn:HF; [|done].
  destruct (fiber_heap s0 !! f') as [F'|] eqn:HF'; [|done]. simpl. intros Hk Hk'.
  by eapply (fiber_key_inj s0 Hwf0).
Qed.

Lemma tkey_inj t t' k : tkey t = Some k -> tkey t' = Some k -> t = t'.
Proof using Hwf0 KOk.
  unfold tkey. destruct (thread_heap s0 !! t) as [T|] eqn:HT; [|done].
  destruct (thread_heap s0 !! t') as [T'|] eqn:HT'; [|done]. simpl. intros Hk Hk'.
  by eapply (thread_key_inj s0 Hwf0).
Qed.

Lemma fkey_fiber_for f g id : fkey f = Some (g, id) <-> fiber_for s0 g id = Some f.
Proof using Hwf0 KOk.
  rewrite fiber_for_spec by done. unfold fkey. split.
  - destruct (fiber_heap s0 !! f) as [F|] eqn:HF; [|done]. simpl.
    intros (P & HP & Hg & Hid)%fiber_key_Some. by exists F, P.
  - intros (F & P & -> & Hid & HP & Hg). simpl. apply fiber_key_Some. by exists P.
Qed.

Lemma tkey_thread_for t g pid : tkey t = Some (g, pid) <-> thread_for s0 g pid = Some t.
Proof using Hwf0 KOk.
  rewrite thread_for_spec by done. unfold tkey. split.
  - destruct (thread_heap s0 !! t) as [T|] eqn:HT; [|done]. simpl.
    intros (P & HP & Hg & Hid)%thread_key_Some. by exists T, P.
  - intros (T & P & -> & Hid & HP & Hg). simpl. apply thread_key_Some. by exists P.
Qed.

Lemma fkey_is_Some s f : statics s0 s -> is_Some (s.(fiber_heap) !! f) <-> is_Some (fkey f).
Proof using Hwf0 KOk.
  intros Hs. pose proof (st_fibers _ _ Hs f) as Hf. unfold fkey.
  destruct (fiber_heap s !! f) as [F|] eqn:HF, (fiber_heap s0 !! f) as [F0|] eqn:HF0; try done; simpl.
  - split; [|done]. intros _.
    destruct (fo_parent _ _ _ _ (ho_fiber _ _ _ _ (wf_heap _ Hwf0) f F0 HF0)) as [P HP].
    unfold fiber_key. rewrite HP. by eexists.
  - by split; intros [].
Qed.

Lemma tkey_is_Some s t : statics s0 s -> is_Some (s.(thread_heap) !! t) <-> is_Some (tkey t).
Proof using Hwf0 KOk.
  intros Hs. pose proof (st_threads _ _ Hs t) as Ht. unfold tkey.
  destruct (thread_heap s !! t) as [T|] eqn:HT, (thread_heap s0 !! t) as [T0|] eqn:HT0; try done; simpl.
  - split; [|done]. intros _.
    destruct (to_parent _ _ _ _ (ho_thread _ _ _ _ (wf_heap _ Hwf0) t T0 HT0)) as [P HP].
    unfold thread_key. rewrite HP. by eexists.
  - by split; intros [].
Qed.

(** The lookups find what they found in the beginning. *)
Lemma find_process_static s g : statics s0 s -> find_process_by_tgid g s = Some (process_at s0 g, s).
Proof using Hwf0 KOk.
  intros [Hp _ Hph _ _]. unfold find_process_by_tgid. apply mderef_eq. rewrite Hp, Hph.
  eapply find_loop_at_key. apply Hwf0.
Qed.

Lemma find_thread_static s p P pid :
  statics s0 s -> s0.(process_heap) !! p = Some P ->
  find_thread_by_pid pid p s = Some (thread_at s0 p pid, s).
Proof using Hwf0 KOk.
  intros [_ _ Hph Hth _] HP. unfold find_thread_by_pid, load_process.
  rewrite (mthen_eq _ _ _ P s) by (apply mderef_eq; by rewrite Hph). apply mderef_eq.
  rewrite (find_loop_keys s0.(thread_heap)).
  - unfold thread_at. rewrite HP. simpl. eapply find_loop_at_key. by eapply ho_process, HP; apply Hwf0.
  - intros t. specialize (Hth t). destruct (thread_heap s !! t), (thread_heap s0 !! t); simplify_eq/=; congruence.
Qed.

Lemma find_fiber_static s p P id :
  statics s0 s -> s0.(process_heap) !! p = Some P ->
  find_fiber_by_id id p s = Some (fiber_at s0 p id, s).
Proof using Hwf0 KOk.
  intros [_ _ Hph _ Hfh] HP. unfold find_fiber_by_id, load_process.
  rewrite (mthen_eq _ _ _ P s) by (apply mderef_eq; by rewrite Hph). apply mderef_eq.
  rewrite (find_loop_keys s0.(fiber_heap)).
  - unfold fiber_at. rewrite HP. simpl. eapply find_loop_at_key. by eapply ho_process, HP; apply Hwf0.
  - intros f. specialize (Hfh f). unfold fiber_static in Hfh.
    destruct (fiber_heap s !! f), (fiber_heap s0 !! f); simplify_eq/=; congruence.
Qed.

Lemma statics_refl : statics s0 s0.
Proof using. by split. Qed.

Lemma statics_fiber s f F F' :
  statics s0 s -> s.(fiber_heap) !! f = Some F -> fiber_static F' = fiber_static F ->
  statics s0 (set_fiber_heap (<[f := F']> s.(fiber_heap)) s).
Proof using.
  intros [H1 H2 H3 H4 H5] HF Heq. split; [done..|]. intros g. simpl. rewrite <- H5.
  destruct (decide (f = g)) as [<-|]; [|by rewrite lookup_insert_ne].
  rewrite lookup_insert_eq, HF. simpl. by rewrite Heq.
Qed.

Lemma statics_thread s t T T' :
  statics s0 s -> s.(thread_heap) !! t = Some T -> thread_static T' = thread_static T ->
  statics s0 (set_thread_heap (<[t := T']> s.(thread_heap)) s).
Proof using.
  intros [H1 H2 H3 H4 H5] HT Heq. split; [done..| |done]. intros g. simpl. rewrite <- H4.
  destruct (decide (t = g)) as [<-|]; [|by rewrite lookup_insert_ne].
  rewrite lookup_insert_eq, HT. simpl. by rewrite Heq.
Qed.

Lemma statics_tasks s ts : statics s0 s -> statics s0 (set_tasks ts s).
Proof using. intros []. by split. Qed.

Lemma statics_current s c : statics s0 s -> statics s0 (set_current c s).
Proof using. intros []. by split. Qed.
End Statics.

(** ** The relation, and what threads expect of each other *)

Section Sim.
Context {K : Kernel} {KOk : KernelOk K} (s0 : kstate) (Hwf0 : wf s0).
Implicit Types (s : kstate) (a : pspec).

(** Task [pid] of group [g] is in the module. *)
Definition in_call (a : pspec) (gp : Z * Z) : Prop :=
  is_Some (a.(ps_calls) !! gp.2) /\ tgid <$> a.(ps_tasks) !! gp.2 = Some gp.1.

(** A fiber and what the specification says of it.  While a thread holds it the
    saved registers are of no interest to others. *)
Record fiber_sim (F : fiber) (X : pfiber) : Prop := {
  fs_sized : fls_sized F;
  fs_slots : slots F = X.(pf_slots);
  fs_lock : spin_is_locked F.(fiber_lock) = bool_decide (X.(pf_owner) <> None);
  fs_free : X.(pf_owner) = None ->
    F.(attached_thread) = None /\ F.(registers) = X.(pf_regs) /\ F.(fpu) = X.(pf_fpu)
}.

(** Thread [t], known as [gp], is not in a switch: it runs a fiber that it holds. *)
Definition at_rest (gp : Z * Z) (t : ptr) s a : Prop :=
  exists T f id F X,
    s.(thread_heap) !! t = Some T /\ T.(selected_fiber) = Some f /\
    fkey s0 f = Some (gp.1, id) /\ s.(fiber_heap) !! f = Some F /\
    a.(ps_running) !! gp = Some id /\ a.(ps_fibers) !! (gp.1, id) = Some X /\
    X.(pf_owner) = Some gp /\ F.(attached_thread) = Some t /\
    F.(registers) = X.(pf_regs) /\ F.(fpu) = X.(pf_fpu).

Record psim s a : Prop := {
  sim_static : statics s0 s;
  sim_fibers f F k : s.(fiber_heap) !! f = Some F -> fkey s0 f = Some k ->
    exists X, a.(ps_fibers) !! k = Some X /\ fiber_sim F X;
  sim_keys k : is_Some (a.(ps_fibers) !! k) -> exists f, fkey s0 f = Some k;
  sim_running k : is_Some (a.(ps_running) !! k) <-> exists t, tkey s0 t = Some k;
  sim_rest gp t : tkey s0 t = Some gp -> ~ in_call a gp -> at_rest gp t s a;
  sim_owner k X gp : a.(ps_fibers) !! k = Some X -> X.(pf_owner) = Some gp ->
    in_call a gp \/ (gp.1 = k.1 /\ a.(ps_running) !! gp = Some k.2);
  sim_tasks pid : a.(ps_calls) !! pid = None -> a.(ps_tasks) !! pid = s.(tasks) !! pid;
  sim_groups pid : tgid <$> a.(ps_tasks) !! pid = tgid <$> s.(tasks) !! pid
}.

(** What a thread relies on is its own: its task, its thread structure and the
    fibers it holds, except for the lock and the counter of refused switches. *)
Definition own_view (F : fiber) :=
  (F.(attached_thread), F.(registers), F.(fpu), F.(fls), F.(fls_bitmap), F.(parent_process)).

Record rely (gp : Z * Z) s a s' a' : Prop := {
  rl_task : s'.(tasks) !! gp.2 = s.(tasks) !! gp.2;
  rl_spec_task : a'.(ps_tasks) !! gp.2 = a.(ps_tasks) !! gp.2;
  rl_call : a'.(ps_calls) !! gp.2 = a.(ps_calls) !! gp.2;
  rl_running : a'.(ps_running) !! gp = a.(ps_running) !! gp;
  rl_owned k X : a'.(ps_fibers) !! k = Some X -> X.(pf_owner) = Some gp -> a.(ps_fibers) !! k = Some X;
  rl_thread t : tkey s0 t = Some gp -> s'.(thread_heap) !! t = s.(thread_heap) !! t;
  rl_fiber f k F X :
    fkey s0 f = Some k -> a.(ps_fibers) !! k = Some X -> X.(pf_owner) = Some gp ->
    s.(fiber_heap) !! f = Some F ->
    a'.(ps_fibers) !! k = Some X /\
    exists F', s'.(fiber_heap) !! f = Some F' /\ own_view F' = own_view F
}.

Definition guar (pid : Z) s a s' a' : Prop := forall gp, gp.2 <> pid -> rely gp s a s' a'.

Lemma rely_refl gp s a : rely gp s a s a.
Proof using. split; [done..|]. eauto. Qed.

Lemma rely_trans gp s1 a1 s2 a2 s3 a3 :
  rely gp s1 a1 s2 a2 -> rely gp s2 a2 s3 a3 -> rely gp s1 a1 s3 a3.
Proof using.
  intros [H1 H2 H3 H4 H7 H5 H6] [G1 G2 G3 G4 G7 G5 G6]. split; try congruence; [eauto| |].
  - intros t Ht. rewrite G5 by done. auto.
  - intros f k F X Hf HX Ho HF. destruct (H6 f k F X) as (HX2 & F2 & HF2 & Hv2); [done..|].
    destruct (G6 f k F2 X) as (HX3 & F3 & HF3 & Hv3); [done..|]. split; [done|].
    exists F3. split; [done|congruence].
Qed.

Lemma guar_refl pid s a : guar pid s a s a.
Proof using. intros gp _. apply rely_refl. Qed.

(** ** Handlers and their specification *)

(** Task [pid] is in phase [ph], and is not in a switch. *)
Record at_phase (gp : Z * Z) (ph : phase) s a : Prop := {
  ap_task : exists tk, s.(tasks) !! gp.2 = Some tk /\ tk.(tgid) = gp.1 /\ a.(ps_tasks) !! gp.2 = Some tk;
  ap_call : a.(ps_calls) !! gp.2 = Some ph;
  ap_owned k X : a.(ps_fibers) !! k = Some X -> X.(pf_owner) = Some gp ->
    gp.1 = k.1 /\ a.(ps_running) !! gp = Some k.2;
  ap_rest t : tkey s0 t = Some gp -> at_rest gp t s a
}.

Fixpoint sat (gp : Z * Z) (p : proc Z) s a : Prop :=
  match p with
  | Ret r => at_phase gp (Answer r) s a
  | Act m k => forall s1 a1,
      rely gp s a s1 a1 -> psim s1 a1 ->
      exists b s2 a2,
        m (set_current gp.2 s1) = Some (b, s2) /\ rtc (proceed gp.2) a1 a2 /\
        psim s2 a2 /\ guar gp.2 s1 a1 s2 a2 /\ sat gp (k b) s2 a2
  end.

Lemma at_rest_rely gp t s a s' a' :
  tkey s0 t = Some gp -> rely gp s a s' a' -> at_rest gp t s a -> at_rest gp t s' a'.
Proof using.
  intros Ht [R1 R2 R3 R4 R7 R5 R6] (T & f & id & F & X & HT & Hsel & Hf & HF & Hr & HX & Ho & Ha & Hregs & Hfpu).
  destruct (R6 f (gp.1, id) F X) as (HX' & F' & HF' & Hv); [done..|].
  unfold own_view in Hv. simplify_eq. exists T, f, id, F', X.
  rewrite R4, R5 by done. split_and!; congruence.
Qed.

Lemma at_phase_rely gp ph s a s' a' : rely gp s a s' a' -> at_phase gp ph s a -> at_phase gp ph s' a'.
Proof using.
  intros R [Htk Hc Hown Hrest]. pose proof R as [R1 R2 R3 R4 R7 R5 R6]. split.
  - rewrite R1, R2. done.
  - by rewrite R3.
  - rewrite R4. eauto.
  - intros t Ht. eapply at_rest_rely; eauto.
Qed.

Lemma sat_rely gp p s a s' a' : rely gp s a s' a' -> sat gp p s a -> sat gp p s' a'.
Proof using.
  intros R. destruct p as [r|B m k]; [by apply at_phase_rely|]. simpl. intros Hsat s1 a1 R1 P1.
  apply Hsat; [by eapply rely_trans|done].
Qed.

Lemma psim_current s a c : psim s a -> psim (set_current c s) a.
Proof using. intros []. by split; [apply statics_current|..]. Qed.

Lemma guar_current pid s a s' a' c :
  guar pid s a s' a' -> guar pid s a (set_current c s') a'.
Proof using. intros H gp Hne. destruct (H gp Hne). by split. Qed.

(** A step that reads. *)
Lemma sat_read {B} gp (m : kM B) k s a :
  (forall s1 a1, rely gp s a s1 a1 -> psim s1 a1 ->
     exists b, m (set_current gp.2 s1) = Some (b, set_current gp.2 s1) /\
       sat gp (k b) (set_current gp.2 s1) a1) ->
  sat gp (Act m k) s a.
Proof using.
  intros H s1 a1 R P. destruct (H s1 a1 R P) as (b & Hm & Hk).
  exists b, (set_current gp.2 s1), a1. split_and!; [done|constructor|by apply psim_current| |done].
  apply guar_current, guar_refl.
Qed.

(** ** Handlers put together *)

Definition config_sim (c : config) a : Prop :=
  psim c.(cf_state) a /\
  (forall pid, c.(cf_procs) !! pid = None -> a.(ps_calls) !! pid = None) /\
  forall pid p, c.(cf_procs) !! pid = Some p ->
    exists g, tgid <$> c.(cf_state).(tasks) !! pid = Some g /\ sat (g, pid) p c.(cf_state) a.

(** The events handlers run for in parallel. *)
Definition calm (x : label) : Prop :=
  match x with LCall _ (ESwitch _) | LCall _ (EFls _) | LUser _ _ | LReturn _ _ _ => True | _ => False end.

(** Every handler that is called is all right. *)
Context (Hhandlers : forall garbage e gp p s a,
  calm (LCall gp.2 e) -> par_event garbage e gp.2 = Some p ->
  at_phase gp (Called e) s a -> sat gp p s a).

Lemma in_call_dec gp a : in_call a gp \/ ~ in_call a gp.
Proof using.
  unfold in_call. destruct (ps_calls a !! gp.2) as [ph|]; [|by right; intros [[] _]].
  destruct (decide (tgid <$> ps_tasks a !! gp.2 = Some gp.1)); [left; eauto|right; tauto].
Qed.

Lemma in_call_ext gp a a' :
  (is_Some (a.(ps_calls) !! gp.2) <-> is_Some (a'.(ps_calls) !! gp.2)) ->
  tgid <$> a'.(ps_tasks) !! gp.2 = tgid <$> a.(ps_tasks) !! gp.2 -> in_call a gp <-> in_call a' gp.
Proof using. unfold in_call. intros -> ->. done. Qed.

(** *** What the machine itself does *)

Lemma user_sim s a pid tk tk' :
  psim s a -> a.(ps_calls) !! pid = None -> s.(tasks) !! pid = Some tk -> tk'.(tgid) = tk.(tgid) ->
  psim (set_tasks (<[pid := tk']> s.(tasks)) s) (put_task pid tk' a) /\
  guar pid s a (set_tasks (<[pid := tk']> s.(tasks)) s) (put_task pid tk' a).
Proof using.
  intros [H1 H2 H3 H4 H5 H6 H7 H8] Hc Htk Hg.
  assert (forall q, tgid <$> <[pid := tk']> a.(ps_tasks) !! q = tgid <$> a.(ps_tasks) !! q) as Hgroup.
  { intros q. destruct (decide (pid = q)) as [<-|]; [|by rewrite lookup_insert_ne].
    rewrite lookup_insert_eq, H7, Htk by done. simpl. by rewrite Hg. }
  assert (forall gp, in_call (put_task pid tk' a) gp <-> in_call a gp) as Hin.
  { intros gp. symmetry. apply in_call_ext; [done|apply Hgroup]. }
  split.
  - split; [by apply statics_tasks|done|done|done| | | |].
    + intros gp t Ht. rewrite Hin. by apply H5.
    + intros k X gp. rewrite Hin. by apply H6.
    + intros q Hq. simpl. destruct (decide (pid = q)) as [<-|]; [by rewrite !lookup_insert_eq|].
      rewrite !lookup_insert_ne by done. by apply H7.
    + intros q. simpl. rewrite Hgroup, H8.
      destruct (decide (pid = q)) as [<-|]; [|by rewrite lookup_insert_ne].
      rewrite lookup_insert_eq, Htk. simpl. by rewrite Hg.
  - intros gp Hne. split; simpl; rewrite ?lookup_insert_ne by done; eauto.
Qed.

Lemma call_sim s a gp e :
  psim s a -> a.(ps_calls) !! gp.2 = None -> tgid <$> s.(tasks) !! gp.2 = Some gp.1 ->
  psim s (put_call gp.2 (Called e) a) /\ guar gp.2 s a s (put_call gp.2 (Called e) a) /\
  at_phase gp (Called e) s (put_call gp.2 (Called e) a).
Proof using.
  intros [H1 H2 H3 H4 H5 H6 H7 H8] Hc Hg.
  assert (forall q, in_call a q -> in_call (put_call gp.2 (Called e) a) q) as Hin.
  { intros q [[ph Hph] Hq]. split; [|done]. simpl. destruct (decide (gp.2 = q.2)) as [->|].
    - rewrite lookup_insert_eq. eauto.
    - rewrite lookup_insert_ne by done. eauto. }
  assert (~ in_call a gp) as Hout by (unfold in_call; rewrite Hc; by intros [[] _]).
  split_and!.
  - split; [done..| | | |done].
    + intros q t Ht Hq. apply H5; auto.
    + intros k X q HX Ho. destruct (H6 k X q HX Ho); auto.
    + intros q. simpl. intros [? Hq]%lookup_insert_None. auto.
  - intros q Hne. split; simpl; rewrite ?lookup_insert_ne by done; eauto.
  - split; simpl.
    + rewrite H7 by done. destruct (tasks s !! gp.2) as [tk|]; simplify_eq/=. eauto.
    + apply lookup_insert_eq.
    + intros k X HX Ho. by destruct (H6 k X gp HX Ho).
    + intros t Ht. by apply H5.
Qed.

Lemma return_sim s a gp r :
  psim s a -> at_phase gp (Answer r) s a ->
  psim s (end_call gp.2 a) /\ guar gp.2 s a s (end_call gp.2 a).
Proof using.
  intros [H1 H2 H3 H4 H5 H6 H7 H8] [(tk & Htk & Hg & Hatk) Hc Hown Hrest].
  assert (forall q, in_call a q -> in_call (end_call gp.2 a) q \/ q = gp) as Hin.
  { intros q [[ph Hph] Hq]. unfold in_call. simpl. destruct (decide (gp.2 = q.2)) as [Heq|].
    - right. rewrite <- Heq, Hatk in Hq. simpl in Hq. destruct q, gp. simpl in *. congruence.
    - left. rewrite lookup_delete_ne by done. eauto. }
  split.
  - split; [done..| | | |done].
    + intros q t Ht Hq. destruct (in_call_dec q a) as [Hc'|]; [|by apply H5].
      destruct (Hin q Hc') as [| ->]; [done|by apply Hrest].
    + intros k X q HX Ho. destruct (H6 k X q HX Ho) as [Hc'|]; [|by right].
      destruct (Hin q Hc') as [| ->]; [by left|]. right. eauto.
    + intros q. simpl. intros [Hq|Hq]%lookup_delete_None; [subst; congruence|auto].
  - intros q Hne. split; simpl; rewrite ?lookup_delete_ne by done; eauto.
Qed.

Lemma proceed_groups pid a a' q :
  rtc (proceed pid) a a' -> tgid <$> a'.(ps_tasks) !! q = tgid <$> a.(ps_tasks) !! q.
Proof using.
  induction 1 as [|a1 a2 a3 Hp _ IH]; [done|]. rewrite IH. destruct Hp; simpl; try done.
  destruct (decide (pid = q)) as [<-|]; [|by rewrite lookup_insert_ne].
  rewrite lookup_insert_eq. by rewrite H0.
Qed.

(** *** Soundness *)

(** The handlers that do not make the step. *)
Lemma others_sat s a s' a' (ps : gmap Z (proc Z)) pid :
  guar pid s a s' a' ->
  (forall q p, ps !! q = Some p -> exists g, tgid <$> s.(tasks) !! q = Some g /\ sat (g, q) p s a) ->
  forall q p, q <> pid -> ps !! q = Some p ->
    exists g, tgid <$> s'.(tasks) !! q = Some g /\ sat (g, q) p s' a'.
Proof using.
  intros Hg Hps q p Hne Hp. destruct (Hps q p Hp) as (g & Htk & Hsat). exists g.
  pose proof (Hg (g, q) Hne) as R. pose proof (rl_task _ _ _ _ _ R) as Heq. simpl in Heq.
  rewrite Heq. split; [done|]. by eapply sat_rely.
Qed.

Lemma step_sim c a x c' :
  config_sim c a -> par_step c x c' -> (forall y, x = Some y -> calm y) ->
  exists a', config_sim c' a' /\ pspec_run a (option_list x) a'.
Proof using Hhandlers.
  intros (Hsim & Hidle & Hps) Hstep Hcalm.
  destruct Hstep as [s ps pid tk tk' Hp Htk Hg|s ps pid garbage e p Hp Htk He|s ps pid B m k b s' Hp Hm
    |s ps pid r tk Hp Htk]; simpl in Hsim, Hidle, Hps.
  - destruct (user_sim s a pid tk tk') as [Hsim' Hguar]; [auto..|].
    exists (put_task pid tk' a). split; [split_and!; simpl; [done|done|]|].
    + intros q p Hq. apply (others_sat _ _ _ _ _ _ Hguar Hps); [simpl; congruence|done].
    + eapply pspec_run_label; [|constructor]. eapply ps_user; [auto| |done].
      rewrite (sim_tasks _ _ Hsim) by auto. done.
  - destruct Htk as [tk Htk].
    destruct (call_sim s a (tk.(tgid), pid) e) as (Hsim' & Hguar & Hphase); [auto..|by simpl; rewrite Htk|].
    exists (put_call pid (Called e) a). split; [split_and!; simpl; [done| |]|].
    + intros q [? Hq]%lookup_insert_None. rewrite lookup_insert_ne by done. auto.
    + intros q p' [[<- <-]|[Hne Hq]]%lookup_insert_Some.
      * exists tk.(tgid). rewrite Htk. split; [done|]. eapply Hhandlers; [|done|done]. by apply Hcalm.
      * apply (others_sat _ _ _ _ _ _ Hguar Hps); [simpl; congruence|done].
    + eapply pspec_run_label; [|constructor]. eapply ps_call; [auto|].
      rewrite (sim_tasks _ _ Hsim) by auto. eauto.
  - destruct (Hps pid _ Hp) as (g & Htk & Hsat). simpl in Hsat.
    destruct (Hsat s a) as (b' & s2 & a2 & Hm' & Hpr & Hsim' & Hguar & Hk); [apply rely_refl|done|].
    rewrite Hm in Hm'. simplify_eq. exists a2. split; [split_and!; simpl; [done| |]|].
    + intros q [Hne Hq]%lookup_insert_None. pose proof (rl_call _ _ _ _ _ (Hguar (0, q) ltac:(done))) as Heq.
      simpl in Heq. rewrite Heq. auto.
    + intros q p' [[<- <-]|[Hne Hq]]%lookup_insert_Some.
      * exists g. split; [|done].
        rewrite <- (sim_groups _ _ Hsim'), (proceed_groups _ _ _ _ Hpr), (sim_groups _ _ Hsim). done.
      * apply (others_sat _ _ _ _ _ _ Hguar Hps); [simpl; congruence|done].
    + by eapply proceed_run.
  - destruct (Hps pid _ Hp) as (g & Hg & Hphase). simpl in Hphase.
    destruct (return_sim s a (g, pid) r Hsim Hphase) as [Hsim' Hguar].
    exists (end_call pid a). split; [split_and!; simpl; [done| |]|].
    + intros q [Hq|Hq]%lookup_delete_None; [subst; apply lookup_delete_eq|].
      destruct (decide (pid = q)) as [<-|]; [apply lookup_delete_eq|]. rewrite lookup_delete_ne by done. auto.
    + intros q p' [Hne Hq]%lookup_delete_Some. apply (others_sat _ _ _ _ _ _ Hguar Hps); [simpl; congruence|done].
    + eapply pspec_run_label; [|constructor]. destruct Hphase as [(tk' & Htk' & _ & Hatk) Hc _ _].
      simpl in Htk', Hatk, Hc. eapply ps_return; [done|]. congruence.
Qed.

Lemma run_sim c tr c' a :
  par_run c tr c' -> Forall calm tr -> config_sim c a ->
  exists a', config_sim c' a' /\ pspec_run a tr a'.
Proof using Hhandlers.
  intros Hrun. revert a. induction Hrun as [c|c c1 l c' Hs Hr IH|c x c1 l c' Hs Hr IH]; intros a Hc Hsim.
  - exists a. split; [done|constructor].
  - destruct (step_sim _ _ _ _ Hsim Hs) as (a1 & Hsim1 & Hr1); [done|].
    destruct (IH a1 Hc Hsim1) as (a2 & ? & Hr2). exists a2. split; [done|].
    by apply (pspec_run_app _ [] a1 l).
  - inversion Hc as [|? ? Hx Hl]; subst.
    destruct (step_sim _ _ _ _ Hsim Hs) as (a1 & Hsim1 & Hr1); [by intros y [= <-]|].
    destruct (IH a1 Hl Hsim1) as (a2 & ? & Hr2). exists a2. split; [done|].
    by apply (pspec_run_app _ [x] a1 l).
Qed.
End Sim.

#[global] Arguments sat : simpl never.
