(* ===== verification/ParallelHandlers.v ===== *)
(** * The handlers respect each other

    The switch and the storage operations satisfy [sat]: each of their steps is
    a step of the specification or none, whatever the others did before it. *)

From S2P Require Import Prelude Kernel State CStr Fibers Heap Runs Kprobes Safety Fls Outcome System Views Scenario Exclusion Switching Creation Lifecycle Spec Refinement Parallel ParallelSpec ParallelSim.

Section Updates.
Context {K : Kernel} {KOk : KernelOk K} (s0 : kstate) (Hwf0 : wf s0).
Implicit Types (s : kstate) (a : pspec).

#[local] Abbreviation psim := (psim s0).
#[local] Abbreviation guar := (guar s0).
#[local] Abbreviation rely := (rely s0).

Lemma guar_trans pid s1 a1 s2 a2 s3 a3 :
  guar pid s1 a1 s2 a2 -> guar pid s2 a2 s3 a3 -> guar pid s1 a1 s3 a3.
Proof using. intros H1 H2 gp Hne. eapply rely_trans; eauto. Qed.

(** ** Changes a thread makes during a call

    Each keeps the relation and touches nothing of others. *)

(** A fiber nobody else holds, or something of a fiber that is not its holder's. *)
Lemma update_fiber s a gp f k F F' X X' :
  psim s a -> in_call a gp -> fkey s0 f = Some k -> s.(fiber_heap) !! f = Some F ->
  a.(ps_fibers) !! k = Some X -> fiber_static F' = fiber_static F -> fiber_sim F' X' ->
  (X' = X /\ own_view F' = own_view F) \/
  ((X.(pf_owner) = None \/ X.(pf_owner) = Some gp) /\ (X'.(pf_owner) = None \/ X'.(pf_owner) = Some gp)) ->
  psim (set_fiber_heap (<[f := F']> s.(fiber_heap)) s) (put_fiber k X' a) /\
  guar gp.2 s a (set_fiber_heap (<[f := F']> s.(fiber_heap)) s) (put_fiber k X' a).
Proof using Hwf0 KOk.
  intros [H1 H2 H3 H4 H5 H6 H7 H8] Hin Hf HF HX Hstat Hs Hcase.
  assert (forall q t, tkey s0 t = Some q -> ~ in_call a q -> at_rest s0 q t s a ->
            at_rest s0 q t (set_fiber_heap (<[f := F']> s.(fiber_heap)) s) (put_fiber k X' a)) as Hrest.
  { intros q t _ Hq (T & f1 & id & F1 & X1 & HT & Hsel & Hf1 & HF1 & Hr & HX1 & Ho & Ha & Hregs & Hfpu).
    destruct (decide (f = f1)) as [<-|Hne].
    - simplify_eq. destruct Hcase as [[-> Hv]|[[|] _]]; [|congruence|congruence].
      unfold own_view in Hv. exists T, f, id, F', X. simpl. rewrite !lookup_insert_eq. simplify_eq.
      split_and!; congruence.
    - assert (k <> (q.1, id)) by (intros ->; by apply Hne, (fkey_inj s0 Hwf0 f f1 (q.1, id))).
      exists T, f1, id, F1, X1. simpl. rewrite !lookup_insert_ne by done. split_and!; done. }
  split.
  - split; try done.
    + by eapply statics_fiber.
    + intros f1 F1 k1. simpl. intros [[<- <-]|[Hne HF1]]%lookup_insert_Some Hf1.
      * assert (k1 = k) as -> by congruence. exists X'. by rewrite lookup_insert_eq.
      * rewrite lookup_insert_ne; [eauto|]. intros <-. by apply Hne, (fkey_inj s0 Hwf0 f f1 k).
    + intros k1. simpl. intros [X1 [[<- _]|[_ Hk]]%lookup_insert_Some]; eauto.
    + intros q t Ht Hq. apply Hrest; [done..|by apply H5].
    + intros k1 X1 q. simpl. intros [[<- <-]|[_ HX1]]%lookup_insert_Some Ho; [|by eapply H6].
      destruct Hcase as [[-> _]|[_ [|]]]; [by eapply H6|congruence|]. left. by simplify_eq.
  - intros q Hne. split; [done..| | |]; simpl; [|done|].
    + intros k1 X1 [[<- <-]|[_ HX1]]%lookup_insert_Some Ho; [|done].
      destruct Hcase as [[-> _]|[_ [|]]]; [done|congruence|]. simplify_eq.
    + intros f1 k1 F1 X1 Hf1 HX1 Ho HF1. destruct (decide (f = f1)) as [<-|Hne1].
      * assert (k1 = k) as -> by congruence. simplify_eq.
        destruct Hcase as [[-> Hv]|[[|] _]]; [|congruence|congruence].
        rewrite !lookup_insert_eq. eauto.
      * assert (k <> k1) by (intros ->; by apply Hne1, (fkey_inj s0 Hwf0 f f1 k1)).
        rewrite !lookup_insert_ne by done. eauto.
Qed.

Lemma put_fiber_same k X a : a.(ps_fibers) !! k = Some X -> put_fiber k X a = a.
Proof using. destruct a. unfold put_fiber. simpl. intros H. by rewrite insert_id. Qed.

(** The phase of the call. *)
Lemma update_phase s a gp ph :
  psim s a -> in_call a gp ->
  psim s (put_call gp.2 ph a) /\ guar gp.2 s a s (put_call gp.2 ph a) /\ in_call (put_call gp.2 ph a) gp.
Proof using.
  intros [H1 H2 H3 H4 H5 H6 H7 H8] Hin.
  assert (forall q, in_call a q <-> in_call (put_call gp.2 ph a) q) as Hq.
  { intros q. apply in_call_ext; [|done]. simpl. destruct (decide (gp.2 = q.2)) as [<-|].
    - rewrite lookup_insert_eq. destruct Hin as [? _]. split; eauto.
    - by rewrite lookup_insert_ne. }
  split_and!; [|intros q Hne; split; simpl; rewrite ?lookup_insert_ne by done; eauto|by apply Hq].
  split; try done.
  - intros q t Ht Hn. apply H5; [done|]. by rewrite Hq.
  - intros k X q HX Ho. rewrite <- Hq. by eapply H6.
  - intros q. simpl. intros [? _]%lookup_insert_None. auto.
Qed.

(** The thread structure. *)
Lemma update_thread s a gp t T T' :
  psim s a -> in_call a gp -> tkey s0 t = Some gp -> s.(thread_heap) !! t = Some T ->
  thread_static T' = thread_static T ->
  psim (set_thread_heap (<[t := T']> s.(thread_heap)) s) a /\
  guar gp.2 s a (set_thread_heap (<[t := T']> s.(thread_heap)) s) a.
Proof using.
  intros [H1 H2 H3 H4 H5 H6 H7 H8] Hin Ht HT Hstat. split.
  - split; try done; [by eapply statics_thread|].
    intros q u Hu Hn. destruct (H5 q u Hu Hn) as (U & f1 & id & F1 & X1 & HU & Hrest).
    exists U, f1, id, F1, X1. simpl. rewrite lookup_insert_ne; [done|]. intros <-. congruence.
  - intros q Hne. split; [done..| |eauto]. simpl. intros u Hu. rewrite lookup_insert_ne; [done|].
    intros <-. congruence.
Qed.

(** The task, in the module and in the specification. *)
Lemma update_task s a gp tk tk' :
  psim s a -> in_call a gp -> s.(tasks) !! gp.2 = Some tk -> tk'.(tgid) = tk.(tgid) ->
  psim (set_tasks (<[gp.2 := tk']> s.(tasks)) s) a /\
  guar gp.2 s a (set_tasks (<[gp.2 := tk']> s.(tasks)) s) a.
Proof using.
  intros [H1 H2 H3 H4 H5 H6 H7 H8] [[ph Hc] _] Htk Hg. split.
  - split; try done.
    + by apply statics_tasks.
    + intros q Hq. simpl. rewrite lookup_insert_ne; [auto|congruence].
    + intros q. simpl. rewrite H8. destruct (decide (gp.2 = q)) as [<-|]; [|by rewrite lookup_insert_ne].
      rewrite lookup_insert_eq, Htk. simpl. by rewrite Hg.
  - intros q Hne. split; [|done..|eauto]. simpl. by rewrite lookup_insert_ne.
Qed.

Lemma update_spec_task s a gp tk tk' :
  psim s a -> in_call a gp -> a.(ps_tasks) !! gp.2 = Some tk -> tk'.(tgid) = tk.(tgid) ->
  psim s (put_task gp.2 tk' a) /\ guar gp.2 s a s (put_task gp.2 tk' a) /\
  in_call (put_task gp.2 tk' a) gp.
Proof using.
  intros [H1 H2 H3 H4 H5 H6 H7 H8] Hin Htk Hg.
  assert (forall q, tgid <$> <[gp.2 := tk']> a.(ps_tasks) !! q = tgid <$> a.(ps_tasks) !! q) as Hgroup.
  { intros q. destruct (decide (gp.2 = q)) as [<-|]; [|by rewrite lookup_insert_ne].
    rewrite lookup_insert_eq, Htk. simpl. by rewrite Hg. }
  assert (forall q, in_call a q <-> in_call (put_task gp.2 tk' a) q) as Hq.
  { intros q. apply in_call_ext; [done|apply Hgroup]. }
  split_and!; [|intros q Hne; split; simpl; rewrite ?lookup_insert_ne by done; eauto|by apply Hq].
  split; try done.
  - intros q t Ht Hn. apply H5; [done|]. by rewrite Hq.
  - intros k X q HX Ho. rewrite <- Hq. by eapply H6.
  - intros q Hc. simpl. rewrite lookup_insert_ne; [auto|]. destruct Hin as [[ph Hph] _]. simpl in Hc. congruence.
  - intros q. simpl. by rewrite Hgroup.
Qed.

(** The fiber the specification says the thread runs. *)
Lemma update_running s a gp id :
  psim s a -> in_call a gp -> is_Some (a.(ps_running) !! gp) ->
  psim s (put_running gp id a) /\ guar gp.2 s a s (put_running gp id a).
Proof using.
  intros [H1 H2 H3 H4 H5 H6 H7 H8] Hin Hr. split.
  - split; try done.
    + intros k. simpl. rewrite <- H4. destruct (decide (gp = k)) as [<-|]; [|by rewrite lookup_insert_ne].
      rewrite lookup_insert_eq. split; eauto.
    + intros q t Ht Hn. destruct (H5 q t Ht Hn) as (T & f1 & id1 & F1 & X1 & Hrest).
      exists T, f1, id1, F1, X1. simpl. rewrite lookup_insert_ne; [done|]. intros <-. done.
    + intros k X q HX Ho. destruct (H6 k X q HX Ho) as [Hc|[? Hq]]; [by left|].
      destruct (decide (gp = q)) as [<-|]; [by left|right]. simpl. by rewrite lookup_insert_ne.
  - intros q Hne. split; [done..| | |done|eauto]; simpl; [|done].
    rewrite lookup_insert_ne; [done|]. intros <-. done.
Qed.
(** ** The steps of a handler outside a switch *)

Lemma at_phase_in_call gp ph s a : at_phase s0 gp ph s a -> in_call a gp.
Proof using.
  intros [(tk & _ & Hg & Hatk) Hc _ _]. split; [eauto|]. rewrite Hatk. simpl. by rewrite Hg.
Qed.

Lemma at_phase_current gp ph s a c : at_phase s0 gp ph s a -> at_phase s0 gp ph (set_current c s) a.
Proof using. intros []. by split. Qed.

(** A step that reads, in a known phase. *)
Lemma sat_look {B} gp ph (m : kM B) k s a :
  at_phase s0 gp ph s a ->
  (forall s1 a1, psim s1 a1 -> at_phase s0 gp ph s1 a1 -> s1.(current) = gp.2 ->
     exists b, m s1 = Some (b, s1) /\ sat s0 gp (k b) s1 a1) ->
  sat s0 gp (Act m k) s a.
Proof using.
  intros Hph H. apply (sat_read s0 gp m k s a). intros s1 a1 R P.
  apply H; [by apply psim_current|apply at_phase_current; by eapply at_phase_rely|done].
Qed.

(** A step that reads, and may settle the result. *)
Lemma sat_choice {B} gp ph (m : kM B) k s a :
  at_phase s0 gp ph s a ->
  (forall s1 a1, psim s1 a1 -> at_phase s0 gp ph s1 a1 -> rely gp s a s1 a1 -> s1.(current) = gp.2 ->
     exists b, m s1 = Some (b, s1) /\
       (sat s0 gp (k b) s1 a1 \/
        exists r, proceed gp.2 a1 (put_call gp.2 (Answer r) a1) /\
          forall s2 a2, at_phase s0 gp (Answer r) s2 a2 -> sat s0 gp (k b) s2 a2)) ->
  sat s0 gp (Act m k) s a.
Proof using.
  intros Hph H s1 a1 R P. pose proof (at_phase_rely _ _ _ _ _ _ _ R Hph) as Hph1.
  destruct (H (set_current gp.2 s1) a1) as (b & Hm & Hk);
    [by apply psim_current|by apply at_phase_current|by destruct R|done|].
  assert (guar gp.2 s1 a1 (set_current gp.2 s1) a1) as G by apply guar_current, guar_refl.
  destruct Hk as [Hk|(r & Hpr & Hk)].
  - exists b, (set_current gp.2 s1), a1. split_and!; [done|constructor|by apply psim_current|done|done].
  - destruct (update_phase (set_current gp.2 s1) a1 gp (Answer r)) as (P2 & G2 & _);
      [by apply psim_current|by eapply at_phase_in_call|].
    exists b, (set_current gp.2 s1), (put_call gp.2 (Answer r) a1). split_and!; [done|by apply rtc_once|done| |].
    + by eapply guar_trans.
    + apply Hk. destruct Hph1 as [Ht Hc Ho Hr]. split; [done| |done|done]. simpl. apply lookup_insert_eq.
Qed.

Lemma sat_answer {B} gp ph (m : kM B) k s a r :
  at_phase s0 gp ph s a ->
  (forall s1 a1, psim s1 a1 -> at_phase s0 gp ph s1 a1 -> s1.(current) = gp.2 ->
     exists b, m s1 = Some (b, s1) /\ proceed gp.2 a1 (put_call gp.2 (Answer r) a1) /\
       forall s2 a2, at_phase s0 gp (Answer r) s2 a2 -> sat s0 gp (k b) s2 a2) ->
  sat s0 gp (Act m k) s a.
Proof using.
  intros Hph H. apply (sat_choice _ _ _ _ _ _ Hph). intros s1 a1 P Hph1 _ Hcur.
  destruct (H s1 a1 P Hph1 Hcur) as (b & Hm & Hpr & Hk). eauto 10.
Qed.

Lemma current_task_run s tk : s.(tasks) !! s.(current) = Some tk -> current_task s = Some (tk, s).
Proof using. intros H. by apply mderef_eq. Qed.

Lemma sat_task gp ph k s a :
  at_phase s0 gp ph s a ->
  (forall tk s1 a1, psim s1 a1 -> at_phase s0 gp ph s1 a1 -> tk.(tgid) = gp.1 -> sat s0 gp (k tk) s1 a1) ->
  sat s0 gp (Act current_task k) s a.
Proof using.
  intros Hph H. eapply sat_look; [done|]. intros s1 a1 P Hph1 Hcur.
  destruct (ap_task _ _ _ _ _ Hph1) as (tk & Htk & Hg & _). exists tk.
  split; [apply current_task_run; by rewrite Hcur|by apply H].
Qed.

(** Threads and fibers in the specification. *)
Lemma no_thread s a g pid :
  psim s a -> thread_for s0 g pid = None -> a.(ps_running) !! (g, pid) = None.
Proof using Hwf0 KOk.
  intros P Hnone. apply eq_None_not_Some. rewrite (sim_running _ _ _ P).
  intros [t Ht]. apply tkey_thread_for in Ht; [|done]. congruence.
Qed.

Lemma no_fiber s a g id : psim s a -> fiber_for s0 g id = None -> a.(ps_fibers) !! (g, id) = None.
Proof using Hwf0 KOk.
  intros P Hnone. apply eq_None_not_Some. intros [f Hf]%(sim_keys _ _ _ P).
  apply fkey_fiber_for in Hf; [|done]. congruence.
Qed.

Lemma fiber_of_key s a f k :
  psim s a -> fkey s0 f = Some k ->
  exists F X, s.(fiber_heap) !! f = Some F /\ a.(ps_fibers) !! k = Some X /\ fiber_sim F X.
Proof using Hwf0 KOk.
  intros P Hf. destruct (proj2 (fkey_is_Some s0 Hwf0 s f (sim_static _ _ _ P))) as [F HF]; [eauto|].
  destruct (sim_fibers _ _ _ P f F k HF Hf) as (X & HX & Hs). eauto.
Qed.

(** *** Lookup of the caller

    [k] continues with the thread structure; without one the call fails. *)
Lemma sat_caller gp e (k : option ptr -> proc Z) (k' : ptr -> option ptr -> proc Z) r s a :
  at_phase s0 gp (Called e) s a ->
  (forall s1 a1, psim s1 a1 -> at_phase s0 gp (Called e) s1 a1 -> a1.(ps_running) !! gp = None ->
     proceed gp.2 a1 (put_call gp.2 (Answer r) a1)) ->
  k None = Ret r -> (forall p, k (Some p) = Act (find_thread_by_pid gp.2 p) (k' p)) ->
  (forall p, k' p None = Ret r) ->
  (forall p P t s1 a1, psim s1 a1 -> at_phase s0 gp (Called e) s1 a1 ->
     process_at s0 gp.1 = Some p -> s0.(process_heap) !! p = Some P -> tkey s0 t = Some gp ->
     sat s0 gp (k' p (Some t)) s1 a1) ->
  sat s0 gp (Act current_task (fun tk => Act (find_process_by_tgid tk.(tgid)) k)) s a.
Proof using Hwf0 KOk.
  intros Hph Hfail Hk1 Hk2 Hk3 Hk4. apply (sat_task _ _ _ _ _ Hph). intros tk s1 a1 P1 Hph1 Hg. rewrite Hg.
  destruct gp as [g pid]. simpl in *.
  destruct (process_at s0 g) as [p|] eqn:Hp.
  2: { eapply (sat_answer _ _ _ _ _ _ r); [done|]. intros s2 a2 P2 Hph2 _. eexists. split_and!.
       - apply (find_process_static s0 Hwf0). apply P2.
       - apply (Hfail s2); [done..|]. eapply no_thread; [done|]. unfold thread_for. by rewrite Hp.
       - intros s3 a3 Hph3. rewrite Hp, Hk1. done. }
  pose proof Hp as (P & HP & _)%process_at_Some; [|apply Hwf0].
  eapply sat_look; [done|]. intros s2 a2 P2 Hph2 _. eexists. split.
  { apply (find_process_static s0 Hwf0). apply P2. }
  rewrite Hp, Hk2. destruct (thread_at s0 p pid) as [t|] eqn:Ht.
  - eapply sat_look; [done|]. intros s3 a3 P3 Hph3 _. exists (Some t). split.
    + rewrite <- Ht. apply (find_thread_static s0 Hwf0 s3 p P); [apply P3|done].
    + apply (Hk4 p P t); [done..|]. apply tkey_thread_for; [done|]. unfold thread_for. by rewrite Hp.
  - eapply (sat_answer _ _ _ _ _ _ r); [done|]. intros s3 a3 P3 Hph3 _. exists None. split_and!.
    + rewrite <- Ht. apply (find_thread_static s0 Hwf0 s3 p P); [apply P3|done].
    + apply (Hfail s3); [done..|]. eapply no_thread; [done|]. unfold thread_for. by rewrite Hp.
    + intros s4 a4 Hph4. by rewrite Hk3.
Qed.
End Updates.

(** ** The switch *)

Section Switch.
Context {K : Kernel} {KOk : KernelOk K} (s0 : kstate) (Hwf0 : wf s0).
Context (gp : Z * Z) (tk : task) (t f prev : ptr) (id id0 : Z).
Context (Hgp : tk.(tgid) = gp.1) (Ht : tkey s0 t = Some gp).
Context (Hf : fkey s0 f = Some (gp.1, id)) (Hprev : fkey s0 prev = Some (gp.1, id0)) (Hne : id <> id0).
Implicit Types (s : kstate) (a : pspec).

(** The switch of task [tk], which runs [prev], has taken [f].  [att] is what
    [f] is attached to so far, [sel] the fiber the thread has selected so far,
    [Q] what is known of the fields of [prev]. *)
Record mid (att sel : option ptr) (Q : option ptr -> pt_regs -> fx_regs -> Prop) s a : Prop := {
  mid_task : s.(tasks) !! gp.2 = Some tk;
  mid_spec_task : a.(ps_tasks) !! gp.2 = Some tk;
  mid_call : a.(ps_calls) !! gp.2 = Some (Taken id);
  mid_running : a.(ps_running) !! gp = Some id0;
  mid_owned k X : a.(ps_fibers) !! k = Some X -> X.(pf_owner) = Some gp ->
    k = (gp.1, id) \/ k = (gp.1, id0);
  mid_thread : exists T, s.(thread_heap) !! t = Some T /\ T.(selected_fiber) = sel;
  mid_target : exists F X, s.(fiber_heap) !! f = Some F /\ a.(ps_fibers) !! (gp.1, id) = Some X /\
    X.(pf_owner) = Some gp /\ F.(attached_thread) = att /\
    F.(registers) = X.(pf_regs) /\ F.(fpu) = X.(pf_fpu);
  mid_source : exists V X0, s.(fiber_heap) !! prev = Some V /\ a.(ps_fibers) !! (gp.1, id0) = Some X0 /\
    X0.(pf_owner) = Some gp /\ Q V.(attached_thread) V.(registers) V.(fpu)
}.

Lemma mid_rely att sel Q s a s' a' : rely s0 gp s a s' a' -> mid att sel Q s a -> mid att sel Q s' a'.
Proof using Ht Hf Hprev.
  intros [R1 R2 R3 R4 R5 R6 R7] [M1 M2 M3 M4 M5 M6 (F & X & HF & HX & Ho & Hfields)
    (V & X0 & HV & HX0 & Ho0 & HQ)].
  destruct (R7 f _ F X Hf HX Ho HF) as (HX' & F' & HF' & Hv).
  destruct (R7 prev _ V X0 Hprev HX0 Ho0 HV) as (HX0' & V' & HV' & Hv0).
  injection Hv as Hv1 Hv2 Hv3 _ _ _. injection Hv0 as Hv4 Hv5 Hv6 _ _ _. split; try congruence; eauto.
  - rewrite R6 by done. done.
  - exists F', X. intuition congruence.
  - exists V', X0. by rewrite Hv4, Hv5, Hv6.
Qed.

Lemma mid_current att sel Q s a c : mid att sel Q s a -> mid att sel Q (set_current c s) a.
Proof using. intros []. by split. Qed.

Lemma mid_in_call att sel Q s a : mid att sel Q s a -> in_call a gp.
Proof using Hgp. intros [M1 M2 M3 _ _ _ _ _]. split; [eauto|]. rewrite M2. simpl. by rewrite Hgp. Qed.

(** A step of the switch that is none of the specification. *)
Lemma mid_step {B} att sel Q att' sel' Q' (m : kM B) k s a :
  mid att sel Q s a ->
  (forall s1 a1, psim s0 s1 a1 -> mid att sel Q s1 a1 -> s1.(current) = gp.2 ->
     exists b s2, m s1 = Some (b, s2) /\ psim s0 s2 a1 /\ guar s0 gp.2 s1 a1 s2 a1 /\
       mid att' sel' Q' s2 a1 /\
       forall s3 a3, mid att' sel' Q' s3 a3 -> sat s0 gp (k b) s3 a3) ->
  sat s0 gp (Act m k) s a.
Proof using Ht Hf Hprev.
  intros Hmid H s1 a1 R P. eapply mid_rely in Hmid; [|done].
  destruct (H (set_current gp.2 s1) a1) as (b & s2 & Hm & P2 & G2 & Hmid2 & Hk);
    [by apply psim_current|by apply mid_current|done|].
  exists b, s2, a1. split_and!; [done|constructor|done| |auto].
  eapply guar_trans; [|exact G2]. apply guar_current, guar_refl.
Qed.

(** An assignment to a field of a fiber that the thread holds. *)
Definition quiet (g : fiber -> fiber) : Prop := forall F,
  fiber_static (g F) = fiber_static F /\ (g F).(fls) = F.(fls) /\ (g F).(fls_bitmap) = F.(fls_bitmap) /\
  (g F).(fiber_lock) = F.(fiber_lock).

Lemma quiet_update s a h k X F g :
  psim s0 s a -> in_call a gp -> fkey s0 h = Some k -> s.(fiber_heap) !! h = Some F ->
  a.(ps_fibers) !! k = Some X -> X.(pf_owner) = Some gp -> quiet g ->
  psim s0 (set_fiber_heap (<[h := g F]> s.(fiber_heap)) s) a /\
  guar s0 gp.2 s a (set_fiber_heap (<[h := g F]> s.(fiber_heap)) s) a.
Proof using Hwf0 KOk.
  intros P Hin Hh HF HX Ho Hg. destruct (Hg F) as (Hs & Hfls & Hbit & Hlock).
  destruct (sim_fibers _ _ _ P h F k HF Hh) as (X' & HX' & [S1 S2 S3 S4]).
  assert (X' = X) as -> by congruence.
  pose proof (update_fiber s0 Hwf0 s a gp h k F (g F) X X P Hin Hh HF HX Hs) as H.
  rewrite (put_fiber_same k X a HX) in H. apply H; [|by auto].
  split; [|by rewrite <- S2; apply slots_same|by rewrite Hlock|congruence].
  unfold fls_sized in *. by rewrite Hfls.
Qed.

Lemma mid_alter_target att sel Q att' (g : fiber -> fiber) k s a :
  mid att sel Q s a -> quiet g ->
  (forall F, F.(attached_thread) = att -> (g F).(attached_thread) = att' /\
     (g F).(registers) = F.(registers) /\ (g F).(fpu) = F.(fpu)) ->
  (forall s3 a3, mid att' sel Q s3 a3 -> sat s0 gp (k tt) s3 a3) ->
  sat s0 gp (Act (alter_fiber f g) k) s a.
Proof using Hwf0 KOk Ht Hf Hprev Hgp Hne.
  intros Hmid Hg Hatt Hk. apply (mid_step _ _ _ att' sel Q _ _ _ _ Hmid). intros s1 a1 P Hmid1 _.
  pose proof Hmid1 as [M1 M2 M3 M4 M5 M6 (F & X & HF & HX & Ho & Ha & Hr & Hfp) M8].
  pose proof (mid_in_call _ _ _ _ _ Hmid1) as Hin.
  destruct (quiet_update s1 a1 f _ X F g P Hin Hf HF HX Ho Hg) as [P2 G2].
  eexists tt, _. split_and!; [by apply alter_fiber_run|done|done| |done].
  destruct (Hatt F Ha) as (Ha' & Hr' & Hf'). split; try done.
  - exists (g F), X. simpl. rewrite lookup_insert_eq. split_and!; congruence.
  - destruct M8 as (V & X0 & HV & HX0 & Hrest). exists V, X0. simpl.
    rewrite lookup_insert_ne; [done|]. intros <-. congruence.
Qed.

Lemma mid_alter_source att sel Q Q' (m : kM unit) (g : fiber -> fiber) k s a :
  mid att sel Q s a -> quiet g ->
  (forall s1, s1.(tasks) !! s1.(current) = Some tk -> m s1 = alter_fiber prev g s1) ->
  (forall V, Q V.(attached_thread) V.(registers) V.(fpu) ->
     Q' (g V).(attached_thread) (g V).(registers) (g V).(fpu)) ->
  (forall s3 a3, mid att sel Q' s3 a3 -> sat s0 gp (k tt) s3 a3) ->
  sat s0 gp (Act m k) s a.
Proof using Hwf0 KOk Ht Hf Hprev Hgp Hne.
  intros Hmid Hg Hm HQ Hk. apply (mid_step _ _ _ att sel Q' _ _ _ _ Hmid). intros s1 a1 P Hmid1 Hcur.
  pose proof Hmid1 as [M1 M2 M3 M4 M5 M6 M7 (V & X0 & HV & HX0 & Ho0 & HQV)].
  pose proof (mid_in_call _ _ _ _ _ Hmid1) as Hin.
  destruct (quiet_update s1 a1 prev _ X0 V g P Hin Hprev HV HX0 Ho0 Hg) as [P2 G2].
  rewrite Hm by (by rewrite Hcur).
  eexists tt, _. split_and!; [by apply alter_fiber_run|done|done| |done].
  split; try done.
  - destruct M7 as (F & X & HF & HX & Hrest). exists F, X. simpl.
    rewrite lookup_insert_ne; [done|]. intros <-. congruence.
  - exists (g V), X0. simpl. rewrite lookup_insert_eq. split_and!; [done..|auto].
Qed.

(** The fiber the thread had selected is read, and the new one selected. *)
Lemma mid_read_selected att Q k s a :
  mid att (Some prev) Q s a ->
  (forall s3 a3, mid att (Some prev) Q s3 a3 -> sat s0 gp (k prev) s3 a3) ->
  sat s0 gp (Act (let! T := load_thread t in not_null T.(selected_fiber)) k) s a.
Proof using Ht Hf Hprev.
  intros Hmid Hk. apply (mid_step _ _ _ att (Some prev) Q _ _ _ _ Hmid). intros s1 a1 P Hmid1 _.
  pose proof (mid_thread _ _ _ _ _ Hmid1) as (T & HT & Hsel).
  exists prev, s1. split_and!; [|done|apply guar_refl|done|done].
  rewrite (mthen_eq _ _ _ T s1) by (by apply mderef_eq). by apply mderef_eq.
Qed.

Lemma mid_select att sel Q sel' k s a :
  mid att sel Q s a ->
  (forall s3 a3, mid att sel' Q s3 a3 -> sat s0 gp (k tt) s3 a3) ->
  sat s0 gp (Act (alter_thread t (set_selected_fiber sel')) k) s a.
Proof using Ht Hf Hprev Hgp.
  intros Hmid Hk. apply (mid_step _ _ _ att sel' Q _ _ _ _ Hmid). intros s1 a1 P Hmid1 _.
  pose proof Hmid1 as [M1 M2 M3 M4 M5 (T & HT & Hsel) M7 M8].
  destruct (update_thread s0 s1 a1 gp t T (set_selected_fiber sel' T)) as [P2 G2];
    [done|by eapply mid_in_call|done..|].
  eexists tt, _. split_and!; [by apply alter_thread_run|done|done| |done].
  split; try done. exists (set_selected_fiber sel' T). simpl. by rewrite lookup_insert_eq.
Qed.
(** *** The old fiber is left

    From here on the specification has the result; only the registers of the
    task are still to be loaded. *)
Record leaving (r : pt_regs) (x : fx_regs) (tkc : task) s a : Prop := {
  lv_task : s.(tasks) !! gp.2 = Some tkc;
  lv_spec_task : a.(ps_tasks) !! gp.2 = Some (set_fx x (set_regs r tk));
  lv_call : a.(ps_calls) !! gp.2 = Some (Answer 0);
  lv_owned k X : a.(ps_fibers) !! k = Some X -> X.(pf_owner) = Some gp ->
    gp.1 = k.1 /\ a.(ps_running) !! gp = Some k.2;
  lv_rest : at_rest s0 gp t s a;
  lv_fiber : exists F X, s.(fiber_heap) !! f = Some F /\ a.(ps_fibers) !! (gp.1, id) = Some X /\
    X.(pf_owner) = Some gp /\ F.(registers) = r /\ F.(fpu) = x
}.

Lemma leaving_rely r x tkc s a s' a' :
  rely s0 gp s a s' a' -> leaving r x tkc s a -> leaving r x tkc s' a'.
Proof using Ht Hf.
  intros R [L1 L2 L3 L4 L5 (F & X & HF & HX & Ho & Hr & Hx)].
  pose proof R as [R1 R2 R3 R4 R5 R6 R7].
  destruct (R7 f _ F X Hf HX Ho HF) as (HX' & F' & HF' & Hv). injection Hv as Hv1 Hv2 Hv3 _ _ _.
  split; try congruence; eauto.
  - rewrite R4. eauto.
  - by eapply at_rest_rely.
  - exists F', X. split_and!; congruence.
Qed.

Lemma leaving_load r x tkc (g : task -> task) (g' : fiber -> task -> task) k s a :
  leaving r x tkc s a -> (forall F, F.(registers) = r -> F.(fpu) = x -> g' F = g) ->
  tkc.(tgid) = gp.1 -> (g tkc).(tgid) = gp.1 ->
  (forall s3 a3, leaving r x (g tkc) s3 a3 -> sat s0 gp (k tt) s3 a3) ->
  sat s0 gp (Act (let! F := load_fiber f in alter_current (g' F)) k) s a.
Proof using Ht Hf Hgp.
  intros Hlv Hg Htg Htg' Hk s1 a1 R P. apply (leaving_rely _ _ _ _ _ _ _ R) in Hlv.
  pose proof Hlv as [L1 L2 L3 L4 L5 (F & X & HF & HX & Ho & Hr & Hx)].
  assert (in_call a1 gp) as Hin by (split; [eauto|]; rewrite L2; simpl; by rewrite Hgp).
  destruct (update_task s0 (set_current gp.2 s1) a1 gp tkc (g tkc)) as [P2 G2];
    [by apply psim_current|done..|congruence|].
  eexists tt, _, a1. split_and!; [|constructor|exact P2| |].
  - rewrite (mthen_eq _ _ _ F (set_current gp.2 s1)) by (by apply mderef_eq).
    rewrite (Hg F Hr Hx). by apply alter_current_run.
  - eapply guar_trans; [|exact G2]. apply guar_current, guar_refl.
  - apply Hk. split; try done; [apply lookup_insert_eq|]. by exists F, X.
Qed.

Lemma proceed_leave a X0 X :
  a.(ps_calls) !! gp.2 = Some (Taken id) -> a.(ps_tasks) !! gp.2 = Some tk ->
  a.(ps_running) !! gp = Some id0 ->
  a.(ps_fibers) !! (gp.1, id0) = Some X0 -> a.(ps_fibers) !! (gp.1, id) = Some X ->
  proceed gp.2 a
    (put_call gp.2 (Answer 0)
      (put_task gp.2 (set_fx X.(pf_fpu) (set_regs X.(pf_regs) tk))
        (put_running gp id
          (put_fiber (gp.1, id0) (PFiber None tk.(regs) tk.(fx) X0.(pf_slots)) a)))).
Proof using Hgp.
  clear Ht Hf Hprev. destruct gp as [g pid]. simpl in *. subst g. exact (pr_leave pid a tk id0 X0 id X). Qed.

(** What is known of the old fiber when it is unlocked. *)
Definition saved (att : option ptr) (r : pt_regs) (x : fx_regs) : Prop :=
  att = None /\ r = tk.(regs) /\ x = tk.(fx).

Lemma saved_sim V X0 :
  fiber_sim V X0 -> saved V.(attached_thread) V.(registers) V.(fpu) ->
  fiber_sim (set_fiber_lock (spin_unlock V.(fiber_lock)) V) (PFiber None tk.(regs) tk.(fx) X0.(pf_slots)).
Proof using KOk.
  intros [S1 S2 S3 S4] (Ha & Hr & Hx). split; simpl; [done|by rewrite <- S2; apply slots_same| |done].
  rewrite spin_unlock_free. by case_bool_decide.
Qed.

Lemma leave_sim s a V X0 X :
  psim s0 s a -> mid (Some t) (Some f) saved s a ->
  s.(fiber_heap) !! prev = Some V -> a.(ps_fibers) !! (gp.1, id0) = Some X0 ->
  a.(ps_fibers) !! (gp.1, id) = Some X ->
  let s' := set_fiber_heap (<[prev := set_fiber_lock (spin_unlock V.(fiber_lock)) V]> s.(fiber_heap)) s in
  let a' := put_call gp.2 (Answer 0)
      (put_task gp.2 (set_fx X.(pf_fpu) (set_regs X.(pf_regs) tk))
        (put_running gp id
          (put_fiber (gp.1, id0) (PFiber None tk.(regs) tk.(fx) X0.(pf_slots)) a))) in
  psim s0 s' a' /\ guar s0 gp.2 s a s' a'.
Proof using Hwf0 KOk Ht Hf Hprev Hgp Hne.
  intros P Hmid HV HX0 HX s' a'. pose proof (mid_in_call _ _ _ _ _ Hmid) as Hin.
  pose proof Hmid as [M1 M2 M3 M4 M5 M6 M7 (V' & X0' & HV' & HX0' & Ho0 & HQ)].
  assert (V' = V) as -> by congruence. assert (X0' = X0) as -> by congruence.
  destruct (sim_fibers _ _ _ P prev V _ HV Hprev) as (X0' & ? & Hs). assert (X0' = X0) as -> by congruence.
  destruct (update_fiber s0 Hwf0 s a gp prev _ V (set_fiber_lock (spin_unlock V.(fiber_lock)) V) X0
    (PFiber None tk.(regs) tk.(fx) X0.(pf_slots)) P Hin Hprev HV HX0) as [P1 G1];
    [done|by apply saved_sim|right; simpl; auto|].
  destruct (update_running s0 _ _ gp id P1) as [P2 G2]; [done|by eexists; exact M4|].
  destruct (update_spec_task s0 _ _ gp tk (set_fx X.(pf_fpu) (set_regs X.(pf_regs) tk)) P2) as (P3 & G3 & Hin3);
    [done..|].
  destruct (update_phase s0 _ _ gp (Answer 0) P3 Hin3) as (P4 & G4 & _).
  split; [exact P4|]. repeat (eapply guar_trans; [eassumption|]). apply guar_refl.
Qed.

Lemma mid_leave k s a :
  mid (Some t) (Some f) saved s a ->
  (forall r x s3 a3, leaving r x tk s3 a3 -> sat s0 gp (k tt) s3 a3) ->
  sat s0 gp (Act (unlock_fiber prev) k) s a.
Proof using Hwf0 KOk Ht Hf Hprev Hgp Hne.
  intros Hmid Hk s1 a1 R P1. apply (mid_rely _ _ _ _ _ _ _ R) in Hmid.
  apply (mid_current _ _ _ _ _ gp.2) in Hmid. apply (psim_current _ _ _ gp.2) in P1.
  pose proof Hmid as [M1 M2 M3 M4 M5 (T & HT & Hsel) (F & X & HF & HX & Ho & Ha & Hr & Hx)
    (V & X0 & HV & HX0 & Ho0 & HQ)].
  assert (f <> prev) as Hfp by (intros ->; congruence).
  destruct (leave_sim _ _ V X0 X P1 Hmid HV HX0 HX) as [P2 G2].
  eexists tt, _, _. split_and!; [by apply unlock_fiber_run|apply rtc_once; by apply proceed_leave|exact P2| |].
  { eapply guar_trans; [|exact G2]. apply guar_current, guar_refl. }
  assert ((gp.1, id0) <> (gp.1, id)) as Hk0 by congruence.
  apply (Hk F.(registers) F.(fpu)). split; simpl; rewrite ?lookup_insert_eq.
  - done.
  - by rewrite Hr, Hx.
  - done.
  - intros k1 X1 HX1 Ho1. rewrite lookup_insert_Some in HX1. destruct HX1 as [[_ <-]|[Hne1 HX1]]; [done|].
    destruct (M5 k1 X1 HX1 Ho1) as [-> | ->]; [|done]. simpl. done.
  - exists T, f, id, F, X. simpl. rewrite !lookup_insert_eq, !lookup_insert_ne by done. done.
  - exists F, X. rewrite !lookup_insert_ne by done. done.
Qed.

(** *** All steps after the fiber is taken *)

Lemma switch_sat Q s a : mid None (Some prev) Q s a -> sat s0 gp (par_switch_context t f) s a.
Proof using Hwf0 KOk Ht Hf Hprev Hgp Hne.
  intros Hmid. unfold par_switch_context.
  apply (mid_alter_target _ _ _ (Some t) _ _ _ _ Hmid); [done|done|]. clear s a Hmid. intros s a Hmid.
  apply (mid_alter_target _ _ _ (Some t) _ _ _ _ Hmid); [done|done|]. clear s a Hmid. intros s a Hmid.
  apply (mid_read_selected _ _ _ _ _ Hmid). clear s a Hmid. intros s a Hmid.
  apply (mid_select _ _ _ (Some f) _ _ _ Hmid). clear s a Hmid. intros s a Hmid.
  apply (mid_alter_source _ _ _ (fun _ _ _ => True) _
    (fun F => set_total_time (u64 (F.(total_time) + tk.(utime))) F) _ _ _ Hmid); [done| |done|].
  { intros s1 Hs1. by rewrite (mthen_eq _ _ _ tk s1) by (by apply current_task_run). }
  clear s a Hmid. intros s a Hmid.
  apply (mid_alter_source _ _ _ (fun _ r _ => r = tk.(regs)) _ (set_registers tk.(regs)) _ _ _ Hmid); [done| |done|].
  { intros s1 Hs1. by rewrite (mthen_eq _ _ _ tk s1) by (by apply current_task_run). }
  clear s a Hmid. intros s a Hmid.
  apply (mid_alter_source _ _ _ (fun _ r x => r = tk.(regs) /\ x = tk.(fx)) _ (set_fpu tk.(fx)) _ _ _ Hmid); [done| |done|].
  { intros s1 Hs1. by rewrite (mthen_eq _ _ _ tk s1) by (by apply current_task_run). }
  clear s a Hmid. intros s a Hmid.
  apply (mid_alter_source _ _ _ saved _ (set_attached_thread None) _ _ _ Hmid); [done|done|by unfold saved|].
  clear s a Hmid. intros s a Hmid.
  apply (mid_leave _ _ _ Hmid). clear s a Hmid. intros r x s a Hlv.
  apply (leaving_load r x tk (set_regs r) (fun F => set_regs F.(registers)) _ _ _ Hlv); [by intros F ->|done..|].
  clear s a Hlv. intros s a Hlv.
  apply (leaving_load r x _ (set_fx x) (fun F => set_fx F.(fpu)) _ _ _ Hlv); [by intros F _ ->|done..|].
  clear s a Hlv. intros s a [L1 L2 L3 L4 L5 L6]. split; [eauto|done|done|].
  intros u Hu. by rewrite (tkey_inj s0 Hwf0 u t gp Hu Ht).
Qed.
End Switch.

(** ** The handlers *)

Section Handlers.
Context {K : Kernel} {KOk : KernelOk K} (s0 : kstate) (Hwf0 : wf s0).
Implicit Types (s : kstate) (a : pspec).

(** A change of a fiber that its holder does not see. *)
Lemma same_view_rely s a f F F' gp :
  s.(fiber_heap) !! f = Some F -> own_view F' = own_view F ->
  rely s0 gp s a (set_fiber_heap (<[f := F']> s.(fiber_heap)) s) a.
Proof using.
  intros HF Hv. split; try done. intros h k G X _ HX _ HG. split; [done|]. simpl.
  destruct (decide (f = h)) as [<-|]; [|rewrite lookup_insert_ne by done; eauto].
  rewrite lookup_insert_eq. exists F'. split; congruence.
Qed.

Lemma update_same_view s a gp f k F F' X :
  psim s0 s a -> in_call a gp -> fkey s0 f = Some k -> s.(fiber_heap) !! f = Some F ->
  a.(ps_fibers) !! k = Some X -> fiber_static F' = fiber_static F -> fiber_sim F' X ->
  own_view F' = own_view F ->
  psim s0 (set_fiber_heap (<[f := F']> s.(fiber_heap)) s) a /\
  guar s0 gp.2 s a (set_fiber_heap (<[f := F']> s.(fiber_heap)) s) a.
Proof using Hwf0 KOk.
  intros P Hin Hf HF HX Hst Hs Hv.
  pose proof (update_fiber s0 Hwf0 s a gp f k F F' X X P Hin Hf HF HX Hst Hs) as H.
  rewrite (put_fiber_same k X a HX) in H. apply H. by left.
Qed.

(** *** A refused switch *)

Lemma counter_sat gp f k s a (c : fiber -> Z) :
  at_phase s0 gp (Answer (-1)) s a -> fkey s0 f = Some k ->
  sat s0 gp (Act (alter_fiber f (fun F => set_failed_activation_counter (c F) F)) (fun _ => Ret (-1))) s a.
Proof using Hwf0 KOk.
  intros Hph Hf s1 a1 R P. apply (at_phase_rely _ _ _ _ _ _ _ R) in Hph.
  apply (at_phase_current _ _ _ _ _ gp.2) in Hph. apply (psim_current _ _ _ gp.2) in P.
  destruct (fiber_of_key s0 Hwf0 _ _ f k P Hf) as (F & X & HF & HX & [S1 S2 S3 S4]).
  destruct (update_same_view _ _ gp f k F (set_failed_activation_counter (c F) F) X P) as [P2 G2];
    [by eapply at_phase_in_call|done|done|done|done| |done|].
  { split; [done|by rewrite <- S2; apply slots_same|done|done]. }
  eexists tt, _, a1. split_and!; [by apply alter_fiber_run|constructor|exact P2| |].
  - eapply guar_trans; [|exact G2]. apply guar_current, guar_refl.
  - eapply at_phase_rely; [|exact Hph]. by eapply same_view_rely.
Qed.

Lemma refused_sat gp f k s a :
  at_phase s0 gp (Answer (-1)) s a -> fkey s0 f = Some k -> sat s0 gp (par_switch_refused f) s a.
Proof using Hwf0 KOk.
  intros Hph Hf. exact (counter_sat gp f k s a (fun F => s64 (F.(failed_activation_counter) + 1)) Hph Hf).
Qed.

Definition after_trylock (t f : ptr) (locked : bool) : proc Z :=
  if negb locked then par_switch_refused f
  else Act (load_fiber f) (fun F =>
         if bool_decide (F.(attached_thread) <> None) then par_switch_refused f
         else par_switch_context t f).

(** *** The fiber is taken *)

Lemma proceed_take tk pid gp a id id0 X :
  gp = (tk.(tgid), pid) -> a.(ps_calls) !! pid = Some (Called (ESwitch id)) ->
  a.(ps_tasks) !! pid = Some tk -> a.(ps_running) !! gp = Some id0 ->
  a.(ps_fibers) !! (gp.1, id) = Some X -> X.(pf_owner) = None ->
  proceed pid a (put_call pid (Taken id) (put_fiber (gp.1, id) (set_owner (Some gp) X) a)).
Proof using. intros ->. by apply pr_take. Qed.

Lemma take_sim gp t f id s a F X tk :
  psim s0 s a -> at_phase s0 gp (Called (ESwitch id)) s a -> tkey s0 t = Some gp ->
  fkey s0 f = Some (gp.1, id) -> s.(fiber_heap) !! f = Some F -> a.(ps_fibers) !! (gp.1, id) = Some X ->
  fiber_sim F X -> X.(pf_owner) = None -> s.(tasks) !! gp.2 = Some tk ->
  let s' := set_fiber_heap (<[f := set_fiber_lock (spin_trylock F.(fiber_lock)).2 F]> s.(fiber_heap)) s in
  let a' := put_call gp.2 (Taken id) (put_fiber (gp.1, id) (set_owner (Some gp) X) a) in
  psim s0 s' a' /\ guar s0 gp.2 s a s' a' /\ proceed gp.2 a a' /\
  exists prev id0, fkey s0 prev = Some (gp.1, id0) /\ id <> id0 /\
    mid gp tk t f prev id id0 None (Some prev) (fun _ _ _ => True) s' a'.
Proof using Hwf0 KOk.
  intros P Hph Ht Hf HF HX [S1 S2 S3 S4] Hown Htk s' a'. pose proof (at_phase_in_call _ _ _ _ _ Hph) as Hin.
  pose proof Hph as [(tk' & Htk' & Hg & Hatk) Hc Ho Hrest]. assert (tk' = tk) as -> by congruence.
  destruct (Hrest t Ht) as (T & prev & id0 & V & X0 & HT & Hsel & Hprev & HV & Hr & HX0 & Ho0 & Ha & Hregs & Hfpu).
  assert (id <> id0) as Hne by congruence. assert ((gp.1, id) <> (gp.1, id0)) as Hnek by congruence.
  assert (f <> prev) as Hfp by (intros ->; congruence).
  destruct (update_fiber s0 Hwf0 s a gp f _ F (set_fiber_lock (spin_trylock F.(fiber_lock)).2 F) X
    (set_owner (Some gp) X) P Hin Hf HF HX) as [P1 G1]; [done| |right; simpl; auto|].
  { split; simpl; [done|by rewrite <- S2; apply slots_same| |done]. rewrite spin_trylock_locks. done. }
  destruct (update_phase s0 _ _ gp (Taken id) P1 Hin) as (P2 & G2 & _).
  split_and!; [exact P2|by eapply guar_trans| |].
  - apply (proceed_take tk _ _ _ id id0); [|done..]. destruct gp. simpl in *. congruence.
  - exists prev, id0. split_and!; [done..|]. split; simpl; rewrite ?lookup_insert_eq; try done.
    + intros k Y [[<- <-]|[_ HY]]%lookup_insert_Some HYo; [by left|right].
      destruct (Ho k Y HY HYo) as [Hk1 Hk2]. destruct k. simpl in *. congruence.
    + by exists T.
    + eexists _, _. split_and!; [done..| | |]; by apply S4.
    + exists V, X0. by rewrite !lookup_insert_ne by done.
Qed.

Lemma after_trylock_sat gp tk t f prev id id0 s a :
  tk.(tgid) = gp.1 -> tkey s0 t = Some gp -> fkey s0 f = Some (gp.1, id) ->
  fkey s0 prev = Some (gp.1, id0) -> id <> id0 ->
  mid gp tk t f prev id id0 None (Some prev) (fun _ _ _ => True) s a ->
  sat s0 gp (after_trylock t f true) s a.
Proof using Hwf0 KOk.
  intros Hg Ht Hf Hprev Hne Hmid.
  apply (mid_step s0 gp tk t f prev id id0 Ht Hf Hprev _ _ _ None (Some prev) (fun _ _ _ => True) _ _ _ _ Hmid).
  intros s1 a1 P Hmid1 _. destruct (mid_target _ _ _ _ _ _ _ _ _ _ _ _ Hmid1) as (F & X & HF & _ & _ & Ha & _).
  exists F, s1. split_and!; [by apply mderef_eq|done|apply guar_refl|done|]. rewrite Ha.
  intros s2 a2 Hmid2. by eapply (switch_sat s0 Hwf0 gp tk t f prev id id0).
Qed.

Lemma trylock_sat gp t f id s a :
  at_phase s0 gp (Called (ESwitch id)) s a -> tkey s0 t = Some gp -> fkey s0 f = Some (gp.1, id) ->
  sat s0 gp (Act (trylock_fiber f) (after_trylock t f)) s a.
Proof using Hwf0 KOk.
  intros Hph Ht Hf s1 a1 R P. apply (at_phase_rely _ _ _ _ _ _ _ R) in Hph.
  apply (at_phase_current _ _ _ _ _ gp.2) in Hph. apply (psim_current _ _ _ gp.2) in P.
  pose proof (at_phase_in_call _ _ _ _ _ Hph) as Hin.
  destruct (fiber_of_key s0 Hwf0 _ _ f _ P Hf) as (F & X & HF & HX & Hs). pose proof Hs as [S1 S2 S3 S4].
  pose proof (ap_task _ _ _ _ _ Hph) as (tk & Htk & Hg & Hatk).
  destruct (X.(pf_owner)) as [o|] eqn:Hown.
  - destruct (update_same_view _ _ gp f _ F (set_fiber_lock (spin_trylock F.(fiber_lock)).2 F) X P Hin Hf HF HX)
      as [P2 G2]; [done| |done|].
    { split; simpl; [done|by rewrite <- S2; apply slots_same|by rewrite spin_trylock_locks, Hown|congruence]. }
    destruct (update_phase s0 _ _ gp (Answer (-1)) P2 Hin) as (P3 & G3 & _).
    eexists _, _, _. split_and!; [by apply trylock_fiber_run| |exact P3| |].
    + apply rtc_once. eapply (pr_busy _ _ tk id X); [apply Hph|done|by rewrite Hg|congruence].
    + eapply guar_trans; [|eapply guar_trans; [exact G2|exact G3]]. apply guar_current, guar_refl.
    + rewrite S3. apply (refused_sat gp f (gp.1, id)); [|done].
      pose proof (same_view_rely _ a1 f F (set_fiber_lock (spin_trylock F.(fiber_lock)).2 F) gp HF eq_refl) as Rv.
      apply (at_phase_rely _ _ _ _ _ _ _ Rv) in Hph.
      destruct Hph as [A1 A2 A3 A4]. split; [done| |done|done]. simpl. apply lookup_insert_eq.
  - destruct (take_sim gp t f id _ a1 F X tk P Hph Ht Hf HF HX Hs Hown Htk)
      as (P2 & G2 & Hpr & prev & id0 & Hprev & Hne & Hmid).
    eexists _, _, _. split_and!; [by apply trylock_fiber_run|by apply rtc_once|exact P2| |].
    + eapply guar_trans; [|exact G2]. apply guar_current, guar_refl.
    + rewrite S3. by eapply (after_trylock_sat gp tk t f prev id id0).
Qed.

Lemma switch_handler gp id s a :
  at_phase s0 gp (Called (ESwitch id)) s a -> sat s0 gp (par_SwitchToFiber id gp.2) s a.
Proof using Hwf0 KOk.
  intros Hph.
  set (kf := fun tp (o : option ptr) =>
    match o with None => Ret (-1) | Some f => Act (trylock_fiber f) (after_trylock tp f) end).
  set (k' := fun ep (o : option ptr) =>
    match o with None => Ret (-1) | Some tp => Act (find_fiber_by_id id ep) (kf tp) end).
  apply (sat_caller s0 Hwf0 gp (ESwitch id)
    (fun o => match o with None => Ret (-1) | Some ep => Act (find_thread_by_pid gp.2 ep) (k' ep) end)
    k' (-1) s a Hph); [|done..|].
  - intros s1 a1 P1 Hph1 Hr. pose proof Hph1 as [(tk & _ & Hg & Hatk) Hc _ _].
    apply (pr_none _ _ tk id); [done..|left]. rewrite Hg. by destruct gp.
  - intros p P t s1 a1 P1 Hph1 Hp HP Ht. unfold k'.
    destruct (fiber_at s0 p id) as [f|] eqn:Hf.
    + assert (fkey s0 f = Some (gp.1, id)) as Hkey.
      { apply fkey_fiber_for; [done|]. unfold fiber_for. by rewrite Hp. }
      eapply sat_look; [done|]. intros s2 a2 P2 Hph2 _. exists (Some f). split.
      * rewrite <- Hf. apply (find_fiber_static s0 Hwf0 s2 p P); [apply P2|done].
      * by eapply trylock_sat.
    + eapply (sat_answer _ _ _ _ _ _ _ (-1)); [done|]. intros s2 a2 P2 Hph2 _. exists None. split_and!; [| |done].
      * rewrite <- Hf. apply (find_fiber_static s0 Hwf0 s2 p P); [apply P2|done].
      * pose proof Hph2 as [(tk & _ & Hg & Hatk) Hc _ _].
        apply (pr_none _ _ tk id); [done..|right]. rewrite Hg. eapply no_fiber; [done..|].
        unfold fiber_for. by rewrite Hp.
Qed.
End Handlers.
