(* ===== verification/ParallelFls.v ===== *)
(** * The storage operations in parallel

    An operation reads the bitmap of the fiber its thread runs and then changes
    the bitmap or the array.  Nobody else touches them: the step that decides
    is the step of the specification. *)

From S2P Require Import Prelude Kernel State CStr Fibers Heap Runs Kprobes Safety Fls Outcome System Views Scenario Exclusion Switching Creation Lifecycle Spec Refinement Parallel ParallelSpec ParallelSim ParallelHandlers.

Section ParallelFls.
Context {K : Kernel} {KOk : KernelOk K} (s0 : kstate) (Hwf0 : wf s0).
Context (gp : Z * Z) (t f : ptr) (id : Z) (op : fls_op).
Context (Ht : tkey s0 t = Some gp) (Hf : fkey s0 f = Some (gp.1, id)).
Implicit Types (s : kstate) (a : pspec).

(** Thread [t] runs fiber [f], and its operation has not happened yet. *)
Record at_fls s a : Prop := {
  af_phase : at_phase s0 gp (Called (EFls op)) s a;
  af_running : a.(ps_running) !! gp = Some id
}.

(** In addition, the storage of the fiber is known. *)
Record holding (B : bitmap) (L : list Z) s a : Prop := {
  hd_at : at_fls s a;
  hd_storage : exists F X, s.(fiber_heap) !! f = Some F /\
    a.(ps_fibers) !! (gp.1, id) = Some X /\ X.(pf_owner) = Some gp /\ F.(fls_bitmap) = B /\ F.(fls) = L
}.

Lemma at_fls_fiber s a :
  psim s0 s a -> at_fls s a ->
  exists F X, s.(fiber_heap) !! f = Some F /\ a.(ps_fibers) !! (gp.1, id) = Some X /\ fiber_sim F X /\
    X.(pf_owner) = Some gp /\ F.(registers) = X.(pf_regs) /\ F.(fpu) = X.(pf_fpu) /\
    F.(attached_thread) = Some t.
Proof using Hwf0 KOk Ht Hf.
  intros P [[_ _ _ Hrest] Hr].
  destruct (Hrest t Ht) as (T & f' & id' & F & X & HT & Hsel & Hf' & HF & Hr' & HX & Ho & Ha & Hregs & Hfpu).
  assert (id' = id) as -> by congruence. assert (f' = f) as -> by by eapply (fkey_inj s0 Hwf0).
  destruct (sim_fibers _ _ _ P f F _ HF Hf) as (X' & HX' & Hs). assert (X' = X) as -> by congruence.
  exists F, X. split_and!; done.
Qed.

Lemma at_fls_rely s a s' a' : rely s0 gp s a s' a' -> at_fls s a -> at_fls s' a'.
Proof using.
  intros R [Hph Hr]. split; [by eapply at_phase_rely|]. destruct R as [R1 R2 R3 R4 R5 R6 R7].
  by rewrite R4.
Qed.

Lemma at_fls_current s a c : at_fls s a -> at_fls (set_current c s) a.
Proof using. intros []. split; [by apply at_phase_current|done]. Qed.

Lemma holding_rely B L s a s' a' : rely s0 gp s a s' a' -> holding B L s a -> holding B L s' a'.
Proof using Hf.
  intros R [Hat (F & X & HF & HX & Ho & HB & HL)]. split; [by eapply at_fls_rely|].
  destruct (rl_fiber _ _ _ _ _ _ R f _ F X Hf HX Ho HF) as (HX' & G & HG & Hv).
  injection Hv as Hv1 Hv2 Hv3 Hv4 Hv5 Hv6. exists G, X. split_and!; congruence.
Qed.

Lemma holding_current B L s a c : holding B L s a -> holding B L (set_current c s) a.
Proof using. intros [Hat H]. split; [by apply at_fls_current|done]. Qed.

(** An operation that changes nothing. *)
Lemma proceed_same s a r :
  psim s0 s a -> at_fls s a ->
  (forall F, s.(fiber_heap) !! f = Some F -> fls_sized F -> fls_step op r (slots F) (slots F)) ->
  proceed gp.2 a (put_call gp.2 (Answer r) a).
Proof using Hwf0 KOk Ht Hf.
  intros P Hat Hstep. destruct (at_fls_fiber s a P Hat) as (F & X & HF & HX & [S1 S2 _ _] & _).
  destruct Hat as [[(tk & _ & Hg & Hatk) Hc _ _] Hr].
  specialize (Hstep F HF S1). rewrite S2 in Hstep.
  rewrite <- (put_fiber_same (gp.1, id) (set_slots X.(pf_slots) X) a) at 2 by (destruct X; exact HX).
  clear Ht Hf. destruct gp as [g pid]. simpl in *. subst g.
  by apply (pr_fls pid a tk id X op r X.(pf_slots)).
Qed.

(** The operation, on a fiber with the storage that was read. *)
Lemma apply_fls_context F :
  (apply_fls op F).2.(registers) = F.(registers) /\ (apply_fls op F).2.(fpu) = F.(fpu).
Proof using. destruct op; simpl; repeat case_match; done. Qed.

Lemma commit_sim s a F X :
  psim s0 s a -> at_fls s a -> s.(fiber_heap) !! f = Some F -> a.(ps_fibers) !! (gp.1, id) = Some X ->
  let s' := set_fiber_heap (<[f := (apply_fls op F).2]> s.(fiber_heap)) s in
  let a' := put_call gp.2 (Answer (apply_fls op F).1)
              (put_fiber (gp.1, id) (set_slots (slots (apply_fls op F).2) X) a) in
  psim s0 s' a' /\ guar s0 gp.2 s a s' a' /\ proceed gp.2 a a' /\ at_phase s0 gp (Answer (apply_fls op F).1) s' a'.
Proof using Hwf0 KOk Ht Hf.
  intros P Hat HF HX s' a'.
  destruct (at_fls_fiber s a P Hat) as (F' & X' & HF' & HX' & [S1 S2 S3 S4] & Ho & Hregs & Hfpu & Ha).
  assert (F' = F) as -> by congruence. assert (X' = X) as -> by congruence.
  destruct Hat as [Hph Hr]. pose proof (at_phase_in_call _ _ _ _ _ Hph) as Hin.
  destruct (apply_fls_refines op F S1) as (Hstep & Hsame & Hatt & Hlock).
  destruct (apply_fls_context F) as [Hregs' Hfpu'].
  destruct (update_fiber s0 Hwf0 s a gp f _ F (apply_fls op F).2 X (set_slots (slots (apply_fls op F).2) X)
    P Hin Hf HF HX) as [P1 G1]; [| |right; simpl; by auto|].
  { destruct Hsame as (Hid & Hname & Hpar & _). unfold fiber_static. by rewrite Hid, Hname, Hpar. }
  { split; simpl; [|done|by rewrite Hlock|congruence].
    destruct Hsame as (_ & _ & _ & Hlen). unfold fls_sized in *. by rewrite Hlen. }
  destruct (update_phase s0 _ _ gp (Answer (apply_fls op F).1) P1 Hin) as (P2 & G2 & _).
  pose proof Hph as [(tk & Htk & Hg & Hatk) Hc Hown Hrest].
  split_and!; [exact P2|by eapply guar_trans| |].
  - rewrite S2 in Hstep. unfold a'. clear Ht Hf Hrest Hown Hph. destruct gp as [g pid]. simpl in *. subst g.
    by apply (pr_fls pid a tk id X op).
  - split; simpl; [eauto|apply lookup_insert_eq| |].
    + intros k Y [[<- <-]|[_ HY]]%lookup_insert_Some HYo; [done|by eapply Hown].
    + intros u Hu. destruct (Hrest t Ht) as (T & f1 & id1 & F1 & X1 & HT & Hsel & Hf1 & _ & Hr1 & _).
      assert (id1 = id) as -> by congruence. assert (f1 = f) as -> by by eapply (fkey_inj s0 Hwf0).
      rewrite (tkey_inj s0 Hwf0 u t gp Hu Ht). eexists T, f, id, _, _. simpl.
      rewrite !lookup_insert_eq. simpl. split_and!; try done; simpl; congruence.
Qed.

(** The step that changes the fiber, or reads the slot. *)
Lemma commit_sat {A} B L (m : kM A) k s a :
  holding B L s a ->
  (forall s1 F, s1.(fiber_heap) !! f = Some F -> fls_sized F -> F.(fls_bitmap) = B -> F.(fls) = L ->
     exists b, m s1 = Some (b, set_fiber_heap (<[f := (apply_fls op F).2]> s1.(fiber_heap)) s1) /\
       k b = Ret (apply_fls op F).1) ->
  sat s0 gp (Act m k) s a.
Proof using Hwf0 KOk Ht Hf.
  intros Hh Hm s1 a1 R P. apply (holding_rely _ _ _ _ _ _ R) in Hh.
  apply (holding_current _ _ _ _ gp.2) in Hh. apply (psim_current _ _ _ gp.2) in P.
  destruct Hh as [Hat (F & X & HF & HX & Ho & HB & HL)].
  destruct (at_fls_fiber _ _ P Hat) as (F' & X' & HF' & _ & [S1 _ _ _] & _). assert (F' = F) as -> by congruence.
  destruct (Hm _ F HF S1 HB HL) as (b & Hb & Hk).
  destruct (commit_sim _ _ F X P Hat HF HX) as (P2 & G2 & Hpr & Hph).
  eexists b, _, _. split_and!; [exact Hb|by apply rtc_once|exact P2| |].
  - eapply guar_trans; [|exact G2]. apply guar_current, guar_refl.
  - rewrite Hk. exact Hph.
Qed.

(** The step that reads the storage, and may decide. *)
Lemma read_storage_sat (k : fiber -> proc Z) s a :
  at_fls s a ->
  (forall F, fls_sized F -> is_Some (s0.(process_heap) !! F.(parent_process)) ->
     (forall s1 a1, holding F.(fls_bitmap) F.(fls) s1 a1 -> sat s0 gp (k F) s1 a1) \/
     exists r, fls_step op r (slots F) (slots F) /\
       forall s1 a1, at_phase s0 gp (Answer r) s1 a1 -> sat s0 gp (k F) s1 a1) ->
  sat s0 gp (Act (load_fiber f) k) s a.
Proof using Hwf0 KOk Ht Hf.
  intros Hat H. apply (sat_choice s0 gp _ _ _ _ _ (af_phase _ _ Hat)). intros s1 a1 P _ R _.
  apply (at_fls_rely _ _ _ _ R) in Hat.
  destruct (at_fls_fiber s1 a1 P Hat) as (F & X & HF & HX & [S1 _ _ _] & Ho & _).
  exists F. split; [by apply mderef_eq|]. destruct (H F S1) as [Hk|(r & Hstep & Hk)].
  - pose proof (st_fibers _ _ (sim_static _ _ _ P) f) as Hst. rewrite HF in Hst.
    destruct (fiber_heap s0 !! f) as [F0|] eqn:HF0; [|done]. injection Hst as _ -> _.
    by destruct (ho_fiber _ _ _ _ (wf_heap _ Hwf0) f F0 HF0).
  - left. apply Hk. split; [done|]. by exists F, X.
  - right. exists r. split; [|done]. apply (proceed_same s1 a1 r P Hat). intros G HG _.
    by assert (G = F) as -> by congruence.
Qed.
End ParallelFls.

(** ** The four operations *)

Section Operations.
Context {K : Kernel} {KOk : KernelOk K} (s0 : kstate) (Hwf0 : wf s0).
Implicit Types (s : kstate) (a : pspec).

Lemma fls_caller_sat gp op (rest : option ptr -> proc Z) s a :
  at_phase s0 gp (Called (EFls op)) s a -> rest None = Ret (fls_failure op) ->
  (forall t f id, tkey s0 t = Some gp -> fkey s0 f = Some (gp.1, id) ->
     (forall s1 a1, at_fls s0 gp id op s1 a1 -> sat s0 gp (rest (Some f)) s1 a1) \/
     exists r, rest (Some f) = Ret r /\ forall F, fls_sized F -> fls_step op r (slots F) (slots F)) ->
  sat s0 gp (pbind (par_fls_fiber gp.2) rest) s a.
Proof using Hwf0 KOk.
  intros Hph Hnone Hrest.
  set (k' := fun (_ : ptr) (o : option ptr) => pbind
    match o with None => Ret None | Some t => let* T := act (load_thread t) in Ret T.(selected_fiber) end rest).
  apply (sat_caller s0 Hwf0 gp (EFls op)
    (fun o => pbind match o with
                    | None => Ret None
                    | Some p => let* o := act (find_thread_by_pid gp.2 p) in
                        match o with
                        | None => Ret None
                        | Some t => let* T := act (load_thread t) in Ret T.(selected_fiber)
                        end
                    end rest) k' (fls_failure op) s a Hph); [|done..|].
  - intros s1 a1 P1 Hph1 Hr. pose proof Hph1 as [(tk & _ & Hg & Hatk) Hc _ _].
    apply (pr_fls_none _ _ tk op); [done..|]. rewrite Hg. by destruct gp.
  - intros p P t s1 a1 P1 Hph1 _ _ Ht. unfold k'. clear k'.
    apply (sat_choice s0 gp _ _ _ _ _ Hph1). intros s2 a2 P2 Hph2 _ _.
    destruct (ap_rest _ _ _ _ _ Hph2 t Ht) as (T & f & id & F & X & HT & Hsel & Hf & HF & Hr & _).
    exists T. split; [by apply mderef_eq|]. simpl. rewrite Hsel.
    destruct (Hrest t f id Ht Hf) as [Hk|(r & Hk & Hstep)].
    + left. apply Hk. by split.
    + right. exists r. rewrite Hk. split; [|done].
      apply (proceed_same s0 Hwf0 gp t f id op Ht Hf s2 a2 r P2); [by split|auto].
Qed.

(** What [apply_fls] does, by cases on the bit. *)
Lemma fls_step_bad op i F :
  bad_index i = true -> op = FlsFree i \/ op = FlsGetValue i \/ (exists v, op = FlsSetValue i v) ->
  fls_step op (fls_failure op) (slots F) (slots F).
Proof using.
  intros Hbad Hop. assert (slots F !! i = None) as Hnone.
  { rewrite slots_lookup. unfold slot. by rewrite Hbad. }
  destruct Hop as [->|[->|[v ->]]]; by constructor.
Qed.

Lemma fls_step_clear op i F :
  test_bit i F.(fls_bitmap) = false ->
  op = FlsFree i \/ op = FlsGetValue i \/ (exists v, op = FlsSetValue i v) ->
  fls_step op (fls_failure op) (slots F) (slots F).
Proof using.
  intros Hbit Hop. assert (slots F !! i = None) as Hnone.
  { rewrite slots_lookup. unfold slot. rewrite Hbit. by destruct (bad_index i). }
  destruct Hop as [->|[->|[v ->]]]; by constructor.
Qed.

Lemma slot_set_bit i F :
  fls_sized F -> bad_index i = false -> test_bit i F.(fls_bitmap) = true ->
  exists v, slot F i = Some v /\ F.(fls) !! Z.to_nat i = Some v.
Proof using.
  intros Hlen Hbad Hbit. unfold slot. rewrite Hbad, Hbit. apply bad_index_false in Hbad.
  destruct (lookup_Z_Some F.(fls) i) as [v Hv]; [unfold fls_sized in *; lia|eauto].
Qed.

Lemma alloc_sat gp s a :
  at_phase s0 gp (Called (EFls FlsAlloc)) s a -> sat s0 gp (par_FlsAlloc gp.2) s a.
Proof using Hwf0 KOk.
  intros Hph. apply (fls_caller_sat gp FlsAlloc _ s a Hph); [done|]. intros t f id Ht Hf. left.
  intros s1 a1 Hat. apply (read_storage_sat s0 Hwf0 gp t f id FlsAlloc Ht Hf _ _ _ Hat).
  intros F Hlen Hpar. pose proof (proj1 (apply_fls_refines FlsAlloc F Hlen)) as Hstep.
  unfold apply_fls in Hstep.
  destruct (find_first_zero_bit F.(fls_bitmap) MAX_FLS_POINTERS =? MAX_FLS_POINTERS) eqn:E.
  - right. exists (-1). split; [exact Hstep|]. intros s2 a2 Hph2. simpl. rewrite E.
    apply (sat_look s0 gp _ _ _ _ _ Hph2). intros s3 a3 P3 Hph3 _. destruct Hpar as [P HP].
    exists P. split; [|exact Hph3]. apply mderef_eq. by rewrite (st_process_heap _ _ (sim_static _ _ _ P3)).
  - left. intros s2 a2 Hh. simpl. rewrite E.
    apply (commit_sat s0 Hwf0 gp t f id FlsAlloc Ht Hf _ _ _ _ _ _ Hh). intros s3 G HG _ HB _.
    exists tt. unfold apply_fls. rewrite HB, E. split; [|done].
    rewrite <- HB. by apply (alter_fiber_run s3 f G).
Qed.

Lemma free_sat gp i s a :
  at_phase s0 gp (Called (EFls (FlsFree i))) s a -> sat s0 gp (par_FlsFree i gp.2) s a.
Proof using Hwf0 KOk.
  intros Hph. apply (fls_caller_sat gp (FlsFree i) _ s a Hph); [done|]. intros t f id Ht Hf.
  destruct (bad_index i) eqn:Hbad.
  { right. exists 0. split; [done|]. intros F _. by apply (fls_step_bad (FlsFree i) i); auto. }
  left. intros s1 a1 Hat. apply (read_storage_sat s0 Hwf0 gp t f id (FlsFree i) Ht Hf _ _ _ Hat).
  intros F Hlen _. destruct (test_bit i F.(fls_bitmap)) eqn:Hbit; simpl.
  - left. intros s2 a2 Hh. rewrite ?Hbit. simpl.
    apply (commit_sat s0 Hwf0 gp t f id (FlsFree i) Ht Hf _ _ _ _ _ _ Hh). intros s3 G HG HGlen HB HL.
    rewrite <- HB in Hbit. destruct (slot_set_bit i G HGlen Hbad Hbit) as (v & Hv & _).
    exists tt. unfold apply_fls. rewrite Hv. split; [by apply (alter_fiber_run s3 f G)|done].
  - right. exists 0. split; [by apply (fls_step_clear (FlsFree i) i); auto|]. intros s2 a2 Hph2.
    by rewrite ?Hbit.
Qed.

Lemma get_sat gp i s a :
  at_phase s0 gp (Called (EFls (FlsGetValue i))) s a -> sat s0 gp (par_FlsGetValue i gp.2) s a.
Proof using Hwf0 KOk.
  intros Hph. apply (fls_caller_sat gp (FlsGetValue i) _ s a Hph); [done|]. intros t f id Ht Hf.
  destruct (bad_index i) eqn:Hbad.
  { right. exists (-1). split; [done|]. intros F _. by apply (fls_step_bad (FlsGetValue i) i); auto. }
  left. intros s1 a1 Hat. apply (read_storage_sat s0 Hwf0 gp t f id (FlsGetValue i) Ht Hf _ _ _ Hat).
  intros F Hlen _. destruct (test_bit i F.(fls_bitmap)) eqn:Hbit; simpl.
  - left. intros s2 a2 Hh. rewrite ?Hbit. simpl.
    apply (commit_sat s0 Hwf0 gp t f id (FlsGetValue i) Ht Hf _ _ _ _ _ _ Hh). intros s3 G HG HGlen HB HL.
    rewrite <- HB in Hbit. destruct (slot_set_bit i G HGlen Hbad Hbit) as (v & Hv & HvL).
    exists v. unfold apply_fls. rewrite Hv. split; [|done]. simpl. rewrite insert_id by done.
    rewrite (mthen_eq _ _ _ G s3) by (by apply mderef_eq).
    rewrite (mderef_eq _ _ v) by done. by destruct s3.
  - right. exists (-1). split; [by apply (fls_step_clear (FlsGetValue i) i); auto|]. intros s2 a2 Hph2.
    by rewrite ?Hbit.
Qed.

Lemma set_sat gp i v s a :
  at_phase s0 gp (Called (EFls (FlsSetValue i v))) s a -> sat s0 gp (par_FlsSetValue i v gp.2) s a.
Proof using Hwf0 KOk.
  intros Hph. apply (fls_caller_sat gp (FlsSetValue i v) _ s a Hph); [done|]. intros t f id Ht Hf.
  destruct (bad_index i) eqn:Hbad.
  { right. exists 0. split; [done|]. intros F _. apply (fls_step_bad (FlsSetValue i v) i); eauto. }
  left. intros s1 a1 Hat. apply (read_storage_sat s0 Hwf0 gp t f id (FlsSetValue i v) Ht Hf _ _ _ Hat).
  intros F Hlen _. destruct (test_bit i F.(fls_bitmap)) eqn:Hbit; simpl.
  - left. intros s2 a2 Hh. rewrite ?Hbit. simpl.
    apply (commit_sat s0 Hwf0 gp t f id (FlsSetValue i v) Ht Hf _ _ _ _ _ _ Hh). intros s3 G HG HGlen HB HL.
    rewrite <- HB in Hbit. destruct (slot_set_bit i G HGlen Hbad Hbit) as (w & Hw & HwL).
    exists tt. unfold apply_fls. rewrite Hw. split; [|done].
    rewrite (mthen_eq _ _ _ G s3) by (by apply mderef_eq).
    rewrite (mthen_eq _ _ _ w s3) by (by apply mderef_eq). by apply (alter_fiber_run s3 f G).
  - right. exists 0. split; [apply (fls_step_clear (FlsSetValue i v) i); eauto|]. intros s2 a2 Hph2.
    by rewrite ?Hbit.
Qed.

(** Every handler that may run in parallel. *)
Lemma handler_sat garbage e gp p s a :
  calm (LCall gp.2 e) -> par_event garbage e gp.2 = Some p ->
  at_phase s0 gp (Called e) s a -> sat s0 gp p s a.
Proof using Hwf0 KOk.
  intros Hcalm He Hph. destruct e as [| |id|op| | |]; simpl in Hcalm, He; try done; injection He as <-.
  - by apply switch_handler.
  - destruct op; [by apply alloc_sat|by apply free_sat|by apply get_sat|by apply set_sat].
Qed.
End Operations.
