(* ===== verification/ParallelRefinement.v ===== *)
(** * Handlers in parallel implement their specification

    A run in parallel starts where no handler is in progress, in a state the
    module can reach, and may end anywhere.  Its trace is one of the
    specification, its handlers are never stuck, and when all have returned the
    state is well formed again and implements the sequential specification. *)

From S2P Require Import Prelude Kernel State CStr Fibers Heap Runs Kprobes Safety Fls Outcome System Views Scenario Exclusion Switching Creation Lifecycle Spec Refinement Parallel ParallelSpec ParallelSim ParallelHandlers ParallelFls.

(** A table depends on the keys and the owners of its objects. *)
Lemma table_ok_keys {K : Kernel} {A C} h (m m' : gmap ptr A) (key : A -> Z) (own : A -> Prop) (g : A -> C) :
  table_ok h m key own -> (forall p, g <$> m' !! p = g <$> m !! p) ->
  (forall x y, g x = g y -> key x = key y /\ (own x -> own y)) -> table_ok h m' key own.
Proof.
  intros [H1 H2 H3 H4] Hm Hg.
  assert (forall p y, m' !! p = Some y -> exists x, m !! p = Some x /\ g x = g y) as Hback.
  { intros p y Hy. specialize (Hm p). rewrite Hy in Hm. destruct (m !! p) as [x|]; simplify_eq/=. eauto. }
  assert (forall p x, m !! p = Some x -> exists y, m' !! p = Some y /\ g y = g x) as Hforth.
  { intros p x Hx. specialize (Hm p). rewrite Hx in Hm. destruct (m' !! p) as [y|]; simplify_eq/=. eauto. }
  split; [done| | |].
  - intros p. rewrite H2. split.
    + intros (x & Hx & Ho). destruct (Hforth p x Hx) as (y & Hy & Heq). exists y. split; [done|].
      by apply (Hg x y).
    + intros (y & Hy & Ho). destruct (Hback p y Hy) as (x & Hx & Heq). exists x. split; [done|].
      by apply (Hg y x).
  - intros p y Hy Ho. destruct (Hback p y Hy) as (x & Hx & Heq). destruct (Hg x y Heq) as [<- _].
    apply H3; [done|]. by apply (Hg y x).
  - intros p q y y' Hy Hy' Ho Ho' Hk. destruct (Hback p y Hy) as (x & Hx & Heq).
    destruct (Hback q y' Hy') as (x' & Hx' & Heq'). apply (H4 p q x x'); [done..|by apply (Hg y x)|by apply (Hg y' x')|].
    by rewrite (proj1 (Hg x y Heq)), (proj1 (Hg x' y' Heq')).
Qed.

Section Start.
Context {K : Kernel} {KOk : KernelOk K} (s0 : kstate) (Hwf0 : wf s0) (b : spec) (Hb : implements s0 b).

(** ** The beginning of a parallel run *)

Lemma owner_in_running g pid id :
  b.(sp_running) !! (g, pid) = Some id -> owner_in b.(sp_running) (g, id) = Some (g, pid).
Proof using All.
  intros Hr. destruct (owner_in b.(sp_running) (g, id)) as [[g' pid']|] eqn:Ho.
  - apply owner_in_Some in Ho as [Hg Hr']. simpl in Hg. subst g'.
    destruct (spec_running_inv _ _ _ _ _ Hwf0 Hb Hr) as (f & F & t & _ & HF & _ & Hk & Ht & Ha).
    destruct (spec_running_inv _ _ _ _ _ Hwf0 Hb Hr') as (f' & F' & t' & _ & HF' & _ & Hk' & Ht' & Ha').
    assert (f = f') as <- by by eapply (fiber_key_inj s0 Hwf0).
    assert (t' = t) as -> by congruence.
    by destruct (thread_for_inj s0 g g pid pid' t Hwf0 Ht Ht') as [_ ->].
  - by apply owner_in_None with (pid := pid) in Ho.
Qed.

Lemma start_fiber k :
  (start b).(ps_fibers) !! k =
    (fun F => PFiber (owner_in b.(sp_running) k) F.(sf_regs) F.(sf_fpu) F.(sf_slots)) <$> b.(sp_fibers) !! k.
Proof using. simpl. rewrite map_lookup_imap. by destruct (sp_fibers b !! k). Qed.

Lemma start_fiber_sim f F k :
  s0.(fiber_heap) !! f = Some F -> fkey s0 f = Some k ->
  fiber_sim F (PFiber (owner_in b.(sp_running) k) F.(registers) F.(fpu) (slots F)).
Proof using All.
  intros HF Hk. pose proof (ho_fiber _ _ _ _ (wf_heap _ Hwf0) f F HF) as [_ Hlen Hlock _ Hatt].
  destruct k as [g id].
  assert (owner_in b.(sp_running) (g, id) = None <-> F.(attached_thread) = None) as Hiff.
  { split.
    - intros Hnone. apply eq_None_not_Some. intros [u Ha].
      assert (fiber_key s0.(process_heap) F = Some (g, id)) as HkF by (unfold fkey in Hk; by rewrite HF in Hk).
      assert (F.(fiber_id) = id) as Hid by (by apply fiber_key_Some in HkF as (P & _ & _ & ?)).
      destruct (attached_running s0 f F u g Hwf0 HF Ha) as (pid & Hr); [by rewrite Hid|].
      destruct (spec_running s0 b (Task g 0 F.(registers) F.(fpu)) pid f F Hwf0 Hb Hr HF) as (Hrun & _).
      rewrite Hid in Hrun. by destruct (owner_in_None _ _ _ Hnone pid).
    - intros Hnone. destruct (owner_in b.(sp_running) (g, id)) as [[g' pid]|] eqn:Ho; [|done]. exfalso.
      apply owner_in_Some in Ho as [Hg Hr]. simpl in Hg. subst g'.
      destruct (spec_running_inv _ _ _ _ _ Hwf0 Hb Hr) as (f' & F' & t & _ & HF' & _ & Hk' & _ & Ha).
      assert (f' = f) as -> by (apply (fkey_inj s0 Hwf0 f' f (g, id)); [unfold fkey; by rewrite HF'|done]).
      congruence. }
  split; simpl; [done|done| |].
  - rewrite Hlock. apply bool_decide_ext. by rewrite Hiff.
  - intros Hnone%Hiff. done.
Qed.

Lemma start_rest gp t : tkey s0 t = Some gp -> at_rest s0 gp t s0 (start b).
Proof using All.
  intros Ht. destruct gp as [g pid]. pose proof Ht as Hfor. apply tkey_thread_for in Hfor; [|done].
  assert (exists T, s0.(thread_heap) !! t = Some T) as [T HT].
  { unfold tkey in Ht. destruct (thread_heap s0 !! t); [eauto|done]. }
  destruct (T.(selected_fiber)) as [f|] eqn:Hsel; [|by apply wf_running in HT].
  destruct (selected_fiber_ok s0 t T f Hwf0 HT Hsel) as (F & HF & Ha & _ & _).
  assert (running s0 g pid = Some f) as Hr by (apply running_spec; [done|]; by exists t, T).
  destruct (spec_running s0 b (Task g 0 F.(registers) F.(fpu)) pid f F Hwf0 Hb Hr HF) as (Hrun & HX & Hkey).
  simpl in Hrun, HX, Hkey. exists T, f, F.(fiber_id), F,
    (PFiber (owner_in b.(sp_running) (g, F.(fiber_id))) F.(registers) F.(fpu) (slots F)). split_and!; try done.
  - unfold fkey. by rewrite HF.
  - rewrite start_fiber. cbn [fst]. rewrite HX. done.
  - simpl. by apply owner_in_running.
Qed.

Lemma start_sim : psim s0 s0 (start b).
Proof using All.
  split.
  - apply statics_refl.
  - intros f F k HF Hk.
    assert (b.(sp_fibers) !! k = Some (SFiber F.(registers) F.(fpu) (slots F))) as HX.
    { apply (im_fibers _ _ Hb). exists f, F. split; [done|]. split; [|done].
      unfold fkey in Hk. by rewrite HF in Hk. }
    eexists. rewrite start_fiber, HX. split; [done|]. by eapply start_fiber_sim.
  - intros k. rewrite start_fiber. destruct (sp_fibers b !! k) as [X|] eqn:HX; [intros _|by intros []].
    apply (im_fibers _ _ Hb) in HX as (f & F & HF & Hk & _). exists f. unfold fkey. by rewrite HF.
  - intros k. split.
    + intros [id (t & T & HT & Hk & _)%(im_running _ _ Hb)]. exists t. unfold tkey. by rewrite HT.
    + intros [t Ht]. destruct (start_rest k t Ht) as (_ & _ & id & _ & _ & _ & _ & _ & _ & Hr & _).
      by exists id.
  - intros gp t Ht _. by apply start_rest.
  - intros k X gp. rewrite start_fiber. destruct (sp_fibers b !! k) as [Y|]; [|done].
    intros [= <-] Ho. right. destruct k. by apply owner_in_Some in Ho.
  - intros pid _. simpl. by rewrite (im_tasks _ _ Hb).
  - intros pid. simpl. by rewrite (im_tasks _ _ Hb).
Qed.
End Start.

Section Stop.
Context {K : Kernel} {KOk : KernelOk K} (s0 : kstate) (Hwf0 : wf s0) (b : spec) (Hb : implements s0 b).
Context (s : kstate) (a : pspec) (Hsim : psim s0 s a) (Hidle : forall pid, a.(ps_calls) !! pid = None).

(** ** The end of a parallel run *)

Lemma stop_out gp : ~ in_call a gp.
Proof using Hidle. intros [[ph Hph] _]. by rewrite Hidle in Hph. Qed.

Lemma stop_rest t T :
  s.(thread_heap) !! t = Some T -> exists gp, tkey s0 t = Some gp /\ at_rest s0 gp t s a.
Proof using All.
  intros HT. destruct (proj1 (tkey_is_Some s0 Hwf0 s t (sim_static _ _ _ Hsim))) as [gp Ht]; [eauto|].
  exists gp. split; [done|]. apply (sim_rest _ _ _ Hsim); [done|apply stop_out].
Qed.

(** A fiber somebody holds is run by a thread. *)
Lemma stop_owned f F k gp X :
  s.(fiber_heap) !! f = Some F -> fkey s0 f = Some k -> a.(ps_fibers) !! k = Some X ->
  X.(pf_owner) = Some gp ->
  exists t T, tkey s0 t = Some gp /\ s.(thread_heap) !! t = Some T /\
    T.(selected_fiber) = Some f /\ F.(attached_thread) = Some t.
Proof using All.
  intros HF Hk HX Ho. destruct (sim_owner _ _ _ Hsim k X gp HX Ho) as [Hc|[Hg Hr]]; [by destruct (stop_out gp)|].
  destruct (proj1 (sim_running _ _ _ Hsim gp)) as [t Ht]; [eauto|].
  destruct (sim_rest _ _ _ Hsim gp t Ht (stop_out gp))
    as (T & f' & id & F' & X' & HT & Hsel & Hf' & HF' & Hr' & HX' & Ho' & Ha & _).
  assert (fkey s0 f' = Some k) as Hk' by (rewrite Hf'; destruct k; simpl in *; congruence).
  assert (f' = f) as -> by by eapply (fkey_inj s0 Hwf0). exists t, T. split_and!; congruence.
Qed.

Lemma stop_attached f F t :
  s.(fiber_heap) !! f = Some F -> F.(attached_thread) = Some t ->
  exists T, s.(thread_heap) !! t = Some T /\ T.(selected_fiber) = Some f.
Proof using All.
  intros HF Ha. destruct (proj1 (fkey_is_Some s0 Hwf0 s f (sim_static _ _ _ Hsim))) as [k Hk]; [eauto|].
  destruct (sim_fibers _ _ _ Hsim f F k HF Hk) as (X & HX & [S1 S2 S3 S4]).
  destruct (X.(pf_owner)) as [gp|] eqn:Ho; [|by destruct (S4 eq_refl); congruence].
  destruct (stop_owned f F k gp X HF Hk HX Ho) as (t' & T & _ & HT & Hsel & Ha').
  exists T. by assert (t' = t) as -> by congruence.
Qed.

Lemma thread_static_inv t T :
  s.(thread_heap) !! t = Some T ->
  exists T0, s0.(thread_heap) !! t = Some T0 /\ T0.(thread_id) = T.(thread_id) /\ T0.(parent) = T.(parent).
Proof using Hsim.
  intros HT. pose proof (st_threads _ _ (sim_static _ _ _ Hsim) t) as Hst. rewrite HT in Hst.
  destruct (thread_heap s0 !! t) as [T0|]; [|done]. injection Hst as -> ->. eauto.
Qed.

Lemma fiber_static_inv f F :
  s.(fiber_heap) !! f = Some F ->
  exists F0, s0.(fiber_heap) !! f = Some F0 /\ F0.(fiber_id) = F.(fiber_id) /\
    F0.(parent_process) = F.(parent_process) /\ F0.(name) = F.(name).
Proof using Hsim.
  intros HF. pose proof (st_fibers _ _ (sim_static _ _ _ Hsim) f) as Hst. rewrite HF in Hst.
  destruct (fiber_heap s0 !! f) as [F0|]; [|done]. injection Hst as -> -> ->. eauto.
Qed.

Lemma stop_fiber_key f F : s.(fiber_heap) !! f = Some F -> fiber_key s.(process_heap) F = fkey s0 f.
Proof using Hsim.
  intros HF. destruct (fiber_static_inv f F HF) as (F0 & HF0 & Hid & Hpar & _).
  unfold fkey. rewrite HF0. unfold fiber_key. simpl.
  by rewrite (st_process_heap _ _ (sim_static _ _ _ Hsim)), Hid, Hpar.
Qed.

Lemma stop_thread_key t T : s.(thread_heap) !! t = Some T -> thread_key s.(process_heap) T = tkey s0 t.
Proof using Hsim.
  intros HT. destruct (thread_static_inv t T HT) as (T0 & HT0 & Hid & Hpar).
  unfold tkey. rewrite HT0. unfold thread_key. simpl.
  by rewrite (st_process_heap _ _ (sim_static _ _ _ Hsim)), Hid, Hpar.
Qed.

Lemma stop_heap_ok : heap_ok s.(processes) s.(process_heap) s.(thread_heap) s.(fiber_heap).
Proof using All.
  pose proof (sim_static _ _ _ Hsim) as [E1 E2 E3 E4 E5]. split.
  - rewrite E1, E3. apply Hwf0.
  - rewrite E3. intros p P HP. destruct (ho_process _ _ _ _ (wf_heap _ Hwf0) p P HP) as [P1 P2 P3 P4 P5].
    split; [| |done|done|].
    + eapply (table_ok_keys _ _ _ _ _ thread_static P1 E4). intros T T' [= -> Heq].
      split; [done|]. unfold thread_of. congruence.
    + eapply (table_ok_keys _ _ _ _ _ fiber_static P2 E5). intros F F' [= -> Heq _].
      split; [done|]. unfold fiber_of. congruence.
    + intros f F HF Hof. destruct (fiber_static_inv f F HF) as (F0 & HF0 & <- & Hpar & _).
      apply (P5 f); [done|]. unfold fiber_of in *. congruence.
  - intros t T HT. destruct (thread_static_inv t T HT) as (T0 & HT0 & _ & Hpar). split.
    + rewrite E3, <- Hpar. apply (to_parent _ _ _ _ (ho_thread _ _ _ _ (wf_heap _ Hwf0) t T0 HT0)).
    + intros f Hsel. destruct (stop_rest t T HT) as (gp & Ht & T' & f' & id & F & X & HT' & Hsel' & Hf & HF & _ & _ & _ & Ha & _).
      assert (T' = T) as -> by congruence. assert (f' = f) as -> by congruence.
      exists F. split_and!; [done..|]. destruct gp as [g pid].
      rewrite <- (stop_fiber_key f F HF) in Hf. rewrite <- (stop_thread_key t T HT) in Ht.
      apply fiber_key_Some in Hf as (P & HP & Hg & _). apply thread_key_Some in Ht as (Q & HQ & Hg' & _).
      rewrite E3 in HP, HQ. eapply (process_id_inj s0); [done..|]. simpl in Hg. congruence.
  - intros f F HF. destruct (fiber_static_inv f F HF) as (F0 & HF0 & Hid & Hpar & Hname).
    destruct (ho_fiber _ _ _ _ (wf_heap _ Hwf0) f F0 HF0) as [Q1 _ _ Q4 _].
    destruct (proj1 (fkey_is_Some s0 Hwf0 s f (sim_static _ _ _ Hsim))) as [k Hk]; [eauto|].
    destruct (sim_fibers _ _ _ Hsim f F k HF Hk) as (X & HX & [S1 S2 S3 S4]).
    split; [by rewrite E3, <- Hpar|done| |by rewrite <- Hname, <- Hid|by intros u; apply stop_attached].
    rewrite S3. destruct (X.(pf_owner)) as [gp|] eqn:Ho.
    + destruct (stop_owned f F k gp X HF Hk HX Ho) as (t & T & _ & _ & _ & ->). done.
    + destruct (S4 eq_refl) as [-> _]. done.
Qed.

Lemma stop_wf : wf s.
Proof using All.
  pose proof (sim_static _ _ _ Hsim) as [E1 E2 E3 E4 E5]. split.
  - rewrite E2. apply Hwf0.
  - apply stop_heap_ok.
  - intros t T HT. destruct (stop_rest t T HT) as (gp & Ht & T' & f & id & F & X & HT' & Hsel & _). congruence.
  - rewrite E3. apply Hwf0.
Qed.

Lemma stop_fiber_fields f F k X :
  s.(fiber_heap) !! f = Some F -> fkey s0 f = Some k -> a.(ps_fibers) !! k = Some X ->
  F.(registers) = X.(pf_regs) /\ F.(fpu) = X.(pf_fpu) /\ slots F = X.(pf_slots).
Proof using All.
  intros HF Hk HX. destruct (sim_fibers _ _ _ Hsim f F k HF Hk) as (X' & HX' & [S1 S2 S3 S4]).
  assert (X' = X) as -> by congruence.
  destruct (X.(pf_owner)) as [gp|] eqn:Ho; [|by destruct (S4 eq_refl) as (? & ? & ?)].
  destruct (stop_owned f F k gp X HF Hk HX Ho) as (t & T & Ht & HT & Hsel & _).
  destruct (sim_rest _ _ _ Hsim gp t Ht (stop_out gp))
    as (T' & f' & id & F' & X' & HT' & Hsel' & Hf' & HF' & Hr' & HX'' & Ho' & Ha & Hregs & Hfpu).
  assert (f' = f) as -> by congruence. assert (F' = F) as -> by congruence.
  assert (X' = X) as -> by congruence. done.
Qed.

Lemma stop_implements : implements s (stop b.(sp_last) s.(current) a).
Proof using All.
  split; simpl.
  - rewrite (st_process_heap _ _ (sim_static _ _ _ Hsim)). apply Hb.
  - intros k x. rewrite lookup_fmap, fmap_Some. split.
    + intros (X & HX & ->). destruct (sim_keys _ _ _ Hsim k) as [f Hk]; [eauto|].
      destruct (fiber_of_key s0 Hwf0 s a f k Hsim Hk) as (F & X' & HF & _ & _).
      exists f, F. rewrite (stop_fiber_key f F HF). split_and!; [done..|].
      destruct (stop_fiber_fields f F k X HF Hk HX) as (H1 & H2 & H3). unfold fiber_view. by rewrite H1, H2, H3.
    + intros (f & F & HF & Hk & Hx). rewrite (stop_fiber_key f F HF) in Hk. injection Hx as <-.
      destruct (fiber_of_key s0 Hwf0 s a f k Hsim Hk) as (F' & X & _ & HX & _). exists X.
      destruct (stop_fiber_fields f F k X HF Hk HX) as (-> & -> & ->). done.
  - intros k x. split.
    + intros Hr. destruct (proj1 (sim_running _ _ _ Hsim k)) as [t Ht]; [eauto|].
      destruct (sim_rest _ _ _ Hsim k t Ht (stop_out k))
        as (T & f & id & F & X & HT & Hsel & Hf & HF & Hr' & _).
      exists t, T. rewrite (stop_thread_key t T HT). split_and!; [done..|].
      unfold running_view. rewrite Hsel. simpl. rewrite HF. simpl.
      rewrite <- (stop_fiber_key f F HF) in Hf. apply fiber_key_Some in Hf as (P & _ & _ & Hid). congruence.
    + intros (t & T & HT & Ht & Hx). rewrite (stop_thread_key t T HT) in Ht.
      destruct (sim_rest _ _ _ Hsim k t Ht (stop_out k))
        as (T' & f & id & F & X & HT' & Hsel & Hf & HF & Hr' & _).
      assert (T' = T) as -> by congruence. unfold running_view in Hx. rewrite Hsel in Hx. simpl in Hx.
      rewrite HF in Hx. simpl in Hx. rewrite <- (stop_fiber_key f F HF) in Hf.
      apply fiber_key_Some in Hf as (P & _ & _ & Hid). congruence.
  - apply map_eq. intros pid. by apply (sim_tasks _ _ _ Hsim).
  - done.
Qed.
End Stop.

(** ** What holds during a parallel run *)

Section During.
Context {K : Kernel} {KOk : KernelOk K} (s0 : kstate) (Hwf0 : wf s0) (s : kstate) (a : pspec).
Context (Hsim : psim s0 s a).

Lemma thread_for_static g pid : thread_for s g pid = thread_for s0 g pid.
Proof using All.
  pose proof (sim_static _ _ _ Hsim) as [E1 _ E3 E4 _]. unfold thread_for, process_at, thread_at.
  rewrite E1, E3. destruct (at_key _ _ _ _) as [p|]; [simpl|done].
  destruct (process_heap s0 !! p) as [P|]; [simpl|done]. unfold at_key. f_equal.
  apply find_loop_keys. intros t. specialize (E4 t).
  destruct (thread_heap s !! t), (thread_heap s0 !! t); simplify_eq/=; congruence.
Qed.

(** A task that is not in the module runs a fiber that is attached to its thread. *)
Lemma during_running g pid f :
  a.(ps_calls) !! pid = None -> running s g pid = Some f ->
  exists t F, thread_for s0 g pid = Some t /\ s.(fiber_heap) !! f = Some F /\ F.(attached_thread) = Some t.
Proof using All.
  intros Hc. unfold running. rewrite thread_for_static.
  destruct (thread_for s0 g pid) as [t|] eqn:Ht; [simpl|done].
  destruct (thread_heap s !! t) as [T|] eqn:HT; [simpl|done]. intros Hsel.
  destruct (sim_rest _ _ _ Hsim (g, pid) t) as (T' & f' & id & F & X & HT' & Hsel' & Hf' & HF & _ & _ & _ & Ha & _).
  - by apply tkey_thread_for.
  - intros [[ph Hph] _]. simpl in Hph. congruence.
  - exists t, F. assert (T' = T) as -> by congruence. assert (f' = f) as -> by congruence. done.
Qed.

Lemma during_exclusion g pid g' pid' f :
  a.(ps_calls) !! pid = None -> a.(ps_calls) !! pid' = None ->
  running s g pid = Some f -> running s g' pid' = Some f -> g' = g /\ pid' = pid.
Proof using All.
  intros Hc Hc' Hr Hr'. destruct (during_running _ _ _ Hc Hr) as (t & F & Ht & HF & Ha).
  destruct (during_running _ _ _ Hc' Hr') as (t' & F' & Ht' & HF' & Ha').
  assert (t' = t) as -> by congruence. by apply (thread_for_inj s0 _ _ _ _ t).
Qed.
End During.

(** ** Handlers end *)

Section Within.
Context {K : Kernel}.

(** [within n p]: at most [n] steps of [p] are left, whatever they find. *)
Fixpoint within {A} (n : nat) (p : proc A) {struct p} : Prop :=
  match p with
  | Ret _ => True
  | Act m k => match n with O => False | S n' => forall b, within n' (k b) end
  end.

Lemma within_mono {A} n n' (p : proc A) : (n <= n')%nat -> within n p -> within n' p.
Proof.
  revert n n'. induction p as [r|B m k IH]; intros n n' Hle; [done|].
  destruct n as [|n], n' as [|n']; simpl; intros Hw; [done|done|lia|]. intros b. apply (IH b n n'); [lia|done].
Qed.

#[local] Ltac within_steps :=
  repeat (simpl; match goal with
                 | |- forall _ : option ptr, _ => intros [?|]
                 | |- forall _ : bool, _ => intros [|]
                 | |- forall _, _ => intros ?
                 | |- True => exact I
                 | |- context [if ?x then _ else _] => destruct x
                 | |- context [match ?x with Some _ => _ | None => _ end] => destruct x
                 end).

Lemma handler_within garbage e pid p : calm (LCall pid e) -> par_event garbage e pid = Some p -> within 17 p.
Proof.
  intros Hc He. destruct e as [| |id|op| | |]; simpl in Hc, He; try done; injection He as <-.
  - unfold par_SwitchToFiber, par_switch_refused, par_switch_context. within_steps.
  - apply (within_mono 6); [lia|]. destruct op; simpl;
      unfold par_FlsAlloc, par_FlsFree, par_FlsGetValue, par_FlsSetValue, par_fls_fiber; within_steps.
Qed.

Lemma run_within c tr c' :
  par_run c tr c' -> Forall calm tr -> (forall pid p, c.(cf_procs) !! pid = Some p -> within 17 p) ->
  forall pid p, c'.(cf_procs) !! pid = Some p -> within 17 p.
Proof.
  assert (forall c x c', par_step c x c' -> (forall y, x = Some y -> calm y) ->
    (forall pid p, c.(cf_procs) !! pid = Some p -> within 17 p) ->
    forall pid p, c'.(cf_procs) !! pid = Some p -> within 17 p) as Hstep.
  { intros c1 x c2 Hs Hx Hw. destruct Hs as [s ps q tk tk'|s ps q g e p0 Hq Htk He|s ps q B m k b0 s' Hq Hm|s ps q r tk Hq Htk];
      simpl in *; intros pid p Hp.
    - by eapply Hw.
    - apply lookup_insert_Some in Hp as [[<- <-]|[_ Hp]]; [|by eapply Hw].
      eapply handler_within; [|done]. by apply Hx.
    - apply lookup_insert_Some in Hp as [[<- <-]|[_ Hp]]; [|by eapply Hw].
      apply (within_mono 16); [lia|]. specialize (Hw q _ Hq). simpl in Hw. apply Hw.
    - apply lookup_delete_Some in Hp as [_ Hp]. by eapply Hw. }
  induction 1 as [c|c c1 l c' Hs Hr IH|c x c1 l c' Hs Hr IH]; intros Hc Hw; [done| |].
  - apply IH; [done|]. by eapply Hstep.
  - inversion Hc; subst. apply IH; [done|]. eapply Hstep; [done| |done]. by intros y [= <-].
Qed.
End Within.

(** ** The theorems *)

Section ParallelRefinement.
Context {K : Kernel} {KOk : KernelOk K}.

(** Every reachable state implements one of the sequential specification. *)
Lemma reach_implements n s : reach n s -> n <= INT_MAX -> exists b, implements s b.
Proof.
  induction 1 as [s Hi|n s s' Hr IH Hs]; intros Hn; [eexists; by apply implements_initial|].
  destruct IH as [b Hb]; [lia|]. apply reach_good in Hr as [H0 Hg]; [|lia].
  destruct Hs as [e r s s' He|s s' Hout].
  - destruct (event_refines n s b e r s') as (b' & _ & Hb'); [done|lia|done|done|eauto].
  - eexists. by apply implements_same_module with s.
Qed.

(** The states a parallel run passes are related to the specification. *)
Lemma parallel_sim n s b tr s' ps :
  reach n s -> n <= INT_MAX -> implements s b -> Forall calm tr -> par_run (Config s ∅) tr (Config s' ps) ->
  wf s /\ exists a, pspec_run (start b) tr a /\ config_sim s (Config s' ps) a.
Proof.
  intros Hr Hn Hb Hc Hrun. apply reach_good in Hr as [_ [Hwf _]]; [|done]. split; [done|].
  destruct (run_sim s (handler_sat s Hwf) _ _ _ (start b) Hrun Hc) as (a & Ha & Htr); [|eauto].
  split_and!; [by apply start_sim|done|]. simpl. intros pid p. by rewrite lookup_empty.
Qed.

(** C5: Refinement, in parallel.  From a state the module reaches, let any tasks
    call switches and storage operations, and let the accesses to memory of
    their handlers interleave in any way: the calls, the results and the
    registers with which the tasks return are those of a run of the
    specification, and once no handler is in progress the module implements the
    state of the specification again. *)
Theorem parallel_refines n s b tr s' ps :
  reach n s -> n <= INT_MAX -> implements s b ->
  Forall calm tr -> par_run (Config s ∅) tr (Config s' ps) ->
  exists a, pspec_run (start b) tr a /\
    (forall pid, ps !! pid = None -> a.(ps_tasks) !! pid = s'.(tasks) !! pid) /\
    (ps = ∅ -> wf s' /\ implements s' (stop b.(sp_last) s'.(current) a)).
Proof.
  intros Hr Hn Hb Hc Hrun.
  destruct (parallel_sim _ _ _ _ _ _ Hr Hn Hb Hc Hrun) as (Hwf & a & Htr & Hsim & Hidle & _).
  exists a. split; [done|]. simpl in *. split.
  - intros pid Hpid. apply (sim_tasks _ _ _ Hsim). by apply Hidle.
  - intros ->. assert (forall pid, a.(ps_calls) !! pid = None) as Hout by (intros pid; by apply Hidle).
    split; [by eapply stop_wf|by eapply stop_implements].
Qed.

(** C7: No handler waits, faults or starves: whatever the others do, a handler
    in progress can make its next step, and has at most 17 steps to make. *)
Theorem parallel_progress n s tr s' ps pid p :
  reach n s -> n <= INT_MAX ->
  Forall calm tr -> par_run (Config s ∅) tr (Config s' ps) -> ps !! pid = Some p ->
  within 17 p /\
  match p with
  | Ret _ => True
  | Act m _ => exists x s'', m (set_current pid s') = Some (x, s'')
  end.
Proof.
  intros Hr Hn Hc Hrun Hp. destruct (reach_implements n s Hr Hn) as [b Hb]. split.
  - eapply (run_within _ _ _ Hrun Hc); [|exact Hp]. intros q p'. simpl. by rewrite lookup_empty.
  - destruct (parallel_sim _ _ _ _ _ _ Hr Hn Hb Hc Hrun) as (Hwf & a & _ & Hsim & _ & Hps).
    simpl in *. destruct (Hps pid p Hp) as (g & _ & Hsat). destruct p as [r|B m k]; [done|].
    destruct (Hsat s' a (rely_refl _ _ _ _) Hsim) as (x & s2 & _ & Hm & _). eauto.
Qed.

(** C6: Mutual exclusion, in parallel: at no time do two tasks that are not in
    the module run the same fiber. *)
Theorem parallel_exclusion n s tr s' ps g pid g' pid' f :
  reach n s -> n <= INT_MAX ->
  Forall calm tr -> par_run (Config s ∅) tr (Config s' ps) ->
  ps !! pid = None -> ps !! pid' = None ->
  running s' g pid = Some f -> running s' g' pid' = Some f -> g' = g /\ pid' = pid.
Proof.
  intros Hr Hn Hc Hrun Hp Hp'. destruct (reach_implements n s Hr Hn) as [b Hb].
  destruct (parallel_sim _ _ _ _ _ _ Hr Hn Hb Hc Hrun) as (Hwf & a & _ & Hsim & Hidle & _).
  apply (during_exclusion s Hwf s' a Hsim); by apply Hidle.
Qed.
End ParallelRefinement.

(** ** Applications to a run *)

Import Reference.

(** Thread 10 runs fiber 1, thread 11 runs fiber 3, and fiber 2 is free.  Both
    switch to 2; while 10, which gets it, is busy with that, 11 is refused by 2
    and then by 1. *)
Definition busy_schedule : list move :=
  [MCall 10 (ESwitch 2); MSteps 10 8; MCall 11 (ESwitch 2); MSteps 11 6; MReturn 11;
   MCall 11 (ESwitch 1); MSteps 11 6; MReturn 11; MCall 11 (EFls FlsAlloc)].
Definition busy_labels : list label :=
  [LCall 10 (ESwitch 2); LCall 11 (ESwitch 2); LReturn 11 (-1) (user_task 10 2);
   LCall 11 (ESwitch 1); LReturn 11 (-1) (user_task 10 2); LCall 11 (EFls FlsAlloc)].
Definition full_schedule : list move :=
  busy_schedule ++ [MSteps 10 9; MReturn 10; MSteps 11 6; MReturn 11; MCall 11 (ESwitch 1);
    MSteps 11 17; MReturn 11].
Definition full_labels : list label :=
  busy_labels ++ [LReturn 10 0 (Task 10 100 (set_di 77 (set_ip 5000 (half_made_regs 1 69624))) [1; 1]);
    LReturn 11 0 (user_task 10 2); LCall 11 (ESwitch 1);
    LReturn 11 0 (Task 10 200 (user_regs 1) [1; 1])].

Lemma full_calm : Forall calm full_labels.
Proof. repeat constructor. Qed.

Lemma parallel_refines_witness :
  exists s' b a, par_run (Config (played setup) ∅) full_labels (Config s' ∅) /\
    pspec_run (start b) full_labels a /\ wf s' /\ implements s' (stop b.(sp_last) s'.(current) a).
Proof.
  computed (scheduled setup full_schedule) r H. destruct r as [tr s'].
  pose proof (scheduled_trace _ _ _ _ full_labels H ltac:(by_running)) as Hrun.
  pose proof (played_reach setup) as Hr.
  destruct (reach_implements 6 (played setup) Hr ltac:(discriminate)) as [b Hb].
  destruct (parallel_refines 6 (played setup) b full_labels s' ∅ Hr ltac:(discriminate) Hb full_calm Hrun)
    as (a & Ha & _ & Hend).
  destruct (Hend eq_refl) as [Hwf Him]. exists s', b, a. split; [exact Hrun|]. split; [exact Ha|]. by split.
Defined.

(** Task 10 in the middle of its switch. *)
Lemma parallel_progress_witness :
  exists c p, par_run (Config (played setup) ∅) busy_labels c /\ c.(cf_procs) !! 10 = Some p /\ within 17 p.
Proof.
  computed (run_moves blank busy_schedule (Config (played setup) ∅)) r H. destruct r as [tr [s' ps]].
  assert (tr = busy_labels) as -> by computed_field_of H (fst (A := list label) (B := config)).
  pose proof (run_moves_run _ _ _ _ _ H) as Hrun.
  destruct (ps !! 10) as [p|] eqn:Hp.
  - exists (Config s' ps), p. split; [exact Hrun|]. split; [exact Hp|].
    apply (parallel_progress 6 (played setup) busy_labels s' ps 10 p);
      [apply (played_reach setup)|discriminate|repeat constructor|exact Hrun|exact Hp].
  - exfalso. assert (returns (ps !! 10) = true) as Hx; [|rewrite Hp in Hx; discriminate].
    computed_field_of H (fun r : list label * config => returns (r.2.(cf_procs) !! 10)).
Defined.

(** Thread 10 is the only one that runs fiber 2 in the end. *)
Lemma parallel_exclusion_witness :
  exists s' f, par_run (Config (played setup) ∅) full_labels (Config s' ∅) /\ running s' 10 10 = Some f /\
    forall g pid, running s' g pid = Some f -> g = 10 /\ pid = 10.
Proof.
  computed (scheduled setup full_schedule) r H. destruct r as [tr s'].
  pose proof (scheduled_trace _ _ _ _ full_labels H ltac:(by_running)) as Hrun.
  assert (running s' 10 10 = Some 2%positive) as Hr
    by computed_field_of H (fun r : list label * kstate => running r.2 10 10).
  exists s', 2%positive. split; [exact Hrun|]. split; [exact Hr|]. intros g pid Hpid.
  apply (parallel_exclusion 6 (played setup) full_labels s' ∅ 10 10 g pid 2%positive);
    [apply (played_reach setup)|discriminate|exact full_calm|exact Hrun|done|done|exact Hr|exact Hpid].
Defined.
