(* ===== verification/Jmp.v ===== *)
(** * The context switch of the user-level library (benchmark/2018-fibers/src/jmp.S)

    The two routines are lists of instructions, executed on the registers,
    flags, FPU image and byte memory of an x86-64 processor.  [exec] gives the
    instructions the routines use the meaning the processor manual gives them:
    little-endian quadwords, addresses and sums modulo 2^64, the status flags
    of the additions.  A run is [None] where [fxsave] or [fxrstor] meets an
    address that is not a multiple of 16.  The auxiliary flag after [xor] is
    undefined and therefore an argument.

    [context_jump_round_trip] is the contract the library needs of the pair:
    what a caller of [_set_jmp] had, a later [_long_jmp] to the same context
    gives back, with the return value asked for, whatever ran in between. *)

From S2P Require Import Prelude.

(** ** The processor *)

Inductive reg :=
  RAX | RDX | RCX | RBX | RSP | RBP | RSI | RDI
| R8 | R9 | R10 | R11 | R12 | R13 | R14 | R15.

#[export] Instance reg_eq_dec : EqDecision reg.
Proof. solve_decision. Defined.

Record flags := Flags { SF : bool; ZF : bool; AF : bool; PF : bool; CF : bool; OF : bool }.

(** The register file, one field per register. *)
Record regfile := Regs {
  rax_ : Z; rdx_ : Z; rcx_ : Z; rbx_ : Z; rsp_ : Z; rbp_ : Z; rsi_ : Z; rdi_ : Z;
  r8_ : Z; r9_ : Z; r10_ : Z; r11_ : Z; r12_ : Z; r13_ : Z; r14_ : Z; r15_ : Z
}.

Record cpu := Cpu {
  gpr : regfile;
  rip : Z;
  flg : flags;
  fx : Z -> Z;       (* the 512-byte image of the x87, MMX and SSE state *)
  mem : Z -> Z       (* one byte per address *)
}.

Inductive loc := Imm (v : Z) | Reg (r : reg) | Mem (disp : Z) (base : reg).

Inductive instr :=
| PUSH (r : reg)
| POP (r : reg)
| MOV (src dst : loc)
| ADD (v : Z) (dst : loc)
| ADDB_AL (v : Z)
| XOR (r r' : reg)
| LAHF
| SAHF
| SETO_AL
| FXSAVE (m : loc)
| FXRSTOR (m : loc)
| RET.

Definition regs (c : cpu) (r : reg) : Z :=
  match r with
  | RAX => c.(gpr).(rax_)
  | RDX => c.(gpr).(rdx_)
  | RCX => c.(gpr).(rcx_)
  | RBX => c.(gpr).(rbx_)
  | RSP => c.(gpr).(rsp_)
  | RBP => c.(gpr).(rbp_)
  | RSI => c.(gpr).(rsi_)
  | RDI => c.(gpr).(rdi_)
  | R8 => c.(gpr).(r8_)
  | R9 => c.(gpr).(r9_)
  | R10 => c.(gpr).(r10_)
  | R11 => c.(gpr).(r11_)
  | R12 => c.(gpr).(r12_)
  | R13 => c.(gpr).(r13_)
  | R14 => c.(gpr).(r14_)
  | R15 => c.(gpr).(r15_)
  end.

(** ** Memory *)

Definition load64 (m : Z -> Z) (a : Z) : Z :=
  m a + 2 ^ 8 * m (a + 1) + 2 ^ 16 * m (a + 2) + 2 ^ 24 * m (a + 3) +
  2 ^ 32 * m (a + 4) + 2 ^ 40 * m (a + 5) + 2 ^ 48 * m (a + 6) + 2 ^ 56 * m (a + 7).

Definition store64 (a v : Z) (m : Z -> Z) : Z -> Z := fun x =>
  if decide (a <= x < a + 8) then v / 2 ^ (8 * (x - a)) mod 2 ^ 8 else m x.

Definition store_image (a : Z) (image : Z -> Z) (m : Z -> Z) : Z -> Z := fun x =>
  if decide (a <= x < a + 512) then image (x - a) else m x.

(** ** Instructions *)

Definition set_gpr (r : reg) (v : Z) (g : regfile) : regfile :=
  let '(Regs a d c b sp bp si di g8 g9 g10 g11 g12 g13 g14 g15) := g in
  match r with
  | RAX => Regs v d c b sp bp si di g8 g9 g10 g11 g12 g13 g14 g15
  | RDX => Regs a v c b sp bp si di g8 g9 g10 g11 g12 g13 g14 g15
  | RCX => Regs a d v b sp bp si di g8 g9 g10 g11 g12 g13 g14 g15
  | RBX => Regs a d c v sp bp si di g8 g9 g10 g11 g12 g13 g14 g15
  | RSP => Regs a d c b v bp si di g8 g9 g10 g11 g12 g13 g14 g15
  | RBP => Regs a d c b sp v si di g8 g9 g10 g11 g12 g13 g14 g15
  | RSI => Regs a d c b sp bp v di g8 g9 g10 g11 g12 g13 g14 g15
  | RDI => Regs a d c b sp bp si v g8 g9 g10 g11 g12 g13 g14 g15
  | R8 => Regs a d c b sp bp si di v g9 g10 g11 g12 g13 g14 g15
  | R9 => Regs a d c b sp bp si di g8 v g10 g11 g12 g13 g14 g15
  | R10 => Regs a d c b sp bp si di g8 g9 v g11 g12 g13 g14 g15
  | R11 => Regs a d c b sp bp si di g8 g9 g10 v g12 g13 g14 g15
  | R12 => Regs a d c b sp bp si di g8 g9 g10 g11 v g13 g14 g15
  | R13 => Regs a d c b sp bp si di g8 g9 g10 g11 g12 v g14 g15
  | R14 => Regs a d c b sp bp si di g8 g9 g10 g11 g12 g13 v g15
  | R15 => Regs a d c b sp bp si di g8 g9 g10 g11 g12 g13 g14 v
  end.

Definition set_reg (r : reg) (v : Z) (c : cpu) : cpu :=
  Cpu (set_gpr r v c.(gpr)) c.(rip) c.(flg) c.(fx) c.(mem).
Definition set_mem (m : Z -> Z) (c : cpu) : cpu :=
  Cpu c.(gpr) c.(rip) c.(flg) c.(fx) m.
Definition set_flags (f : flags) (c : cpu) : cpu :=
  Cpu c.(gpr) c.(rip) f c.(fx) c.(mem).

Definition address (l : loc) (c : cpu) : Z :=
  match l with Mem d b => u64 (regs c b + d) | _ => 0 end.

Definition read (l : loc) (c : cpu) : Z :=
  match l with
  | Imm v => u64 v
  | Reg r => regs c r
  | Mem _ _ => load64 c.(mem) (address l c)
  end.

Definition write (l : loc) (v : Z) (c : cpu) : cpu :=
  match l with
  | Imm _ => c
  | Reg r => set_reg r v c
  | Mem _ _ => set_mem (store64 (address l c) v c.(mem)) c
  end.

(** Even parity of the low byte. *)
Definition parity (x : Z) : bool :=
  negb (xorb (xorb (xorb (Z.testbit x 0) (Z.testbit x 1)) (xorb (Z.testbit x 2) (Z.testbit x 3)))
             (xorb (xorb (Z.testbit x 4) (Z.testbit x 5)) (xorb (Z.testbit x 6) (Z.testbit x 7)))).

(** The flags of an addition of two [w]-bit operands. *)
Definition add_flags (w a b : Z) : flags :=
  let r := uw w (a + b) in
  {| SF := Z.testbit r (w - 1);
     ZF := r =? 0;
     AF := 16 <=? a mod 16 + b mod 16;
     PF := parity r;
     CF := 2 ^ w <=? a + b;
     OF := negb (xorb (Z.testbit a (w - 1)) (Z.testbit b (w - 1))) &&
           xorb (Z.testbit r (w - 1)) (Z.testbit a (w - 1)) |}.

(** The byte [lahf] puts into AH: SF ZF 0 AF 0 PF 1 CF. *)
Definition status_byte (f : flags) : Z :=
  128 * Z.b2z f.(SF) + 64 * Z.b2z f.(ZF) + 16 * Z.b2z f.(AF) +
  4 * Z.b2z f.(PF) + 2 + Z.b2z f.(CF).

Definition status_of_byte (ah : Z) (f : flags) : flags :=
  {| SF := Z.testbit ah 7; ZF := Z.testbit ah 6; AF := Z.testbit ah 4;
     PF := Z.testbit ah 2; CF := Z.testbit ah 0; OF := f.(OF) |}.

Definition low_byte (x : Z) : Z := x mod 2 ^ 8.
Definition high_byte (x : Z) : Z := x / 2 ^ 8 mod 2 ^ 8.
Definition with_low_byte (x al : Z) : Z := x / 2 ^ 8 * 2 ^ 8 + al.
Definition with_high_byte (x ah : Z) : Z := x / 2 ^ 16 * 2 ^ 16 + ah * 2 ^ 8 + x mod 2 ^ 8.

Section Machine.
Context (undefined_AF : bool).

Definition exec (i : instr) (c : cpu) : option cpu :=
  match i with
  | PUSH r =>
      let a := u64 (regs c RSP - 8) in
      Some (set_reg RSP a (set_mem (store64 a (regs c r) c.(mem)) c))
  | POP r =>
      let a := regs c RSP in
      Some (set_reg r (load64 c.(mem) a) (set_reg RSP (u64 (a + 8)) c))
  | MOV src dst => Some (write dst (read src c) c)
  | ADD v dst =>
      let x := read dst c in
      Some (set_flags (add_flags 64 x (u64 v)) (write dst (u64 (x + v)) c))
  | ADDB_AL v =>
      let al := low_byte (regs c RAX) in
      Some (set_flags (add_flags 8 al v)
              (set_reg RAX (with_low_byte (regs c RAX) (uw 8 (al + v))) c))
  | XOR r r' =>
      let x := Z.lxor (regs c r) (regs c r') in
      Some (set_flags (Flags (Z.testbit x 63) (x =? 0) undefined_AF (parity x) false false)
              (set_reg r' x c))
  | LAHF => Some (set_reg RAX (with_high_byte (regs c RAX) (status_byte c.(flg))) c)
  | SAHF => Some (set_flags (status_of_byte (high_byte (regs c RAX)) c.(flg)) c)
  | SETO_AL => Some (set_reg RAX (with_low_byte (regs c RAX) (Z.b2z c.(flg).(OF))) c)
  | FXSAVE m =>
      let a := address m c in
      if a mod 16 =? 0 then Some (set_mem (store_image a c.(fx) c.(mem)) c) else None
  | FXRSTOR m =>
      let a := address m c in
      if a mod 16 =? 0
      then Some (Cpu c.(gpr) c.(rip) c.(flg) (fun i => c.(mem) (a + i)) c.(mem))
      else None
  | RET =>
      let a := regs c RSP in
      let c' := set_reg RSP (u64 (a + 8)) c in
      Some (Cpu c'.(gpr) (load64 c.(mem) a) c'.(flg) c'.(fx) c'.(mem))
  end.

Fixpoint run (l : list instr) (c : cpu) : option cpu :=
  match l with
  | [] => Some c
  | i :: l' => match exec i c with Some c' => run l' c' | None => None end
  end.
End Machine.

(** ** The two routines *)

Definition _set_jmp : list instr :=
  [ PUSH RAX;
    PUSH R11;
    LAHF;
    SETO_AL;
    PUSH RAX;
    MOV (Reg RDI) (Reg RAX);
    MOV (Mem 16 RSP) (Reg R11);
    MOV (Reg R11) (Mem 0 RAX);
    MOV (Reg RDX) (Mem 8 RAX);
    MOV (Reg RCX) (Mem 16 RAX);
    MOV (Reg RBX) (Mem 24 RAX);
    MOV (Reg RSP) (Mem 32 RAX);
    ADD 16 (Mem 32 RAX);
    MOV (Reg RBP) (Mem 40 RAX);
    MOV (Reg RSI) (Mem 48 RAX);
    MOV (Mem 32 RSP) (Reg R11);
    MOV (Reg R11) (Mem 56 RAX);
    MOV (Reg R8) (Mem 64 RAX);
    MOV (Reg R9) (Mem 72 RAX);
    MOV (Reg R10) (Mem 80 RAX);
    MOV (Mem 8 RSP) (Reg R11);
    MOV (Reg R11) (Mem 88 RAX);
    MOV (Reg R12) (Mem 96 RAX);
    MOV (Reg R13) (Mem 104 RAX);
    MOV (Reg R14) (Mem 112 RAX);
    MOV (Reg R15) (Mem 120 RAX);
    MOV (Mem 0 RSP) (Reg RDX);
    MOV (Reg RDX) (Mem 136 RAX);
    MOV (Mem 24 RSP) (Reg R11);
    MOV (Reg R11) (Mem 128 RAX);
    FXSAVE (Mem 144 RAX);
    ADD 24 (Reg RSP);
    XOR RAX RAX;
    RET ].

Definition _long_jmp : list instr :=
  [ MOV (Reg RDI) (Reg RAX);
    MOV (Mem 128 RAX) (Reg R10);
    MOV (Mem 32 RAX) (Reg R11);
    MOV (Reg R10) (Mem 8 R11);
    MOV (Reg RSI) (Mem 0 R11);
    MOV (Mem 8 RAX) (Reg RDX);
    MOV (Mem 16 RAX) (Reg RCX);
    MOV (Mem 24 RAX) (Reg RBX);
    MOV (Mem 32 RAX) (Reg RSP);
    MOV (Mem 40 RAX) (Reg RBP);
    MOV (Mem 48 RAX) (Reg RSI);
    MOV (Mem 64 RAX) (Reg R8);
    MOV (Mem 72 RAX) (Reg R9);
    MOV (Mem 80 RAX) (Reg R10);
    MOV (Mem 88 RAX) (Reg R11);
    MOV (Mem 96 RAX) (Reg R12);
    MOV (Mem 104 RAX) (Reg R13);
    MOV (Mem 112 RAX) (Reg R14);
    MOV (Mem 136 RAX) (Reg RAX);
    ADDB_AL 127;
    SAHF;
    MOV (Reg RDI) (Reg RAX);
    MOV (Mem 56 RAX) (Reg RDI);
    MOV (Mem 120 RAX) (Reg R15);
    FXRSTOR (Mem 144 RAX);
    MOV (Mem 32 RAX) (Reg RSP);
    POP RAX;
    RET ].

(** ** Loads after stores *)

Lemma uw_reg (v : Z) : 0 <= v < 2 ^ 64 ->
  v mod 2 ^ 8 + 2 ^ 8 * (v / 2 ^ 8 mod 2 ^ 8) + 2 ^ 16 * (v / 2 ^ 16 mod 2 ^ 8) +
  2 ^ 24 * (v / 2 ^ 24 mod 2 ^ 8) + 2 ^ 32 * (v / 2 ^ 32 mod 2 ^ 8) +
  2 ^ 40 * (v / 2 ^ 40 mod 2 ^ 8) + 2 ^ 48 * (v / 2 ^ 48 mod 2 ^ 8) +
  2 ^ 56 * (v / 2 ^ 56 mod 2 ^ 8) = v.
Proof.
  intros Hv.
  assert (Hq : forall k, 0 <= k -> v / 2 ^ k mod 2 ^ 8 = v / 2 ^ k - 2 ^ 8 * (v / 2 ^ (k + 8))).
  { intros k Hk. rewrite Z.pow_add_r by lia. rewrite <- Z.div_div by lia. apply Z.mod_eq. lia. }
  rewrite !Hq by lia. rewrite Z.mod_eq by lia.
  rewrite (Z.div_small v (2 ^ (56 + 8))) by lia.
  change (8 + 8) with 16. change (16 + 8) with 24. change (24 + 8) with 32.
  change (32 + 8) with 40. change (40 + 8) with 48. change (48 + 8) with 56. lia.
Qed.

Lemma load_store_eq m a v : 0 <= v < 2 ^ 64 -> load64 (store64 a v m) a = v.
Proof.
  intros Hv. unfold load64, store64.
  repeat (case_decide; [|lia]).
  rewrite <- (uw_reg v Hv) at 9.
  rewrite Z.sub_diag, Z.mul_0_r, Z.pow_0_r, Z.div_1_r.
  repeat f_equal; lia.
Qed.

Lemma load_store_at m a b v : a = b -> 0 <= v < 2 ^ 64 -> load64 (store64 a v m) b = v.
Proof. intros ->. apply load_store_eq. Qed.

Lemma load_store_ne m a b v : b + 8 <= a \/ a + 8 <= b -> load64 (store64 a v m) b = load64 m b.
Proof. intros Hab. unfold load64, store64. repeat (case_decide; [lia|]). done. Qed.

Lemma load_image_ne m a b f : b + 8 <= a \/ a + 512 <= b -> load64 (store_image a f m) b = load64 m b.
Proof. intros Hab. unfold load64, store_image. repeat (case_decide; [lia|]). done. Qed.

Lemma load_agree m m' a : (forall x, a <= x < a + 8 -> m x = m' x) -> load64 m a = load64 m' a.
Proof. intros Hm. unfold load64. rewrite !Hm by lia. done. Qed.

Lemma run_step u i l c :
  run u (i :: l) c = match exec u i c with Some c' => run u l c' | None => None end.
Proof. done. Qed.

(** The status byte and the overflow bit bring the flags back: [addb $0x7f]
    overflows exactly when the saved bit is set, and [sahf] takes the others. *)
Lemma saved_flags_round_trip x f :
  0 <= x ->
  let w := with_low_byte (with_high_byte x (status_byte f)) (Z.b2z f.(OF)) in
  status_of_byte (high_byte (with_low_byte w (uw 8 (low_byte w + 127))))
                 (add_flags 8 (low_byte w) 127) = f.
Proof.
  intros Hx w.
  assert (Hb : 0 <= Z.b2z f.(OF) <= 1) by (destruct f as [? ? ? ? ? []]; simpl; lia).
  assert (Hs : 0 <= status_byte f < 2 ^ 8).
  { destruct f as [[] [] [] [] [] []]; vm_compute; split; congruence. }
  assert (Hl : low_byte w = Z.b2z f.(OF)).
  { unfold low_byte, w, with_low_byte. rewrite Z.add_comm, Z_mod_plus_full. apply Z.mod_small. lia. }
  assert (Hh : forall y, 0 <= y < 2 ^ 8 -> high_byte (with_low_byte w y) = status_byte f).
  { intros y Hy. unfold high_byte, w, with_low_byte, with_high_byte.
    Z.div_mod_to_equations. lia. }
  rewrite Hh by (apply uw_range; lia). rewrite Hl.
  by destruct f as [[] [] [] [] [] []].
Qed.

(** ** The saved context *)

(** The general purpose registers by their offset in [exec_context_t]. *)
Definition exec_context_t : list (Z * reg) :=
  [(0, RAX); (8, RDX); (16, RCX); (24, RBX); (40, RBP); (48, RSI);
   (64, R8); (72, R9); (80, R10); (88, R11); (96, R12); (104, R13); (112, R14); (120, R15)].

Definition sizeof_exec_context_t : Z := 656.

Definition flag_word (c : cpu) : Z :=
  with_low_byte (with_high_byte (regs c RAX) (status_byte c.(flg))) (Z.b2z c.(flg).(OF)).

(** What [_set_jmp] leaves in the context at [env] when it is entered in [c]:
    the stack pointer points one word below the return address, and the old
    RDI is the word the macro [set_jmp] pushed before the call. *)
Record saved (env : Z) (c : cpu) (m : Z -> Z) : Prop := {
  saved_regs : Forall (fun '(o, r) => load64 m (env + o) = regs c r) exec_context_t;
  saved_rsp : load64 m (env + 32) = regs c RSP - 8;
  saved_rdi : load64 m (env + 56) = load64 c.(mem) (regs c RSP + 8);
  saved_rip : load64 m (env + 128) = load64 c.(mem) (regs c RSP);
  saved_flags : load64 m (env + 136) = flag_word c;
  saved_image : forall i, 0 <= i < 512 -> m (env + 144 + i) = c.(fx) i
}.

(** Registers hold 64 bits and memory bytes. *)
Record cpu_wf (c : cpu) : Prop := {
  wf_regs : forall r, 0 <= regs c r < 2 ^ 64;
  wf_mem : forall a, 0 <= c.(mem) a < 2 ^ 8;
  wf_fx : forall i, 0 <= c.(fx) i < 2 ^ 8
}.

(** The caller of [_set_jmp]: the context is in the address space, aligned,
    and apart from the part of the stack the routines use. *)
Record set_jmp_entry (env : Z) (c : cpu) : Prop := {
  entry_wf : cpu_wf c;
  entry_env : regs c RDI = env;
  entry_aligned : env mod 16 = 0;
  entry_stack : 24 <= regs c RSP /\ regs c RSP + 16 < 2 ^ 64;
  entry_room : 0 <= env /\ env + sizeof_exec_context_t < 2 ^ 64;
  entry_apart : env + sizeof_exec_context_t <= regs c RSP - 24 \/ regs c RSP + 16 <= env
}.

Lemma load_range m a : (forall x, 0 <= m x < 2 ^ 8) -> 0 <= load64 m a < 2 ^ 64.
Proof.
  intros Hm. unfold load64.
  pose proof (Hm a). pose proof (Hm (a + 1)). pose proof (Hm (a + 2)). pose proof (Hm (a + 3)).
  pose proof (Hm (a + 4)). pose proof (Hm (a + 5)). pose proof (Hm (a + 6)). pose proof (Hm (a + 7)).
  lia.
Qed.

Lemma status_byte_range f : 0 <= status_byte f < 2 ^ 8.
Proof. destruct f as [[] [] [] [] [] []]; vm_compute; split; congruence. Qed.

Lemma flag_word_range c : cpu_wf c -> 0 <= flag_word c < 2 ^ 64.
Proof.
  intros [Hr _ _]. specialize (Hr RAX). pose proof (status_byte_range c.(flg)).
  assert (0 <= Z.b2z c.(flg).(OF) <= 1) by (destruct c.(flg) as [? ? ? ? ? []]; simpl; lia).
  unfold flag_word, with_low_byte, with_high_byte. Z.div_mod_to_equations. lia.
Qed.

(** Symbolic execution: [machine_step] runs the next instruction and computes
    the registers; [machine_norm] brings addresses, loads and the alignment
    test to their values, using what the context says of memory. *)
Ltac machine_norm :=
  repeat match goal with
  | |- context [uw 64 ?a] => rewrite (u64_small a) by lia
  | |- context [load64 (store64 ?a ?v ?m) ?b] =>
      first
        [ rewrite (load_store_ne m a b v) by lia
        | rewrite (load_store_at m a b v) by (assumption || lia || auto) ]
  | |- context [load64 (store_image ?a ?f ?m) ?b] => rewrite (load_image_ne m a b f) by lia
  | H : load64 ?m ?a = _ |- context [load64 ?m ?a] => rewrite H
  | H : (?a mod 16 =? 0) = true |- context [?a mod 16 =? 0] => rewrite H
  end.

Ltac machine_cbn :=
  cbn [exec set_reg set_gpr set_mem set_flags regs gpr rip flg fx mem read write address
       rax_ rdx_ rcx_ rbx_ rsp_ rbp_ rsi_ rdi_ r8_ r9_ r10_ r11_ r12_ r13_ r14_ r15_].

Ltac machine_cbn_all :=
  cbn [exec set_reg set_gpr set_mem set_flags regs gpr rip flg fx mem read write address
       rax_ rdx_ rcx_ rbx_ rsp_ rbp_ rsi_ rdi_ r8_ r9_ r10_ r11_ r12_ r13_ r14_ r15_] in *.

Ltac machine_step := rewrite run_step; machine_cbn; machine_norm.

Ltac machine_eq := machine_norm; first [done | lia | f_equal; lia].

(** Puts the bounds of all registers into the context. *)
Ltac register_bounds H :=
  pose proof (H RAX); pose proof (H RDX); pose proof (H RCX); pose proof (H RBX);
  pose proof (H RSP); pose proof (H RBP); pose proof (H RSI); pose proof (H RDI);
  pose proof (H R8); pose proof (H R9); pose proof (H R10); pose proof (H R11);
  pose proof (H R12); pose proof (H R13); pose proof (H R14); pose proof (H R15); clear H.

(** The registers a return of [_set_jmp] leaves as they were. *)
Definition kept : list reg := [RCX; RBX; RBP; RSI; RDI; R8; R9; R10; R12; R13; R14; R15].

Record set_jmp_exit (env : Z) (c c1 : cpu) : Prop := {
  exit_saved : saved env c c1.(mem);
  exit_zero : regs c1 RAX = 0;
  exit_rsp : regs c1 RSP = regs c RSP + 8;
  exit_rip : c1.(rip) = load64 c.(mem) (regs c RSP);
  exit_kept : Forall (fun r => regs c1 r = regs c r) kept;
  exit_fx : c1.(fx) = c.(fx);
  exit_bytes : forall a, 0 <= c1.(mem) a < 2 ^ 8;
  exit_mem : forall a, ~ env <= a < env + sizeof_exec_context_t ->
    ~ regs c RSP - 24 <= a < regs c RSP -> c1.(mem) a = c.(mem) a
}.

Lemma store64_ne a v m x : ~ a <= x < a + 8 -> store64 a v m x = m x.
Proof. intros. unfold store64. by case_decide. Qed.

Lemma store_image_eq a f m x : a <= x < a + 512 -> store_image a f m x = f (x - a).
Proof. intros. unfold store_image. by case_decide. Qed.

Lemma store_image_ne a f m x : ~ a <= x < a + 512 -> store_image a f m x = m x.
Proof. intros. unfold store_image. by case_decide. Qed.

Lemma store64_bytes a v m : (forall x, 0 <= m x < 2 ^ 8) -> forall x, 0 <= store64 a v m x < 2 ^ 8.
Proof. intros Hm x. unfold store64. case_decide; [apply Z.mod_pos_bound; lia|apply Hm]. Qed.

Lemma store_image_bytes a f m : (forall i, 0 <= f i < 2 ^ 8) -> (forall x, 0 <= m x < 2 ^ 8) ->
  forall x, 0 <= store_image a f m x < 2 ^ 8.
Proof. intros Hf Hm x. unfold store_image. case_decide; [apply Hf|apply Hm]. Qed.

#[local] Strategy opaque [load64 store64 store_image uw with_low_byte with_high_byte status_byte
  low_byte high_byte add_flags parity status_of_byte Z.add Z.sub Z.mul Z.lxor Z.modulo Z.div Z.pow Z.eqb Z.testbit].

Lemma set_jmp_runs u env c : set_jmp_entry env c ->
  exists c1, run u _set_jmp c = Some c1 /\ set_jmp_exit env c c1.
Proof.
  intros [Hwf Henv Hal Hst Hroom Hap]. unfold sizeof_exec_context_t in *.
  pose proof (flag_word_range c Hwf) as Hfw. destruct Hwf as [Hr Hm Hx].
  assert (HL : forall a, 0 <= load64 c.(mem) a < 2 ^ 64) by (intros; by apply load_range).
  assert (Hfx : ((env + 144) mod 16 =? 0) = true) by (rewrite <- Zplus_mod_idemp_l, Hal; done).
  register_bounds Hr.
  destruct c as [[ax dx cx bx sp bp si di q8 q9 q10 q11 q12 q13 q14 q15] ip f x M].
  unfold flag_word in *. machine_cbn_all.
  subst env. unfold _set_jmp. do 34 machine_step.
  eexists; split; [reflexivity|].
  split; machine_cbn; unfold sizeof_exec_context_t in *.
  - split; machine_cbn.
    + unfold exec_context_t. repeat constructor; machine_cbn; machine_eq.
    + machine_eq.
    + machine_eq.
    + machine_eq.
    + unfold flag_word. machine_cbn. machine_eq.
    + intros. rewrite store_image_eq by lia. f_equal. lia.
  - by rewrite Z.lxor_nilpotent.
  - lia.
  - machine_eq.
  - unfold kept. by repeat constructor.
  - done.
  - apply store_image_bytes; [exact Hx|]. by repeat apply store64_bytes.
  - intros. rewrite store_image_ne by lia. by repeat (rewrite store64_ne by lia).
Qed.

(** What a jump to the context saved from [c] makes of the state [c2] it is
    asked in: everything [c] had, the value asked for in RAX, the stack
    pointer and the instruction pointer of a return to the caller; of memory
    only the word of the return address and the one below it are written. *)
Record long_jmp_exit (c c2 c3 : cpu) : Prop := {
  jump_regs : forall r, r <> RAX -> r <> RSP -> r <> RDI -> regs c3 r = regs c r;
  jump_rdi : regs c3 RDI = load64 c.(mem) (regs c RSP + 8);
  jump_rax : regs c3 RAX = regs c2 RSI;
  jump_rsp : regs c3 RSP = regs c RSP + 8;
  jump_rip : c3.(rip) = load64 c.(mem) (regs c RSP);
  jump_flags : c3.(flg) = c.(flg);
  jump_fx : forall i, 0 <= i < 512 -> c3.(fx) i = c.(fx) i;
  jump_mem : forall a, ~ regs c RSP - 8 <= a < regs c RSP + 8 -> c3.(mem) a = c2.(mem) a
}.

Lemma long_jmp_runs u env c c2 :
  set_jmp_entry env c -> saved env c c2.(mem) -> cpu_wf c2 -> regs c2 RDI = env ->
  exists c3, run u _long_jmp c2 = Some c3 /\ long_jmp_exit c c2 c3.
Proof.
  intros [Hwf _ Hal Hst Hroom Hap] Hs [Hr2 Hm2 _] Henv. unfold sizeof_exec_context_t in *.
  assert (Hfx : ((env + 144) mod 16 =? 0) = true) by (rewrite <- Zplus_mod_idemp_l, Hal; done).
  destruct Hs as [Hrg Hsp Hdi Hip Hfl Himg].
  pose proof (saved_flags_round_trip (regs c RAX) c.(flg) (proj1 (wf_regs c Hwf RAX))) as Hflags.
  assert (HL : forall a, 0 <= load64 c.(mem) a < 2 ^ 64) by (intros; by apply load_range, Hwf).
  destruct Hwf as [Hr Hm Hx]. register_bounds Hr. register_bounds Hr2.
  unfold exec_context_t in Hrg. rewrite !Forall_cons in Hrg.
  destruct Hrg as (? & ? & ? & ? & ? & ? & ? & ? & ? & ? & ? & ? & ? & ? & _).
  destruct c as [[ax dx cx bx sp bp si di q8 q9 q10 q11 q12 q13 q14 q15] ip f x M].
  destruct c2 as [[ax2 dx2 cx2 bx2 sp2 bp2 si2 di2 s8 s9 s10 s11 s12 s13 s14 s15] ip2 f2 x2 M2].
  unfold flag_word in *. machine_cbn_all. subst env. unfold _long_jmp.
  do 28 machine_step.
  eexists; split; [reflexivity|].
  split; machine_cbn.
  - intros [] ? ? ?; done.
  - done.
  - machine_eq.
  - lia.
  - machine_eq.
  - exact Hflags.
  - intros i Hi. rewrite !store64_ne by lia. by apply Himg.
  - intros a Ha. by rewrite !store64_ne by lia.
Qed.

Lemma saved_agree env c m m' : (forall a, env <= a < env + sizeof_exec_context_t -> m' a = m a) ->
  saved env c m -> saved env c m'.
Proof.
  unfold sizeof_exec_context_t. intros Hm [Hrg Hsp Hdi Hip Hfl Himg].
  assert (HL : forall o, 0 <= o <= 648 -> load64 m' (env + o) = load64 m (env + o)).
  { intros o Ho. apply load_agree. intros. apply Hm. lia. }
  split; rewrite ?HL by lia; try done.
  - unfold exec_context_t in *. rewrite !Forall_cons, !Forall_nil in *. by rewrite !HL by lia.
  - intros i Hi. rewrite Hm by lia. by apply Himg.
Qed.

(** C29: A context that [_set_jmp] saved is given back by any later
    [_long_jmp] to it, from any stack and with anything run in between that
    leaves the context alone: [_set_jmp] returns 0 to its caller with the
    callee-saved registers kept, and the jump makes it return again, with the
    value asked for in RAX and every other register, the status flags and the
    FPU image as [_set_jmp] had found them. *)
Theorem context_jump_round_trip u env c c2 :
  set_jmp_entry env c ->
  exists c1, run u _set_jmp c = Some c1 /\ set_jmp_exit env c c1 /\
    (cpu_wf c2 -> regs c2 RDI = env ->
     (forall a, env <= a < env + sizeof_exec_context_t -> c2.(mem) a = c1.(mem) a) ->
     exists c3, run u _long_jmp c2 = Some c3 /\ long_jmp_exit c c2 c3).
Proof.
  intros He. destruct (set_jmp_runs u env c He) as (c1 & Hrun & Hx).
  exists c1. split; [exact Hrun|]. split; [exact Hx|]. intros Hwf Henv Hm.
  apply (long_jmp_runs u env c c2 He); [|exact Hwf|exact Henv].
  exact (saved_agree env c _ _ Hm (exit_saved _ _ _ Hx)).
Qed.

(** A caller whose registers hold their numbers, with a context at 4096 and a
    stack at 65536, and a later state on another stack. *)
Definition sample (sp rdi rsi : Z) (m : Z -> Z) : cpu :=
  Cpu (Regs 100 101 102 103 sp 105 rsi rdi 108 109 110 111 112 113 114 115)
      0 (Flags true false true false true true) (fun i => i mod 256) m.

Definition sample_caller : cpu := sample 65536 4096 106 (fun a => a mod 251).

Lemma sample_wf sp rdi rsi m : 0 <= sp < 2 ^ 64 -> 0 <= rdi < 2 ^ 64 -> 0 <= rsi < 2 ^ 64 ->
  (forall a, 0 <= m a < 2 ^ 8) -> cpu_wf (sample sp rdi rsi m).
Proof.
  intros. split; [intros []; unfold sample; machine_cbn; lia|done|].
  intros i. cbn [fx sample]. pose proof (Z.mod_pos_bound i 256). lia.
Qed.

Lemma bytes_251 a : 0 <= a mod 251 < 2 ^ 8.
Proof. pose proof (Z.mod_pos_bound a 251). lia. Qed.

Lemma sample_entry : set_jmp_entry 4096 sample_caller.
Proof.
  split.
  - exact (sample_wf 65536 4096 106 _ ltac:(lia) ltac:(lia) ltac:(lia) bytes_251).
  - exact eq_refl.
  - exact eq_refl.
  - cbn. lia.
  - unfold sizeof_exec_context_t. lia.
  - unfold sizeof_exec_context_t. cbn. lia.
Qed.

Lemma context_jump_round_trip_witness : exists c1 c3,
  run false _set_jmp sample_caller = Some c1 /\ set_jmp_exit 4096 sample_caller c1 /\
  run false _long_jmp (sample 9000 4096 7 c1.(mem)) = Some c3 /\
  long_jmp_exit sample_caller (sample 9000 4096 7 c1.(mem)) c3.
Proof.
  destruct (set_jmp_runs false 4096 _ sample_entry) as (c1 & Hrun & _).
  destruct (context_jump_round_trip false 4096 sample_caller (sample 9000 4096 7 c1.(mem)) sample_entry)
    as (c1' & Hrun' & Hx & Hj).
  rewrite Hrun in Hrun'. injection Hrun' as <-.
  destruct Hj as (c3 & Hrun3 & Hx3).
  - apply sample_wf; [lia..|apply Hx].
  - exact eq_refl.
  - intros a _. exact eq_refl.
  - exists c1, c3. exact (conj Hrun (conj Hx (conj Hrun3 Hx3))).
Defined.
