(* ===== verification/Ult.v ===== *)
(** * The user-level fibers of the benchmark (benchmark/2018-fibers/src/ult.c)

    The library switches fibers without the kernel: a flag per fiber taken by
    an atomic test-and-set, a context saved and restored by the routines of
    Jmp.v, and the fiber a thread runs in a thread-local variable.  Threads run
    in parallel, so an operation is a sequence of atomic steps: [pc] is the
    point of ult.c and ult.h a thread has reached, [continue] makes its next
    step, and a run interleaves the steps of all threads.

    A saved context is what matters of it for switching: the stack it goes on
    with and the point it resumes at.  [ult_mutual_exclusion] is the safety of
    the locking in every reachable state, before main.c assigns
    [completed_fibers], while it is positive, and after it has dropped to 0: then
    the tests of ult.c:214 can leave the flag of a fiber set for ever
    ([ult_switch]) and a thread on the stack of another fiber than its
    [current].  [ult_stack_window] shows what the locking does not cover: between
    the release of a fiber and the jump away a thread is still on its stack. *)

From S2P Require Import Prelude.

Definition STACK_SIZE : Z := 4096 * 2.
Definition MAX_FLS : Z := 4096.

(** ** State *)

(** Where a thread is:
    - [Run]: in the code of its fiber, outside the library;
    - [Test1], [Test2]: in [ult_switch_to] with [to] locked, before the first
      and the second test of [completed_fibers];
    - [Save], [Unlock], [Jump]: in [context_switch] or
      [context_switch_create], before [set_jmp], [ult_unlock], [long_jmp];
    - [CrLock]: in [context_create], before the lock of the new fiber;
    - [Boot]: in [context_create_boot], before the lock of [current]. *)
Inductive pc :=
| Run
| Test1 (from to : Z)
| Test2 (from to : Z)
| Save (from to : Z)
| Unlock (from to : Z)
| Jump (to : Z)
| CrLock (context : Z)
| Boot.

#[export] Instance pc_eq_dec : EqDecision pc.
Proof. solve_decision. Defined.

Record cont := Cont { on_stack : Z; resume : pc }.

Record ult_t := Ult { running : bool; context : option cont; id : Z }.

(** The thread-local variables, the stack the thread is on and where it is. *)
Record thread := Thread {
  current : option Z;
  context_creat : Z;
  stack : option Z;
  at_ : pc
}.

Record state := State {
  ults : gmap Z ult_t;
  threads : gmap Z thread;
  ult_id : Z;
  completed_fibers : Z;
  counting : bool;     (* main has assigned [completed_fibers] *)
  known : gset Z       (* the fibers [ult_convert] and [ult_creat] gave out *)
}.

Definition set_ult (p : Z) (u : ult_t) (s : state) : state :=
  State (<[p := u]> s.(ults)) s.(threads) s.(ult_id) s.(completed_fibers) s.(counting) s.(known).
Definition set_thread (t : Z) (th : thread) (s : state) : state :=
  State s.(ults) (<[t := th]> s.(threads)) s.(ult_id) s.(completed_fibers) s.(counting) s.(known).
Definition set_ult_id (n : Z) (s : state) : state :=
  State s.(ults) s.(threads) n s.(completed_fibers) s.(counting) s.(known).
Definition set_completed (n : Z) (s : state) : state :=
  State s.(ults) s.(threads) s.(ult_id) n true s.(known).
Definition publish (p : Z) (s : state) : state :=
  State s.(ults) s.(threads) s.(ult_id) s.(completed_fibers) s.(counting) ({[p]} ∪ s.(known)).

Definition go (pc' : pc) (th : thread) : thread :=
  Thread th.(current) th.(context_creat) th.(stack) pc'.
Definition set_current (c : Z) (th : thread) : thread :=
  Thread (Some c) th.(context_creat) th.(stack) th.(at_).
Definition set_context_creat (c : Z) (th : thread) : thread :=
  Thread th.(current) c th.(stack) th.(at_).

(** ** Locks *)

Definition set_running (b : bool) (u : ult_t) : ult_t := Ult b u.(context) u.(id).

(** The value the flag had before the atomic test-and-set, negated. *)
Definition ult_trylock (ctx : Z) (s : state) : option (bool * state) :=
  match s.(ults) !! ctx with
  | Some u => Some (negb u.(running), set_ult ctx (set_running true u) s)
  | None => None
  end.

(** One test-and-set of the loop; [None] where it fails and the thread spins. *)
Definition ult_lock (ctx : Z) (s : state) : option state :=
  match ult_trylock ctx s with
  | Some (true, s') => Some s'
  | _ => None
  end.

Definition ult_unlock (ctx : Z) (s : state) : option state :=
  match s.(ults) !! ctx with
  | Some u => Some (set_ult ctx (set_running false u) s)
  | None => None
  end.

(** ** Contexts *)

(** [set_jmp(ctx->context)] by a thread on the stack [sk], which goes on at
    [k] when the context is jumped to. *)
Definition context_save (ctx sk : Z) (k : pc) (s : state) : option state :=
  match s.(ults) !! ctx with
  | Some u => Some (set_ult ctx (Ult u.(running) (Some (Cont sk k)) u.(id)) s)
  | None => None
  end.

Definition long_jmp (ctx t : Z) (th : thread) (s : state) : option state :=
  match s.(ults) !! ctx with
  | Some (Ult _ (Some c) _) =>
      Some (set_thread t (Thread th.(current) th.(context_creat) (Some c.(on_stack)) c.(resume)) s)
  | _ => None
  end.

(** ** Operations *)

(** [malloc] has returned [p]. *)
Definition ult_convert (p t : Z) (th : thread) (s : state) : option state :=
  match th.(current) with
  | Some _ => None
  | None =>
      let u := Ult true (Some (Cont p Run)) s.(ult_id) in
      let s := set_ult_id (s32 (s.(ult_id) + 1)) (set_ult p u s) in
      Some (publish p (set_thread t (Thread (Some p) th.(context_creat) (Some p) Run) s))
  end.

(** Up to [context_switch_create]: the new fiber has the context saved by the
    signal handler on its stack. *)
Definition ult_creat (p t : Z) (th : thread) (s : state) : option state :=
  match th.(current) with
  | None => None
  | Some _ =>
      let u := Ult false (Some (Cont p Boot)) s.(ult_id) in
      let s := set_ult_id (s32 (s.(ult_id) + 1)) (set_ult p u s) in
      Some (set_thread t (go (CrLock p) (set_context_creat p th)) s)
  end.

(** Up to the first test of [completed_fibers]; [to] is 0 for NULL. *)
Definition ult_switch_to (to t : Z) (th : thread) (s : state) : option state :=
  match th.(current) with
  | None => None
  | Some from =>
      if to =? 0 then Some s
      else match ult_trylock to s with
           | None => None
           | Some (false, s') => Some s'
           | Some (true, s') => Some (set_thread t (go (Test1 from to) th) s')
           end
  end.

(** The next step of a thread inside the library.  The two tests of
    ult.c:214 and 217 guard the statement that follows each of them, which is
    the assignment of [current] and the switch, since the calls between are
    commented out. *)
Definition continue (t : Z) (th : thread) (s : state) : option state :=
  match th.(at_) with
  | Run => None
  | Test1 from to =>
      let th := if 0 <? s.(completed_fibers) then set_current to th else th in
      Some (set_thread t (go (Test2 from to) th) s)
  | Test2 from to =>
      if 0 <? s.(completed_fibers) then Some (set_thread t (go (Save from to) th) s)
      else Some (set_thread t (go Run th) s)
  | Save from to =>
      match th.(stack) with
      | None => None
      | Some sk => set_thread t (go (Unlock from to) th) <$> context_save from sk Run s
      end
  | Unlock from to => set_thread t (go (Jump to) th) <$> ult_unlock from s
  | Jump to => long_jmp to t th s
  | CrLock p =>
      match th.(current) with
      | None => None
      | Some from => set_thread t (go (Save from p) th) <$> ult_lock p s
      end
  | Boot =>
      match th.(current) with
      | None => None
      | Some c =>
          (fun s' => publish th.(context_creat) (set_thread t (go (Save th.(context_creat) c) th) s'))
            <$> ult_lock c s
      end
  end.

Inductive event :=
| Convert (p : Z)
| Creat (p : Z)
| SwitchTo (to : Z)
| Continue
| Assign (k : Z)
| Complete.

Definition fresh (p : Z) (s : state) : bool := negb (p =? 0) && bool_decide (s.(ults) !! p = None).

(** A step of the thread [t].  The code of a fiber calls the library from
    [Run], converts a thread once, and passes fibers the library gave out.  Main
    assigns [completed_fibers] once, before it sets [init_complete] and the
    alarm: threads switch only afterwards.  A fiber that is done counts itself
    out, when it has not been counted out already. *)
Definition step (t : Z) (e : event) (s : state) : option state :=
  match s.(threads) !! t with
  | None => None
  | Some th =>
      match e with
      | Continue => continue t th s
      | Assign k => if negb s.(counting) && (0 <? k) then Some (set_completed k s) else None
      | Complete =>
          if s.(counting) && (0 <? s.(completed_fibers))
          then Some (set_completed (u32 (s.(completed_fibers) - 1)) s) else None
      | Convert p =>
          if decide (th.(at_) = Run) then if fresh p s then ult_convert p t th s else None else None
      | Creat p =>
          if decide (th.(at_) = Run) then if fresh p s then ult_creat p t th s else None else None
      | SwitchTo to =>
          if decide (th.(at_) = Run) then
            if s.(counting) && ((to =? 0) || bool_decide (to ∈ s.(known))) then ult_switch_to to t th s else None
          else None
      end
  end.

Fixpoint steps (l : list (Z * event)) (s : state) : option state :=
  match l with
  | [] => Some s
  | (t, e) :: l' => match step t e s with Some s' => steps l' s' | None => None end
  end.

(** The threads of the process before any conversion. *)
Definition initial (n : nat) : state :=
  State ∅ (list_to_map ((fun t => (Z.of_nat t, Thread None 0 None Run)) <$> seq 0 n)) 0 0 false ∅.

Inductive reachable : state -> Prop :=
| reachable_initial n : reachable (initial n)
| reachable_step s t e s' : reachable s -> step t e s = Some s' -> reachable s'.

(** ** The locking discipline *)

(** The fibers whose flag a thread has taken. *)
Definition held (th : thread) : list Z :=
  match th.(at_) with
  | Run | CrLock _ => option_list th.(current)
  | Test1 from to | Test2 from to | Save from to | Unlock from to => [from; to]
  | Jump to => [to]
  | Boot => [th.(context_creat)]
  end.

(** With the fiber it has allocated and not locked yet. *)
Definition claims (th : thread) : list Z :=
  match th.(at_) with CrLock p => p :: held th | _ => held th end.

(** No fiber is left to complete. *)
Definition over (s : state) : Prop := s.(counting) = true /\ s.(completed_fibers) <= 0.

(** Who a stack belongs to: the thread on it, the thread that is about to jump to
    it, or a fiber that nobody runs. *)
Inductive owner :=
| OnIt (t : Z)
| Target (t : Z)
| Parked (f : Z).

Section Owners.
Context (own : gmap Z owner) (s : state) (t : Z).

(** The saved context of [f] resumes at [k] on a stack of [o]. *)
Definition saved_as (f : Z) (o : owner) (k : pc) : Prop :=
  exists u sk, s.(ults) !! f = Some u /\ u.(context) = Some (Cont sk k) /\ own !! sk = Some o.

(** The thread is on its own stack. *)
Definition on_own (th : thread) : Prop := exists sk, th.(stack) = Some sk /\ own !! sk = Some (OnIt t).

(** A fiber under construction by the thread. *)
Definition pending (th : thread) (p : Z) : Prop :=
  th.(context_creat) = p /\ p ∉ s.(known) /\ saved_as p (Target t) Boot.

(** The fiber a switch goes to: a parked one, or the one under construction. *)
Definition target (th : thread) (to : Z) : Prop :=
  (th.(current) = Some to /\ to ∈ s.(known) /\ saved_as to (Target t) Run) \/
  (exists c, th.(current) = Some c /\ c ∈ s.(known) /\ c <> to /\ pending th to).

Definition thread_ok (th : thread) : Prop :=
  match th.(at_) with
  | Run =>
      (th.(current) = None /\ th.(stack) = None) \/
      (exists c, th.(current) = Some c /\ c ∈ s.(known) /\ on_own th)
  | Test1 from to =>
      s.(counting) = true /\ th.(current) = Some from /\ on_own th /\ from <> to /\
      from ∈ s.(known) /\ to ∈ s.(known) /\ saved_as to (Target t) Run
  | Test2 from to =>
      s.(counting) = true /\ (th.(current) = Some to \/ (th.(current) = Some from /\ over s)) /\ on_own th /\ from <> to /\
      from ∈ s.(known) /\ to ∈ s.(known) /\ saved_as to (Target t) Run
  | Save from to =>
      on_own th /\ from <> to /\ from ∈ s.(known) /\ target th to
  | Unlock from to =>
      on_own th /\ from <> to /\ from ∈ s.(known) /\ target th to /\
      exists u sk, s.(ults) !! from = Some u /\ u.(context) = Some (Cont sk Run) /\ th.(stack) = Some sk
  | Jump to => target th to
  | CrLock p =>
      exists c, th.(current) = Some c /\ on_own th /\ c ∈ s.(known) /\ c <> p /\ pending th p
  | Boot =>
      exists c, th.(current) = Some c /\ on_own th /\
        c ∈ s.(known) /\ c <> th.(context_creat) /\ th.(context_creat) ∉ s.(known)
  end.

(** What is known of the object of a published fiber. *)
Definition known_ok (f : Z) : Prop :=
  exists u, s.(ults) !! f = Some u /\ (u.(running) = false -> saved_as f (Parked f) Run).
End Owners.

Record owned (own : gmap Z owner) (s : state) : Prop := {
  inv_thread t th : s.(threads) !! t = Some th -> thread_ok own s t th;
  inv_disjoint t1 t2 th1 th2 f :
    s.(threads) !! t1 = Some th1 -> s.(threads) !! t2 = Some th2 ->
    f ∈ claims th1 -> f ∈ claims th2 -> t1 = t2;
  inv_held t th f u : s.(threads) !! t = Some th -> f ∈ held th ->
    s.(ults) !! f = Some u -> u.(running) = true;
  inv_flag f u : s.(ults) !! f = Some u -> u.(running) = true -> ~ over s ->
    exists t th, s.(threads) !! t = Some th /\ f ∈ held th;
  inv_known f : f ∈ s.(known) -> known_ok own s f;
  inv_allocated t th f : s.(threads) !! t = Some th -> f ∈ claims th -> is_Some (s.(ults) !! f);
  inv_stacks sk : is_Some (own !! sk) -> is_Some (s.(ults) !! sk)
}.

Definition inv (s : state) : Prop := exists own, owned own s.

Lemma held_claims th f : f ∈ held th -> f ∈ claims th.
Proof. unfold claims. destruct (at_ th); try done. by right. Qed.

Definition belongs (o : owner) (t : Z) : Prop := o = OnIt t \/ o = Target t.

(** What a thread relies on: its claimed fibers, its stacks, and which fibers are
    known. *)
Lemma thread_ok_frame own own' s s' t th :
  thread_ok own s t th -> s.(known) ⊆ s'.(known) ->
  (s.(counting) = true -> s'.(counting) = true) -> (over s -> over s') ->
  (forall f, f ∈ claims th -> s'.(ults) !! f = s.(ults) !! f) ->
  (forall sk o, own !! sk = Some o -> belongs o t -> own' !! sk = Some o) ->
  (forall f, f ∈ claims th -> f ∈ s'.(known) -> f ∈ s.(known)) ->
  thread_ok own' s' t th.
Proof.
  intros Hok Hk Hct Hov Hu Ho Hp.
  assert (Hsaved : forall f k, f ∈ claims th -> saved_as own s f (Target t) k -> saved_as own' s' f (Target t) k).
  { intros f k Hf (u & sk & Hl & Hc & Hs). exists u, sk. rewrite Hu by done. split_and!; [done..|].
    apply Ho; [done|by right]. }
  assert (Hon : on_own own t th -> on_own own' t th).
  { intros (sk & ? & ?). exists sk. split; [done|]. apply Ho; [done|by left]. }
  assert (Hpend : forall p, p ∈ claims th -> pending own s t th p -> pending own' s' t th p).
  { intros p Hf (? & ? & ?). split_and!; [done|auto|auto]. }
  assert (Htarget : forall to, to ∈ claims th -> target own s t th to -> target own' s' t th to).
  { intros to Hf [(? & ? & ?)|(c & ? & ? & ? & ?)]; [left|right; exists c]; split_and!; auto. }
  unfold thread_ok, claims, held in *. destruct (at_ th) as [|from to|from to|from to|from to|to|p|].
  - destruct Hok as [?|(c & ? & ? & ?)]; [by left|right; exists c; auto].
  - destruct Hok as (? & ? & ? & ? & ? & ? & ?). split_and!; auto. apply Hsaved; [set_solver|done].
  - destruct Hok as (? & Hc & ? & ? & ? & ? & ?). split_and!; auto; [naive_solver|]. apply Hsaved; [set_solver|done].
  - destruct Hok as (? & ? & ? & ?). split_and!; auto. apply Htarget; [set_solver|done].
  - destruct Hok as (? & ? & ? & ? & u & sk & ? & ? & ?). split_and!; auto; [apply Htarget; [set_solver|done]|].
    exists u, sk. rewrite Hu by set_solver. done.
  - apply Htarget; [set_solver|done].
  - destruct Hok as (c & ? & ? & ? & ? & ?). exists c. split_and!; auto. apply Hpend; [set_solver|done].
  - destruct Hok as (c & ? & ? & ? & ? & Hn). exists c. split_and!; auto. intros Hin. apply Hn, Hp; [set_solver|done].
Qed.

(** A step of [t] from [th] to [th'] that touches only fibers claimed before
    or after it, and their stacks. *)
Record own_step (own own' : gmap Z owner) (s s' : state) (t : Z) (th th' : thread) : Prop := {
  os_threads : s'.(threads) = <[t := th']> s.(threads);
  os_count : s'.(counting) = s.(counting) /\ s'.(completed_fibers) = s.(completed_fibers);
  os_frame f : f ∉ claims th -> f ∉ claims th' -> s'.(ults) !! f = s.(ults) !! f;
  os_alloc f : is_Some (s.(ults) !! f) -> is_Some (s'.(ults) !! f);
  os_claims f : f ∈ claims th' ->
    f ∈ claims th \/ forall t' th2, t' <> t -> s.(threads) !! t' = Some th2 -> f ∉ claims th2;
  os_known f : f ∈ s'.(known) <-> f ∈ s.(known) \/ (f ∈ s'.(known) /\ f ∈ claims th');
  os_own sk o : own !! sk = Some o -> ~ belongs o t -> (forall f, o = Parked f -> f ∉ claims th') ->
    own' !! sk = Some o;
  os_stacks sk : is_Some (own' !! sk) -> is_Some (s'.(ults) !! sk);
  os_ok : thread_ok own' s' t th';
  os_ult f : f ∈ claims th ++ claims th' ->
    exists u, s'.(ults) !! f = Some u /\ (f ∈ held th' -> u.(running) = true) /\
      (u.(running) = true -> f ∈ held th' \/ over s) /\
      (f ∈ s'.(known) -> u.(running) = false -> saved_as own' s' f (Parked f) Run)
}.

Lemma own_step_inv own own' s s' t th th' :
  owned own s -> s.(threads) !! t = Some th -> own_step own own' s s' t th th' -> owned own' s'.
Proof.
  intros [Hth Hdis Hheld Hflag Hkn Hal Hst] Ht [Hts [Hct Hcf] Hfr Hmono Hcl Hk Ho Hst' Hok Hu].
  assert (Hov : over s <-> over s') by (unfold over; by rewrite Hct, Hcf).
  assert (Hother : forall t2 th2, t2 <> t -> s.(threads) !! t2 = Some th2 ->
            forall f, f ∈ claims th2 -> f ∉ claims th /\ f ∉ claims th').
  { intros t2 th2 Hne Ht2 f Hf. assert (f ∉ claims th) by (intros ?; by apply Hne, (Hdis t2 t th2 th f)).
    split; [done|]. intros [?|Hno]%Hcl; [done|]. by eapply Hno. }
  assert (Hlook : forall t2 th2, s'.(threads) !! t2 = Some th2 ->
            (t2 = t /\ th2 = th') \/ (t2 <> t /\ s.(threads) !! t2 = Some th2)).
  { intros t2 th2. rewrite Hts. intros [[<- <-]|[??]]%lookup_insert_Some; [by left|by right]. }
  split.
  - intros t2 th2 [[-> ->]|[Hne Ht2]]%Hlook; [done|].
    apply (thread_ok_frame own _ s); [by eapply Hth| |congruence|apply Hov| | |].
    + intros f Hf. apply Hk. by left.
    + intros f Hf. destruct (Hother _ _ Hne Ht2 f Hf). by apply Hfr.
    + intros sk o Hsk [->| ->]; (apply Ho; [done|intros [[=]|[=]]; done|done]).
    + intros f Hf [?|[_ ?]]%Hk; [done|]. by destruct (Hother _ _ Hne Ht2 f Hf).
  - intros t1 t2 th1 th2 f [[-> ->]|[Hne1 Ht1]]%Hlook [[-> ->]|[Hne2 Ht2]]%Hlook Hf1 Hf2; [done| | |].
    + by destruct (Hother _ _ Hne2 Ht2 f Hf2).
    + by destruct (Hother _ _ Hne1 Ht1 f Hf1).
    + by eapply Hdis.
  - intros t2 th2 f u [[-> ->]|[Hne Ht2]]%Hlook Hf Hul.
    + destruct (Hu f) as (u' & Hu' & Hr & _); [pose proof (held_claims _ _ Hf); set_solver|].
      rewrite Hu' in Hul. injection Hul as <-. auto.
    + destruct (Hother _ _ Hne Ht2 f (held_claims _ _ Hf)). rewrite Hfr in Hul by done. by eapply Hheld.
  - intros f u Hf Hr Hno. destruct (decide (f ∈ claims th ++ claims th')) as [Hin|Hout].
    + destruct (Hu f Hin) as (u' & Hf' & _ & Hr' & _). rewrite Hf' in Hf. injection Hf as ->.
      destruct (Hr' Hr) as [Hh|Hov']; [|by apply Hov in Hov']. exists t, th'. by rewrite Hts, lookup_insert_eq.
    + rewrite Hfr in Hf by set_solver. destruct (Hflag f u Hf Hr) as (t2 & th2 & Ht2 & Hh); [by rewrite Hov|].
      exists t2, th2. split; [|done]. rewrite Hts, lookup_insert_ne; [done|].
      intros <-. simplify_eq. apply held_claims in Hh. set_solver.
  - intros f Hf. destruct (decide (f ∈ claims th ++ claims th')) as [Hin|Hout].
    + destruct (Hu f Hin) as (u & Hf' & _ & _ & Hc). exists u. auto.
    + destruct (Hkn f) as (u & Hfu & Hp).
      { apply Hk in Hf as [?|[_ ?]]; [done|set_solver]. }
      exists u. rewrite Hfr by set_solver. split; [done|]. intros (v & sk & Hv & Hc & Hsk)%Hp.
      exists v, sk. rewrite Hfr by set_solver. split_and!; [done..|].
      apply Ho; [done|intros [[=]|[=]]|]. intros g [= <-]. set_solver.
  - intros t2 th2 f [[-> ->]|[Hne Ht2]]%Hlook Hf.
    + destruct (Hu f) as (u & ? & _); [set_solver|eauto].
    + destruct (Hother _ _ Hne Ht2 f Hf). rewrite Hfr by done. by eapply Hal.
  - done.
Qed.

(** Counting a fiber out, and the assignment of main. *)
Lemma count_inv s n : inv s -> ~ over s -> inv (set_completed n s).
Proof.
  intros [own [H1 H2 H3 H4 H5 H6 H7]] Hno. exists own. split; [|exact H2|exact H3| |exact H5|exact H6|exact H7].
  - intros t th Ht. by apply (thread_ok_frame own own s); [apply H1| | |intros ?|..].
  - intros f u Hf Hr _. by eapply H4.
Qed.

(** A set flag that did not change. *)
Lemma same_flag own own' s s' t th th' f :
  owned own s -> s.(threads) !! t = Some th -> f ∈ claims th -> s'.(ults) !! f = s.(ults) !! f ->
  (f ∈ held th' -> f ∈ held th) -> (f ∈ held th -> f ∈ held th' \/ over s) ->
  (f ∈ s'.(known) -> f ∈ s.(known) \/ f ∈ held th) ->
  (forall sk, own !! sk = Some (Parked f) -> own' !! sk = Some (Parked f)) ->
  exists u, s'.(ults) !! f = Some u /\ (f ∈ held th' -> u.(running) = true) /\
    (u.(running) = true -> f ∈ held th' \/ over s) /\
    (f ∈ s'.(known) -> u.(running) = false -> saved_as own' s' f (Parked f) Run).
Proof.
  intros Hi Ht Hf Heq Hh1 Hh2 Hk Ho. destruct (inv_allocated own s Hi t th f Ht Hf) as [u Hu].
  exists u. rewrite Heq. split_and!; [done| | |].
  - intros Hh. eapply (inv_held own s Hi); eauto.
  - intros Hr. destruct (decide (s.(counting) = true /\ s.(completed_fibers) <= 0)) as [?|Hno]; [by right|].
    destruct (inv_flag own s Hi f u Hu Hr Hno) as (t2 & th2 & Ht2 & Hf2).
    assert (t2 = t) as -> by (eapply (inv_disjoint own s Hi); eauto using held_claims). simplify_eq. auto.
  - intros [Hkf|Hh]%Hk Hr.
    + destruct (inv_known own s Hi f Hkf) as (u' & Hu' & Hp). simplify_eq.
      destruct (Hp Hr) as (v & sk & Hv & Hc & Hsk). exists v, sk. rewrite Heq. auto.
    + rewrite (inv_held own s Hi t th f u) in Hr by done. done.
Qed.

Section Steps.
Context (own : gmap Z owner) (s : state) (t : Z) (th : thread).
Context (Hi : owned own s) (Ht : s.(threads) !! t = Some th).

Lemma thread_ok_t : thread_ok own s t th.
Proof. by apply (inv_thread own s Hi t). Qed.

Lemma held_running f : f ∈ held th -> exists u, s.(ults) !! f = Some u /\ u.(running) = true.
Proof.
  intros Hf. destruct (inv_allocated own s Hi t th f Ht (held_claims _ _ Hf)) as [u Hu].
  exists u. split; [done|]. by eapply (inv_held own s Hi).
Qed.

(** Only the stacks of the thread change hands. *)
Definition own_frame (own' : gmap Z owner) (P : Z -> Prop) : Prop :=
  (forall sk o, own !! sk = Some o -> ~ belongs o t -> (forall f, o = Parked f -> ~ P f) -> own' !! sk = Some o) /\
  (forall sk, is_Some (own' !! sk) -> is_Some (own !! sk)).

Lemma own_frame_refl P : own_frame own P.
Proof. by split. Qed.

Lemma own_frame_insert sk o o' (P : Z -> Prop) :
  own !! sk = Some o -> belongs o t \/ (exists f, o = Parked f /\ P f) -> own_frame (<[sk := o']> own) P.
Proof.
  intros Hsk Ho. split.
  - intros sk2 o2 H2 Hb Hp. destruct (decide (sk2 = sk)) as [->|Hne].
    + simplify_eq. destruct Ho as [?|(f & -> & Hf)]; [done|]. by destruct (Hp f eq_refl).
    + by rewrite lookup_insert_ne.
  - intros sk2. rewrite lookup_insert. case_decide; [subst; eauto|done].
Qed.

Lemma saved_elsewhere sk o o' f k :
  own !! sk = Some o -> o <> Target t -> saved_as own s f (Target t) k ->
  saved_as (<[sk := o']> own) s f (Target t) k.
Proof.
  intros Hsk Hne (u & sk' & Hu & Hc & Hs). exists u, sk'. split_and!; [done..|].
  rewrite lookup_insert_ne; [done|]. intros <-. congruence.
Qed.

Lemma move_inv own' th' :
  own_frame own' (fun _ => False) ->
  (forall f, f ∈ claims th' -> f ∈ claims th) -> (forall f, f ∈ held th' -> f ∈ held th) ->
  (forall f, f ∈ held th -> f ∈ held th' \/ over s) ->
  thread_ok own' s t th' -> inv (set_thread t th' s).
Proof.
  intros [Ho1 Ho2] Hc Hh1 Hh2 Hok. exists own'. apply (own_step_inv own _ s _ t th th' Hi Ht). split.
  - done.
  - done.
  - done.
  - done.
  - intros f Hf. left. by apply Hc.
  - simpl. naive_solver.
  - intros sk o Hsk Hb _. apply Ho1; [done..|]. by intros f _ [].
  - intros sk Hsk. simpl. by apply (inv_stacks own s Hi), Ho2.
  - done.
  - intros f Hf. apply (same_flag own own' s (set_thread t th' s) t th th'); try done.
    + apply elem_of_app in Hf as [?|?]; auto.
    + auto.
    + auto.
    + by left.
    + intros sk Hsk. apply Ho1; [done|intros [[=]|[=]]|by intros g _ []].
Qed.

(** A context saved, or a flag changed, in the object of a claimed fiber. *)
Lemma change_inv own' f u u' th' :
  own_frame own' (fun _ => False) ->
  s.(ults) !! f = Some u -> f ∈ claims th ->
  (forall g, g ∈ claims th' -> g ∈ claims th) ->
  (forall g, g <> f -> g ∈ claims th -> g ∈ held th' <-> g ∈ held th) ->
  (u'.(running) = true <-> f ∈ held th') ->
  (f ∈ s.(known) -> u'.(running) = false ->
     exists sk, u'.(context) = Some (Cont sk Run) /\ own' !! sk = Some (Parked f)) ->
  thread_ok own' (set_ult f u' s) t th' ->
  inv (set_thread t th' (set_ult f u' s)).
Proof.
  intros [Ho1 Ho2] Hu Hf Hc Hh Hr Hk Hok. exists own'. apply (own_step_inv own _ s _ t th th' Hi Ht). split.
  - done.
  - done.
  - intros g Hg _. simpl. apply lookup_insert_ne. by intros <-.
  - intros g Hg. simpl. rewrite lookup_insert. case_decide; [by eexists|done].
  - intros g Hg. left. by apply Hc.
  - simpl. naive_solver.
  - intros sk o Hsk Hb _. apply Ho1; [done..|]. by intros g _ [].
  - intros sk Hsk. simpl. rewrite lookup_insert. case_decide; [by eexists|]. by apply (inv_stacks own s Hi), Ho2.
  - done.
  - intros g Hg. destruct (decide (g = f)) as [->|Hne].
    + exists u'. simpl. rewrite lookup_insert_eq. split_and!; [done|by apply Hr|intros ?; left; by apply Hr|].
      intros Hkf Hrf. destruct (Hk Hkf Hrf) as (sk & ? & ?). exists u', sk. simpl. by rewrite lookup_insert_eq.
    + assert (Hg' : g ∈ claims th) by (apply elem_of_app in Hg as [?|?]; auto).
      apply (same_flag own own' s (set_thread t th' (set_ult f u' s)) t th th'); try done.
      * simpl. by rewrite lookup_insert_ne.
      * by apply Hh.
      * intros ?. left. by apply Hh.
      * by left.
      * intros sk Hsk. apply Ho1; [done|intros [[=]|[=]]|by intros x _ []].
Qed.

(** A free published fiber is claimed by nobody. *)
Lemma free_unclaimed f u :
  f ∈ s.(known) -> s.(ults) !! f = Some u -> u.(running) = false ->
  forall t2 th2, s.(threads) !! t2 = Some th2 -> f ∉ claims th2.
Proof.
  intros Hk Hu Hr t2 th2 Ht2 Hf.
  assert (Hno : f ∉ held th2).
  { intros Hh. pose proof (inv_held own s Hi t2 th2 f u Ht2 Hh Hu). congruence. }
  pose proof (inv_thread own s Hi t2 th2 Ht2) as Hok.
  unfold claims, thread_ok in *. destruct (at_ th2); try done.
  apply elem_of_cons in Hf as [->|?]; [|done].
  destruct Hok as (? & ? & ? & ? & ? & _ & Hp & _). done.
Qed.

(** The flag of a free fiber taken; a fiber the thread holds may be published
    at the same time. *)
Lemma take_inv f u th' s' :
  f ∈ s.(known) -> s.(ults) !! f = Some u -> u.(running) = false ->
  s'.(ults) = <[f := set_running true u]> s.(ults) -> s'.(threads) = <[t := th']> s.(threads) ->
  s'.(counting) = s.(counting) /\ s'.(completed_fibers) = s.(completed_fibers) ->
  (forall g, g ∈ s.(known) -> g ∈ s'.(known)) ->
  (forall g, g ∈ s'.(known) -> g ∈ s.(known) \/ g ∈ held th) ->
  (forall g, g ∈ claims th' <-> g = f \/ g ∈ claims th) ->
  (forall g, g ∈ held th' <-> g = f \/ g ∈ held th) ->
  (forall own', saved_as own' s' f (Target t) Run ->
     (forall sk, own !! sk = Some (OnIt t) -> own' !! sk = Some (OnIt t)) -> thread_ok own' s' t th') ->
  inv s'.
Proof.
  intros Hk Hu Hr Hul Hts Hov Hk1 Hk2 Hc Hh Hok. pose proof (free_unclaimed f u Hk Hu Hr) as Hfree.
  destruct (inv_known own s Hi f Hk) as (u0 & Hu0 & Hp). simplify_eq.
  destruct (Hp Hr) as (u1 & sk & Hu1 & Hcx & Hsk). simplify_eq.
  set (own' := <[sk := Target t]> own).
  destruct (own_frame_insert sk (Parked f) (Target t) (fun g => g ∈ claims th') Hsk) as [Ho1 Ho2].
  { right. exists f. split; [done|]. apply Hc. by left. }
  exists own'. apply (own_step_inv own _ s _ t th th' Hi Ht). split.
  - done.
  - done.
  - intros g _ Hg. rewrite Hul. apply lookup_insert_ne. intros <-. apply Hg, Hc. by left.
  - intros g Hg. rewrite Hul, lookup_insert. case_decide; [by eexists|done].
  - intros g [->|Hg]%Hc; [|by left]. right. intros t2 th2 _ Ht2. by eapply Hfree.
  - intros g. split; [|intros [Hg|[Hg _]]; auto]. intros Hg. destruct (Hk2 g Hg) as [?|Hg2]; [by left|right].
    split; [done|]. apply Hc. right. by apply held_claims.
  - done.
  - intros sk2 Hsk2. rewrite Hul, lookup_insert. case_decide; [by eexists|]. by apply (inv_stacks own s Hi), Ho2.
  - apply Hok.
    + exists (set_running true u), sk. rewrite Hul, lookup_insert_eq. unfold own'. by rewrite lookup_insert_eq.
    + intros sk2 Hsk2. unfold own'. rewrite lookup_insert_ne; [done|]. intros <-. congruence.
  - intros g Hg. destruct (decide (g = f)) as [->|Hne].
    + exists (set_running true u). rewrite Hul, lookup_insert_eq. split_and!; [done|done| |done].
      intros _. left. apply Hh. by left.
    + assert (Hg' : g ∈ claims th) by (apply elem_of_app in Hg as [?|[?|?]%Hc]; done).
      apply (same_flag own own' s s' t th th'); try done.
      * by rewrite Hul, lookup_insert_ne.
      * intros [?|?]%Hh; done.
      * intros ?. left. apply Hh. by right.
      * apply Hk2.
      * intros sk2 Hsk2. unfold own'. rewrite lookup_insert_ne; [done|]. intros <-. congruence.
Qed.

Lemma continue_test1 from to b : th.(at_) = Test1 from to -> (b = false -> s.(counting) = true -> over s) ->
  inv (set_thread t (go (Test2 from to) (if b then set_current to th else th)) s).
Proof.
  intros Ha Hc. pose proof thread_ok_t as Hok. unfold thread_ok in Hok. rewrite Ha in Hok.
  destruct Hok as (Hct & Hcur & Hon & Hok).
  destruct b; (apply (move_inv own); [apply own_frame_refl|..]); unfold claims, held, thread_ok; rewrite ?Ha; simpl.
  all: try solve [auto].
  split_and!; [done|auto|done|apply Hok..].
Qed.

Lemma continue_test2 from to : th.(at_) = Test2 from to -> 0 < s.(completed_fibers) ->
  inv (set_thread t (go (Save from to) th) s).
Proof.
  intros Ha Hpos. pose proof thread_ok_t as Hok. unfold thread_ok in Hok. rewrite Ha in Hok.
  destruct Hok as (Hct & [Hcur|[_ [_ Hov]]] & Hon & Hne & Hf & Hto & Hsv); [|lia].
  apply (move_inv own); unfold claims, held, thread_ok, target; rewrite ?Ha; simpl; try apply own_frame_refl; auto.
  split_and!; auto.
Qed.

(** The switch that does not take place: the flag of one of the two fibers stays
    set. *)
Lemma continue_leak from to : th.(at_) = Test2 from to -> s.(completed_fibers) <= 0 -> inv (set_thread t (go Run th) s).
Proof.
  intros Ha Hz. pose proof thread_ok_t as Hok. unfold thread_ok in Hok. rewrite Ha in Hok.
  destruct Hok as (Hct & Hcur & Hon & Hne & Hf & Hto & Hsv).
  assert (exists c, th.(current) = Some c /\ (c = from \/ c = to)) as (c & Hc & Hor) by naive_solver.
  apply (move_inv own); unfold claims, held, thread_ok; rewrite ?Ha; simpl; rewrite ?Hc; simpl; try apply own_frame_refl.
  - intros f ->%list_elem_of_singleton. set_solver.
  - intros f ->%list_elem_of_singleton. set_solver.
  - intros f _. by right.
  - right. exists c. split_and!; [done|by destruct Hor as [->| ->]|done].
Qed.

Lemma target_frame to s' own' :
  (forall sk, own !! sk = Some (Target t) -> own' !! sk = Some (Target t)) ->
  s'.(known) = s.(known) -> s'.(ults) !! to = s.(ults) !! to ->
  forall th2, th2.(current) = th.(current) -> th2.(context_creat) = th.(context_creat) ->
  target own s t th to -> target own' s' t th2 to.
Proof.
  intros Ho Hk Hu th2 Hc Hcc. unfold target, pending. rewrite Hc, Hcc, Hk.
  assert (Hsv : forall k, saved_as own s to (Target t) k -> saved_as own' s' to (Target t) k).
  { intros k (u & sk & ? & ? & ?). exists u, sk. rewrite Hu. auto. }
  intros [(? & ? & ?)|(c & ? & ? & ? & ? & ? & ?)]; [left|right; exists c]; split_and!; auto.
Qed.

Lemma continue_save from to sk s1 : th.(at_) = Save from to -> th.(stack) = Some sk ->
  context_save from sk Run s = Some s1 -> inv (set_thread t (go (Unlock from to) th) s1).
Proof.
  intros Ha Hs. unfold context_save. destruct (ults s !! from) as [u|] eqn:Hu; [|done]. intros [= <-].
  pose proof thread_ok_t as Hok. unfold thread_ok in Hok. rewrite Ha in Hok.
  destruct Hok as (Hon & Hne & Hkn & Htg).
  destruct (held_running from) as (u1 & Hu1 & Hr); [unfold held; rewrite Ha; set_solver|]. simplify_eq.
  eapply (change_inv own from); unfold claims, held; rewrite ?Ha; simpl; try done; try apply own_frame_refl.
  - set_solver.
  - rewrite Hr. set_solver.
  - by rewrite Hr.
  - split_and!; [done..| |].
    + eapply target_frame; [..|exact Htg]; simpl; try done. by rewrite lookup_insert_ne.
    + eexists _, sk. simpl. rewrite lookup_insert_eq. done.
Qed.

Lemma continue_unlock from to s1 : th.(at_) = Unlock from to ->
  ult_unlock from s = Some s1 -> inv (set_thread t (go (Jump to) th) s1).
Proof.
  intros Ha. unfold ult_unlock. destruct (ults s !! from) as [u|] eqn:Hu; [|done]. intros [= <-].
  pose proof thread_ok_t as Hok. unfold thread_ok in Hok. rewrite Ha in Hok.
  destruct Hok as ((sk0 & Hst0 & Hsk) & Hne & Hkn & Htg & u1 & sk & Hu1 & Hcx & Hst). simplify_eq.
  apply (change_inv (<[sk0 := Parked from]> own) from u); unfold claims, held; rewrite ?Ha; simpl; try done.
  - apply (own_frame_insert sk0 (OnIt t)); [done|]. left. by left.
  - set_solver.
  - set_solver.
  - set_solver.
  - set_solver.
  - intros _ _. exists sk0. by rewrite lookup_insert_eq.
  - eapply target_frame; [..|exact Htg]; simpl; try done.
    + intros sk2 Hsk2. rewrite lookup_insert_ne; [done|]. intros <-. congruence.
    + by rewrite lookup_insert_ne.
Qed.

Lemma continue_jump to s1 : th.(at_) = Jump to -> long_jmp to t th s = Some s1 -> inv s1.
Proof.
  intros Ha. unfold long_jmp. pose proof thread_ok_t as Hok. unfold thread_ok in Hok. rewrite Ha in Hok.
  assert (Hfr : forall sk, own !! sk = Some (Target t) -> own_frame (<[sk := OnIt t]> own) (fun _ => False)).
  { intros sk Hsk. apply (own_frame_insert sk (Target t)); [done|]. left. by right. }
  destruct Hok as [(Hc & Hk & u & sk & Hu & Hcx & Hsk)|(c & Hc & Hk & Hne & Hcc & Hp & u & sk & Hu & Hcx & Hsk)];
    rewrite Hu; destruct u as [r cx i]; simpl in Hcx; subst cx; intros [= <-]; simpl;
    (apply (move_inv (<[sk := OnIt t]> own)); [by apply Hfr|..]);
    unfold claims, held, thread_ok, on_own; rewrite ?Ha, ?Hc, ?Hcc; simpl; auto.
  - right. exists to. split_and!; [done..|]. exists sk. by rewrite lookup_insert_eq.
  - exists c. split_and!; [done| |done|done|done]. exists sk. by rewrite lookup_insert_eq.
Qed.

Lemma continue_crlock p c s1 : th.(at_) = CrLock p -> th.(current) = Some c ->
  ult_lock p s = Some s1 -> inv (set_thread t (go (Save c p) th) s1).
Proof.
  intros Ha Hc. unfold ult_lock, ult_trylock. destruct (ults s !! p) as [u|] eqn:Hu; [|done].
  destruct (running u) eqn:Hr; simpl; [done|]. intros [= <-].
  pose proof thread_ok_t as Hok. unfold thread_ok in Hok. rewrite Ha in Hok.
  destruct Hok as (c' & Hc' & Hon & Hkn & Hne & Hcc & Hp & u1 & sk & Hu1 & Hcx & Hsk). simplify_eq.
  apply (change_inv own (context_creat th) u); unfold claims, held; rewrite ?Ha, ?Hc; simpl; try done.
  - set_solver.
  - set_solver.
  - set_solver.
  - set_solver.
  - split_and!; [done..|]. right. exists c. split; [done|]. split; [done|]. split; [done|]. split; [done|]. split; [done|].
    exists (set_running true u), sk. simpl. by rewrite lookup_insert_eq.
Qed.

Lemma continue_boot c s1 : th.(at_) = Boot -> th.(current) = Some c -> ult_lock c s = Some s1 ->
  inv (publish th.(context_creat) (set_thread t (go (Save th.(context_creat) c) th) s1)).
Proof.
  intros Ha Hc. unfold ult_lock, ult_trylock. destruct (ults s !! c) as [u|] eqn:Hu; [|done].
  destruct (running u) eqn:Hr; simpl; [done|]. intros [= <-].
  pose proof thread_ok_t as Hok. unfold thread_ok in Hok. rewrite Ha in Hok.
  destruct Hok as (c' & Hc' & (sk & Hst & Hsk) & Hk & Hne & Hp). simplify_eq.
  eapply (take_inv c); try done; simpl.
  - set_solver.
  - intros g [->%elem_of_singleton|?]%elem_of_union; [right|by left].
    unfold held. rewrite Ha. by apply list_elem_of_singleton.
  - unfold claims, held. rewrite Ha. simpl. set_solver.
  - unfold held. rewrite Ha. simpl. set_solver.
  - intros own' Hsv Hon. unfold thread_ok, target. simpl.
    split_and!; [exists sk; auto|done|set_solver|]. left. split_and!; [done|set_solver|done].
Qed.

Lemma switch_to_inv to s' :
  th.(at_) = Run -> s.(counting) = true -> to = 0 \/ to ∈ s.(known) ->
  ult_switch_to to t th s = Some s' -> inv s'.
Proof.
  intros Ha Hct Hto. unfold ult_switch_to. destruct (current th) as [from|] eqn:Hcu; [|done].
  destruct (Z.eqb_spec to 0) as [|Hn0]; [intros [= <-]; by exists own|]. destruct Hto as [|Hk]; [done|].
  destruct (inv_known own s Hi to Hk) as (u & Hu & _).
  unfold ult_trylock. rewrite Hu. destruct (running u) eqn:Hr; simpl; intros [= <-].
  - assert (set_ult to (set_running true u) s = s) as ->; [|by exists own].
    destruct s as [us ts i n b k]. unfold set_ult. simpl in *. f_equal. apply insert_id. rewrite Hu.
    destruct u; simpl in *. by subst.
  - pose proof thread_ok_t as Hok. unfold thread_ok in Hok. rewrite Ha in Hok.
    destruct Hok as [[? _]|(c & Hc & Hck & sk & Hst & Hsk)]; [congruence|]. simplify_eq.
    assert (from <> to).
    { intros ->. destruct (held_running to) as (v & Hv & Hrv); [unfold held; rewrite Ha, Hcu; by left|congruence]. }
    eapply (take_inv to); try done; simpl.
    + auto.
    + unfold claims, held. rewrite Ha, Hcu. simpl. set_solver.
    + unfold held. rewrite Ha, Hcu. simpl. set_solver.
    + intros own' Hsv Hon. unfold thread_ok. simpl. split_and!; [done|done|exists sk; auto|done|done|done|done].
Qed.

(** A fiber allocated by [t]: published by [ult_convert], claimed until it is
    locked by [ult_creat]. *)
Lemma alloc_inv o p u th' s' :
  th.(at_) = Run -> s.(ults) !! p = None -> belongs o t ->
  s'.(ults) = <[p := u]> s.(ults) -> s'.(threads) = <[t := th']> s.(threads) ->
  s'.(counting) = s.(counting) /\ s'.(completed_fibers) = s.(completed_fibers) ->
  (s'.(known) = s.(known) \/ (s'.(known) = {[p]} ∪ s.(known) /\ u.(running) = true)) ->
  (forall g, g ∈ claims th' <-> g = p \/ g ∈ claims th) ->
  (forall g, g ∈ held th' <-> (g = p /\ u.(running) = true) \/ g ∈ held th) ->
  (p ∉ s.(known) -> thread_ok (<[p := o]> own) s' t th') -> inv s'.
Proof.
  intros Ha Hp Ho Hul Hts Hov Hkn Hc Hh Hok.
  assert (Hpn : p ∉ s.(known)).
  { intros Hk. destruct (inv_known own s Hi p Hk) as (v & ? & _). congruence. }
  assert (Hno : forall t2 th2, s.(threads) !! t2 = Some th2 -> p ∉ claims th2).
  { intros t2 th2 Ht2 Hf. destruct (inv_allocated own s Hi t2 th2 p Ht2 Hf) as [v Hv]. congruence. }
  assert (Hpo : own !! p = None).
  { destruct (own !! p) eqn:E; [|done]. destruct (inv_stacks own s Hi p) as [v Hv]; [eauto|congruence]. }
  assert (Hkeep : forall sk o', own !! sk = Some o' -> <[p := o]> own !! sk = Some o').
  { intros sk o' Hsk. rewrite lookup_insert_ne; [done|]. intros <-. congruence. }
  exists (<[p := o]> own). apply (own_step_inv own _ s _ t th th' Hi Ht). split.
  - done.
  - done.
  - intros g _ Hg. rewrite Hul. apply lookup_insert_ne. intros <-. apply Hg, Hc. by left.
  - intros g Hg. rewrite Hul, lookup_insert. case_decide; [by eexists|done].
  - intros g [->|Hg]%Hc; [|by left]. right. eauto.
  - intros g. destruct Hkn as [->|[-> _]]; [naive_solver|]. rewrite elem_of_union, elem_of_singleton, Hc. naive_solver.
  - auto.
  - intros sk. rewrite Hul, !lookup_insert. case_decide; [by eexists|]. apply (inv_stacks own s Hi).
  - auto.
  - intros g Hg. destruct (decide (g = p)) as [->|Hne].
    + rewrite Hul, lookup_insert_eq. exists u.
      assert (Hnh : p ∉ held th) by (intros ?%held_claims; by eapply Hno).
      split_and!; [done|rewrite Hh; naive_solver|rewrite Hh; naive_solver|].
      intros Hpk Hr. destruct Hkn as [Hkn|[_ ?]]; [by rewrite Hkn in Hpk|congruence].
    + assert (Hg' : g ∈ claims th) by (apply elem_of_app in Hg as [?|[?|?]%Hc]; done).
      apply (same_flag own _ s s' t th th'); try done.
      * by rewrite Hul, lookup_insert_ne.
      * intros [[? _]|?]%Hh; done.
      * intros ?. left. apply Hh. by right.
      * intros Hk. left. destruct Hkn as [Hkn|[Hkn _]]; rewrite Hkn in Hk; set_solver.
      * auto.
Qed.

Lemma convert_inv p s' :
  th.(at_) = Run -> s.(ults) !! p = None -> ult_convert p t th s = Some s' -> inv s'.
Proof.
  intros Ha Hp. unfold ult_convert. destruct (current th) as [|] eqn:Hcu; [done|]. intros [= <-].
  eapply (alloc_inv (OnIt t) p); try done.
  - by left.
  - simpl. auto.
  - unfold claims, held. rewrite Ha, Hcu. simpl. set_solver.
  - unfold held. rewrite Ha, Hcu. simpl. set_solver.
  - intros _. right. simpl. exists p. split_and!; [done|set_solver|]. exists p. by rewrite lookup_insert_eq.
Qed.

Lemma creat_inv p s' :
  th.(at_) = Run -> s.(ults) !! p = None -> ult_creat p t th s = Some s' -> inv s'.
Proof.
  intros Ha Hp. unfold ult_creat. destruct (current th) as [c|] eqn:Hcu; [|done]. intros [= <-].
  pose proof thread_ok_t as Hok. unfold thread_ok in Hok. rewrite Ha in Hok.
  destruct Hok as [[? _]|(c' & Hc & Hck & sk & Hst & Hsk)]; [congruence|]. simplify_eq.
  eapply (alloc_inv (Target t) p); try done.
  - by right.
  - by left.
  - unfold claims, held. rewrite Ha, Hcu. simpl. rewrite Hcu. set_solver.
  - unfold held. rewrite Ha. simpl. naive_solver.
  - intros Hpn. simpl. exists c. split_and!; [done| |done|by intros ->|].
    + exists sk. rewrite lookup_insert_ne; [done|]. intros <-.
      destruct (inv_stacks own s Hi p) as [v Hv]; [eauto|congruence].
    + split_and!; [done|done|]. eexists _, p. simpl. rewrite !lookup_insert_eq. done.
Qed.

Lemma continue_inv s' : continue t th s = Some s' -> inv s'.
Proof.
  unfold continue.
  destruct (at_ th) as [|from to|from to|from to|from to|to|p|] eqn:Ha; [done|..].
  - intros [= <-]. apply (continue_test1 from to (0 <? s.(completed_fibers))); [done|].
    intros Hz Hct. split; [done|lia].
  - destruct (Z.ltb_spec 0 s.(completed_fibers)); intros [= <-]; [by apply continue_test2|by eapply continue_leak].
  - destruct (stack th) as [sk|] eqn:Hs; [|done]. intros (s1 & H1 & ->)%fmap_Some. by eapply continue_save.
  - intros (s1 & H1 & ->)%fmap_Some. by eapply continue_unlock.
  - by eapply continue_jump.
  - destruct (current th) as [c|] eqn:Hcu; [|done]. intros (s1 & H1 & ->)%fmap_Some. by eapply continue_crlock.
  - destruct (current th) as [c|] eqn:Hcu; [|done]. intros (s1 & H1 & ->)%fmap_Some. by apply (continue_boot c).
Qed.
End Steps.

Lemma initial_inv n : inv (initial n).
Proof.
  assert (Hth : forall t th, threads (initial n) !! t = Some th -> th = Thread None 0 None Run).
  { simpl. intros t th Hl%elem_of_list_to_map_2. apply list_elem_of_fmap in Hl as (x & Hx & _). congruence. }
  exists ∅. split.
  - intros t th ->%Hth. by left.
  - intros t1 t2 th1 th2 f ->%Hth _ Hf. by apply elem_of_nil in Hf.
  - intros t th f u ->%Hth Hf. by apply elem_of_nil in Hf.
  - done.
  - intros f Hf. by apply elem_of_empty in Hf.
  - intros t th f ->%Hth Hf. by apply elem_of_nil in Hf.
  - intros sk [o Ho]. done.
Qed.

Lemma step_inv t e s s' : inv s -> step t e s = Some s' -> inv s'.
Proof.
  intros Hi. unfold step. destruct (threads s !! t) as [th|] eqn:Ht; [|done].
  assert (Hfresh : forall p, fresh p s = true -> s.(ults) !! p = None).
  { intros p [_ Hp]%andb_prop. by apply bool_decide_eq_true in Hp. }
  pose proof Hi as [own Ho].
  destruct e as [p|p|to| |k|]; try (destruct (decide (at_ th = Run)) as [Ha|]; [|done]).
  - destruct (fresh p s) eqn:Hf; [|done]. eapply convert_inv; eauto.
  - destruct (fresh p s) eqn:Hf; [|done]. eapply creat_inv; eauto.
  - destruct (_ && _) eqn:Hk; [|done]. apply andb_prop in Hk as [Hct Hk]. apply (switch_to_inv own s t th); try done.
    apply orb_prop in Hk as [Hk|Hk]; [left; lia|right]. by apply bool_decide_eq_true in Hk.
  - by eapply continue_inv.
  - destruct (counting s) eqn:Hc; [done|]. destruct (0 <? k); [|done]. intros [= <-].
    apply count_inv; [done|]. intros [? _]. congruence.
  - destruct (counting s) eqn:Hc; [|done]. destruct (Z.ltb_spec 0 (completed_fibers s)); [|done]. intros [= <-].
    apply count_inv; [done|]. intros [_ ?]. lia.
Qed.

Lemma reachable_inv s : reachable s -> inv s.
Proof. induction 1; [apply initial_inv|by eapply step_inv]. Qed.

(** The stack a thread is on, when it is not about to jump away, is its own. *)
Lemma stack_owner own s t th sk :
  owned own s -> s.(threads) !! t = Some th -> th.(stack) = Some sk -> (forall to, th.(at_) <> Jump to) ->
  own !! sk = Some (OnIt t).
Proof.
  intros Hi Ht Hs Hj. pose proof (inv_thread own s Hi t th Ht) as Hok.
  assert (Hon : on_own own t th); [|destruct Hon as (sk' & Hs' & ?); congruence].
  unfold thread_ok in Hok. destruct (at_ th) as [| | | | |to| |].
  - destruct Hok as [[_ ?]|(c & _ & _ & ?)]; [congruence|done].
  - by destruct Hok as (_ & _ & ? & _).
  - by destruct Hok as (_ & _ & ? & _).
  - by destruct Hok.
  - by destruct Hok.
  - by destruct (Hj to).
  - by destruct Hok as (c & _ & ? & _).
  - by destruct Hok as (c & _ & ? & _).
Qed.


(** ** A switch that is not interrupted *)

(** C31: [ult_switch_to] to a fiber nobody runs, not interrupted.  While fibers are left to
    complete the thread ends up on the stack of that fiber, which is locked, and
    the fiber it left is free with its context saved; nothing else changes.
    When none is left the switch is skipped but the flag stays set: the fiber
    can never be taken again. *)
Theorem ult_switch s t th from to uf u :
  s.(threads) !! t = Some th -> th.(at_) = Run -> th.(current) = Some from -> th.(stack) = Some from ->
  s.(counting) = true -> s.(ults) !! from = Some uf -> s.(ults) !! to = Some u ->
  u.(running) = false -> u.(context) = Some (Cont to Run) ->
  to <> 0 -> from <> to -> to ∈ s.(known) ->
  (0 < s.(completed_fibers) ->
   steps ((t, SwitchTo to) :: replicate 5 (t, Continue)) s =
     Some (set_thread t (Thread (Some to) th.(context_creat) (Some to) Run)
            (set_ult from (Ult false (Some (Cont from Run)) uf.(id))
              (set_ult to (set_running true u) s)))) /\
  (s.(completed_fibers) <= 0 ->
   steps ((t, SwitchTo to) :: replicate 2 (t, Continue)) s = Some (set_ult to (set_running true u) s)).
Proof.
  intros Ht Ha Hc Hs Hct Hf Hu Hr Hcx Hn0 Hne Hk.
  assert (Hst : forall x y (m : gmap Z thread), <[t := x]> (<[t := y]> m) = <[t := x]> m)
    by (intros; apply insert_insert_eq).
  assert (H1 : step t (SwitchTo to) s =
            Some (set_thread t (go (Test1 from to) th) (set_ult to (set_running true u) s))).
  { unfold step. rewrite Ht, decide_True by done. rewrite (bool_decide_eq_true_2 (to ∈ known s)) by done.
    rewrite Hct, orb_true_r. simpl. unfold ult_switch_to, ult_trylock. rewrite Hc, Hu, Hr.
    by replace (to =? 0) with false by lia. }
  split; intros Hcf.
  - cbn [steps replicate]. rewrite H1. unfold step, continue, context_save, ult_unlock, long_jmp, set_thread, set_ult.
    simpl. rewrite !lookup_insert_eq. simpl. replace (0 <? completed_fibers s) with true by lia.
    rewrite !lookup_insert_eq. simpl. replace (0 <? completed_fibers s) with true by lia. simpl.
    rewrite !lookup_insert_eq. simpl. rewrite Hs.
    rewrite lookup_insert_ne by done. rewrite Hf. simpl.
    rewrite !lookup_insert_eq. simpl. rewrite !lookup_insert_eq. simpl.
    rewrite !lookup_insert_eq. simpl. rewrite !lookup_insert_ne by done. rewrite lookup_insert_eq.
    destruct u as [r cx i]. simpl in *. subst cx. simpl. rewrite !Hst.
    by rewrite insert_insert_eq.
  - cbn [steps replicate]. rewrite H1. unfold step, continue, set_thread, set_ult. simpl.
    rewrite !lookup_insert_eq. simpl. replace (0 <? completed_fibers s) with false by lia. simpl.
    rewrite !lookup_insert_eq. simpl. replace (0 <? completed_fibers s) with false by lia. simpl.
    rewrite !Hst. unfold go. simpl. do 2 f_equal. apply insert_id. rewrite Ht. destruct th; simpl in *. by subst.
Qed.

(** ** Fiber-local storage and stacks *)

Record fls_state := FlsState { fls : list Z; fls_idx : Z }.

Definition fls_alloc (s : fls_state) : Z * fls_state :=
  let ret := s.(fls_idx) in
  (if MAX_FLS <=? ret then -1 else ret, FlsState s.(fls) (s64 (ret + 1))).

(** [None] where the index is outside the array. *)
Definition fls_get (idx : Z) (s : fls_state) : option Z :=
  if (0 <=? idx) && (idx <? MAX_FLS) then s.(fls) !! Z.to_nat idx else None.
Definition fls_set (idx value : Z) (s : fls_state) : option fls_state :=
  if (0 <=? idx) && (idx <? MAX_FLS) then Some (FlsState (<[Z.to_nat idx := value]> s.(fls)) s.(fls_idx)) else None.
Definition fls_free (idx : Z) (s : fls_state) : bool * fls_state := (true, s).

Definition fls_start : fls_state := FlsState (replicate 4096 0) 0.

Fixpoint allocs (n : nat) (s : fls_state) : list Z * fls_state :=
  match n with
  | O => ([], s)
  | S n' => let (r, s1) := fls_alloc s in let (rs, s2) := allocs n' s1 in (r :: rs, s2)
  end.

(** The bytes [get_ult_stack] allocates and the bytes it clears, for a page
    size and the [SIGSTKSZ] of the system. *)
Definition get_ult_stack (page sigstksz size : Z) : Z * Z :=
  let size := if size <=? 0 then sigstksz else size in
  let reminder := size mod page in
  let size := if reminder =? 0 then size else u64 (size + (page - reminder)) in
  (STACK_SIZE, size).

(** The allocations of all fibers together: indices 0 to 4095 in order, then -1
    for as long as the counter does not overflow. *)
Lemma allocs_spec n s k :
  s.(fls_idx) = k -> 0 <= k -> k + Z.of_nat n < 2 ^ 63 ->
  (allocs n s).1 = (fun i => if MAX_FLS <=? i then -1 else i) <$> seqZ k (Z.of_nat n).
Proof.
  revert s k. induction n as [|n IH]; intros s k Hk H0 Hb; [done|].
  rewrite seqZ_cons by lia. cbn [allocs]. unfold fls_alloc. rewrite Hk.
  specialize (IH (FlsState s.(fls) (s64 (k + 1))) (k + 1)). destruct (allocs n _) as [rs s2]. simpl in IH |- *.
  f_equal. rewrite IH; [f_equal; f_equal; lia|by rewrite s64_small by lia|lia|lia].
Qed.

(** The stack is a multiple of the page size, and clearing it leaves the
    allocation when more than [STACK_SIZE] bytes were asked for. *)
Lemma get_ult_stack_spec sigstksz size :
  0 < size < 2 ^ 63 ->
  let (allocated, cleared) := get_ult_stack 4096 sigstksz size in
  size <= cleared < size + 4096 /\ cleared mod 4096 = 0 /\ (allocated < cleared <-> STACK_SIZE < size).
Proof.
  intros Hs. unfold get_ult_stack, STACK_SIZE. replace (size <=? 0) with false by lia.
  destruct (Z.eqb_spec (size mod 4096) 0) as [Hr|Hr].
  - split_and!; [lia|lia|lia|lia].
  - pose proof (Z.mod_pos_bound size 4096 ltac:(lia)). rewrite u64_small by lia.
    pose proof (Z.div_mod size 4096 ltac:(lia)).
    replace (size + (4096 - size mod 4096)) with ((size / 4096 + 1) * 4096) by lia.
    split_and!; [lia|lia|apply Z.mod_mul; lia|lia].
Qed.

(** ** Runs *)

Lemma steps_reachable l s s' : reachable s -> steps l s = Some s' -> reachable s'.
Proof.
  revert s. induction l as [|[t e] l IH]; intros s Hs Hl; cbn [steps] in Hl; [by simplify_eq|].
  destruct (step t e s) as [s1|] eqn:H1; [|done]. apply (IH s1); [|done]. by eapply reachable_step.
Qed.

(** Two converted threads; thread 0 makes fiber 3 and comes back. *)
Definition made : list (Z * event) :=
  [(0, Convert 1); (0, Assign 2); (1, Convert 2); (0, Creat 3)] ++ replicate 8 (0, Continue).
(** Thread 0 leaves fiber 1 for fiber 3 and is stopped before the jump; thread
    1 switches to fiber 1. *)
Definition overlap : list (Z * event) :=
  made ++ (0, SwitchTo 3) :: replicate 4 (0, Continue) ++ (1, SwitchTo 1) :: replicate 5 (1, Continue).
(** Thread 0 asks for fiber 3 and makes the first test; both fibers complete; at
    the second test the switch is given up. *)
Definition too_late : list (Z * event) :=
  made ++ [(0, SwitchTo 3); (0, Continue); (1, Complete); (1, Complete); (0, Continue)].

Lemma ult_stack_window : exists s th0 th1,
  reachable s /\ s.(threads) !! 0 = Some th0 /\ s.(threads) !! 1 = Some th1 /\
  th0.(stack) = Some 1 /\ th0.(at_) = Jump 3 /\ th1.(stack) = Some 1 /\ th1.(at_) = Run.
Proof.
  destruct (steps overlap (initial 2)) as [s|] eqn:Hs; [|vm_compute in Hs; discriminate Hs].
  assert (reachable s) as Hr by (eapply steps_reachable; [apply (reachable_initial 2)|exact Hs]).
  vm_compute in Hs. injection Hs as <-. do 3 eexists. split; [exact Hr|]. split_and!; vm_compute; reflexivity.
Qed.


(** Thread 0 runs fiber 1; fiber 3 is free. *)
Definition parked (completed : Z) : state :=
  State {[ 1 := Ult true (Some (Cont 1 Run)) 0; 3 := Ult false (Some (Cont 3 Run)) 1 ]}
    {[ 0 := Thread (Some 1) 3 (Some 1) Run ]} 2 completed true {[ 1; 3 ]}.

Lemma ult_switch_witness :
  steps ((0, SwitchTo 3) :: replicate 5 (0, Continue)) (parked 2) =
    Some (set_thread 0 (Thread (Some 3) 3 (Some 3) Run)
      (set_ult 1 (Ult false (Some (Cont 1 Run)) 0) (set_ult 3 (Ult true (Some (Cont 3 Run)) 1) (parked 2)))) /\
  steps ((0, SwitchTo 3) :: replicate 2 (0, Continue)) (parked 0) =
    Some (set_ult 3 (Ult true (Some (Cont 3 Run)) 1) (parked 0)).
Proof.
  split.
  - apply (ult_switch (parked 2) 0 (Thread (Some 1) 3 (Some 1) Run) 1 3 (Ult true (Some (Cont 1 Run)) 0)
             (Ult false (Some (Cont 3 Run)) 1)); (reflexivity || lia || set_solver).
  - apply (ult_switch (parked 0) 0 (Thread (Some 1) 3 (Some 1) Run) 1 3 (Ult true (Some (Cont 1 Run)) 0)
             (Ult false (Some (Cont 3 Run)) 1)); (reflexivity || lia || set_solver).
Defined.
