(* ===== verification/Double.v ===== *)
(** * Double precision numbers

    The calendar queue and the model of the benchmark compute with [double].
    A [double] is a binary64 number of IEEE 754 ([SpecFloat] of the Standard
    Library, with 53 bits of precision and exponents below 1024, rounded to
    nearest); all NaNs are one.

    A conversion to an integer type truncates.  C leaves it undefined when the
    value does not fit; the benchmark is for x86-64 (jmp.S), where the
    instruction [cvttsd2si] gives the least number of the type. *)

From Stdlib Require Export Floats.SpecFloat.
From S2P Require Import Prelude.

Definition double : Type := spec_float.

Definition dadd : double -> double -> double := SFadd 53 1024.
Definition dsub : double -> double -> double := SFsub 53 1024.
Definition dmul : double -> double -> double := SFmul 53 1024.
Definition ddiv : double -> double -> double := SFdiv 53 1024.
Definition dlt (x y : double) : bool := SFltb x y.
Definition dle (x y : double) : bool := SFleb x y.
Definition deq (x y : double) : bool := SFeqb x y.

(** The conversion from an integer. *)
Definition of_Z (n : Z) : double := binary_normalize 53 1024 n 0 false.

(** The decimal fraction [m / p], rounded; [p] is a power of ten. *)
Definition decimal (m p : positive) : double :=
  let '(q, e, l) := SFdiv_core_binary 53 1024 (Z.pos m) 0 (Z.pos p) 0 in
  binary_round_aux 53 1024 false q e l.

(** The integral part of a finite number. *)
Definition trunc (x : double) : option Z :=
  match x with
  | S754_zero _ => Some 0
  | S754_finite s m e =>
      let n := if 0 <=? e then Z.pos m * 2 ^ e else Z.pos m / 2 ^ (- e) in
      Some (if s then - n else n)
  | S754_infinity _ | S754_nan => None
  end.

(** The conversion to a signed integer of [w] bits. *)
Definition cvt (w : Z) (x : double) : Z :=
  match trunc x with
  | Some n => if (- 2 ^ (w - 1) <=? n) && (n <? 2 ^ (w - 1)) then n else - 2 ^ (w - 1)
  | None => - 2 ^ (w - 1)
  end.

Abbreviation to_int := (cvt 32).
Abbreviation to_long := (cvt 64).

#[export] Instance double_eq_dec : EqDecision double.
Proof. unfold double. solve_decision. Defined.

(** ** Order *)

Definition number (x : double) : bool := match x with S754_nan => false | _ => true end.

Lemma dle_number x y : dle x y = true -> number x = true /\ number y = true.
Proof. by destruct x, y. Qed.

Ltac cmp_cases :=
  repeat match goal with
  | |- context [?a ?= ?b] => destruct (Z.compare_spec a b); subst
  | H : context [?a ?= ?b] |- _ => destruct (Z.compare_spec a b); subst
  | |- context [Pos.compare_cont Eq ?a ?b] =>
      change (Pos.compare_cont Eq a b) with (Pos.compare a b);
      destruct (Pos.compare_spec a b); subst
  | H : context [Pos.compare_cont Eq ?a ?b] |- _ =>
      change (Pos.compare_cont Eq a b) with (Pos.compare a b) in H;
      destruct (Pos.compare_spec a b); subst
  | s : bool |- _ => destruct s
  end; cbn in *.

Lemma dle_trans x y z : dle x y = true -> dle y z = true -> dle x z = true.
Proof.
  unfold dle, SFleb, SFcompare.
  destruct x, y, z; intros; cmp_cases; try done; try lia.
Qed.

Lemma dle_total x y :
  number x = true -> number y = true -> dlt y x = false -> dle x y = true.
Proof.
  unfold dle, SFleb, dlt, SFltb, SFcompare.
  destruct x, y; intros; cmp_cases; try done; try lia.
Qed.

Lemma dlt_le x y : dlt x y = true -> dle x y = true.
Proof. unfold dle, SFleb, dlt, SFltb. by destruct (SFcompare x y) as [[]|]. Qed.

Lemma dlt_not_le x y : dlt x y = true -> dle y x = false.
Proof.
  unfold dle, SFleb, dlt, SFltb, SFcompare.
  destruct x, y; intros; cmp_cases; try done; try lia.
Qed.

Lemma dle_refl x : number x = true -> dle x x = true.
Proof.
  unfold dle, SFleb, SFcompare. destruct x; intros; cmp_cases; try done; lia.
Qed.

(** ** Signs *)

Definition positive_sign (x : double) : bool :=
  match x with
  | S754_zero s | S754_infinity s | S754_finite s _ _ => negb s
  | S754_nan => true
  end.

Lemma round_aux_sign s m e l :
  match binary_round_aux 53 1024 s m e l with
  | S754_zero s' | S754_infinity s' | S754_finite s' _ _ => s' = s
  | S754_nan => True
  end.
Proof.
  unfold binary_round_aux. destruct shr_fexp as [mrs e'], shr_fexp as [mrs' e''].
  destruct (shr_m mrs'); [done| |done]. by destruct (_ <=? _).
Qed.

Lemma trunc_nonneg x n : positive_sign x = true -> trunc x = Some n -> 0 <= n.
Proof.
  destruct x as [| | |[] m e]; simpl; intros; simplify_eq; [done|].
  case_match; [nia|]. apply Z.div_pos; lia.
Qed.

Lemma round_aux_positive m e l : positive_sign (binary_round_aux 53 1024 false m e l) = true.
Proof.
  pose proof (round_aux_sign false m e l). by destruct binary_round_aux; simplify_eq/=.
Qed.

(** A number that is not below zero, divided by one that is not negative or is
    NaN, is not below zero, if it is a number that has an integral part. *)
Lemma ddiv_nonneg x y n :
  dle (of_Z 0) x = true -> dlt y (of_Z 0) = false ->
  trunc (ddiv x y) = Some n -> 0 <= n.
Proof.
  intros Hx Hy.
  destruct x as [sx|[]| |[] mx ex], y as [sy|[]| |[] my ey];
    try discriminate Hx; try discriminate Hy;
    try (cbn; intros; simplify_eq; done).
  apply trunc_nonneg. unfold ddiv, SFdiv.
  destruct SFdiv_core_binary as [[m e] l]. apply round_aux_positive.
Qed.

Lemma cvt_range w x : 1 <= w -> - 2 ^ (w - 1) <= cvt w x < 2 ^ (w - 1).
Proof.
  intros. pose proof (Z.pow_pos_nonneg 2 (w - 1)).
  unfold cvt. destruct (trunc x); [case_match|]; lia.
Qed.

(** ** Rounding *)

Lemma digits2_log2 m : Z.pos (digits2_pos m) = Z.log2 (Z.pos m) + 1.
Proof.
  induction m as [m IH|m IH|]; cbn [digits2_pos]; [| |done].
  - rewrite Pos2Z.inj_succ, IH, (Pos2Z.inj_xI m), Z.log2_succ_double by lia. lia.
  - rewrite Pos2Z.inj_succ, IH, (Pos2Z.inj_xO m), Z.log2_double by lia. lia.
Qed.

Lemma shr_1_m mrs : 0 <= shr_m mrs -> shr_m (shr_1 mrs) = shr_m mrs / 2.
Proof.
  destruct mrs as [[|[p|p|]|p] r s]; cbn; intros; try done; try lia.
  - rewrite Pos2Z.inj_xI. apply Z.div_unique with 1; lia.
  - rewrite Pos2Z.inj_xO. apply Z.div_unique with 0; lia.
Qed.

Lemma div_pow2_add m a b : 0 <= a -> 0 <= b -> m / 2 ^ a / 2 ^ b = m / 2 ^ (a + b).
Proof.
  intros. pose proof (Z.pow_pos_nonneg 2 a). pose proof (Z.pow_pos_nonneg 2 b).
  rewrite Z.div_div by lia. by rewrite Z.pow_add_r.
Qed.

Lemma div_pow2_nonneg m a : 0 <= m -> 0 <= a -> 0 <= m / 2 ^ a.
Proof. intros. apply Z.div_pos; [done|]. by apply Z.pow_pos_nonneg. Qed.

Lemma iter_shr_m p mrs :
  0 <= shr_m mrs -> shr_m (SpecFloat.iter_pos shr_1 p mrs) = shr_m mrs / 2 ^ Z.pos p.
Proof.
  revert mrs. induction p as [p IH|p IH|]; intros mrs Hm; cbn [SpecFloat.iter_pos].
  - assert (H1 : shr_m (shr_1 mrs) = shr_m mrs / 2 ^ 1) by (by rewrite shr_1_m).
    assert (0 <= shr_m (shr_1 mrs)) by (rewrite H1; by apply div_pow2_nonneg).
    rewrite IH; rewrite IH; rewrite ?H1; try (repeat apply div_pow2_nonneg; lia).
    rewrite !div_pow2_add by lia. do 2 f_equal. lia.
  - rewrite IH; rewrite IH; try (repeat apply div_pow2_nonneg; lia).
    rewrite !div_pow2_add by lia. do 2 f_equal. lia.
  - rewrite shr_1_m; done.
Qed.

(** How far a mantissa [m] with exponent [e] is shifted to fit. *)
Definition excess (m e : Z) : Z := Z.max 0 (fexp 53 1024 (Zdigits2 m + e) - e).

Lemma shr_fexp_spec m e l :
  0 <= m ->
  exists r s, shr_fexp 53 1024 m e l
    = (Build_shr_record (m / 2 ^ excess m e) r s, e + excess m e).
Proof.
  intros Hm. unfold shr_fexp, excess, shr.
  assert (Hl : shr_m (shr_record_of_loc m l) = m) by (by destruct l as [|[]]).
  destruct (fexp 53 1024 (Zdigits2 m + e) - e) as [|p|p] eqn:Hn; cbn [Z.max Z.compare].
  - destruct (shr_record_of_loc m l) as [m' r s]; cbn in Hl; subst.
    exists r, s. by rewrite Z.add_0_r, Z.div_1_r.
  - pose proof (iter_shr_m p (shr_record_of_loc m l)) as Hi. rewrite Hl in Hi.
    destruct (SpecFloat.iter_pos _ _ _) as [m' r s]; cbn in Hi. exists r, s. rewrite Hi by done. done.
  - destruct (shr_record_of_loc m l) as [m' r s]; cbn in Hl; subst.
    exists r, s. by rewrite Z.add_0_r, Z.div_1_r.
Qed.

(** The outcome of rounding: the mantissa is shifted to fit, rounded to one of
    its neighbours (itself, when nothing was lost), and shifted again if that
    made it longer. *)
Lemma round_aux_spec s m e l :
  0 <= m ->
  let n := excess m e in
  exists r, (r = m / 2 ^ n \/ r = m / 2 ^ n + 1) /\
    (n = 0 -> l = loc_Exact -> r = m) /\
    let n' := excess r (e + n) in
    binary_round_aux 53 1024 s m e l =
      match r / 2 ^ n' with
      | Z0 => S754_zero s
      | Zpos k => if e + n + n' <=? 971 then S754_finite s k (e + n + n') else S754_infinity s
      | Zneg _ => S754_nan
      end.
Proof.
  intros Hm. cbv zeta. unfold binary_round_aux.
  destruct (shr_fexp_spec m e l Hm) as (r & st & Heq). rewrite Heq.
  set (m1 := m / 2 ^ excess m e) in *.
  assert (0 <= m1) by (apply div_pow2_nonneg; unfold excess; lia).
  set (lc := loc_of_shr_record _). cbn [shr_m].
  assert (Hr : 0 <= round_nearest_even m1 lc
             /\ (round_nearest_even m1 lc = m1 \/ round_nearest_even m1 lc = m1 + 1)).
  { unfold round_nearest_even. destruct lc as [|[]]; [lia| |lia|lia].
    destruct (Z.even m1); cbn [negb]; lia. }
  destruct Hr as [Hr0 Hr]. exists (round_nearest_even m1 lc). split_and!; [done| |].
  - intros Hn ->. unfold m1, lc. rewrite Hn, Z.div_1_r.
    assert (Hs : (r, st) = (false, false)).
    { revert Heq. unfold shr_fexp, excess in *. unfold shr.
      destruct (fexp 53 1024 (Zdigits2 m + e) - e); [|lia|]; cbn; congruence. }
    simplify_eq. done.
  - destruct (shr_fexp_spec (round_nearest_even m1 lc) (e + excess m e) loc_Exact Hr0)
      as (r' & st' & ->). done.
Qed.

(** ** Integers as doubles *)

Lemma iter_xO m d : Pos.iter xO m d = (m * 2 ^ d)%positive.
Proof.
  apply (Pos.peano_ind (fun d => Pos.iter xO m d = (m * 2 ^ d)%positive)); [change (2 ^ 1)%positive with 2%positive; cbn; lia|].
  intros d' IH. rewrite Pos.iter_succ, IH, Pos.pow_succ_r. lia.
Qed.

(** The mantissa of a positive integer of at most 53 bits. *)
Definition mantissa (n : Z) : Z := n * 2 ^ (52 - Z.log2 n).

Lemma mantissa_bounds n : 0 < n < 2 ^ 53 -> 2 ^ 52 <= mantissa n < 2 ^ 53.
Proof.
  intros Hn. unfold mantissa. pose proof (Z.log2_spec n) as [Hl Hu]; [lia|].
  assert (Z.log2 n < 53) by (apply Z.log2_lt_pow2; lia).
  pose proof (Z.log2_nonneg n).
  replace (2 ^ 52) with (2 ^ Z.log2 n * 2 ^ (52 - Z.log2 n))
    by (rewrite <- Z.pow_add_r by lia; f_equal; lia).
  replace (2 ^ 53) with (2 ^ Z.succ (Z.log2 n) * 2 ^ (52 - Z.log2 n))
    by (rewrite <- Z.pow_add_r by lia; f_equal; lia).
  pose proof (Z.pow_pos_nonneg 2 (52 - Z.log2 n)). nia.
Qed.

Lemma round_exact s m e :
  2 ^ 52 <= m < 2 ^ 53 -> -1074 <= e <= 971 ->
  binary_round_aux 53 1024 s m e loc_Exact = S754_finite s (Z.to_pos m) e.
Proof.
  intros Hm He. destruct m as [|k|k]; [lia| |lia].
  assert (Hd : Zdigits2 (Z.pos k) = 53).
  { cbn [Zdigits2]. rewrite digits2_log2. rewrite (Z.log2_unique _ 52); lia. }
  assert (Hx : excess (Z.pos k) e = 0).
  { unfold excess, fexp, emin. rewrite Hd. lia. }
  destruct (round_aux_spec s (Z.pos k) e loc_Exact) as (r & _ & Hr & ->); [lia|].
  rewrite Hx in *. rewrite (Hr eq_refl eq_refl), Z.add_0_r, Hx, Z.div_1_r, Z.add_0_r.
  destruct (Z.leb_spec e 971); [done|lia].
Qed.

Lemma binary_round_int s m :
  Z.pos m < 2 ^ 53 ->
  binary_round 53 1024 s m 0
    = S754_finite s (Z.to_pos (mantissa (Z.pos m))) (Z.log2 (Z.pos m) - 52).
Proof.
  intros Hm. unfold binary_round. rewrite digits2_log2.
  assert (Z.log2 (Z.pos m) < 53) by (apply Z.log2_lt_pow2; lia).
  pose proof (Z.log2_nonneg (Z.pos m)).
  pose proof (mantissa_bounds (Z.pos m)).
  replace (fexp 53 1024 (Z.log2 (Z.pos m) + 1 + 0)) with (Z.log2 (Z.pos m) - 52)
    by (unfold fexp, emin; lia).
  unfold shl_align. rewrite Z.sub_0_r.
  destruct (Z.log2 (Z.pos m) - 52) as [|d|d] eqn:Hd; [| lia |].
  - assert (Z.log2 (Z.pos m) = 52) by lia.
    unfold mantissa in *. replace (52 - Z.log2 (Z.pos m)) with 0 in * by lia.
    rewrite Z.mul_1_r in *. apply round_exact; lia.
  - assert (Hk : Z.pos (Pos.iter xO m d) = mantissa (Z.pos m)).
    { rewrite iter_xO, Pos2Z.inj_mul, Pos2Z.inj_pow. unfold mantissa. do 2 f_equal. lia. }
    rewrite Hk. apply round_exact; lia.
Qed.

Lemma of_Z_pos n :
  0 < n < 2 ^ 53 -> of_Z n = S754_finite false (Z.to_pos (mantissa n)) (Z.log2 n - 52).
Proof. destruct n as [|m|m]; [lia| |lia]. intros. apply binary_round_int. lia. Qed.

Lemma of_Z_neg n :
  - 2 ^ 53 < n < 0 -> of_Z n = S754_finite true (Z.to_pos (mantissa (- n))) (Z.log2 (- n) - 52).
Proof. destruct n as [|m|m]; [lia|lia|]. intros. apply binary_round_int. lia. Qed.

(** Exponents, then mantissas, compare as the integers do. *)
Lemma mantissa_compare a b :
  0 < a < 2 ^ 53 -> 0 < b < 2 ^ 53 ->
  match Z.log2 a - 52 ?= Z.log2 b - 52 with
  | Eq => Pos.compare (Z.to_pos (mantissa a)) (Z.to_pos (mantissa b))
  | c => c
  end = (a ?= b).
Proof.
  intros Ha Hb.
  pose proof (mantissa_bounds a Ha). pose proof (mantissa_bounds b Hb).
  destruct (Z.compare_spec (Z.log2 a - 52) (Z.log2 b - 52)) as [He|He|He].
  - rewrite Pos2Z.inj_compare, !Z2Pos.id by lia.
    unfold mantissa. replace (Z.log2 b) with (Z.log2 a) by lia.
    assert (Z.log2 a < 53) by (apply Z.log2_lt_pow2; lia).
    pose proof (Z.pow_pos_nonneg 2 (52 - Z.log2 a)).
    by rewrite <- Zmult_compare_compat_r by lia.
  - symmetry. apply Z.compare_lt_iff. apply Z.log2_lt_cancel. lia.
  - symmetry. apply Z.compare_gt_iff. apply Z.log2_lt_cancel. lia.
Qed.

Lemma of_Z_compare a b :
  - 2 ^ 53 < a < 2 ^ 53 -> - 2 ^ 53 < b < 2 ^ 53 ->
  SFcompare (of_Z a) (of_Z b) = Some (a ?= b).
Proof.
  intros Ha Hb.
  destruct (Z.lt_trichotomy a 0) as [?|[->|?]], (Z.lt_trichotomy b 0) as [?|[->|?]];
    rewrite ?(of_Z_pos a), ?(of_Z_pos b), ?(of_Z_neg a), ?(of_Z_neg b) by lia; cbn [SFcompare of_Z binary_normalize]; f_equal;
    try (symmetry; first [apply Z.compare_lt_iff | apply Z.compare_gt_iff]; lia); [|].
  - pose proof (mantissa_compare (- a) (- b)) as HM.
    assert (HE : (- a ?= - b) = CompOpp (a ?= b)) by (destruct (Z.compare_spec (- a) (- b)), (Z.compare_spec a b); cbn; done || lia).
    rewrite HE in HM.
    rewrite <- (CompOpp_involutive (a ?= b)), <- HM by lia.
    change (Pos.compare_cont Eq) with Pos.compare. by destruct (_ ?= _)%Z.
  - apply mantissa_compare; lia.
Qed.

Lemma dlt_of_Z a b :
  - 2 ^ 53 < a < 2 ^ 53 -> - 2 ^ 53 < b < 2 ^ 53 -> dlt (of_Z a) (of_Z b) = (a <? b).
Proof. intros. unfold dlt, SFltb, Z.ltb. rewrite of_Z_compare by done. by destruct (a ?= b). Qed.

(** ** Quotients of integers *)

Lemma digits_excess m e k :
  2 ^ k <= m < 2 ^ (k + 1) -> 0 <= k -> excess m e = Z.max 0 (Z.max (k - 52) (-1074 - e)).
Proof.
  intros Hm Hk. pose proof (Z.pow_pos_nonneg 2 k). destruct m as [|m|m]; [lia| |lia].
  unfold excess, fexp, emin, Zdigits2. rewrite digits2_log2, (Z.log2_unique _ k) by lia. lia.
Qed.

Lemma trunc_pos k e :
  e <= 0 -> trunc (S754_finite false k e) = Some (Z.pos k / 2 ^ (- e)).
Proof.
  intros. unfold trunc. destruct (Z.leb_spec 0 e); [|done].
  replace e with 0 by lia. by rewrite Z.mul_1_r, Z.div_1_r.
Qed.

(** A mantissa that fits, or is one longer than what fits because rounding made
    it so. *)
Lemma trunc_fit r e :
  2 ^ 52 <= r <= 2 ^ 53 -> -1074 <= e < 0 ->
  let n := excess r e in
  trunc (match r / 2 ^ n with
         | Z0 => S754_zero false
         | Zpos k => if e + n <=? 971 then S754_finite false k (e + n) else S754_infinity false
         | Zneg _ => S754_nan
         end) = Some (r / 2 ^ (- e)).
Proof.
  intros Hr He. cbv zeta.
  assert (Hx : exists x, excess r e = x /\ 0 <= x <= 1 /\ 2 ^ 52 <= r / 2 ^ x).
  { destruct (decide (r = 2 ^ 53)) as [->|].
    - exists 1. split_and!; [|lia|lia|vm_compute; congruence].
      rewrite (digits_excess _ _ 53) by lia. lia.
    - exists 0. rewrite (digits_excess _ _ 52) by lia. rewrite Z.div_1_r. lia. }
  destruct Hx as (x & -> & Hx & Hge).
  destruct (r / 2 ^ x) as [|k|k] eqn:Hk; [lia| |lia].
  destruct (Z.leb_spec (e + x) 971); [|lia].
  rewrite trunc_pos, <- Hk by lia. rewrite div_pow2_add by lia. do 3 f_equal. lia.
Qed.

Lemma trunc_round m t l :
  2 ^ 52 <= m < 2 ^ 54 -> 2 <= t <= 1074 ->
  exists v, 2 * (m / 2) <= v <= m + 2 /\
    trunc (binary_round_aux 53 1024 false m (- t) l) = Some (v / 2 ^ t).
Proof.
  intros Hm Ht.
  destruct (round_aux_spec false m (- t) l) as (r & Hr & _ & ->); [lia|].
  destruct (decide (m < 2 ^ 53)) as [Hlt|Hge].
  - rewrite (digits_excess m _ 52) in * by lia.
    replace (Z.max 0 _) with 0 in * by lia. rewrite Z.div_1_r, !Z.add_0_r in *.
    exists r. split; [pose proof (Z.mul_div_le m 2); lia|]. rewrite trunc_fit by lia. by rewrite Z.opp_involutive.
  - rewrite (digits_excess m _ 53) in * by lia.
    replace (Z.max 0 _) with 1 in * by lia. rewrite Z.pow_1_r in *.
    pose proof (Z.div_mod m 2). pose proof (Z.mod_pos_bound m 2).
    assert (2 ^ 52 <= m / 2 < 2 ^ 53) by lia.
    exists (2 * r). split; [lia|]. rewrite trunc_fit by lia.
    replace (2 ^ t) with (2 * 2 ^ (- (- t + 1)))
      by (rewrite <- Z.pow_succ_r by lia; f_equal; lia).
    by rewrite Z.div_mul_cancel_l by (pose proof (Z.pow_pos_nonneg 2 (- (- t + 1))); lia).
Qed.

Lemma digits2_mantissa n : 0 < n < 2 ^ 53 -> Zdigits2 (mantissa n) = 53.
Proof.
  intros Hn. pose proof (mantissa_bounds n Hn).
  destruct (mantissa n) as [|k|k] eqn:Hk; [lia| |lia].
  cbn [Zdigits2]. rewrite digits2_log2, (Z.log2_unique _ 52); lia.
Qed.

Lemma log2_lt_52 n : 0 < n < 2 ^ 52 -> 0 <= Z.log2 n < 52.
Proof. intros. split; [apply Z.log2_nonneg|]. apply Z.log2_lt_pow2; lia. Qed.

(** The quotient is computed with [t] fractional digits. *)
Lemma div_core_of_Z a b :
  0 < a < 2 ^ 52 -> 0 < b < 2 ^ 52 ->
  let t := 53 + Z.log2 b - Z.log2 a in
  exists l, SFdiv_core_binary 53 1024 (mantissa a) (Z.log2 a - 52) (mantissa b) (Z.log2 b - 52)
    = (a * 2 ^ t / b, - t, l).
Proof.
  intros Ha Hb. cbv zeta.
  pose proof (log2_lt_52 a Ha). pose proof (log2_lt_52 b Hb).
  unfold SFdiv_core_binary. rewrite !digits2_mantissa by lia.
  replace (Z.min _ _) with (- (53 + Z.log2 b - Z.log2 a)) by (unfold fexp, emin; lia).
  replace (_ - _ - - (53 + Z.log2 b - Z.log2 a)) with 53 by lia.
  destruct (Z.div_eucl _ _) as [q r] eqn:Hq.
  assert (Hd : q = Z.shiftl (mantissa a) 53 / mantissa b) by (unfold Z.div; by rewrite Hq).
  eexists. do 2 f_equal. rewrite Hd, Z.shiftl_mul_pow2 by lia. unfold mantissa.
  replace (a * 2 ^ (52 - Z.log2 a) * 2 ^ 53)
    with (a * 2 ^ (53 + Z.log2 b - Z.log2 a) * 2 ^ (52 - Z.log2 b))
    by (rewrite <- !Z.mul_assoc, <- !Z.pow_add_r by lia; do 2 f_equal; lia).
  apply Z.div_mul_cancel_r; [lia|]. pose proof (Z.pow_pos_nonneg 2 (52 - Z.log2 b)); lia.
Qed.

Lemma scaled_quotient_bounds a b :
  0 < a < 2 ^ 52 -> 0 < b < 2 ^ 52 ->
  let t := 53 + Z.log2 b - Z.log2 a in
  2 ^ 52 <= a * 2 ^ t / b < 2 ^ 54.
Proof.
  intros Ha Hb. cbv zeta.
  pose proof (log2_lt_52 a Ha). pose proof (log2_lt_52 b Hb).
  pose proof (Z.log2_spec a) as [Hla Hua]; [lia|].
  pose proof (Z.log2_spec b) as [Hlb Hub]; [lia|].
  rewrite Z.pow_succ_r in Hua, Hub by lia.
  assert (E : 2 ^ Z.log2 a * 2 ^ (53 + Z.log2 b - Z.log2 a) = 2 * 2 ^ 52 * 2 ^ Z.log2 b).
  { rewrite <- Z.pow_add_r by lia. change (2 * 2 ^ 52) with (2 ^ 53).
    rewrite <- Z.pow_add_r by lia. f_equal. lia. }
  pose proof (Z.pow_pos_nonneg 2 (53 + Z.log2 b - Z.log2 a)).
  split.
  - apply Z.div_le_lower_bound; nia.
  - apply Z.div_lt_upper_bound; [lia|]. change (2 ^ 54) with (4 * 2 ^ 52). nia.
Qed.

(** The quotient of two integers has their integral quotient as integral part:
    rounding does not reach the next integer. *)
Lemma ddiv_of_Z a b :
  0 < a < 2 ^ 52 -> 0 < b < 2 ^ 52 -> trunc (ddiv (of_Z a) (of_Z b)) = Some (a / b).
Proof.
  intros Ha Hb. rewrite !of_Z_pos by lia. unfold ddiv, SFdiv.
  pose proof (mantissa_bounds a). pose proof (mantissa_bounds b).
  rewrite !Z2Pos.id by lia. cbn [xorb].
  destruct (div_core_of_Z a b Ha Hb) as [l ->].
  pose proof (log2_lt_52 a Ha). pose proof (log2_lt_52 b Hb).
  pose proof (scaled_quotient_bounds a b Ha Hb) as Hq. cbv zeta in Hq.
  set (t := 53 + Z.log2 b - Z.log2 a) in *.
  destruct (trunc_round (a * 2 ^ t / b) t l) as (v & Hv & ->); [lia|lia|].
  f_equal. symmetry. pose proof (Z.pow_pos_nonneg 2 t).
  pose proof (Z.div_mod a b). pose proof (Z.mod_pos_bound a b).
  apply Z.div_unique with (v - 2 ^ t * (a / b)); [left|lia].
  assert (Hb2 : 2 * b < 2 ^ t).
  { pose proof (Z.log2_spec b) as [_ Hub]; [lia|].
    assert (2 ^ (Z.succ (Z.log2 b) + 1) <= 2 ^ t) by (apply Z.pow_le_mono_r; lia).
    rewrite Z.pow_add_r in * by lia. lia. }
  split.
  - assert (2 ^ t * (a / b) <= a * 2 ^ t / b) by (apply Z.div_le_lower_bound; nia).
    assert (Ht : 2 ^ t = 2 * 2 ^ (t - 1)) by (rewrite <- Z.pow_succ_r by lia; f_equal; lia).
    assert (2 ^ (t - 1) * (a / b) <= a * 2 ^ t / b / 2) by (apply Z.div_le_lower_bound; nia).
    nia.
  - assert (a * 2 ^ t / b + 2 < 2 ^ t * (a / b) + 2 ^ t); [|lia].
    apply Z.lt_add_lt_sub_r. apply Z.div_lt_upper_bound; [lia|].
    assert (a mod b * 2 ^ t <= (b - 1) * 2 ^ t) by (apply Z.mul_le_mono_nonneg_r; lia). nia.
Qed.

(** ** Sums and products *)

Lemma positive_sign_nonneg x :
  positive_sign x = true -> number x = true -> dle (of_Z 0) x = true.
Proof. by destruct x as [[]|[]| |[] m e]. Qed.

Lemma round_aux_number s m e l :
  0 <= m -> number (binary_round_aux 53 1024 s m e l) = true.
Proof.
  intros Hm. destruct (round_aux_spec s m e l Hm) as (r & Hr & _ & ->).
  assert (0 <= m / 2 ^ excess m e) by (apply div_pow2_nonneg; unfold excess; lia).
  assert (0 <= r / 2 ^ excess r (e + excess m e))
    by (apply div_pow2_nonneg; unfold excess; lia).
  destruct (r / 2 ^ excess r (e + excess m e)); [done| |lia]. by case_match.
Qed.

Lemma round_aux_nonneg m e l :
  0 <= m -> dle (of_Z 0) (binary_round_aux 53 1024 false m e l) = true.
Proof.
  intros. apply positive_sign_nonneg; [apply round_aux_positive|by apply round_aux_number].
Qed.

Lemma binary_normalize_nonneg m e :
  0 <= m -> dle (of_Z 0) (binary_normalize 53 1024 m e false) = true.
Proof.
  intros Hm. destruct m as [|m|m]; [done| |lia]. unfold binary_normalize, binary_round.
  destruct shl_align. by apply round_aux_nonneg.
Qed.

Lemma dadd_nonneg x y :
  dle (of_Z 0) x = true -> dle (of_Z 0) y = true -> dle (of_Z 0) (dadd x y) = true.
Proof.
  intros Hx Hy.
  destruct x as [[]|[]| |[] mx ex], y as [[]|[]| |[] my ey];
    try discriminate Hx; try discriminate Hy; try done.
  unfold dadd, SFadd. apply binary_normalize_nonneg. cbn [cond_Zopp]. lia.
Qed.

(** The product of numbers of which one is finite and not zero, or both are
    finite, has the sign of the product. *)
Lemma dmul_nonneg x y :
  dle (of_Z 0) x = true -> dle (of_Z 0) y = true -> number (dmul x y) = true ->
  dle (of_Z 0) (dmul x y) = true.
Proof.
  intros Hx Hy Hn.
  destruct x as [[]|[]| |[] mx ex], y as [[]|[]| |[] my ey];
    try discriminate Hx; try discriminate Hy; try discriminate Hn; try done.
  unfold dmul, SFmul. apply round_aux_nonneg. lia.
Qed.

(** Shifting a multiple of a power of two loses nothing. *)
Lemma iter_shr_exact p m :
  0 <= m ->
  SpecFloat.iter_pos shr_1 p (Build_shr_record (m * 2 ^ Z.pos p) false false)
    = Build_shr_record m false false.
Proof.
  assert (H1 : forall k, 0 <= k -> shr_1 (Build_shr_record (k * 2) false false)
                                  = Build_shr_record k false false).
  { intros [|k|k] Hk; [done| |lia]. by rewrite Z.mul_comm. }
  revert m. induction p as [p IH|p IH|]; intros m Hm; cbn [SpecFloat.iter_pos].
  - assert (E : 2 ^ Z.pos p~1 = 2 ^ Z.pos p * 2 ^ Z.pos p * 2).
    { rewrite <- Z.pow_add_r by lia. rewrite <- (Z.pow_1_r 2) at 3.
      rewrite <- Z.pow_add_r by lia. f_equal. lia. }
    rewrite E, !Z.mul_assoc, H1 by lia. rewrite IH by lia. by apply IH.
  - assert (E : 2 ^ Z.pos p~0 = 2 ^ Z.pos p * 2 ^ Z.pos p).
    { rewrite <- Z.pow_add_r by lia. f_equal. lia. }
    rewrite E, !Z.mul_assoc, IH by lia. by apply IH.
  - rewrite Z.pow_1_r. by apply H1.
Qed.

Lemma log2_shift m d : 0 < m -> 0 <= d -> Z.log2 (m * 2 ^ d) = Z.log2 m + d.
Proof. intros. rewrite Z.log2_mul_pow2 by lia. lia. Qed.

Lemma Zdigits2_log2 m : 0 < m -> Zdigits2 m = Z.log2 m + 1.
Proof. destruct m; [lia| |lia]. intros _. apply digits2_log2. Qed.

Lemma round_multiple s m e d :
  2 ^ 52 <= m < 2 ^ 53 -> -1074 <= e <= 971 -> 0 <= d ->
  binary_round_aux 53 1024 s (m * 2 ^ d) (e - d) loc_Exact = S754_finite s (Z.to_pos m) e.
Proof.
  intros Hm He Hd. rewrite <- (round_exact s m e) by done.
  assert (Hlog : Z.log2 m = 52) by (apply Z.log2_unique; lia).
  unfold binary_round_aux.
  assert (Hshr : shr_fexp 53 1024 (m * 2 ^ d) (e - d) loc_Exact
               = shr_fexp 53 1024 m e loc_Exact); [|by rewrite Hshr].
  unfold shr_fexp. pose proof (Z.pow_pos_nonneg 2 d).
  rewrite !Zdigits2_log2, log2_shift, Hlog by lia.
  replace (fexp 53 1024 (52 + d + 1 + (e - d)) - (e - d)) with d by (unfold fexp, emin; lia).
  replace (fexp 53 1024 (52 + 1 + e) - e) with 0 by (unfold fexp, emin; lia).
  unfold shr. destruct d as [|d|d]; [| |lia].
  - by rewrite Z.mul_1_r, Z.sub_0_r.
  - cbn [shr_record_of_loc]. rewrite iter_shr_exact by lia. f_equal. lia.
Qed.

Lemma shl_align_fst m e e' :
  e' <= e -> Z.pos (fst (shl_align m e e')) = Z.pos m * 2 ^ (e - e').
Proof.
  intros He. unfold shl_align. destruct (e' - e) as [|d|d] eqn:Hd; cbn [fst]; [|lia|].
  - replace (e - e') with 0 by lia. lia.
  - rewrite iter_xO, Pos2Z.inj_mul, Pos2Z.inj_pow. do 2 f_equal. lia.
Qed.

(** Sums of integers are exact. *)
Lemma dadd_of_Z a b : 0 < a -> 0 < b -> a + b < 2 ^ 53 -> dadd (of_Z a) (of_Z b) = of_Z (a + b).
Proof.
  intros Ha Hb Hab. rewrite !of_Z_pos by lia. unfold dadd, SFadd. cbn [cond_Zopp].
  set (ez := Z.min (Z.log2 a - 52) (Z.log2 b - 52)).
  assert (Hmant : forall n, 0 < n < 2 ^ 53 -> ez <= Z.log2 n - 52 <= 0 ->
            Z.pos (fst (shl_align (Z.to_pos (mantissa n)) (Z.log2 n - 52) ez)) = n * 2 ^ (- ez)).
  { intros n Hn Hez. pose proof (mantissa_bounds n Hn).
    rewrite shl_align_fst, Z2Pos.id by lia. unfold mantissa.
    rewrite <- Z.mul_assoc, <- Z.pow_add_r by lia. do 2 f_equal. lia. }
  assert (Hlog : forall n, 0 < n < 2 ^ 53 -> 0 <= Z.log2 n < 53)
    by (intros; split; [apply Z.log2_nonneg|apply Z.log2_lt_pow2; lia]).
  pose proof (Hlog a). pose proof (Hlog b). pose proof (Hlog (a + b)).
  assert (Z.log2 a <= Z.log2 (a + b)) by (apply Z.log2_le_mono; lia).
  rewrite !Hmant by lia. rewrite <- Z.mul_add_distr_r.
  pose proof (mantissa_bounds (a + b)). pose proof (Z.pow_pos_nonneg 2 (- ez)).
  set (L := Z.log2 (a + b)) in *.
  assert (HM : (a + b) * 2 ^ (- ez) = mantissa (a + b) * 2 ^ (L - 52 - ez)).
  { unfold mantissa. fold L. rewrite <- Z.mul_assoc, <- Z.pow_add_r by lia. do 2 f_equal. lia. }
  destruct ((a + b) * 2 ^ (- ez)) as [|M|M] eqn:HMe; [lia| |lia].
  unfold binary_normalize, binary_round.
  assert (Hdig : fexp 53 1024 (Z.pos (digits2_pos M) + ez) = L - 52).
  { rewrite digits2_log2, <- HMe, log2_shift by lia. fold L. unfold fexp, emin. lia. }
  rewrite Hdig. unfold shl_align.
  assert (Hnoshift : 0 <= L - 52 - ez) by lia.
  rewrite <- (round_multiple false (mantissa (a + b)) (L - 52) (L - 52 - ez)) by lia.
  rewrite <- HM. replace (L - 52 - (L - 52 - ez)) with ez by lia.
  by destruct (L - 52 - ez); [| |lia].
Qed.

(** ** Rounding of long mantissas *)

(** The mantissa is cut to 53 bits and rounded; if it is then 2^53, it is
    halved. *)
Lemma round_long s m e l :
  2 ^ 52 <= m -> -1074 <= e + (Z.log2 m - 52) < 900 ->
  let n := Z.log2 m - 52 in
  exists k e', binary_round_aux 53 1024 s m e l = S754_finite s k e' /\
    2 ^ 52 <= Z.pos k < 2 ^ 53 /\
    (e' = e + n \/ (e' = e + n + 1 /\ Z.pos k = 2 ^ 52 /\ m / 2 ^ n = 2 ^ 53 - 1)).
Proof.
  intros Hm He. cbv zeta.
  pose proof (Z.log2_spec m) as [Hlo Hhi]; [lia|].
  assert (H52 : 52 <= Z.log2 m) by (apply Z.log2_le_pow2; lia).
  destruct (round_aux_spec s m e l) as (r & Hr & _ & ->); [lia|].
  rewrite (digits_excess m e (Z.log2 m)) in * by (done || lia).
  replace (Z.max 0 _) with (Z.log2 m - 52) in * by lia.
  set (n := Z.log2 m - 52) in *.
  assert (Hdiv : 2 ^ 52 <= m / 2 ^ n < 2 ^ 53).
  { pose proof (Z.pow_pos_nonneg 2 n). split.
    - apply Z.div_le_lower_bound; [lia|]. rewrite <- Z.pow_add_r by lia.
      replace (n + 52) with (Z.log2 m) by lia. done.
    - apply Z.div_lt_upper_bound; [lia|]. rewrite <- Z.pow_add_r by lia.
      replace (n + 53) with (Z.succ (Z.log2 m)) by lia. done. }
  destruct (decide (r = 2 ^ 53)) as [->|Hne].
  - rewrite (digits_excess (2 ^ 53) _ 53) by lia.
    replace (Z.max 0 _) with 1 by lia. change (2 ^ 53 / 2 ^ 1) with (2 ^ 52). cbn [Z.pow Z.pow_pos].
    change (2 ^ 52) with 4503599627370496. cbv iota.
    rewrite (proj2 (Z.leb_le _ _)) by lia. eexists _, _. split; [done|]. lia.
  - rewrite (digits_excess r _ 52) by lia. replace (Z.max 0 _) with 0 by lia.
    rewrite Z.div_1_r. destruct r as [|k|k]; [lia| |lia].
    rewrite (proj2 (Z.leb_le _ _)) by lia. exists k, (e + n + 0). split; [done|]. lia.
Qed.

(** A positive number below one stays so, or becomes one, when it is rounded. *)
Lemma normalize_le_1 m e :
  0 < m < 2 ^ (- e) -> -1000 <= e <= -53 ->
  dlt (of_Z 0) (binary_normalize 53 1024 m e false) = true /\
  dle (binary_normalize 53 1024 m e false) (of_Z 1) = true.
Proof.
  intros Hm He. assert (Hlog : Z.log2 m < - e) by (apply Z.log2_lt_pow2; lia).
  pose proof (Z.log2_nonneg m).
  assert (Hle : forall k e', 2 ^ 52 <= Z.pos k < 2 ^ 53 -> e' <= -53 \/ (e' = -52 /\ Z.pos k = 2 ^ 52) ->
    dlt (of_Z 0) (S754_finite false k e') = true /\ dle (S754_finite false k e') (of_Z 1) = true).
  { intros k e' Hk He'. split; [done|].
    change (of_Z 1) with (S754_finite false 4503599627370496 (-52)).
    unfold dle, SFleb, SFcompare.
    destruct He' as [He'|[-> Hk2]].
    - by rewrite (proj2 (Z.compare_lt_iff e' (-52))) by lia.
    - rewrite Z.compare_refl. injection Hk2 as ->. done. }
  destruct m as [|m|m]; [lia| |lia]. unfold binary_normalize, binary_round.
  assert (Hf : fexp 53 1024 (Z.pos (digits2_pos m) + e) = Z.log2 (Z.pos m) - 52 + e)
    by (rewrite digits2_log2; unfold fexp, emin; lia).
  rewrite Hf. unfold shl_align.
  replace (Z.log2 (Z.pos m) - 52 + e - e) with (Z.log2 (Z.pos m) - 52) by lia.
  destruct (Z.log2 (Z.pos m) - 52) as [|d|d] eqn:Hd.
  - destruct (round_long false (Z.pos m) e loc_Exact) as (k & e' & -> & Hk & He'); [|lia|].
    + pose proof (Z.log2_spec (Z.pos m)) as [Hlo _]; [lia|].
      by replace (Z.log2 (Z.pos m)) with 52 in Hlo by lia.
    + apply Hle; [done|]. rewrite Hd in He'. cbn in He'. lia.
  - assert (H52 : 2 ^ 52 <= Z.pos m).
    { pose proof (Z.log2_spec (Z.pos m)) as [Hlo _]; [lia|].
      assert (2 ^ 52 <= 2 ^ Z.log2 (Z.pos m)) by (apply Z.pow_le_mono_r; lia). lia. }
    destruct (round_long false (Z.pos m) e loc_Exact H52) as (k & e' & -> & Hk & He'); [lia|].
    rewrite Hd in He'. apply Hle; [done|].
    lia.
  - assert (Hk : Z.pos (Pos.iter xO m d) = mantissa (Z.pos m)).
    { rewrite iter_xO, Pos2Z.inj_mul, Pos2Z.inj_pow. unfold mantissa. do 2 f_equal. lia. }
    pose proof (mantissa_bounds (Z.pos m)) as Hb.
    assert (Z.pos m < 2 ^ 53) by (apply Z.log2_lt_cancel; change (Z.log2 (2 ^ 53)) with 53; lia).
    rewrite Hk, round_exact by lia. apply Hle; [|lia]. rewrite Z2Pos.id by lia. lia.
Qed.
