(* ===== verification/Trace.v ===== *)
(** * Programs that may fault, with a trace

    The application of the benchmark (benchmark/2018-fibers) is modelled with
    commands over a state [S] that end with an outcome, a state also when they
    fault, and a trace: the widths of buckets its queue has chosen.  A run is
    [steady] when it does not fault unless a width in its trace is negative. *)

From S2P Require Import Prelude Double.

(** - [BadAccess]: memory that is not allocated, not initialised, or freed;
    - [NullPointer]: NULL is dereferenced;
    - [Undefined]: a division by zero or an overflow of a signed counter;
    - [Spin]: a loop is out of fuel;
    - [Aborted], [Exited]: the program ends by [abort] or [exit(EXIT_FAILURE)]. *)
Inductive fault := BadAccess | NullPointer | Undefined | Spin | Aborted | Exited.

Inductive outcome (A : Type) :=
  | Ok (a : A)
  | Fault (f : fault).
Arguments Ok {A} a.
Arguments Fault {A} f.

Section Trace.
Context {S : Type}.

Definition traceM (A : Type) : Type := S -> outcome A * S * list double.

Definition ret {A} (a : A) : traceM A := fun s => (Ok a, s, []).
Definition bind {A B} (m : traceM A) (f : A -> traceM B) : traceM B :=
  fun s =>
    match m s with
    | (Ok a, s', ws) => let '(r, s'', ws') := f a s' in (r, s'', ws ++ ws')
    | (Fault x, s', ws) => (Fault x, s', ws)
    end.
Definition fail {A} (x : fault) : traceM A := fun s => (Fault x, s, []).
Definition get : traceM S := fun s => (Ok s, s, []).
Definition modify (f : S -> S) : traceM unit := fun s => (Ok tt, f s, []).
Definition chosen (w : double) : traceM unit := fun s => (Ok tt, s, [w]).

Fixpoint for_each {A} (f : A -> traceM unit) (l : list A) : traceM unit :=
  match l with
  | [] => ret tt
  | x :: l => bind (f x) (fun _ => for_each f l)
  end.

(** The value behind a pointer that may be NULL. *)
Definition deref {A} (n : option A) : traceM A :=
  match n with Some n => ret n | None => fail NullPointer end.

(** The value in a memory that may not hold one. *)
Definition access {A} (n : option A) : traceM A :=
  match n with Some n => ret n | None => fail BadAccess end.

Lemma bind_ok {A B} (m : traceM A) (f : A -> traceM B) s a s' :
  m s = (Ok a, s', []) -> bind m f s = f a s'.
Proof. unfold bind. intros ->. by destruct (f a s') as [[]]. Qed.

Lemma bind_get {B} (f : S -> traceM B) s : bind get f s = f s s.
Proof. by apply bind_ok. Qed.

Lemma bind_modify {B} g (f : unit -> traceM B) s : bind (modify g) f s = f tt (g s).
Proof. by apply bind_ok. Qed.

Lemma bind_ret {A B} a (f : A -> traceM B) s : bind (ret a) f s = f a s.
Proof. by apply bind_ok. Qed.

Lemma bind_access {A B} a (f : A -> traceM B) n s : n = Some a -> bind (access n) f s = f a s.
Proof. intros ->. by apply bind_ok. Qed.

(** ** Runs in which no width is negative *)

(** A width may also be NaN. *)
Definition steady {A} (x : outcome A * S * list double) (Q : A -> S -> Prop) : Prop :=
  let '(r, s, ws) := x in
  Forall (fun w => dlt w (of_Z 0) = false) ws -> exists a, r = Ok a /\ Q a s.

Lemma steady_bind {A B} (m : traceM A) (f : A -> traceM B) s (Q : B -> S -> Prop) :
  steady (m s) (fun a s1 => steady (f a s1) Q) -> steady (bind m f s) Q.
Proof.
  unfold steady, bind. destruct (m s) as [[[a|x] s1] ws]; intros H.
  - destruct (f a s1) as [[r s2] ws2] eqn:Hf. intros [Hw Hw2]%Forall_app.
    destruct (H Hw) as (a' & [= <-] & Hq). rewrite Hf in Hq. auto.
  - intros Hw. by destruct (H Hw) as (? & ? & _).
Qed.

Lemma steady_ok {A} (m : traceM A) s a s1 ws (Q : A -> S -> Prop) :
  m s = (Ok a, s1, ws) -> Q a s1 -> steady (m s) Q.
Proof. unfold steady. intros -> ? _. eauto. Qed.

Lemma steady_result {A} (a : A) s ws (Q : A -> S -> Prop) : Q a s -> steady (Ok a, s, ws) Q.
Proof. intros ? _. eauto. Qed.

Lemma steady_mono {A} x (Q Q' : A -> S -> Prop) :
  steady x Q -> (forall a s, Q a s -> Q' a s) -> steady x Q'.
Proof. destruct x as [[r s] ws]. unfold steady. intros H HQ Hw. naive_solver. Qed.

(** ** Runs that do not fault and choose no width *)

Definition safe {A} (x : outcome A * S * list double) (Q : A -> S -> Prop) : Prop :=
  exists a s, x = (Ok a, s, []) /\ Q a s.

Lemma safe_bind {A B} (m : traceM A) (f : A -> traceM B) s (Q : B -> S -> Prop) :
  safe (m s) (fun a s1 => safe (f a s1) Q) -> safe (bind m f s) Q.
Proof.
  intros (a & s1 & Hm & b & s2 & Hf & HQ). exists b, s2. split; [|done].
  by rewrite (bind_ok _ _ _ _ _ Hm).
Qed.

Lemma safe_ok {A} (m : traceM A) s a s1 (Q : A -> S -> Prop) :
  m s = (Ok a, s1, []) -> Q a s1 -> safe (m s) Q.
Proof. unfold safe. eauto. Qed.

Lemma safe_mono {A} x (Q Q' : A -> S -> Prop) :
  safe x Q -> (forall a s, Q a s -> Q' a s) -> safe x Q'.
Proof. unfold safe. naive_solver. Qed.

Lemma safe_steady {A} x (Q : A -> S -> Prop) : safe x Q -> steady x Q.
Proof. intros (a & s & -> & HQ) _. eauto. Qed.
End Trace.
Arguments traceM S A : clear implicits.

Declare Scope trace_scope.
Delimit Scope trace_scope with trace.
Notation "'let*' x ':=' m 'in' k" := (bind m (fun x => k))
  (at level 10, x pattern, m at level 100, k at level 200) : trace_scope.
Notation "'do*' m ; k" := (bind m (fun _ => k))
  (at level 10, m at level 100, k at level 200) : trace_scope.
Open Scope trace_scope.
