(* ===== verification/Numerical.v ===== *)
(** * The random numbers of the benchmark (benchmark/2018-fibers/src/numerical.c)

    [Random] combines two 32-bit generators, whose seeds are the halves of
    [master_seed], and scales the sum to a double; [Expent] makes an
    exponential random number of it.  [master_seed] is a variable of the thread,
    and [Random] is written access by access: before each the fiber may have
    come to another thread.  [Libc] is what the benchmark calls of the
    C library. *)

From S2P Require Import Prelude Double.

(** ** The C library *)

Class Libc : Type := {
  (** [random n]: the result of the [n]-th call. *)
  random : nat -> Z;
  log : double -> double;
  pow : double -> double -> double;
  (** [malloc used]: a block beside the blocks in use; memory does not run out. *)
  malloc : gset Z -> Z
}.

Class LibcOk (L : Libc) : Prop := {
  random_range n : 0 <= random n < 2 ^ 31;
  (** The logarithm of a number in (0, 1] is not positive, and the least
      positive double has one above -1000. *)
  log_range x :
    dlt (of_Z 0) x = true -> dle x (of_Z 1) = true ->
    dle (log x) (of_Z 0) = true /\ dlt (of_Z (-1000)) (log x) = true;
  malloc_fresh used : malloc used ∉ used;
  malloc_not_null used : malloc used <> 0
}.

(** A library for concrete runs: [log] is -1 everywhere. *)
Module ReferenceLibc.
Definition next (used : gset Z) : Z := set_fold Z.max 0 used + 1.

#[local] Instance libc : Libc := {|
  random n := (Z.of_nat n * 12345 + 1) mod 2 ^ 31;
  log _ := of_Z (-1);
  pow x _ := x;
  malloc := next
|}.

Lemma next_above used : 0 <= set_fold Z.max 0 used /\ forall x, x ∈ used -> x < next used.
Proof.
  unfold next. apply (set_fold_ind_L (fun r X => 0 <= r /\ forall x, x ∈ X -> x < r + 1)).
  - split; [done|set_solver].
  - intros x X r Hx [H0 H]. split; [lia|]. intros y [->%elem_of_singleton|Hy]%elem_of_union; [lia|].
    specialize (H y Hy). lia.
Qed.

Lemma libc_ok : LibcOk libc.
Proof.
  constructor; cbn.
  - intros n. apply Z.mod_pos_bound. lia.
  - intros. by split; vm_compute.
  - intros used Hin. destruct (next_above used) as [_ H]. specialize (H _ Hin). lia.
  - intros used. destruct (next_above used) as [H _]. unfold next in *. lia.
Qed.
End ReferenceLibc.

Section Numerical.
Context {L : Libc}.

(** [master_seed] of the running thread, the number of calls of [random], and
    what is still to happen to them behind the back of the code that runs.  The
    seed is the thread's: when an alarm hands the fiber to another thread, or
    another fiber uses the thread meanwhile, the code finds another seed, and
    more calls of [random] have been made.  The head of [changes] tells whether
    that happens before the next access. *)
Record rng := Rng { master_seed : Z; calls : nat; changes : list (option (Z * nat)) }.

Definition arrive (g : rng) : rng :=
  match g.(changes) with
  | [] => g
  | None :: l => Rng g.(master_seed) g.(calls) l
  | Some (seed, n) :: l => Rng (u64 seed) n l
  end.

(** What [seed1] and [seed2] point to, the low and the high half of
    [master_seed]. *)
Definition half1 (g : rng) : Z := u32 g.(master_seed).
Definition half2 (g : rng) : Z := u32 (Z.shiftr g.(master_seed) 32).
Definition set_half1 (v : Z) (g : rng) : rng :=
  Rng (v + Z.shiftl (half2 g) 32) g.(calls) g.(changes).
Definition set_half2 (v : Z) (g : rng) : rng :=
  Rng (half1 g + Z.shiftl v 32) g.(calls) g.(changes).

(** [if(master_seed == 0) master_seed = random();] *)
Definition seeded (g : rng) : rng :=
  let g := arrive g in
  if g.(master_seed) =? 0 then
    let r := random g.(calls) in
    let g := arrive (Rng g.(master_seed) (S g.(calls)) g.(changes)) in
    Rng (u64 r) g.(calls) g.(changes)
  else g.

(** The new value of a half: its low 16 bits times [factor], plus its high 16
    bits, from the two reads. *)
Definition mix (factor low high : Z) : Z := u32 (factor * Z.land low 65535 + Z.shiftr high 16).

Definition scale : double := decimal 2328306435454494 (10 ^ 25).

(** The sum of the seeds as a number between 0 and 1. *)
Definition scaled (low high seed2 : Z) : double :=
  dmul (dadd (of_Z (u32 (u32 (Z.shiftl low 16) + Z.shiftr high 16 + seed2))) (of_Z 1)) scale.

(** Access by access: every half is read twice and then written, and in the
    result the first is read twice and the second once. *)
Definition Random (g : rng) : double * rng :=
  let g := arrive (seeded g) in
  let low := half1 g in let g := arrive g in
  let high := half1 g in let g := arrive g in
  let g := arrive (set_half1 (mix 36969 low high) g) in
  let low := half2 g in let g := arrive g in
  let high := half2 g in let g := arrive g in
  let g := arrive (set_half2 (mix 18000 low high) g) in
  let low := half1 g in let g := arrive g in
  let high := half1 g in let g := arrive g in
  (scaled low high (half2 g), g).

(** [None] is [exit(EXIT_FAILURE)]. *)
Definition Expent (mean : double) (g : rng) : option (double * rng) :=
  if dlt mean (of_Z 0) then None
  else
    let (r, g) := Random g in
    Some (dmul (SFopp mean) (log (dsub (of_Z 1) r)), g).

(** ** Bounds *)

Lemma scale_value : scale = S754_finite false 9007199250546688 (-85).
Proof. vm_compute. reflexivity. Qed.

(** The integers from 1 to 2^32, scaled. *)
Lemma dmul_scale k :
  1 <= k <= 2 ^ 32 ->
  exists m e, dmul (of_Z k) scale = S754_finite false m e /\
    2 ^ 52 <= Z.pos m < 2 ^ 53 /\ -86 <= e <= -53.
Proof.
  intros Hk. rewrite scale_value, of_Z_pos by lia. unfold dmul, SFmul. cbn [xorb].
  pose proof (mantissa_bounds k ltac:(lia)) as Hm. rewrite Pos2Z.inj_mul, Z2Pos.id by lia.
  set (M := mantissa k * 9007199250546688).
  assert (Hlk : 0 <= Z.log2 k <= 32).
  { split; [apply Z.log2_nonneg|]. change 32 with (Z.log2 (2 ^ 32)). apply Z.log2_le_mono. lia. }
  assert (HM : 2 ^ 104 <= M < 2 ^ 106) by (unfold M; lia).
  assert (Hlog : 104 <= Z.log2 M <= 105).
  { split; [apply Z.log2_le_pow2; lia|]. assert (Z.log2 M < 106) by (apply Z.log2_lt_pow2; lia). lia. }
  destruct (round_long false M (Z.log2 k - 52 + -85) loc_Exact) as (m & e & -> & Hb & He); [lia|lia|].
  exists m, e. split_and!; [done|lia|lia|lia|].
  destruct (decide (Z.log2 k = 32)) as [H32|].
  - assert (k = 2 ^ 32) as -> by (destruct (Z.log2_spec k ltac:(lia)) as [Hl _]; rewrite H32 in Hl; lia).
    assert (Z.log2 M = 104) as Hl by reflexivity. rewrite Hl in He.
    destruct He as [->|(_ & _ & He)]; [lia|]. vm_compute in He. discriminate He.
  - destruct He as [->|(-> & _ & He)]; [lia|].
    destruct (decide (Z.log2 k = 31 /\ Z.log2 M = 105)) as [[H31 Hl]|]; [|lia].
    exfalso. rewrite Hl in He. change (2 ^ (105 - 52)) with (2 ^ 53) in He.
    assert (HM2 : M < (2 ^ 53 - 1) * 2 ^ 53).
    { unfold M, mantissa. rewrite H31. change (2 ^ (52 - 31)) with (2 ^ 21).
      assert (k < 2 ^ 32) by (destruct (Z.log2_spec k ltac:(lia)) as [_ Hk2]; rewrite H31 in Hk2; lia). lia. }
    apply (Z.div_lt_upper_bound M (2 ^ 53) (2 ^ 53 - 1)) in HM2; lia.
Qed.

Lemma succ_of_Z v : 0 <= v < 2 ^ 52 -> dadd (of_Z v) (of_Z 1) = of_Z (v + 1).
Proof.
  intros Hv. destruct (decide (v = 0)) as [->|]; [done|]. apply dadd_of_Z; lia.
Qed.

Lemma scaled_value s1 s2 s3 :
  exists m e, scaled s1 s2 s3 = S754_finite false m e /\ 2 ^ 52 <= Z.pos m < 2 ^ 53 /\ -86 <= e <= -53.
Proof.
  unfold scaled. set (v := u32 _). assert (0 <= v < 2 ^ 32) by (apply uw_range; lia).
  rewrite succ_of_Z by lia. apply dmul_scale. lia.
Qed.

(** [1 - Random()], the argument of the logarithm. *)
Lemma one_minus m e :
  2 ^ 52 <= Z.pos m < 2 ^ 53 -> -86 <= e <= -53 ->
  dlt (of_Z 0) (dsub (of_Z 1) (S754_finite false m e)) = true /\
  dle (dsub (of_Z 1) (S754_finite false m e)) (of_Z 1) = true.
Proof.
  intros Hm He.
  assert (Heq : dsub (of_Z 1) (S754_finite false m e)
              = binary_normalize 53 1024 (2 ^ (- e) - Z.pos m) e false).
  { change (of_Z 1) with (S754_finite false 4503599627370496 (-52)).
    unfold dsub, SFsub. cbn [cond_Zopp].
    replace (Z.min (-52) e) with e by lia. rewrite !shl_align_fst by lia.
    rewrite Z.sub_diag, Z.mul_1_r.
    replace (4503599627370496 * 2 ^ (-52 - e)) with (2 ^ (- e)); [done|].
    change 4503599627370496 with (2 ^ 52). rewrite <- Z.pow_add_r by lia. f_equal. lia. }
  assert (2 ^ 53 <= 2 ^ (- e)) by (apply Z.pow_le_mono_r; lia).
  rewrite Heq. apply normalize_le_1; lia.
Qed.

Lemma Random_range g :
  dlt (of_Z 0) (Random g).1 = true /\ dlt (Random g).1 (of_Z 1) = true /\
  dlt (of_Z 0) (dsub (of_Z 1) (Random g).1) = true /\
  dle (dsub (of_Z 1) (Random g).1) (of_Z 1) = true.
Proof.
  unfold Random. cbv zeta. cbn [fst]. match goal with |- context [scaled ?a ?b ?c] =>
    destruct (scaled_value a b c) as (m & e & -> & Hm & He) end. split_and!; [done| | |].
  - change (of_Z 1) with (S754_finite false 4503599627370496 (-52)).
    unfold dlt, SFltb, SFcompare. by rewrite (proj2 (Z.compare_lt_iff e (-52))) by lia.
  - by apply one_minus.
  - by apply one_minus.
Qed.

(** A mean that is finite and not below zero. *)
Definition mean_ok (mean : double) : Prop :=
  dle (of_Z 0) mean = true /\ mean <> S754_infinity false.

Lemma Expent_ok {HL : LibcOk L} mean g :
  mean_ok mean -> exists x g', Expent mean g = Some (x, g') /\ dle (of_Z 0) x = true.
Proof.
  intros [Hm Hinf]. unfold Expent.
  replace (dlt mean (of_Z 0)) with false by (by destruct mean as [[]|[]| |[] m e]).
  destruct (Random_range g) as (_ & _ & Hlo & Hhi).
  destruct (Random g) as [r g']. cbn [fst] in *.
  destruct (log_range _ Hlo Hhi) as [Hl1 Hl2]. eexists _, g'. split; [done|].
  destruct (log (dsub (of_Z 1) r)) as [[]|[]| |[] ml el];
    try discriminate Hl1; try discriminate Hl2;
    destruct mean as [[]|[]| |[] m e]; try discriminate Hm; try done.
  apply (round_aux_nonneg (Z.pos m * Z.pos ml)). lia.
Qed.
End Numerical.

(** [Random] is strictly between 0 and 1.  [Expent] ends the program for a
    mean below zero; for any other finite mean it gives a number that is not
    below zero. *)
Theorem random_bounds {L : Libc} (HL : LibcOk L) g mean :
  (dlt (of_Z 0) (Random g).1 = true /\ dlt (Random g).1 (of_Z 1) = true) /\
  (dlt mean (of_Z 0) = true -> Expent mean g = None) /\
  (mean_ok mean ->
   exists x g', Expent mean g = Some (x, g') /\ dle (of_Z 0) x = true).
Proof.
  destruct (Random_range g) as (H0 & H1 & _). split_and!; [done|done| |by apply Expent_ok].
  unfold Expent. by intros ->.
Qed.

Lemma random_bounds_witness :
  exists x g', @Expent ReferenceLibc.libc (of_Z 60) (Rng 0 0 []) = Some (x, g') /\
    dle (of_Z 0) x = true.
Proof.
  destruct (@random_bounds ReferenceLibc.libc ReferenceLibc.libc_ok (Rng 0 0 []) (of_Z 60))
    as (_ & _ & H).
  apply H. split; [reflexivity|discriminate].
Defined.

(** ** A generator that nobody else uses *)

Definition seed_range (g : rng) : Prop := 0 <= g.(master_seed) < 2 ^ 32 /\ g.(changes) = [].

Lemma arrive_alone g : g.(changes) = [] -> arrive g = g.
Proof. unfold arrive. by intros ->. Qed.

Lemma half2_idle g : seed_range g -> half2 g = 0.
Proof. intros [Hg _]. unfold half2. rewrite Z.shiftr_div_pow2, Z.div_small by lia. done. Qed.

Lemma half1_all g : seed_range g -> half1 g = g.(master_seed).
Proof. intros [Hg _]. apply uw_small. lia. Qed.

Lemma seeded_range {L : Libc} {HL : LibcOk L} g : seed_range g -> seed_range (seeded g).
Proof.
  intros [Hg Hc]. unfold seeded. rewrite (arrive_alone g) by done. case_match; [|done].
  rewrite arrive_alone by done. pose proof (random_range (calls g)). split; cbn; [|done].
  rewrite u64_small; lia.
Qed.

Lemma set_half1_range v g : 0 <= v < 2 ^ 32 -> seed_range g -> seed_range (set_half1 v g).
Proof. intros Hv Hg. unfold set_half1. rewrite half2_idle, Z.shiftl_0_l by done. destruct Hg. split; cbn; [lia|done]. Qed.

Lemma set_half2_0 g : seed_range g -> set_half2 0 g = g.
Proof.
  intros Hg. unfold set_half2. rewrite half1_all by done. destruct g as [x c l]. cbn. by rewrite Z.add_0_r.
Qed.

(** One step of the first of the two generators; the second adds nothing. *)
Lemma Random_alone {L : Libc} {HL : LibcOk L} g :
  seed_range g ->
  let seed := (seeded g).(master_seed) in
  let seed1 := mix 36969 seed seed in
  Random g = (scaled seed1 seed1 0, Rng seed1 (seeded g).(calls) []) /\ 0 <= seed1 < 2 ^ 32.
Proof.
  intros Hg%seeded_range. cbv zeta. set (seed := master_seed (seeded g)). set (seed1 := mix 36969 seed seed).
  assert (Hv : 0 <= seed1 < 2 ^ 32) by (apply uw_range; lia). split; [|done].
  pose proof (set_half1_range _ _ Hv Hg) as H1.
  unfold Random. rewrite !(arrive_alone (seeded g)), (half1_all (seeded g)) by apply Hg. fold seed seed1. cbv zeta.
  rewrite !(arrive_alone (set_half1 _ _)), !(half2_idle (set_half1 _ _)) by apply H1.
  change (mix 18000 0 0) with 0. rewrite set_half2_0 by done.
  rewrite !(arrive_alone (set_half1 _ _)), (half1_all (set_half1 _ _)), !(half2_idle (set_half1 _ _)) by apply H1.
  unfold set_half1. rewrite (half2_idle (seeded g)), Z.shiftl_0_l, Z.add_0_r by done. cbn. by rewrite (proj2 Hg).
Qed.

(** The seed comes from [random], which is below 2^31: the second half of
    [master_seed] is 0 then and stays 0, so that the second of the two combined
    generators never contributes. *)
Theorem second_generator_idle {L : Libc} (HL : LibcOk L) n :
  let g := Nat.iter n (fun g => (Random g).2) (Rng 0 0 []) in
  0 <= g.(master_seed) < 2 ^ 32 /\ half2 g = 0.
Proof.
  cbv zeta. assert (Hinv : seed_range (Nat.iter n (fun g => (Random g).2) (Rng 0 0 []))).
  { induction n as [|n IH]; [by split|]. rewrite Nat.iter_succ.
    destruct (Random_alone _ IH) as [-> Hv]. by split. }
  split; [apply Hinv|by apply half2_idle].
Qed.

Lemma second_generator_idle_witness :
  half2 (Nat.iter 3 (fun g => (@Random ReferenceLibc.libc g).2) (Rng 0 0 [])) = 0.
Proof. apply (@second_generator_idle ReferenceLibc.libc ReferenceLibc.libc_ok 3). Defined.
