(* ===== verification/Calqueue.v ===== *)
(** * The calendar queue of the benchmark (benchmark/2018-fibers/src/calqueue.c)

    A calendar queue keeps events by priority in an array of buckets, like the
    days of a year: an event goes to the bucket its priority selects, in a list
    sorted by priority, and the queue grows and shrinks with the number of
    events, choosing a new width of a bucket from a sample of events.

    An operation is a command over the queue that may fault: [calq] maps the
    slots of the array that hold a list (NULL is the empty list) to it; a slot
    that was never initialised, or whose nodes were freed, is not in it, and to
    read it is a fault.  The nodes of a list are values, because no pointer to
    one is kept besides the link to it; [malloc] always succeeds, as the code
    assumes.

    [calqueue_put], [calqueue_deq] and [resize] call each other.  [resize] has
    fuel, one for each nested call; 2 is enough, because [new_width] disables
    the inner ones and copying does not cause any. *)

From S2P Require Import Prelude Double Trace.

Definition CALQSPACE : Z := 65536.
Definition MAXNBUCKETS : Z := 32768.

(** ** Data *)

Record calqueue_node := Node { priority : double; payload : Z }.

#[export] Instance calqueue_node_eq_dec : EqDecision calqueue_node.
Proof. solve_decision. Defined.

(** [calendar] is the index in [calq] of the slot the pointer points to. *)
Record calqueue := Calqueue {
  calq : gmap Z (list calqueue_node);
  calendar : Z;
  firstsub : Z;
  nbuckets : Z;
  qsize : Z;
  lastbucket : Z;
  resize_enabled : bool;
  top_threshold : double;
  bot_threshold : double;
  lastprio : double;
  buckettop : double;
  cwidth : double
}.

Definition set_calq (m : gmap Z (list calqueue_node)) (q : calqueue) : calqueue :=
  Calqueue m q.(calendar) q.(firstsub) q.(nbuckets) q.(qsize) q.(lastbucket) q.(resize_enabled)
    q.(top_threshold) q.(bot_threshold) q.(lastprio) q.(buckettop) q.(cwidth).
Definition set_qsize (n : Z) (q : calqueue) : calqueue :=
  Calqueue q.(calq) q.(calendar) q.(firstsub) q.(nbuckets) n q.(lastbucket) q.(resize_enabled)
    q.(top_threshold) q.(bot_threshold) q.(lastprio) q.(buckettop) q.(cwidth).
Definition set_buckettop (x : double) (q : calqueue) : calqueue :=
  Calqueue q.(calq) q.(calendar) q.(firstsub) q.(nbuckets) q.(qsize) q.(lastbucket)
    q.(resize_enabled) q.(top_threshold) q.(bot_threshold) q.(lastprio) x q.(cwidth).
Definition set_resize_enabled (b : bool) (q : calqueue) : calqueue :=
  Calqueue q.(calq) q.(calendar) q.(firstsub) q.(nbuckets) q.(qsize) q.(lastbucket) b
    q.(top_threshold) q.(bot_threshold) q.(lastprio) q.(buckettop) q.(cwidth).

(** [lastbucket] and [lastprio]: where dequeueing goes on. *)
Definition set_last (i : Z) (p : double) (q : calqueue) : calqueue :=
  Calqueue q.(calq) q.(calendar) q.(firstsub) q.(nbuckets) q.(qsize) i q.(resize_enabled)
    q.(top_threshold) q.(bot_threshold) p q.(buckettop) q.(cwidth).

(** The position and the size of a new calendar, which is empty. *)
Definition set_shape (qbase nbucks : Z) (bwidth : double) (q : calqueue) : calqueue :=
  Calqueue q.(calq) qbase qbase nbucks 0 q.(lastbucket) q.(resize_enabled)
    q.(top_threshold) q.(bot_threshold) q.(lastprio) q.(buckettop) bwidth.
Definition set_thresholds (top bot : double) (q : calqueue) : calqueue :=
  Calqueue q.(calq) q.(calendar) q.(firstsub) q.(nbuckets) q.(qsize) q.(lastbucket)
    q.(resize_enabled) top bot q.(lastprio) q.(buckettop) q.(cwidth).

(** ** Commands *)

Abbreviation calM := (traceM calqueue).

(** The nodes of the list in a slot. *)
Definition read_slot (a : Z) : calM (list calqueue_node) :=
  let* q := get in
  access (q.(calq) !! a).

Definition write_slot (a : Z) (l : list calqueue_node) : calM unit :=
  if (0 <=? a) && (a <? CALQSPACE) then modify (fun q => set_calq (<[a := l]> q.(calq)) q)
  else fail BadAccess.

(** [q->calendar[i]] *)
Definition read_bucket (i : Z) : calM (list calqueue_node) :=
  let* q := get in read_slot (q.(calendar) + i).
Definition write_bucket (i : Z) (l : list calqueue_node) : calM unit :=
  let* q := get in write_slot (q.(calendar) + i) l.

(** The remainder of C, [a % b]. *)
Definition c_rem (a b : Z) : calM Z :=
  if b =? 0 then fail Undefined else ret (Z.rem a b).

(** ** Initialisation *)

(** A quotient of doubles is never converted to the greatest [long], so that
    [n + 1] does not overflow. *)
Definition localinit (qbase nbucks : Z) (bwidth startprio : double) : calM unit :=
  do* modify (set_shape qbase nbucks bwidth);
  do* for_each (fun i => write_bucket i []) (seqZ 0 nbucks);
  let n := to_long (ddiv startprio bwidth) in
  let* i := c_rem n nbucks in
  do* modify (set_last i startprio);
  do* modify (set_buckettop (dadd (dmul (of_Z (n + 1)) bwidth)
                                  (dmul (ddiv (of_Z 1) (of_Z 2)) bwidth)));
  modify (set_thresholds (of_Z (2 * nbucks))
                         (of_Z (to_int (ddiv (of_Z nbucks) (of_Z 2)) - 2))).

Definition calqueue_init : calM unit :=
  do* localinit 0 2 (of_Z 1) (of_Z 0);
  modify (set_resize_enabled true).

(** ** Insertion *)

(** The loop finds the last node that is not after the new one. *)
Fixpoint place_after (new_node : calqueue_node) (next : list calqueue_node)
    : list calqueue_node :=
  match next with
  | [] => [new_node]
  | n :: next' =>
      if dle n.(priority) new_node.(priority) then n :: place_after new_node next'
      else new_node :: next
  end.

Definition place (new_node : calqueue_node) (l : list calqueue_node) : list calqueue_node :=
  match l with
  | [] => [new_node]
  | traverse :: next =>
      if dlt new_node.(priority) traverse.(priority) then new_node :: l
      else traverse :: place_after new_node next
  end.

Section Resizing.
(** The function [resize], which [calqueue_put] and [calqueue_deq] call. *)
Context (resize : Z -> calM unit).

Definition calqueue_put_with (priority : double) (payload : Z) : calM unit :=
  let* q := get in
  let* i := c_rem (to_int (ddiv priority q.(cwidth))) q.(nbuckets) in
  let* traverse := read_bucket i in
  do* write_bucket i (place (Node priority payload) traverse);
  do* (if q.(qsize) =? INT_MAX then fail Undefined else modify (set_qsize (q.(qsize) + 1)));
  let* q := get in
  if dlt q.(top_threshold) (of_Z q.(qsize)) && (q.(nbuckets) <? MAXNBUCKETS)
  then resize (2 * q.(nbuckets))
  else ret tt.

(** ** Removal *)

(** The label [calendar_process]. *)
Definition calendar_process (i : Z) : calM (option calqueue_node) :=
  let* l := read_bucket i in
  match l with
  | [] => fail NullPointer
  | e :: next =>
      do* modify (set_last i e.(priority));
      do* modify (fun q => set_qsize (q.(qsize) - 1) q);
      do* write_bucket i next;
      let* q := get in
      do* (if dlt (of_Z q.(qsize)) q.(bot_threshold)
           then resize (to_int (ddiv (of_Z q.(nbuckets)) (of_Z 2)))
           else ret tt);
      ret (Some e)
  end.

(** The loop over the buckets, from the last one used: the bucket found, or
    none when the loop came round.  [n] is fuel: the number of buckets. *)
Fixpoint scan (n : nat) (i : Z) : calM (option Z) :=
  match n with
  | O => fail Spin
  | S n =>
      let* l := read_bucket i in
      let* q := get in
      if match l with e :: _ => dlt e.(priority) q.(buckettop) | [] => false end
      then ret (Some i)
      else
        let i := if i + 1 =? q.(nbuckets) then 0 else i + 1 in
        do* modify (set_buckettop (dadd q.(buckettop) q.(cwidth)));
        if i =? q.(lastbucket) then ret None else scan n i
  end.

(** The direct search for a least first event, over the buckets [l]. *)
Fixpoint direct_search (l : list Z) (temp2 : Z) (lowest : double) : calM Z :=
  match l with
  | [] => ret temp2
  | i :: l =>
      let* b := read_bucket i in
      match b with
      | e :: _ =>
          if (temp2 =? -1) || dlt e.(priority) lowest
          then direct_search l i e.(priority)
          else direct_search l temp2 lowest
      | [] => direct_search l temp2 lowest
      end
  end.

Definition calqueue_deq_with : calM (option calqueue_node) :=
  let* q := get in
  if q.(qsize) =? 0 then ret None
  else
    let* found := scan (Z.to_nat q.(nbuckets)) q.(lastbucket) in
    match found with
    | Some i => calendar_process i
    | None =>
        let* i := direct_search (seqZ 0 q.(nbuckets)) (-1) (of_Z (2 ^ 63 - 1)) in
        calendar_process i
    end.

(** ** The width of a bucket *)

(** Dequeues [n] nodes and sums up their distances; [prev] is the node
    dequeued before, if this is not the first. *)
Fixpoint take_sample (n : nat) (prev : option (option calqueue_node)) (average : double)
    : calM (list (option calqueue_node) * double) :=
  match n with
  | O => ret ([], average)
  | S n =>
      let* e := calqueue_deq_with in
      let* average :=
        match prev with
        | None => ret average
        | Some p =>
            let* a := deref e in
            let* b := deref p in
            ret (dadd average (dsub a.(priority) b.(priority)))
        end in
      let* (temp, average) := take_sample n (Some e) average in
      ret (e :: temp, average)
  end.

(** Puts the rest of the sample back and sums up the distances that are not
    large; [j] is their number. *)
Fixpoint put_sample (prev : option calqueue_node) (temp : list (option calqueue_node))
    (average newaverage : double) (j : Z) : calM (double * Z) :=
  match temp with
  | [] => ret (newaverage, j)
  | e :: temp =>
      let* a := deref e in
      let* b := deref prev in
      let d := dsub a.(priority) b.(priority) in
      let small := dlt d (dmul average (of_Z 2)) in
      do* calqueue_put_with a.(priority) a.(payload);
      put_sample e temp average (if small then dadd newaverage d else newaverage)
        (if small then j + 1 else j)
  end.

Definition sample_size (n : Z) : Z :=
  let nsamples := if n <=? 5 then n else 5 + to_int (ddiv (of_Z n) (of_Z 10)) in
  if 25 <? nsamples then 25 else nsamples.

Definition new_width : calM double :=
  let* q0 := get in
  if q0.(qsize) <? 2 then ret (of_Z 1)
  else
    let nsamples := sample_size q0.(qsize) in
    do* modify (set_resize_enabled false);
    let* (temp, average) := take_sample (Z.to_nat nsamples) None (of_Z 0) in
    let average := ddiv average (of_Z (nsamples - 1)) in
    let* first := deref (head temp ≫= id) in
    do* calqueue_put_with first.(priority) first.(payload);
    let* (newaverage, j) := put_sample (head temp ≫= id) (tail temp) average (of_Z 0) 0 in
    let newaverage := dmul (ddiv newaverage (of_Z j)) (of_Z 3) in
    do* modify (set_last q0.(lastbucket) q0.(lastprio));
    do* modify (set_buckettop q0.(buckettop));
    do* modify (set_resize_enabled true);
    ret newaverage.

(** ** Changing the number of buckets *)

(** Puts the nodes of bucket [i] of the old calendar in the new one and frees
    them; their slot then dangles. *)
Definition copy_bucket (oldcalendar i : Z) : calM unit :=
  let* l := read_slot (oldcalendar + i) in
  do* for_each (fun n => calqueue_put_with n.(priority) n.(payload)) l;
  match l with
  | [] => ret tt
  | _ => modify (fun q => set_calq (delete (oldcalendar + i) q.(calq)) q)
  end.

Definition resize_with (newsize : Z) : calM unit :=
  let* q := get in
  if negb q.(resize_enabled) then ret tt
  else
    let* bwidth := new_width in
    do* chosen bwidth;
    let* q := get in
    do* localinit (if q.(firstsub) =? 0 then CALQSPACE - newsize else 0) newsize bwidth
          q.(lastprio);
    for_each (copy_bucket q.(calendar)) (reverse (seqZ 0 q.(nbuckets))).
End Resizing.

Fixpoint resize (fuel : nat) (newsize : Z) : calM unit :=
  match fuel with
  | O => fail Spin
  | S fuel => resize_with (resize fuel) newsize
  end.

(** ** The interface *)

Definition calqueue_put : double -> Z -> calM unit := calqueue_put_with (resize 2).
Definition calqueue_deq : calM (option calqueue_node) := calqueue_deq_with (resize 2).

Definition calqueue_get : calM Z :=
  let* node := calqueue_deq in
  match node with
  | None => ret 0
  | Some node => ret node.(payload)
  end.

Definition calqueue_empty (q : calqueue) : bool := q.(qsize) =? 0.

(** The queue as [malloc] gives it. *)
Definition uninitialised : calqueue :=
  Calqueue ∅ 0 0 0 0 0 false (of_Z 0) (of_Z 0) (of_Z 0) (of_Z 0) (of_Z 0).
