(* ===== verification/CalqueueInv.v ===== *)
(** * The invariant of the calendar queue

    [calendar_ok]: the buckets of the calendar are lists sorted by priority,
    every event is in the bucket its priority selects, the counter and the
    thresholds are right.  Insertion and removal preserve it as long as they do
    not change the number of buckets, for which see CalqueueProps.v. *)

From Stdlib Require Import Sorting.Sorted.
From S2P Require Import Prelude Double Trace Calqueue.

(** ** Runs of commands *)

Lemma read_slot_run a q l : q.(calq) !! a = Some l -> read_slot a q = (Ok l, q, []).
Proof. intros H. unfold read_slot. by rewrite bind_get, H. Qed.

Lemma write_slot_run a l q :
  0 <= a < CALQSPACE -> write_slot a l q = (Ok tt, set_calq (<[a := l]> q.(calq)) q, []).
Proof.
  intros [? ?]. unfold write_slot.
  rewrite (proj2 (Z.leb_le 0 a)), (proj2 (Z.ltb_lt a CALQSPACE)) by done. done.
Qed.

Lemma c_rem_run a b q : b <> 0 -> c_rem a b q = (Ok (Z.rem a b), q, []).
Proof. intros. unfold c_rem. by rewrite (proj2 (Z.eqb_neq b 0)). Qed.

(** ** Sizes and indices *)

(** The number of buckets is a power of two. *)
Definition size_ok (nb : Z) : Prop := exists k, 1 <= k <= 15 /\ nb = 2 ^ k.

Lemma size_bounds nb : size_ok nb -> 2 <= nb <= MAXNBUCKETS.
Proof.
  intros (k & Hk & ->). split.
  - apply (Z.pow_le_mono_r 2 1 k); lia.
  - apply (Z.pow_le_mono_r 2 k 15); lia.
Qed.

Lemma size_double nb : size_ok nb -> nb < MAXNBUCKETS -> size_ok (2 * nb).
Proof.
  intros (k & Hk & ->) Hlt. exists (k + 1).
  rewrite Z.pow_add_r, Z.mul_comm by lia. split; [|done].
  assert (k < 15); [|lia]. apply (Z.pow_lt_mono_r_iff 2); [lia|lia|]. exact Hlt.
Qed.

Lemma size_half nb : size_ok nb -> 2 < nb -> size_ok (nb / 2).
Proof.
  intros (k & Hk & ->) Hlt. exists (k - 1).
  assert (1 < k) by (apply (Z.pow_lt_mono_r_iff 2); lia).
  split; [lia|]. rewrite Z.pow_sub_r by lia. done.
Qed.

(** A quotient that is not below zero, converted to an integer of [w] bits and
    reduced, is an index: 0 if it does not fit. *)
Lemma rem_bounds w x nb :
  16 <= w -> size_ok nb -> (forall n, trunc x = Some n -> 0 <= n) ->
  0 <= Z.rem (cvt w x) nb < nb.
Proof.
  intros Hw Hnb Hx. pose proof (size_bounds nb Hnb).
  assert (Hmin : Z.rem (- 2 ^ (w - 1)) nb = 0).
  { destruct Hnb as (k & Hk & ->).
    replace (- 2 ^ (w - 1)) with (- 2 ^ (w - 1 - k) * 2 ^ k)
      by (rewrite Z.mul_opp_l, <- Z.pow_add_r by lia; do 2 f_equal; lia).
    apply Z.rem_mul. lia. }
  unfold cvt. destruct (trunc x) as [n|] eqn:Hn; [|lia].
  case_match; [|lia]. apply Z.rem_bound_pos; [|lia]. by apply Hx.
Qed.

(** The bucket that a priority selects. *)
Definition index (w : double) (nb : Z) (p : double) : Z := Z.rem (to_int (ddiv p w)) nb.

(** A priority is a number that is not below zero; a width may be NaN. *)
Abbreviation nonneg p := (dle (of_Z 0) p = true).
Abbreviation not_negative w := (dlt w (of_Z 0) = false).

Lemma index_bounds w nb p :
  size_ok nb -> nonneg p -> not_negative w -> 0 <= index w nb p < nb.
Proof. intros. apply rem_bounds; [lia|done|]. intros n. by apply ddiv_nonneg. Qed.

(** ** Buckets *)

Definition node_le (a b : calqueue_node) : Prop := dle a.(priority) b.(priority) = true.

#[export] Instance node_le_trans : Transitive node_le.
Proof. intros a b c. apply dle_trans. Qed.

Lemma nonneg_number p : nonneg p -> number p = true.
Proof. apply dle_number. Qed.

Lemma place_after_perm n l : place_after n l ≡ₚ n :: l.
Proof. induction l as [|m l IH]; [done|]. cbn. case_match; [|done]. rewrite IH. constructor. Qed.

Lemma place_perm n l : place n l ≡ₚ n :: l.
Proof.
  destruct l as [|m l]; [done|]. cbn. case_match; [done|]. rewrite place_after_perm. constructor.
Qed.

Lemma place_after_sorted t n l :
  node_le t n -> StronglySorted node_le (t :: l) ->
  Forall (fun m => number m.(priority) = true) (n :: l) ->
  StronglySorted node_le (t :: place_after n l).
Proof.
  revert t. induction l as [|m l IH]; intros t Hn Hl Hok; cbn.
  { repeat constructor. done. }
  apply StronglySorted_inv in Hl as [Hl Hall]. inversion_clear Hok as [|? ? Hnn Hok'].
  inversion_clear Hok'.
  case_match eqn:Hcmp.
  - constructor; [apply IH; [done|done|by constructor]|].
    inversion_clear Hall. constructor; [done|]. rewrite place_after_perm. by constructor.
  - assert (Hlt : node_le n m).
    { apply dle_total; [done|done|]. destruct (dlt _ _) eqn:Hd; [|done].
      apply dlt_le in Hd. congruence. }
    constructor; [|by constructor].
    constructor; [done|]. constructor; [done|].
    apply StronglySorted_inv in Hl as [_ Hl]. eapply Forall_impl; [exact Hl|].
    intros x Hx. by etrans.
Qed.

Lemma place_sorted n l :
  StronglySorted node_le l -> Forall (fun m => number m.(priority) = true) (n :: l) ->
  StronglySorted node_le (place n l).
Proof.
  intros Hl Hok. destruct l as [|t l]; [repeat constructor|]. cbn.
  inversion_clear Hok as [|? ? Hn Hok']. inversion_clear Hok' as [|? ? Ht Hok].
  case_match eqn:Hcmp.
  - constructor; [done|]. constructor; [by apply dlt_le|].
    apply StronglySorted_inv in Hl as [_ Hl]. eapply Forall_impl; [exact Hl|].
    intros x Hx. trans t; [by apply dlt_le|done].
  - apply place_after_sorted; [|done|by constructor]. by apply dle_total.
Qed.

(** Bucket [i] of a calendar with [nb] buckets of width [w]. *)
Record bucket_ok (w : double) (nb i : Z) (l : list calqueue_node) : Prop := BucketOk {
  bucket_sorted : StronglySorted node_le l;
  bucket_nonneg : Forall (fun n => nonneg n.(priority)) l;
  bucket_index : Forall (fun n => index w nb n.(priority) = i) l
}.

Lemma bucket_nil w nb i : bucket_ok w nb i [].
Proof. by repeat constructor. Qed.

Lemma bucket_place w nb n l :
  nonneg n.(priority) -> bucket_ok w nb (index w nb n.(priority)) l ->
  bucket_ok w nb (index w nb n.(priority)) (place n l).
Proof.
  intros Hn [Hs Hp Hi]. constructor.
  - apply place_sorted; [done|]. constructor; [by apply nonneg_number|].
    eapply Forall_impl; [exact Hp|]. intros m. apply nonneg_number.
  - rewrite place_perm. by constructor.
  - rewrite place_perm. by constructor.
Qed.

Lemma bucket_tail w nb i n l : bucket_ok w nb i (n :: l) -> bucket_ok w nb i l.
Proof.
  intros [Hs Hp Hi]. apply StronglySorted_inv in Hs as [Hs _].
  inversion_clear Hp. inversion_clear Hi. by constructor.
Qed.

(** ** The calendar *)

(** The thresholds of a calendar of [nb] buckets. *)
Definition top_of (nb : Z) : double := of_Z (2 * nb).
Definition bot_of (nb : Z) : double := of_Z (nb / 2 - 2).

(** [bs] are the buckets. *)
Record calendar_ok (q : calqueue) (bs : list (list calqueue_node)) : Prop := CalendarOk {
  co_size : size_ok q.(nbuckets);
  co_len : Z.of_nat (length bs) = q.(nbuckets);
  co_calendar : q.(calendar) = q.(firstsub);
  co_firstsub : q.(firstsub) = 0 \/ q.(firstsub) = CALQSPACE - q.(nbuckets);
  co_slots : forall i, 0 <= i < q.(nbuckets) ->
    q.(calq) !! (q.(calendar) + i) = Some (bs !!! Z.to_nat i);
  co_buckets : forall i, 0 <= i < q.(nbuckets) ->
    bucket_ok q.(cwidth) q.(nbuckets) i (bs !!! Z.to_nat i);
  co_qsize : q.(qsize) = Z.of_nat (length (concat bs));
  co_int : q.(qsize) <= INT_MAX;
  co_lastbucket : 0 <= q.(lastbucket) < q.(nbuckets);
  co_lastprio : nonneg q.(lastprio);
  co_width : not_negative q.(cwidth);
  co_top : q.(top_threshold) = top_of q.(nbuckets);
  co_bot : q.(bot_threshold) = bot_of q.(nbuckets)
}.

(** What insertion and removal leave as it is: the shape of the calendar, and
    the slots outside it. *)
Record same_shape (q q' : calqueue) : Prop := SameShape {
  sh_calendar : q'.(calendar) = q.(calendar);
  sh_firstsub : q'.(firstsub) = q.(firstsub);
  sh_nbuckets : q'.(nbuckets) = q.(nbuckets);
  sh_cwidth : q'.(cwidth) = q.(cwidth);
  sh_enabled : q'.(resize_enabled) = q.(resize_enabled);
  sh_outside : forall a, ~ q.(calendar) <= a < q.(calendar) + q.(nbuckets) ->
    q'.(calq) !! a = q.(calq) !! a
}.

#[export] Instance same_shape_preorder : PreOrder same_shape.
Proof.
  split; [by constructor|].
  intros q1 q2 q3 [Hc Hf Hn Hw He Ho] [Hc' Hf' Hn' Hw' He' Ho'].
  constructor; try congruence.
  intros a Ha. rewrite Ho', Ho; [done|done|]. by rewrite Hc, Hn.
Qed.

Lemma calendar_range q bs i :
  calendar_ok q bs -> 0 <= i < q.(nbuckets) -> 0 <= q.(calendar) + i < CALQSPACE.
Proof.
  intros Hq Hi. pose proof (size_bounds _ (co_size _ _ Hq)) as Hs.
  rewrite (co_calendar _ _ Hq). unfold MAXNBUCKETS, CALQSPACE in *.
  destruct (co_firstsub _ _ Hq) as [-> | ->]; unfold CALQSPACE; lia.
Qed.

Lemma read_bucket_run q bs i :
  calendar_ok q bs -> 0 <= i < q.(nbuckets) ->
  read_bucket i q = (Ok (bs !!! Z.to_nat i), q, []).
Proof.
  intros Hq Hi. unfold read_bucket. rewrite bind_get. apply read_slot_run.
  by apply (co_slots _ _ Hq).
Qed.

Lemma write_bucket_run q i l :
  0 <= q.(calendar) + i < CALQSPACE ->
  write_bucket i l q = (Ok tt, set_calq (<[q.(calendar) + i := l]> q.(calq)) q, []).
Proof. intros Hi. unfold write_bucket. rewrite bind_get. by apply write_slot_run. Qed.

Lemma concat_bucket {A} (bs : list (list A)) i :
  (i < length bs)%nat -> concat bs ≡ₚ bs !!! i ++ concat (delete i bs).
Proof.
  intros Hi. destruct (lookup_lt_is_Some_2 bs i Hi) as [l Hl].
  rewrite (list_lookup_total_correct _ _ _ Hl), delete_take_drop.
  rewrite <- (take_drop_middle bs i l Hl) at 1; [].
  rewrite !concat_app. cbn. rewrite !app_assoc. f_equiv. apply Permutation_app_comm.
Qed.

Lemma concat_update {A} (bs : list (list A)) i l :
  (i < length bs)%nat -> concat (<[i := l]> bs) ≡ₚ l ++ concat (delete i bs).
Proof.
  intros Hi. rewrite (concat_bucket (<[i := l]> bs) i) by (by rewrite length_insert).
  rewrite list_lookup_total_insert_eq by done. apply Permutation_app_head.
  rewrite !delete_take_drop, take_insert_ge, drop_insert_lt by lia. done.
Qed.

(** The queue with the list of bucket [i], which is [bs !!! i], replaced by [l]
    and the counter set. *)
Definition with_bucket (i : Z) (l : list calqueue_node) (n : Z) (q : calqueue) : calqueue :=
  set_qsize n (set_calq (<[q.(calendar) + i := l]> q.(calq)) q).

Lemma with_bucket_shape i l n q :
  0 <= i < q.(nbuckets) -> same_shape q (with_bucket i l n q).
Proof. intros Hi. constructor; try done. intros a Ha. cbn. rewrite lookup_insert_ne; [done|lia]. Qed.

Lemma with_bucket_ok q bs i l n :
  calendar_ok q bs -> 0 <= i < q.(nbuckets) ->
  bucket_ok q.(cwidth) q.(nbuckets) i l ->
  n = Z.of_nat (length (concat (<[Z.to_nat i := l]> bs))) -> n <= INT_MAX ->
  calendar_ok (with_bucket i l n q) (<[Z.to_nat i := l]> bs).
Proof.
  intros Hq Hi Hl Hn Hmax. destruct Hq. constructor; cbn; try done.
  - by rewrite length_insert.
  - intros j Hj. destruct (decide (j = i)) as [->|].
    + rewrite lookup_insert_eq, list_lookup_total_insert_eq by lia. done.
    + rewrite lookup_insert_ne, list_lookup_total_insert_ne by lia. auto.
  - intros j Hj. destruct (decide (j = i)) as [->|].
    + by rewrite list_lookup_total_insert_eq by lia.
    + rewrite list_lookup_total_insert_ne by lia. auto.
Qed.

(** All events have a priority that is not below zero. *)
Lemma calendar_nonneg q bs :
  calendar_ok q bs -> Forall (fun n => nonneg n.(priority)) (concat bs).
Proof.
  intros Hq. apply Forall_concat, Forall_lookup. intros i l Hl.
  pose proof (lookup_lt_Some _ _ _ Hl). pose proof (co_len _ _ Hq).
  pose proof (co_buckets _ _ Hq (Z.of_nat i)) as Hb.
  rewrite Nat2Z.id, (list_lookup_total_correct _ _ _ Hl) in Hb. apply Hb. lia.
Qed.

(** ** Thresholds *)

Lemma half_run nb : size_ok nb -> to_int (ddiv (of_Z nb) (of_Z 2)) = nb / 2.
Proof.
  intros Hnb. pose proof (size_bounds nb Hnb). unfold MAXNBUCKETS in *.
  unfold cvt. rewrite ddiv_of_Z by lia.
  pose proof (Z.div_mod nb 2). pose proof (Z.mod_pos_bound nb 2).
  destruct (Z.leb_spec (- 2 ^ (32 - 1)) (nb / 2)), (Z.ltb_spec (nb / 2) (2 ^ (32 - 1))); cbn in *; lia.
Qed.

Lemma above_top nb n :
  size_ok nb -> 0 <= n < 2 ^ 52 -> dlt (top_of nb) (of_Z n) = (2 * nb <? n).
Proof.
  intros Hnb Hn. pose proof (size_bounds nb Hnb). unfold MAXNBUCKETS in *.
  apply dlt_of_Z; lia.
Qed.

Lemma below_bot nb n :
  size_ok nb -> 0 <= n < 2 ^ 52 -> dlt (of_Z n) (bot_of nb) = (n <? nb / 2 - 2).
Proof.
  intros Hnb Hn. pose proof (size_bounds nb Hnb). unfold MAXNBUCKETS in *.
  pose proof (Z.div_mod nb 2). pose proof (Z.mod_pos_bound nb 2).
  apply dlt_of_Z; lia.
Qed.

(** ** Insertion *)

Section Ops.
Context (resize : Z -> calM unit).

(** The queue grows when it has more than two events for a bucket. *)
Definition grow (q : calqueue) : calM unit :=
  if (2 * q.(nbuckets) <? q.(qsize)) && (q.(nbuckets) <? MAXNBUCKETS)
  then resize (2 * q.(nbuckets)) else ret tt.

Lemma put_run q bs p v :
  calendar_ok q bs -> nonneg p -> q.(qsize) < INT_MAX ->
  exists q1 bs1,
    calqueue_put_with resize p v q = grow q1 q1 /\
    calendar_ok q1 bs1 /\ concat bs1 ≡ₚ Node p v :: concat bs /\
    same_shape q q1 /\ q1.(qsize) = q.(qsize) + 1.
Proof.
  intros Hq Hp Hlt. pose proof (co_size _ _ Hq) as Hsize.
  pose proof (size_bounds _ Hsize). pose proof (co_qsize _ _ Hq) as Hqs.
  pose proof (index_bounds _ _ p Hsize Hp (co_width _ _ Hq)) as Hi.
  set (i := index (cwidth q) (nbuckets q) p) in *.
  set (l := place (Node p v) (bs !!! Z.to_nat i)).
  pose proof (co_len _ _ Hq) as Hlen.
  assert (Hperm : concat (<[Z.to_nat i := l]> bs) ≡ₚ Node p v :: concat bs).
  { rewrite concat_update by lia. unfold l.
    rewrite place_perm, (concat_bucket bs (Z.to_nat i)) by lia. done. }
  exists (with_bucket i l (qsize q + 1) q), (<[Z.to_nat i := l]> bs). split_and!.
  - unfold calqueue_put_with. rewrite bind_get.
    erewrite bind_ok by (apply c_rem_run; lia). fold (index (cwidth q) (nbuckets q) p). fold i.
    erewrite bind_ok by (by apply read_bucket_run).
    erewrite bind_ok by (by apply write_bucket_run, (calendar_range q bs)).
    rewrite (proj2 (Z.eqb_neq (qsize q) INT_MAX)) by lia.
    rewrite bind_modify, bind_get. unfold grow. cbn [nbuckets qsize with_bucket set_qsize top_threshold set_calq].
    rewrite (co_top _ _ Hq), above_top by (done || lia). by case_match.
  - apply with_bucket_ok; [done|done| | |lia].
    + apply (bucket_place _ _ (Node p v)); [done|]. by apply (co_buckets _ _ Hq).
    + rewrite Hperm. cbn [length]. lia.
  - done.
  - by apply with_bucket_shape.
  - done.
Qed.

(** ** Removal *)

Lemma set_buckettop_ok x q bs : calendar_ok q bs -> calendar_ok (set_buckettop x q) bs.
Proof. by intros []. Qed.

Lemma set_last_ok i p q bs :
  calendar_ok q bs -> 0 <= i < q.(nbuckets) -> nonneg p -> calendar_ok (set_last i p q) bs.
Proof. by intros [] ??. Qed.

(** The queue shrinks when it is almost empty. *)
Definition shrink (q : calqueue) : calM unit :=
  if q.(qsize) <? q.(nbuckets) / 2 - 2 then resize (q.(nbuckets) / 2) else ret tt.

Lemma process_run q bs i e l :
  calendar_ok q bs -> 0 <= i < q.(nbuckets) -> bs !!! Z.to_nat i = e :: l ->
  exists q1 bs1,
    calendar_process resize i q = (do* shrink q1; ret (Some e)) q1 /\
    calendar_ok q1 bs1 /\ concat bs ≡ₚ e :: concat bs1 /\
    same_shape q q1 /\ q1.(qsize) = q.(qsize) - 1.
Proof.
  intros Hq Hi Hl. pose proof (co_size _ _ Hq) as Hsize.
  pose proof (co_len _ _ Hq) as Hlen. pose proof (co_qsize _ _ Hq) as Hqs.
  pose proof (co_int _ _ Hq). pose proof (co_buckets _ _ Hq i Hi) as Hb. rewrite Hl in Hb.
  assert (He : nonneg e.(priority)) by (destruct Hb as [_ Hb _]; by inversion_clear Hb).
  assert (Hperm : concat bs ≡ₚ e :: concat (<[Z.to_nat i := l]> bs)).
  { rewrite concat_update, (concat_bucket bs (Z.to_nat i)), Hl by lia. done. }
  assert (Hn : qsize q - 1 = Z.of_nat (length (concat (<[Z.to_nat i := l]> bs)))).
  { rewrite Hqs, Hperm. cbn [length]. lia. }
  pose proof (set_last_ok i e.(priority) q bs Hq Hi He) as Hq'.
  assert (Hq1 : calendar_ok (with_bucket i l (qsize q - 1) (set_last i e.(priority) q))
                            (<[Z.to_nat i := l]> bs)).
  { pose proof (co_int _ _ Hq). apply with_bucket_ok; [done|done| |done|lia]. by eapply bucket_tail. }
  eexists _, _. split_and!; [|exact Hq1|done| |done].
  - unfold calendar_process. erewrite bind_ok by (by apply read_bucket_run). rewrite Hl.
    rewrite !bind_modify. erewrite bind_ok by (by apply write_bucket_run, (calendar_range q bs)).
    rewrite bind_get. unfold shrink.
    cbn [nbuckets qsize bot_threshold with_bucket set_qsize set_calq set_last].
    rewrite (co_bot _ _ Hq), half_run, below_bot by (done || lia). done.
  - etrans; [|by apply with_bucket_shape]. by constructor.
Qed.

(** Dequeueing looks at the buckets from the last one used, one day after the
    other; [day_end k] is the end of the day of the [k]-th bucket it looks at. *)
Definition day_bucket (q : calqueue) (k : Z) : Z := (q.(lastbucket) + k) mod q.(nbuckets).
Definition day_end (q : calqueue) (k : nat) : double :=
  Nat.iter k (fun t => dadd t q.(cwidth)) q.(buckettop).

(** The first event of the [k]-th bucket, when it belongs to this year. *)
Definition due (q : calqueue) (bs : list (list calqueue_node)) (k : nat) : option calqueue_node :=
  match bs !!! Z.to_nat (day_bucket q (Z.of_nat k)) with
  | e :: _ => if dlt e.(priority) (day_end q k) then Some e else None
  | [] => None
  end.

Lemma day_bucket_cases q k :
  0 <= q.(lastbucket) < q.(nbuckets) -> 0 <= k < q.(nbuckets) ->
  day_bucket q k = q.(lastbucket) + k - (if q.(lastbucket) + k <? q.(nbuckets) then 0 else q.(nbuckets)).
Proof.
  intros. unfold day_bucket. destruct (Z.ltb_spec (q.(lastbucket) + k) q.(nbuckets)).
  - rewrite Z.mod_small; lia.
  - symmetry. apply Z.mod_unique with 1; lia.
Qed.

Lemma day_bucket_next q k :
  0 <= q.(lastbucket) < q.(nbuckets) -> 0 <= k < q.(nbuckets) ->
  (if day_bucket q k + 1 =? q.(nbuckets) then 0 else day_bucket q k + 1) = day_bucket q (k + 1).
Proof.
  intros. rewrite day_bucket_cases by done. unfold day_bucket.
  destruct (Z.ltb_spec (q.(lastbucket) + k) q.(nbuckets)).
  - case_match eqn:Hw; [apply Z.eqb_eq in Hw; apply Z.mod_unique with 1; lia|].
    apply Z.eqb_neq in Hw. rewrite Z.mod_small; lia.
  - rewrite (proj2 (Z.eqb_neq _ _)) by lia. apply Z.mod_unique with 1; lia.
Qed.

Lemma day_bucket_last q k :
  0 <= q.(lastbucket) < q.(nbuckets) -> 0 < k < q.(nbuckets) ->
  day_bucket q k <> q.(lastbucket).
Proof. intros. rewrite day_bucket_cases by lia. destruct (Z.ltb_spec (q.(lastbucket) + k) q.(nbuckets)); lia. Qed.

(** The loop stops at the first bucket with a due event, or comes round. *)
Lemma scan_run q bs n k :
  calendar_ok q bs -> (n + k)%nat = Z.to_nat q.(nbuckets) -> (k < Z.to_nat q.(nbuckets))%nat ->
  let here k := set_buckettop (day_end q k) q in
  (exists k' e, (k <= k' < Z.to_nat q.(nbuckets))%nat /\ due q bs k' = Some e /\
     (forall j, (k <= j < k')%nat -> due q bs j = None) /\
     scan n (day_bucket q (Z.of_nat k)) (here k)
       = (Ok (Some (day_bucket q (Z.of_nat k'))), here k', [])) \/
  ((forall j, (k <= j < Z.to_nat q.(nbuckets))%nat -> due q bs j = None) /\
   scan n (day_bucket q (Z.of_nat k)) (here k)
     = (Ok None, here (Z.to_nat q.(nbuckets)), [])).
Proof.
  intros Hq. pose proof (co_lastbucket _ _ Hq) as Hlast.
  revert k. induction n as [|n IH]; intros k Hn Hk here; [lia|].
  assert (Hd : 0 <= day_bucket q (Z.of_nat k) < q.(nbuckets)) by (apply Z.mod_pos_bound; lia).
  cbn [scan]. erewrite bind_ok by (by apply (read_bucket_run _ bs); [by apply set_buckettop_ok|]).
  rewrite bind_get. cbn [buckettop here set_buckettop nbuckets lastbucket cwidth].
  destruct (due q bs k) as [e|] eqn:Hdue.
  - left. exists k, e. split_and!; [lia|lia|done|intros; lia|].
    unfold due in Hdue. destruct (bs !!! _) as [|e' l]; [done|]. by destruct (dlt _ _).
  - assert (Hc : match bs !!! Z.to_nat (day_bucket q (Z.of_nat k)) with
                 | e :: _ => dlt e.(priority) (day_end q k) | [] => false end = false).
    { unfold due in Hdue. destruct (bs !!! _) as [|e' l]; [done|]. by destruct (dlt _ _). }
    rewrite Hc, bind_modify, day_bucket_next by lia.
    change (set_buckettop _ (set_buckettop _ q)) with (here (S k)).
    replace (Z.of_nat k + 1) with (Z.of_nat (S k)) by lia.
    assert (Hlow : forall j, (k <= j < S k)%nat -> due q bs j = None)
      by (intros j Hj; by replace j with k by lia).
    destruct (decide (S k = Z.to_nat (nbuckets q))) as [Heq|Hne].
    + right. split; [by rewrite <- Heq|]. rewrite <- Heq.
      assert (Hw : day_bucket q (Z.of_nat (S k)) = lastbucket q).
      { unfold day_bucket. rewrite Heq, Z2Nat.id by lia. symmetry. apply Z.mod_unique with 1; lia. }
      by rewrite Hw, Z.eqb_refl.
    + rewrite (proj2 (Z.eqb_neq _ _)) by (apply day_bucket_last; lia).
      destruct (IH (S k)) as [(k' & e & Hk' & He & Hj & Hrun)|[Hj Hrun]]; [lia|lia| |].
      * left. exists k', e. split_and!; [lia|lia|done| |done].
        intros j ?. destruct (decide (j = k)) as [->|]; [done|]. apply Hj. lia.
      * right. split; [|done].
        intros j ?. destruct (decide (j = k)) as [->|]; [done|]. apply Hj. lia.
Qed.

Lemma bucket_head_number q bs i e l :
  calendar_ok q bs -> 0 <= i < q.(nbuckets) -> bs !!! Z.to_nat i = e :: l ->
  number e.(priority) = true.
Proof.
  intros Hq Hi Hl. destruct (co_buckets _ _ Hq i Hi) as [_ Hb _]. rewrite Hl in Hb.
  inversion_clear Hb. by apply nonneg_number.
Qed.

(** What the direct search knows after the buckets [seen]. *)
Definition candidate (bs : list (list calqueue_node)) (seen : list Z) (t : Z) (low : double)
    : Prop :=
  (t = -1 /\ forall i, i ∈ seen -> bs !!! Z.to_nat i = []) \/
  (t ∈ seen /\ exists e l, bs !!! Z.to_nat t = e :: l /\ low = e.(priority) /\
    forall i e' l', i ∈ seen -> bs !!! Z.to_nat i = e' :: l' -> node_le e e').

Lemma candidate_step q bs seen t low i :
  calendar_ok q bs -> Forall (fun j => 0 <= j < q.(nbuckets)) (i :: seen) ->
  candidate bs seen t low ->
  match bs !!! Z.to_nat i with
  | e :: _ => if (t =? -1) || dlt e.(priority) low
              then candidate bs (seen ++ [i]) i e.(priority)
              else candidate bs (seen ++ [i]) t low
  | [] => candidate bs (seen ++ [i]) t low
  end.
Proof.
  intros Hq Hr Hc. apply Forall_cons in Hr as [Hi Hr]. rewrite Forall_forall in Hr.
  destruct (bs !!! Z.to_nat i) as [|e l] eqn:Hl.
  { destruct Hc as [[-> Hc]|(Ht & e & l & He & -> & Hc)]; [left|right].
    - split; [done|]. intros j [Hj | ->%list_elem_of_singleton]%elem_of_app; auto.
    - split; [set_solver|]. exists e, l. split_and!; [done|done|].
      intros j e' l' [Hj | ->%list_elem_of_singleton]%elem_of_app; [eauto|congruence]. }
  pose proof (bucket_head_number q bs i e l Hq Hi Hl) as Hn.
  destruct Hc as [[-> Hc]|(Ht & e0 & l0 & He & -> & Hc)]; cbn [Z.eqb orb].
  { right. split; [set_solver|]. exists e, l. split_and!; [done|done|].
    intros j e' l' [Hj | ->%list_elem_of_singleton]%elem_of_app Hj'.
    - by rewrite (Hc j Hj) in Hj'.
    - rewrite Hl in Hj'. simplify_eq. by apply dle_refl. }
  pose proof (Hr t Ht) as Htr. rewrite (proj2 (Z.eqb_neq t (-1))) by lia. cbn [orb].
  pose proof (bucket_head_number q bs t e0 l0 Hq Htr He) as Hn0.
  destruct (dlt _ _) eqn:Hlt; right; (split; [set_solver|]).
  - exists e, l. split_and!; [done|done|].
    intros j e' l' [Hj | ->%list_elem_of_singleton]%elem_of_app Hj'.
    + trans e0; [by apply dlt_le|eauto].
    + rewrite Hl in Hj'. simplify_eq. by apply dle_refl.
  - exists e0, l0. split_and!; [done|done|].
    intros j e' l' [Hj | ->%list_elem_of_singleton]%elem_of_app Hj'; [eauto|].
    rewrite Hl in Hj'. simplify_eq. by apply dle_total.
Qed.

Lemma direct_search_run q bs l seen t low :
  calendar_ok q bs -> Forall (fun j => 0 <= j < q.(nbuckets)) (seen ++ l) ->
  candidate bs seen t low ->
  exists t' low', direct_search l t low q = (Ok t', q, []) /\ candidate bs (seen ++ l) t' low'.
Proof.
  intros Hq. revert seen t low. induction l as [|i l IH]; intros seen t low Hr Hc.
  { exists t, low. by rewrite app_nil_r. }
  rewrite cons_middle, app_assoc in Hr |- *.
  assert (Hi : Forall (fun j => 0 <= j < q.(nbuckets)) (i :: seen)).
  { rewrite !Forall_app, Forall_singleton in Hr. constructor; tauto. }
  pose proof (candidate_step q bs seen t low i Hq Hi Hc) as Hs.
  inversion_clear Hi. cbn [direct_search].
  erewrite bind_ok by (by apply (read_bucket_run _ bs)).
  destruct (bs !!! Z.to_nat i) as [|e b]; [by apply IH|].
  destruct (_ || _); by apply IH.
Qed.

(** The event that is taken: the first one due, or a least one. *)
Definition taken (q : calqueue) (bs : list (list calqueue_node)) (e : calqueue_node) : Prop :=
  (exists k, (k < Z.to_nat q.(nbuckets))%nat /\ due q bs k = Some e /\
     forall j, (j < k)%nat -> due q bs j = None) \/
  ((forall j, (j < Z.to_nat q.(nbuckets))%nat -> due q bs j = None) /\
   forall n, n ∈ concat bs -> node_le e n).

Lemma concat_elem q bs n :
  calendar_ok q bs -> n ∈ concat bs ->
  exists i, 0 <= i < q.(nbuckets) /\ n ∈ bs !!! Z.to_nat i.
Proof.
  intros Hq (l & Hl & Hn)%list_elem_of_In%in_concat.
  apply list_elem_of_In, list_elem_of_lookup in Hl as [i Hi].
  pose proof (lookup_lt_Some _ _ _ Hi). pose proof (co_len _ _ Hq).
  exists (Z.of_nat i). split; [lia|].
  rewrite Nat2Z.id, (list_lookup_total_correct _ _ _ Hi). by apply list_elem_of_In.
Qed.

Lemma head_least q bs i e l n :
  calendar_ok q bs -> 0 <= i < q.(nbuckets) -> bs !!! Z.to_nat i = e :: l ->
  n ∈ bs !!! Z.to_nat i -> node_le e n.
Proof.
  intros Hq Hi Hl Hn. pose proof (bucket_head_number q bs i e l Hq Hi Hl) as He.
  destruct (co_buckets _ _ Hq i Hi) as [Hs _ _]. rewrite Hl in Hs, Hn.
  apply StronglySorted_inv in Hs as [_ Hs]. rewrite Forall_forall in Hs.
  apply elem_of_cons in Hn as [->|Hn]; [by apply dle_refl|auto].
Qed.

Lemma deq_run q bs :
  calendar_ok q bs -> q.(qsize) <> 0 ->
  exists e q1 bs1,
    calqueue_deq_with resize q = (do* shrink q1; ret (Some e)) q1 /\
    taken q bs e /\ calendar_ok q1 bs1 /\ concat bs ≡ₚ e :: concat bs1 /\
    same_shape q q1 /\ q1.(qsize) = q.(qsize) - 1.
Proof.
  intros Hq Hne. pose proof (co_lastbucket _ _ Hq) as Hlast.
  unfold calqueue_deq_with. rewrite bind_get, (proj2 (Z.eqb_neq _ _)) by done.
  assert (Hstart : day_bucket q 0 = lastbucket q)
    by (unfold day_bucket; rewrite Z.add_0_r; apply Z.mod_small; lia).
  assert (Htop : forall x, same_shape q (set_buckettop x q)) by (by constructor).
  pose proof (scan_run q bs (Z.to_nat (nbuckets q)) 0 Hq) as Hscan.
  cbv zeta in Hscan. change (Z.of_nat 0) with 0 in Hscan. rewrite Hstart in Hscan.
  replace (set_buckettop (day_end q 0) q) with q in Hscan by (by destruct q).
  destruct Hscan as [(k & e & Hk & Hdue & Hj & Hrun)|[Hj Hrun]]; [lia|lia| |].
  - erewrite bind_ok by exact Hrun.
    assert (Hb : exists l, bs !!! Z.to_nat (day_bucket q (Z.of_nat k)) = e :: l).
    { unfold due in Hdue. destruct (bs !!! _) as [|e' l]; [done|].
      destruct (dlt _ _); [|done]. simplify_eq. by eexists. }
    destruct Hb as [l Hl].
    destruct (process_run (set_buckettop (day_end q k) q) bs (day_bucket q (Z.of_nat k)) e l)
      as (q1 & bs1 & Hp & Hok & Hperm & Hsh & Hsz);
      [by apply set_buckettop_ok|apply Z.mod_pos_bound; cbn; lia|done|].
    exists e, q1, bs1. split_and!; [done| |done|done|etrans; [apply Htop|exact Hsh]|done].
    left. exists k. split_and!; [lia|done|]. intros j ?. apply Hj. lia.
  - erewrite bind_ok by exact Hrun. set (q0 := set_buckettop _ q) in *.
    assert (Hq0 : calendar_ok q0 bs) by (by apply set_buckettop_ok).
    destruct (direct_search_run q0 bs (seqZ 0 (nbuckets q)) [] (-1) (of_Z (2 ^ 63 - 1)))
      as (t & low & Hs & Hc); [done| |left; split; [done|intros i Hi; set_solver]|].
    { apply Forall_forall. intros i Hi%elem_of_seqZ. cbn. lia. }
    erewrite bind_ok by exact Hs. cbn [app] in Hc.
    destruct Hc as [[-> Hc]|(Ht & e & l & He & _ & Hc)].
    + exfalso. apply Hne. rewrite (co_qsize _ _ Hq).
      destruct (concat bs) as [|n r] eqn:Hbs; [done|].
      destruct (concat_elem q bs n Hq) as (i & Hi & Hn); [rewrite Hbs; left|].
      rewrite Hc in Hn; [set_solver|]. apply elem_of_seqZ. lia.
    + apply elem_of_seqZ in Ht.
      destruct (process_run q0 bs t e l) as (q1 & bs1 & Hp & Hok & Hperm & Hsh & Hsz);
        [done|cbn; lia|done|].
      exists e, q1, bs1. split_and!; [done| |done|done|etrans; [apply Htop|exact Hsh]|done].
      right. split; [intros j ?; apply Hj; lia|].
      intros n Hn. destruct (concat_elem q bs n Hq Hn) as (i & Hi & Hni).
      destruct (bs !!! Z.to_nat i) as [|e' l'] eqn:Hl'; [set_solver|].
      trans e'.
      * apply (Hc i e' l'); [apply elem_of_seqZ; lia|done].
      * apply (head_least q bs i e' l' n Hq Hi Hl'). by rewrite Hl'.
Qed.
End Ops.
