(* ===== verification/CalqueueProps.v ===== *)
(** * The calendar queue as a collection of events

    A resize keeps the events and re-establishes the invariant, unless the
    width that [new_width] computes is negative ([steady], Trace.v).  So the queue is a
    bag of events that every operation leaves consistent ([calqueue_bag],
    [calqueue_get_event]).  It is no priority queue, and the width can be
    negative: [calqueue_disorder]. *)

From Stdlib Require Import Sorting.Sorted.
From S2P Require Import Prelude Double Trace Calqueue CalqueueInv.

(** ** The new calendar *)

Lemma clear_buckets_run l q :
  Forall (fun i => 0 <= q.(calendar) + i < CALQSPACE) l ->
  exists m, for_each (fun i => write_bucket i []) l q = (Ok tt, set_calq m q, []) /\
    forall a, m !! a = if decide (a - q.(calendar) ∈ l) then Some [] else q.(calq) !! a.
Proof.
  revert q. induction l as [|i l IH]; intros q Hl.
  { exists q.(calq). split; [by destruct q|]. intros a. by rewrite decide_False by set_solver. }
  apply Forall_cons in Hl as [Hi Hl]. cbn [for_each].
  erewrite bind_ok by (by apply write_bucket_run).
  destruct (IH (set_calq (<[calendar q + i := []]> (calq q)) q) Hl) as (m & Hrun & Hm).
  exists m. split; [exact Hrun|]. intros a. rewrite Hm. cbn [calendar calq set_calq].
  destruct (decide (a - calendar q ∈ l)) as [?|Hn].
  { by rewrite decide_True by (by right). }
  destruct (decide (a = calendar q + i)) as [->|Hne].
  - rewrite lookup_insert_eq, decide_True; [done|apply elem_of_cons; left; lia].
  - rewrite lookup_insert_ne, decide_False; [done| |done].
    intros [?|?]%elem_of_cons; [lia|done].
Qed.

Lemma localinit_run base nb w sp q :
  size_ok nb -> nonneg sp -> base = 0 \/ base = CALQSPACE - nb ->
  exists q1, localinit base nb w sp q = (Ok tt, q1, []) /\
    (not_negative w -> calendar_ok q1 (replicate (Z.to_nat nb) [])) /\
    q1.(nbuckets) = nb /\ q1.(calendar) = base /\ q1.(qsize) = 0 /\
    q1.(resize_enabled) = q.(resize_enabled) /\
    forall a, ~ base <= a < base + nb -> q1.(calq) !! a = q.(calq) !! a.
Proof.
  intros Hnb Hsp Hbase. pose proof (size_bounds nb Hnb). unfold MAXNBUCKETS in *.
  unfold localinit. rewrite bind_modify.
  destruct (clear_buckets_run (seqZ 0 nb) (set_shape base nb w q)) as (m & Hrun & Hm).
  { apply Forall_forall. intros i Hi%elem_of_seqZ. cbn. unfold CALQSPACE in *. lia. }
  erewrite bind_ok by exact Hrun. cbv zeta.
  erewrite bind_ok by (apply c_rem_run; lia). rewrite !bind_modify.
  eexists. split_and!; [done| |done|done|done|done|].
  - intros Hw. constructor; cbn; try done.
    + rewrite length_replicate. lia.
    + intros i Hi. rewrite Hm, lookup_total_replicate_2 by lia.
      rewrite decide_True; [done|]. apply elem_of_seqZ. cbn. lia.
    + intros i Hi. rewrite lookup_total_replicate_2 by lia. apply bucket_nil.
    + assert (Hc : forall n, concat (replicate n ([] : list calqueue_node)) = [])
        by (intros n; induction n; done).
      by rewrite Hc.
    + apply rem_bounds; [lia|done|]. intros n. by apply ddiv_nonneg.
    + unfold bot_of. by rewrite half_run.
  - intros a Ha. cbn. rewrite Hm, decide_False; [done|].
    rewrite elem_of_seqZ. cbn. lia.
Qed.

Lemma concat_perm {A} (l k : list (list A)) : l ≡ₚ k -> concat l ≡ₚ concat k.
Proof.
  induction 1 as [|x l k _ IH|x y l|l k m _ IH1 _ IH2]; cbn; [done| | |by etrans].
  - by rewrite IH.
  - rewrite !app_assoc. f_equiv. apply Permutation_app_comm.
Qed.

(** The buckets by index are all the buckets. *)
Lemma buckets_by_index (bs : list (list calqueue_node)) n :
  Z.of_nat (length bs) = n ->
  concat ((fun i => bs !!! Z.to_nat i) <$> reverse (seqZ 0 n)) ≡ₚ concat bs.
Proof.
  intros Hn. apply concat_perm. rewrite reverse_Permutation.
  assert (Heq : (fun i => bs !!! Z.to_nat i) <$> seqZ 0 n = bs); [|by rewrite Heq].
  apply list_eq. intros i. rewrite list_lookup_fmap.
  destruct (decide (Z.of_nat i < n)) as [Hi|Hi].
  - rewrite lookup_seqZ_lt by done. cbn. rewrite Z.add_0_l, Nat2Z.id.
    symmetry. apply list_lookup_lookup_total_lt. lia.
  - rewrite lookup_seqZ_ge by lia. symmetry. apply lookup_ge_None_2. lia.
Qed.

(** ** Resizing disabled, or not needed *)

Section Resize.
Context (resize : Z -> calM unit).
Context (resize_disabled : forall n q, q.(resize_enabled) = false -> resize n q = (Ok tt, q, [])).

Definition quiet (q : calqueue) (n : nat) : Prop :=
  q.(resize_enabled) = false \/ q.(qsize) + Z.of_nat n <= 2 * q.(nbuckets).

Lemma grow_quiet q : quiet q 0 -> grow resize q q = (Ok tt, q, []).
Proof.
  unfold grow. intros [?|?]; [case_match; auto|].
  rewrite (proj2 (Z.ltb_ge _ _)) by lia. done.
Qed.

Lemma shrink_disabled q : q.(resize_enabled) = false -> shrink resize q q = (Ok tt, q, []).
Proof. intros. unfold shrink. case_match; auto. Qed.

Lemma put_quiet q bs p v :
  calendar_ok q bs -> nonneg p -> q.(qsize) < INT_MAX -> quiet q 1 ->
  exists q1 bs1,
    calqueue_put_with resize p v q = (Ok tt, q1, []) /\
    calendar_ok q1 bs1 /\ concat bs1 ≡ₚ Node p v :: concat bs /\
    same_shape q q1 /\ q1.(qsize) = q.(qsize) + 1.
Proof.
  intros Hq Hp Hlt Hquiet.
  destruct (put_run resize q bs p v Hq Hp Hlt) as (q1 & bs1 & Hrun & Hok & Hperm & Hsh & Hn).
  exists q1, bs1. split_and!; try done. rewrite Hrun. apply grow_quiet.
  destruct Hsh. unfold quiet in *. destruct Hquiet; [left|right]; [congruence|lia].
Qed.

Lemma quiet_next q q1 n :
  same_shape q q1 -> q1.(qsize) = q.(qsize) + 1 -> quiet q (S n) -> quiet q1 n.
Proof. intros [] ? [?|?]; [left|right]; [congruence|lia]. Qed.

(** Several events. *)
Lemma put_all_run l q bs :
  calendar_ok q bs -> Forall (fun n => nonneg n.(priority)) l ->
  q.(qsize) + Z.of_nat (length l) <= INT_MAX -> quiet q (length l) ->
  exists q1 bs1,
    for_each (fun n => calqueue_put_with resize n.(priority) n.(payload)) l q = (Ok tt, q1, []) /\
    calendar_ok q1 bs1 /\ concat bs1 ≡ₚ l ++ concat bs /\
    same_shape q q1 /\ q1.(qsize) = q.(qsize) + Z.of_nat (length l).
Proof.
  revert q bs. induction l as [|[p v] l IH]; intros q bs Hq Hl Hmax Hquiet.
  { exists q, bs. split_and!; try done. cbn. lia. }
  apply Forall_cons in Hl as [Hp Hl]. cbn [length] in *.
  destruct (put_quiet q bs p v Hq Hp) as (q1 & bs1 & Hrun & Hq1 & Hperm & Hsh & Hn);
    [lia|destruct Hquiet; [by left|right; lia]|].
  destruct (IH q1 bs1 Hq1 Hl) as (q2 & bs2 & Hrun2 & Hq2 & Hperm2 & Hsh2 & Hn2);
    [lia|by apply (quiet_next q)|].
  exists q2, bs2. split_and!; [|done| |by trans q1|lia].
  - cbn [for_each]. by erewrite bind_ok by exact Hrun.
  - rewrite Hperm2, Hperm. by rewrite <- Permutation_middle.
Qed.

(** ** The sample *)

Lemma take_sample_run n prev avg q bs :
  calendar_ok q bs -> q.(resize_enabled) = false -> Z.of_nat n <= q.(qsize) ->
  (prev <> Some None) ->
  exists es avg' q1 bs1,
    take_sample resize n prev avg q = (Ok (Some <$> es, avg'), q1, []) /\
    length es = n /\ calendar_ok q1 bs1 /\ concat bs ≡ₚ es ++ concat bs1 /\ same_shape q q1.
Proof.
  revert prev avg q bs. induction n as [|n IH]; intros prev avg q bs Hq Hdis Hn Hprev.
  { by exists [], avg, q, bs. }
  destruct (deq_run resize q bs Hq) as (e & q1 & bs1 & Hrun & _ & Hq1 & Hperm & Hsh & Hsz); [lia|].
  assert (Hdis1 : resize_enabled q1 = false) by (by rewrite (sh_enabled _ _ Hsh)).
  assert (Hdeq : calqueue_deq_with resize q = (Ok (Some e), q1, [])).
  { rewrite Hrun. by erewrite bind_ok by (by apply shrink_disabled). }
  set (avg1 := match prev with
               | Some (Some p) => dadd avg (dsub e.(priority) p.(priority))
               | _ => avg end).
  destruct (IH (Some (Some e)) avg1 q1 bs1 Hq1 Hdis1)
    as (es & avg' & q2 & bs2 & Hrun2 & Hlen & Hq2 & Hperm2 & Hsh2); [lia|done|].
  exists (e :: es), avg', q2, bs2. split_and!; [|cbn; lia|done| |by trans q1].
  - cbn [take_sample]. erewrite bind_ok by exact Hdeq.
    erewrite (bind_ok _ _ _ avg1); [|by destruct prev as [[p|]|]].
    by erewrite bind_ok by exact Hrun2.
  - rewrite Hperm, Hperm2. done.
Qed.

Lemma put_sample_run prev es avg newavg j q bs :
  calendar_ok q bs -> q.(resize_enabled) = false ->
  Forall (fun n => nonneg n.(priority)) es ->
  q.(qsize) + Z.of_nat (length es) <= INT_MAX ->
  exists r q1 bs1,
    put_sample resize (Some prev) (Some <$> es) avg newavg j q = (Ok r, q1, []) /\
    calendar_ok q1 bs1 /\ concat bs1 ≡ₚ es ++ concat bs /\ same_shape q q1.
Proof.
  revert prev newavg j q bs.
  induction es as [|e es IH]; intros prev newavg j q bs Hq Hdis Hes Hmax.
  { by exists (newavg, j), q, bs. }
  apply Forall_cons in Hes as [He Hes]. cbn [length] in Hmax.
  destruct (put_quiet q bs e.(priority) e.(payload) Hq He)
    as (q1 & bs1 & Hrun & Hq1 & Hperm & Hsh & Hn); [lia|by left|].
  cbn [fmap list_fmap put_sample deref]. rewrite !bind_ret. cbv zeta.
  erewrite bind_ok by exact Hrun.
  match goal with |- context [put_sample _ _ _ _ ?a ?b] =>
    destruct (IH e a b q1 bs1 Hq1) as (r & q2 & bs2 & Hrun2 & Hq2 & Hperm2 & Hsh2);
      [by rewrite (sh_enabled _ _ Hsh)|done|lia|] end.
  exists r, q2, bs2. split_and!; [done|done| |by trans q1].
  rewrite Hperm2, Hperm. destruct e. by rewrite <- Permutation_middle.
Qed.

Lemma sample_size_bounds n : 2 <= n <= INT_MAX -> 2 <= sample_size n <= n.
Proof.
  intros Hn. unfold sample_size.
  assert (Hq : to_int (ddiv (of_Z n) (of_Z 10)) = n / 10).
  { unfold cvt. rewrite ddiv_of_Z by lia.
    pose proof (Z.div_mod n 10). pose proof (Z.mod_pos_bound n 10).
    destruct (Z.leb_spec (- 2 ^ (32 - 1)) (n / 10)), (Z.ltb_spec (n / 10) (2 ^ (32 - 1)));
      cbn in *; lia. }
  pose proof (Z.div_mod n 10). pose proof (Z.mod_pos_bound n 10).
  rewrite Hq. destruct (Z.leb_spec n 5).
  - rewrite (proj2 (Z.ltb_ge _ _)) by lia. lia.
  - destruct (Z.ltb_spec 25 (5 + n / 10)); lia.
Qed.

(** [new_width] puts back what it takes out, and the place to dequeue. *)
Lemma new_width_run q bs :
  calendar_ok q bs -> q.(resize_enabled) = true ->
  exists w q1 bs1,
    new_width resize q = (Ok w, q1, []) /\
    calendar_ok q1 bs1 /\ concat bs1 ≡ₚ concat bs /\ same_shape q q1 /\
    q1.(lastprio) = q.(lastprio).
Proof.
  intros Hq Hen. pose proof (co_int _ _ Hq) as Hint. unfold new_width. rewrite bind_get.
  destruct (Z.ltb_spec (qsize q) 2) as [|Hge]; [by exists (of_Z 1), q, bs|]. cbv zeta.
  pose proof (sample_size_bounds (qsize q)) as Hs.
  rewrite bind_modify. set (q0 := set_resize_enabled false q).
  assert (Hq0 : calendar_ok q0 bs) by (by destruct Hq).
  destruct (take_sample_run (Z.to_nat (sample_size (qsize q))) None (of_Z 0) q0 bs Hq0)
    as (es & avg & q1 & bs1 & Hrun & Hlen & Hq1 & Hperm & Hsh1); [done|cbn; lia|done|].
  erewrite bind_ok by exact Hrun. cbv beta iota.
  destruct es as [|[p v] es]; [cbn in Hlen; lia|]. cbn [fmap list_fmap head tail option_bind mbind].
  unfold id at 1. cbn [deref]. rewrite bind_ret. cbn [priority payload].
  assert (Hcount : qsize q1 + Z.of_nat (length (Node p v :: es)) = qsize q).
  { rewrite (co_qsize _ _ Hq1), (co_qsize _ _ Hq), Hperm, length_app. lia. }
  pose proof (calendar_nonneg _ _ Hq) as Hnn. rewrite Hperm in Hnn.
  apply Forall_app in Hnn as [[Hp Hes]%Forall_cons _]. cbn [length] in *.
  destruct (put_quiet q1 bs1 p v Hq1 Hp)
    as (q2 & bs2 & Hrun2 & Hq2 & Hperm2 & Hsh2 & Hn2);
    [lia|left; by rewrite (sh_enabled _ _ Hsh1)|].
  erewrite bind_ok by exact Hrun2. unfold id.
  match goal with |- context [put_sample _ _ _ ?a ?b ?c] =>
    destruct (put_sample_run (Node p v) es a b c q2 bs2 Hq2)
      as ([newavg j] & q3 & bs3 & Hrun3 & Hq3 & Hperm3 & Hsh3);
      [by rewrite (sh_enabled _ _ Hsh2), (sh_enabled _ _ Hsh1)|done|lia|] end.
  erewrite bind_ok by exact Hrun3. cbv beta iota zeta. rewrite !bind_modify.
  assert (Hsh : same_shape q0 q3) by (trans q1; [done|by trans q2]).
  eexists _, _, bs3. split_and!; [done| | | |done].
  - pose proof (co_lastbucket _ _ Hq). pose proof (co_lastprio _ _ Hq).
    pose proof (sh_nbuckets _ _ Hsh) as Hnb. cbn in Hnb.
    destruct Hq3. constructor; try done. cbn. by rewrite Hnb.
  - rewrite Hperm3, Hperm2, Hperm. by rewrite <- Permutation_middle.
  - by destruct Hsh; constructor.
Qed.

(** ** Copying *)

(** The buckets [obs] of the old calendar, at [ob], whose indices are in [l],
    are still to be copied. *)
Definition old_slots (q : calqueue) (ob : Z) (l : list Z) (obs : Z -> list calqueue_node) : Prop :=
  forall i, i ∈ l ->
    q.(calq) !! (ob + i) = Some (obs i) /\
    ~ q.(calendar) <= ob + i < q.(calendar) + q.(nbuckets) /\
    Forall (fun n => nonneg n.(priority)) (obs i).

Lemma delete_outside q bs a :
  calendar_ok q bs -> ~ q.(calendar) <= a < q.(calendar) + q.(nbuckets) ->
  calendar_ok (set_calq (delete a q.(calq)) q) bs.
Proof.
  intros [] Ha. constructor; try done.
  intros i Hi. cbn in *. rewrite lookup_delete_ne by lia. auto.
Qed.

Lemma copy_run ob obs l q bs :
  calendar_ok q bs -> old_slots q ob l obs -> NoDup l ->
  q.(qsize) + Z.of_nat (length (concat (obs <$> l))) <= INT_MAX ->
  quiet q (length (concat (obs <$> l))) ->
  exists q1 bs1,
    for_each (copy_bucket resize ob) l q = (Ok tt, q1, []) /\
    calendar_ok q1 bs1 /\ concat bs1 ≡ₚ concat (obs <$> l) ++ concat bs /\
    q1.(nbuckets) = q.(nbuckets) /\ q1.(resize_enabled) = q.(resize_enabled).
Proof.
  revert q bs. induction l as [|i l IH]; intros q bs Hq Hold Hnd Hmax Hquiet.
  { by exists q, bs. }
  apply NoDup_cons in Hnd as [Hi Hnd]. cbn [fmap list_fmap concat] in *.
  rewrite length_app in *.
  destruct (Hold i) as (Hslot & Hout & Hnn); [left|].
  destruct (put_all_run (obs i) q bs Hq Hnn) as (q1 & bs1 & Hrun & Hq1 & Hperm & Hsh & Hn);
    [lia|destruct Hquiet; [by left|right; lia]|].
  set (q2 := match obs i with [] => q1 | _ => set_calq (delete (ob + i) q1.(calq)) q1 end).
  assert (Hcopy : copy_bucket resize ob i q = (Ok tt, q2, [])).
  { unfold copy_bucket. erewrite bind_ok by (by apply read_slot_run).
    erewrite bind_ok by exact Hrun. unfold q2. by destruct (obs i). }
  assert (Hq2 : calendar_ok q2 bs1 /\ same_shape q1 q1 /\ q2.(calendar) = q1.(calendar) /\
            q2.(nbuckets) = q1.(nbuckets) /\ q2.(qsize) = q1.(qsize) /\
            q2.(resize_enabled) = q1.(resize_enabled) /\
            forall a, a <> ob + i -> q2.(calq) !! a = q1.(calq) !! a).
  { unfold q2. destruct (obs i) as [|]; [done|]. split_and!; try done.
    - apply delete_outside; [done|]. by destruct Hsh; congruence.
    - intros a Ha. by apply lookup_delete_ne. }
  destruct Hq2 as (Hq2 & _ & Hcal & Hnb & Hsz & Hen & Hslots).
  destruct (IH q2 bs1 Hq2) as (q3 & bs3 & Hrun3 & Hq3 & Hperm3 & Hnb3 & Hen3); [|done|lia| |].
  - intros j Hj. destruct (Hold j) as (Hslot' & Hout' & Hnn'); [by right|].
    rewrite Hslots by (intros ?; apply Hi; by replace i with j by lia).
    rewrite (sh_outside _ _ Hsh) by done. rewrite Hcal, Hnb. destruct Hsh. split_and!; try done.
    congruence.
  - destruct Hquiet; [left|right]; destruct Hsh; [congruence|lia].
  - exists q3, bs3. split_and!; [|done| | |].
    + cbn [for_each]. by erewrite bind_ok by exact Hcopy.
    + rewrite Hperm3, Hperm. rewrite !app_assoc. f_equiv. apply Permutation_app_comm.
    + destruct Hsh. congruence.
    + destruct Hsh. congruence.
Qed.

(** A resize to a size for which there is room beside the old calendar, and
    that is large enough for the events. *)
Lemma resize_steady newsize q bs :
  calendar_ok q bs -> q.(resize_enabled) = true -> size_ok newsize ->
  newsize + q.(nbuckets) <= CALQSPACE -> q.(qsize) <= 2 * newsize ->
  steady (resize_with resize newsize q) (fun _ q' =>
    exists bs', calendar_ok q' bs' /\ concat bs' ≡ₚ concat bs /\
      q'.(resize_enabled) = true /\ q'.(nbuckets) = newsize).
Proof.
  intros Hq Hen Hsize Hroom Hfit. pose proof (co_int _ _ Hq) as Hint.
  unfold resize_with. rewrite bind_get, Hen. cbn [negb].
  destruct (new_width_run q bs Hq Hen) as (w & q1 & bs1 & Hrun & Hq1 & Hperm & Hsh & Hlp).
  erewrite bind_ok by exact Hrun. apply steady_bind. unfold chosen, steady at 1.
  intros [Hw _]%Forall_cons. exists tt. split; [done|].
  rewrite bind_get.
  set (base := if firstsub q1 =? 0 then CALQSPACE - newsize else 0).
  destruct (localinit_run base newsize w (lastprio q1) q1)
    as (q2 & Hrun2 & Hq2 & Hnb2 & Hcal2 & Hsz2 & Hen2 & Hout2);
    [done|by apply (co_lastprio _ bs1)|unfold base; case_match; tauto|].
  specialize (Hq2 Hw). erewrite bind_ok by exact Hrun2.
  pose proof (buckets_by_index bs1 (nbuckets q1) (co_len _ _ Hq1)) as Hall.
  set (obs := fun i => bs1 !!! Z.to_nat i) in *.
  set (l := reverse (seqZ 0 (nbuckets q1))) in *.
  assert (Hcount : Z.of_nat (length (concat (obs <$> l))) = qsize q).
  { rewrite Hall, Hperm. symmetry. by apply co_qsize. }
  assert (Hnb1 : nbuckets q1 = nbuckets q) by (by destruct Hsh).
  pose proof (size_bounds _ (co_size _ _ Hq1)).
  destruct (copy_run (calendar q1) obs l q2 _ Hq2) as (q3 & bs3 & Hrun3 & Hq3 & Hperm3 & Hnb3 & Hen3).
  - intros i Hi. unfold l in Hi. rewrite elem_of_reverse, elem_of_seqZ in Hi.
    assert (Hdisj : ~ base <= calendar q1 + i < base + newsize).
    { rewrite (co_calendar _ _ Hq1). unfold base, CALQSPACE, MAXNBUCKETS in *.
      destruct (Z.eqb_spec (firstsub q1) 0); [lia|].
      destruct (co_firstsub _ _ Hq1); unfold CALQSPACE in *; lia. }
    split_and!.
    + rewrite Hout2 by done. apply (co_slots _ _ Hq1). lia.
    + by rewrite Hcal2, Hnb2.
    + apply (co_buckets _ _ Hq1 i). lia.
  - unfold l. rewrite reverse_Permutation. apply NoDup_seqZ.
  - lia.
  - right. lia.
  - eapply steady_ok; [exact Hrun3|]. exists bs3. split_and!; [done| | |].
    + rewrite Hperm3, Hall, Hperm.
      assert (Hc : forall n, concat (replicate n ([] : list calqueue_node)) = [])
        by (intros n; induction n; done).
      by rewrite Hc, app_nil_r.
    + rewrite Hen3, Hen2. by destruct Hsh as [_ _ _ _ -> _].
    + congruence.
Qed.
End Resize.

(** ** The operations *)

Lemma resize_disabled n newsize q :
  q.(resize_enabled) = false -> resize (S n) newsize q = (Ok tt, q, []).
Proof. intros Hq. cbn [resize]. unfold resize_with. by rewrite bind_get, Hq. Qed.

(** The queue holds the events [B]: between operations it resizes, and has at
    most two events for a bucket if it can still grow. *)
Definition holds (q : calqueue) (bs : list (list calqueue_node)) : Prop :=
  calendar_ok q bs /\ q.(resize_enabled) = true /\
  (q.(nbuckets) < MAXNBUCKETS -> q.(qsize) <= 2 * q.(nbuckets)).

Lemma resize_step n newsize q bs :
  calendar_ok q bs -> q.(resize_enabled) = true -> size_ok newsize ->
  newsize + q.(nbuckets) <= CALQSPACE -> q.(qsize) <= 2 * newsize ->
  steady (resize (S (S n)) newsize q) (fun _ q' =>
    exists bs', holds q' bs' /\ concat bs' ≡ₚ concat bs).
Proof.
  intros Hq Hen Hsize Hroom Hfit. change (resize (S (S n))) with (resize_with (resize (S n))).
  eapply steady_mono; [by eapply resize_steady; eauto using resize_disabled|].
  intros [] q' (bs' & Hq' & Hperm & Hen' & Hnb). exists bs'. split; [|done].
  split_and!; [done|done|]. rewrite (co_qsize _ _ Hq'), Hperm, <- (co_qsize _ _ Hq). lia.
Qed.

Lemma put_steady q bs p v :
  holds q bs -> nonneg p -> q.(qsize) < INT_MAX ->
  steady (calqueue_put p v q) (fun _ q' =>
    exists bs', holds q' bs' /\ concat bs' ≡ₚ Node p v :: concat bs).
Proof.
  intros (Hq & Hen & Hroom) Hp Hlt.
  destruct (put_run (resize 2) q bs p v Hq Hp Hlt) as (q1 & bs1 & Hrun & Hq1 & Hperm & Hsh & Hn).
  unfold calqueue_put. rewrite Hrun. unfold grow.
  assert (Hen1 : resize_enabled q1 = true) by (by rewrite (sh_enabled _ _ Hsh)).
  assert (Hnb : nbuckets q1 = nbuckets q) by (by destruct Hsh).
  destruct (Z.ltb_spec (nbuckets q1) MAXNBUCKETS) as [Hlt1|]; cycle 1.
  { rewrite andb_false_r. eapply steady_ok; [done|]. exists bs1.
    split; [|done]. split_and!; [done|done|lia]. }
  assert (qsize q <= 2 * nbuckets q) by (apply Hroom; congruence).
  pose proof (size_bounds _ (co_size _ _ Hq1)).
  rewrite andb_true_r. destruct (Z.ltb_spec (2 * nbuckets q1) (qsize q1)).
  - eapply steady_mono.
    + apply (resize_step 0); [exact Hq1|done|by apply size_double, Hlt1; apply Hq1| |lia].
      pose proof (size_double _ (co_size _ _ Hq1) Hlt1) as Hd%size_bounds.
      unfold CALQSPACE, MAXNBUCKETS in *. lia.
    + intros [] q' (bs' & Hq' & Hperm'). exists bs'. by rewrite Hperm', Hperm.
  - eapply steady_ok; [done|]. exists bs1. split; [|done]. by split_and!.
Qed.

Lemma deq_steady q bs :
  holds q bs -> q.(qsize) <> 0 ->
  steady (calqueue_deq q) (fun r q' =>
    exists e bs', r = Some e /\ taken q bs e /\ holds q' bs' /\ concat bs ≡ₚ e :: concat bs').
Proof.
  intros (Hq & Hen & Hroom) Hne.
  destruct (deq_run (resize 2) q bs Hq Hne)
    as (e & q1 & bs1 & Hrun & Htaken & Hq1 & Hperm & Hsh & Hn).
  unfold calqueue_deq. rewrite Hrun. apply steady_bind. unfold shrink.
  assert (Hen1 : resize_enabled q1 = true) by (by rewrite (sh_enabled _ _ Hsh)).
  assert (Hnb : nbuckets q1 = nbuckets q) by (by destruct Hsh).
  pose proof (size_bounds _ (co_size _ _ Hq1)). unfold MAXNBUCKETS in *.
  pose proof (co_qsize _ _ Hq1).
  destruct (Z.ltb_spec (qsize q1) (nbuckets q1 / 2 - 2)).
  - pose proof (Z.div_mod (nbuckets q1) 2). pose proof (Z.mod_pos_bound (nbuckets q1) 2).
    eapply steady_mono.
    + apply (resize_step 0); [exact Hq1|done| |unfold CALQSPACE; lia|lia].
      apply size_half; [apply Hq1|lia].
    + intros [] q' (bs' & Hq' & Hperm'). eapply steady_ok; [done|].
      exists e, bs'. by rewrite Hperm'.
  - do 2 (eapply steady_ok; [done|]). exists e, bs1.
    split_and!; [done|done|split_and!; [done|done|]|done].
    intros Hlt. rewrite Hn, Hnb in *. specialize (Hroom Hlt). lia.
Qed.

Lemma init_holds q0 :
  exists q, calqueue_init q0 = (Ok tt, q, []) /\ holds q [[]; []].
Proof.
  destruct (localinit_run 0 2 (of_Z 1) (of_Z 0) q0)
    as (q & Hrun & Hok & Hnb & _ & Hsz & _ & _); [by exists 1|done|by left|].
  unfold calqueue_init. erewrite bind_ok by exact Hrun.
  eexists. split; [done|]. split_and!; [|done|cbn; lia].
  by destruct (Hok eq_refl).
Qed.

Lemma get_steady q bs :
  holds q bs -> q.(qsize) <> 0 ->
  steady (calqueue_get q) (fun r q' =>
    exists e bs', r = e.(payload) /\ taken q bs e /\ holds q' bs' /\
      concat bs ≡ₚ e :: concat bs').
Proof.
  intros Hq Hne. unfold calqueue_get. apply steady_bind.
  eapply steady_mono; [by apply deq_steady|].
  intros r q' (e & bs' & -> & H). eapply steady_ok; [done|]. by exists e, bs'.
Qed.

Lemma get_empty q : q.(qsize) = 0 -> calqueue_get q = (Ok 0, q, []).
Proof.
  intros Hq. unfold calqueue_get, calqueue_deq, calqueue_deq_with.
  rewrite (bind_ok _ _ q None q); [done|]. by rewrite bind_get, Hq.
Qed.

(** ** Clients *)

Inductive op := Put (priority : double) (payload : Z) | Get.

Definition run_op (o : op) : calM Z :=
  match o with
  | Put p v => do* calqueue_put p v; ret 0
  | Get => calqueue_get
  end.

Fixpoint run_ops (l : list op) : calM (list Z) :=
  match l with
  | [] => ret []
  | o :: l => let* r := run_op o in let* rs := run_ops l in ret (r :: rs)
  end.

Definition op_ok (o : op) : Prop := match o with Put p _ => nonneg p | Get => True end.

(** A bag of events: a removal takes any of them. *)
Inductive bag_run : list calqueue_node -> list op -> list Z -> list calqueue_node -> Prop :=
  | bag_done B B' : B ≡ₚ B' -> bag_run B [] [] B'
  | bag_put B p v ops rs B' :
      bag_run (Node p v :: B) ops rs B' -> bag_run B (Put p v :: ops) (0 :: rs) B'
  | bag_get e B0 B ops rs B' :
      B ≡ₚ e :: B0 -> bag_run B0 ops rs B' -> bag_run B (Get :: ops) (e.(payload) :: rs) B'
  | bag_get_empty ops rs B' :
      bag_run [] ops rs B' -> bag_run [] (Get :: ops) (0 :: rs) B'.

Lemma bag_run_perm B ops rs B' : bag_run B ops rs B' -> forall C, C ≡ₚ B -> bag_run C ops rs B'.
Proof.
  induction 1 as [B B' H|B p v ops rs B' H IH|e B0 B ops rs B' H Hr IH|ops rs B' H IH];
    intros C HC.
  - constructor. by rewrite HC.
  - constructor. apply IH. by rewrite HC.
  - econstructor; [|exact Hr]. by rewrite HC.
  - apply Permutation_nil_r in HC as ->. by constructor.
Qed.

Lemma run_op_steady o q bs :
  holds q bs -> op_ok o -> q.(qsize) < INT_MAX ->
  steady (run_op o q) (fun r q' => exists bs', holds q' bs' /\
    q'.(qsize) <= q.(qsize) + 1 /\
    forall ops rs B', bag_run (concat bs') ops rs B' -> bag_run (concat bs) (o :: ops) (r :: rs) B').
Proof.
  intros Hq Ho Hlt. pose proof (co_qsize _ _ (proj1 Hq)) as Hn. destruct o as [p v|]; cbn in Ho |- *.
  - apply steady_bind. eapply steady_mono; [by apply put_steady|].
    intros [] q' (bs' & Hq' & Hperm). eapply steady_ok; [done|]. exists bs'. split_and!; [done| |].
    + rewrite (co_qsize _ _ (proj1 Hq')), Hperm, Hn. cbn [length]. lia.
    + intros ops rs B' Hrun. constructor. by apply (bag_run_perm (concat bs')).
  - destruct (decide (q.(qsize) = 0)) as [H0|Hne].
    + eapply steady_ok; [by apply get_empty|]. exists bs. split_and!; [done|lia|].
      rewrite Hn in H0. destruct (concat bs); [|cbn in H0; lia].
      intros. by constructor.
    + eapply steady_mono; [by apply get_steady|].
      intros r q' (e & bs' & -> & _ & Hq' & Hperm). exists bs'. split_and!; [done| |].
      * rewrite (co_qsize _ _ (proj1 Hq')), Hn, Hperm. cbn [length]. lia.
      * intros. by econstructor.
Qed.

Lemma run_ops_steady ops q bs :
  holds q bs -> Forall op_ok ops -> q.(qsize) + Z.of_nat (length ops) <= INT_MAX ->
  steady (run_ops ops q) (fun rs q' =>
    exists bs', holds q' bs' /\ bag_run (concat bs) ops rs (concat bs')).
Proof.
  revert q bs. induction ops as [|o ops IH]; intros q bs Hq Hops Hmax; cbn [run_ops].
  { eapply steady_ok; [done|]. exists bs. split; [done|]. by constructor. }
  apply Forall_cons in Hops as [Ho Hops]. cbn [length] in Hmax.
  apply steady_bind. eapply steady_mono; [apply (run_op_steady o q bs); [done|done|lia]|].
  intros r q1 (bs1 & Hq1 & Hle & Hstep). cbv beta.
  apply steady_bind. eapply steady_mono; [apply (IH q1 bs1); [done|done|lia]|].
  intros rs q2 (bs2 & Hq2 & Hrun). eapply steady_ok; [done|]. exists bs2. auto.
Qed.

(** C35: On a new queue, whatever memory it is made in, any sequence of fewer
    than 2^31 operations with priorities that are not below zero runs without
    fault and behaves as a bag: what is taken out is an event that was put in
    and was not taken out before, NULL is returned when there is none, and the
    counter is the number of events left; provided that no bucket width the
    queue computes on the way is negative. *)
Theorem calqueue_bag ops q0 :
  Forall op_ok ops -> Z.of_nat (length ops) <= INT_MAX ->
  let '(r, q, ws) := (do* calqueue_init; run_ops ops) q0 in
  Forall (fun w => not_negative w) ws ->
  exists rs B, r = Ok rs /\ bag_run [] ops rs B /\
    q.(qsize) = Z.of_nat (length B) /\ (calqueue_empty q = true <-> B = []).
Proof.
  intros Hops Hmax. destruct (init_holds q0) as (q & Hinit & Hq).
  erewrite bind_ok by exact Hinit.
  pose proof (run_ops_steady ops q _ Hq Hops) as Hrun. unfold steady in Hrun.
  rewrite (co_qsize _ _ (proj1 Hq)) in Hrun.
  destruct (run_ops ops q) as [[r q'] ws]. intros Hw.
  destruct Hrun as (rs & -> & bs' & Hq' & Hbag); [cbn; lia|done|].
  exists rs, (concat bs'). pose proof (co_qsize _ _ (proj1 Hq')) as Hn.
  split_and!; [done|done|done|]. unfold calqueue_empty. rewrite Hn, Z.eqb_eq.
  destruct (concat bs'); cbn; [tauto|]. split; [lia|done].
Qed.

(** The numbers of the runs below, in halves. *)
Definition halves (n : Z) : double := ddiv (of_Z n) (of_Z 2).

Definition some_ops : list op :=
  [Put (halves 6) 1; Get; Put (halves 8) 2; Put (halves 7) 3; Get; Get; Get].

Lemma calqueue_bag_witness :
  exists rs B, ((do* calqueue_init; run_ops some_ops) uninitialised).1.1 = Ok rs /\
    bag_run [] some_ops rs B.
Proof.
  pose proof (calqueue_bag some_ops uninitialised) as H.
  destruct ((do* calqueue_init; run_ops some_ops) uninitialised) as [[r q] ws] eqn:Hrun.
  assert (Hws : ws = []) by (change ws with (r, q, ws).2; rewrite <- Hrun; vm_compute; reflexivity).
  destruct H as (rs & B & Hr & Hbag & _).
  - repeat constructor.
  - cbn. lia.
  - rewrite Hws. constructor.
  - exists rs, B. split; [exact Hr|exact Hbag].
Defined.

(** C36: From a queue that holds events, [calqueue_get] takes out the first event
    that is due in its year, looking at the buckets in turn from the last one
    used, or, if none is due, an event of least priority; in either case a
    first one of its bucket.  It keeps all the others; from an empty queue it
    returns NULL.  (Unless it shrinks the queue to a negative bucket width.) *)
Theorem calqueue_get_event q bs :
  holds q bs ->
  (concat bs = [] -> calqueue_get q = (Ok 0, q, [])) /\
  (concat bs <> [] -> steady (calqueue_get q) (fun r q' =>
     exists e bs', r = e.(payload) /\ taken q bs e /\
       (forall n, n ∈ concat bs ->
          index q.(cwidth) q.(nbuckets) n.(priority) = index q.(cwidth) q.(nbuckets) e.(priority) ->
          node_le e n) /\
       holds q' bs' /\ concat bs ≡ₚ e :: concat bs')).
Proof.
  intros Hq. pose proof (proj1 Hq) as Hc. pose proof (co_qsize _ _ Hc) as Hn. split; intros Hbs.
  - apply get_empty. by rewrite Hn, Hbs.
  - eapply steady_mono; [apply (get_steady q bs Hq)|].
    { rewrite Hn. by destruct (concat bs). }
    intros r q' (e & bs' & -> & Htaken & Hq' & Hperm). exists e, bs'. split_and!; try done.
    intros n Hin Hidx. destruct Htaken as [(k & Hk & Hdue & _)|[_ Hleast]]; [|by apply Hleast].
    assert (Hi : 0 <= day_bucket q (Z.of_nat k) < nbuckets q) by (apply Z.mod_pos_bound; lia).
    unfold due in Hdue.
    destruct (bs !!! Z.to_nat (day_bucket q (Z.of_nat k))) as [|e0 l] eqn:Hl; [done|].
    destruct (dlt _ _); simplify_eq.
    apply (head_least q bs _ e l n Hc Hi Hl).
    destruct (concat_elem q bs n Hc Hin) as (j & Hj & Hnj).
    pose proof (bucket_index _ _ _ _ (co_buckets _ _ Hc j Hj)) as Hbj.
    pose proof (bucket_index _ _ _ _ (co_buckets _ _ Hc _ Hi)) as Hbi.
    rewrite Hl in Hbi. apply Forall_cons in Hbi as [Hbi _].
    rewrite Forall_forall in Hbj. by rewrite <- Hbi, <- Hidx, (Hbj n Hnj).
Qed.

(** A queue with one event. *)
Definition one_event : calqueue := Eval vm_compute in
  ((do* calqueue_init; calqueue_put (halves 6) 1) uninitialised).1.2.

Lemma one_event_holds : holds one_event [[]; [Node (halves 6) 1]].
Proof.
  split_and!; [|reflexivity|vm_compute; congruence].
  assert (Hnb : nbuckets one_event = 2) by reflexivity.
  constructor; rewrite ?Hnb; try reflexivity.
  - by exists 1.
  - by left.
  - intros i Hi. assert (i = 0 \/ i = 1) as [->| ->] by lia; reflexivity.
  - intros i Hi. assert (i = 0 \/ i = 1) as [->| ->] by lia.
    + apply bucket_nil.
    + repeat constructor.
  - vm_compute. congruence.
  - vm_compute. split; congruence.
Qed.

Lemma calqueue_get_event_witness :
  exists e, (calqueue_get one_event).1.1 = Ok e.(payload) /\ e ∈ [Node (halves 6) 1].
Proof.
  destruct (calqueue_get_event one_event _ one_event_holds) as [_ H].
  destruct (H ltac:(discriminate)) as (a & Ha & e & bs' & -> & _ & _ & _ & Hperm).
  - vm_compute. constructor.
  - exists e. split; [exact Ha|]. change [Node (halves 6) 1] with (concat [[]; [Node (halves 6) 1]]).
    rewrite Hperm. left.
Defined.

(** What goes wrong in a new queue.
    - It is no priority queue: after [put 3.0], [get], [put 4.0], [put 3.5],
      which is in the order of a simulation, [get] returns the event of 4.0
      before the one of 3.5.  The direct search that found 3.0 leaves
      [buckettop], the end of the day, where it was before.
    - Samples that are dequeued out of order give a negative width: the puts of
      3.0, 3.5, 4.0, 4.0 and 3.0 choose the width -0.5, and the last one then
      accesses a slot that is not in the calendar.
    - Samples that are all equal give the width NaN, a single bucket in effect. *)
Example calqueue_disorder :
  ((do* calqueue_init;
    run_ops [Put (halves 6) 1; Get; Put (halves 8) 2; Put (halves 7) 3; Get; Get])
     uninitialised).1.1
    = Ok [0; 1; 0; 0; 2; 3] /\
  (let '(r, _, ws) :=
     (do* calqueue_init;
      run_ops [Put (halves 6) 1; Put (halves 7) 2; Put (halves 8) 3; Put (halves 8) 4;
               Put (halves 6) 5]) uninitialised in
   r = Fault BadAccess /\ ws = [halves (-1)]) /\
  (let '(r, _, ws) :=
     (do* calqueue_init; run_ops (replicate 5 (Put (halves 6) 1))) uninitialised in
   r = Ok (replicate 5 0) /\ ws = [S754_nan]).
Proof. vm_compute. auto. Qed.
