(* ===== verification/Channel.v ===== *)
(** * The channels of a cell (benchmark/2018-fibers/src/channel.c, model.h)

    The state of a simulated cell of a mobile network: counters, a bitmap of
    the channels that are in use, and a doubly linked list of them, with the
    power and the fading of each.  [World] is what a fiber of the benchmark has
    in memory; a list node lives in [channels_heap] at its address, 0 is NULL,
    and a field that was not initialised has no value.

    [channels_ok]: the list is well linked and holds each busy channel once, and
    the bitmap has the bits of exactly these.  [allocation] takes the least free
    channel, [deallocation] frees the given one ([channel_allocated],
    [channel_freed]). *)

From S2P Require Import Prelude Double Trace Numerical Calqueue.

(** ** Data *)

Definition TA : double := decimal 16 100.
Definition TA_DURATION : double := of_Z 60.
Definition CHANNELS_PER_CELL : Z := 1000.
Definition TA_CHANGE : double := of_Z 150.
Definition CROSS_PATH_GAIN : double := decimal 5 (10 ^ 14).
Definition PATH_GAIN : double := decimal 1 (10 ^ 10).
Definition MIN_POWER : double := of_Z 3.
Definition MAX_POWER : double := of_Z 3000.
Definition SIR_AIM : double := of_Z 10.
Definition BITS : Z := 32.

(** [struct _channel], with the [sir_data] that belongs to it alone. *)
Record channel := Channel {
  channel_id : Z;
  fading : option double;
  power : option double;
  next : Z;
  prev : Z
}.

(** [struct _lp_state_type], without the fields that are never used.  The
    words of [channel_state] that were initialised are in the map. *)
Record lp_state_type := LpState {
  channel_counter : Z;
  arriving_calls : Z;
  complete_calls : Z;
  blocked_on_setup : Z;
  executed_events : Z;
  lvt : double;
  ta : double;
  ref_ta : double;
  ta_duration : double;
  ta_change : double;
  channels_per_cell : Z;
  channel_state : gmap Z Z;
  channels : Z
}.

(** [struct _msg_t] *)
Record msg_t := Msg {
  sender : Z;
  receiver : Z;
  type : Z;
  timestamp : double;
  msg_channel : Z
}.

Record world := World {
  state : option lp_state_type;
  channels_heap : gmap Z channel;
  generator : rng;
  msgs : gmap Z msg_t;
  queue : calqueue
}.

Definition set_state (x : option lp_state_type) (s : world) : world :=
  World x s.(channels_heap) s.(generator) s.(msgs) s.(queue).
Definition set_heap (x : gmap Z channel) (s : world) : world :=
  World s.(state) x s.(generator) s.(msgs) s.(queue).
Definition set_generator (x : rng) (s : world) : world :=
  World s.(state) s.(channels_heap) x s.(msgs) s.(queue).
Definition set_msgs (x : gmap Z msg_t) (s : world) : world :=
  World s.(state) s.(channels_heap) s.(generator) x s.(queue).
Definition set_queue (x : calqueue) (s : world) : world :=
  World s.(state) s.(channels_heap) s.(generator) s.(msgs) x.

Definition set_fading (x : double) (c : channel) : channel :=
  Channel c.(channel_id) (Some x) c.(power) c.(next) c.(prev).
Definition set_power (x : double) (c : channel) : channel :=
  Channel c.(channel_id) c.(fading) (Some x) c.(next) c.(prev).
Definition set_next (x : Z) (c : channel) : channel :=
  Channel c.(channel_id) c.(fading) c.(power) x c.(prev).
Definition set_prev (x : Z) (c : channel) : channel :=
  Channel c.(channel_id) c.(fading) c.(power) c.(next) x.

Definition set_channel_state (x : gmap Z Z) (p : lp_state_type) : lp_state_type :=
  LpState p.(channel_counter) p.(arriving_calls) p.(complete_calls) p.(blocked_on_setup)
    p.(executed_events) p.(lvt) p.(ta) p.(ref_ta) p.(ta_duration) p.(ta_change)
    p.(channels_per_cell) x p.(channels).
Definition set_channels (x : Z) (p : lp_state_type) : lp_state_type :=
  LpState p.(channel_counter) p.(arriving_calls) p.(complete_calls) p.(blocked_on_setup)
    p.(executed_events) p.(lvt) p.(ta) p.(ref_ta) p.(ta_duration) p.(ta_change)
    p.(channels_per_cell) p.(channel_state) x.

Abbreviation simM := (traceM world).

(** ** Access *)

Definition get_state : simM lp_state_type := let* s := get in deref s.(state).
Definition alter_state (f : lp_state_type -> lp_state_type) : simM unit :=
  let* p := get_state in modify (set_state (Some (f p))).

(** The node at address [c]. *)
Definition get_channel (c : Z) : simM channel :=
  let* s := get in access (s.(channels_heap) !! c).
Definition alter_channel (c : Z) (f : channel -> channel) : simM unit :=
  let* n := get_channel c in
  let* s := get in modify (set_heap (<[c := f n]> s.(channels_heap))).

(** [CHECK_CHANNEL], [SET_CHANNEL] and [RESET_CHANNEL]. *)
Definition channel_mask (i : Z) : Z := u32 (Z.shiftl 1 (Z.rem i BITS)).
Definition channel_word (i : Z) : simM Z :=
  let* p := get_state in access (p.(channel_state) !! Z.quot i BITS).
Definition CHECK_CHANNEL (i : Z) : simM bool :=
  let* w := channel_word i in ret (negb (Z.land w (channel_mask i) =? 0)).
Definition write_word (i w : Z) : simM unit :=
  alter_state (fun p => set_channel_state (<[Z.quot i BITS := w]> p.(channel_state)) p).
Definition SET_CHANNEL (i : Z) : simM unit :=
  let* w := channel_word i in write_word i (Z.lor w (channel_mask i)).
Definition RESET_CHANNEL (i : Z) : simM unit :=
  let* w := channel_word i in write_word i (Z.land w (u32 (Z.lnot (channel_mask i)))).

Section Channel.
Context {L : Libc}.

Definition draw_Random : simM double :=
  let* s := get in
  let (x, g) := Random s.(generator) in
  do* modify (set_generator g); ret x.

Definition draw_Expent (mean : double) : simM double :=
  let* s := get in
  match Expent mean s.(generator) with
  | Some (x, g) => do* modify (set_generator g); ret x
  | None => fail Exited
  end.

(** An address beside all blocks in use. *)
Definition malloc_block : simM Z :=
  let* s := get in ret (malloc (dom s.(channels_heap) ∪ dom s.(msgs))).

(** ** Gains and fading *)

Definition generate_gain (gain : double) : simM double :=
  let* r := draw_Random in
  let variation := dmul (of_Z 10) r in
  let variation := pow (of_Z 10) (ddiv variation (of_Z 10)) in
  ret (dmul gain variation).

(** The loop over the list from [ch]; [n] is fuel. *)
Fixpoint fade (n : nat) (ch : Z) : simM unit :=
  if ch =? 0 then ret tt
  else
    match n with
    | O => fail Spin
    | S n =>
        let* x := draw_Expent (of_Z 1) in
        do* alter_channel ch (set_fading x);
        let* c := get_channel ch in
        fade n c.(prev)
    end.

Definition fading_recheck : simM unit :=
  let* p := get_state in
  let* s := get in
  fade (size s.(channels_heap)) p.(channels).

(** ** Deallocation *)

Fixpoint find_channel (n : nat) (c ch : Z) : simM Z :=
  if c =? 0 then ret 0
  else
    match n with
    | O => fail Spin
    | S n =>
        let* node := get_channel c in
        if node.(channel_id) =? ch then ret c else find_channel n node.(prev) ch
    end.

Definition unlink (c : Z) : simM unit :=
  let* p := get_state in
  let* node := get_channel c in
  if c =? p.(channels) then
    do* alter_state (set_channels node.(prev));
    if node.(prev) =? 0 then ret tt else alter_channel node.(prev) (set_next 0)
  else
    do* (if node.(next) =? 0 then ret tt else alter_channel node.(next) (set_prev node.(prev)));
    if node.(prev) =? 0 then ret tt else alter_channel node.(prev) (set_next node.(next)).

Definition deallocation (ch : Z) : simM unit :=
  let* p := get_state in
  let* s := get in
  let* c := find_channel (size s.(channels_heap)) p.(channels) ch in
  if c =? 0 then fail Aborted
  else
    do* unlink c;
    do* RESET_CHANNEL ch;
    do* modify (fun s => set_heap (delete c s.(channels_heap)) s);
    fading_recheck.

(** ** Allocation *)

Fixpoint find_free (l : list Z) : simM Z :=
  match l with
  | [] => ret (-1)
  | i :: l => let* busy := CHECK_CHANNEL i in if busy then find_free l else ret i
  end.

(** The interference of the other channels. *)
Fixpoint interference (n : nat) (ch : Z) (summ : double) : simM double :=
  if ch =? 0 then ret summ
  else
    match n with
    | O => fail Spin
    | S n =>
        let* x := draw_Expent (of_Z 1) in
        do* alter_channel ch (set_fading x);
        let* g := generate_gain CROSS_PATH_GAIN in
        let* c := get_channel ch in
        let* p := access c.(power) in
        let* f := access c.(fading) in
        interference n c.(prev) (dadd summ (dmul (dmul g p) f))
    end.

Definition choose_power (c : Z) (summ : double) : simM unit :=
  if deq summ (of_Z 0) then alter_channel c (set_power MIN_POWER)
  else
    let* x := draw_Expent (of_Z 1) in
    do* alter_channel c (set_fading x);
    let* g := generate_gain PATH_GAIN in
    let p := ddiv (dmul SIR_AIM summ) (dmul g x) in
    let p := if dlt p MIN_POWER then MIN_POWER else p in
    let p := if dlt MAX_POWER p then MAX_POWER else p in
    alter_channel c (set_power p).

(** A new node at the head of the list. *)
Definition link_channel (index : Z) : simM Z :=
  let* p := get_state in
  let* c := malloc_block in
  do* modify (fun s => set_heap (<[c := Channel index None None 0 p.(channels)]> s.(channels_heap)) s);
  do* (if p.(channels) =? 0 then ret tt else alter_channel p.(channels) (set_next c));
  do* alter_state (set_channels c);
  ret c.

Definition allocation : simM Z :=
  let* p := get_state in
  let* index := find_free (seqZ 0 p.(channels_per_cell)) in
  if index =? -1 then fail Aborted
  else
    do* SET_CHANNEL index;
    let* c := link_channel index in
    let* node := get_channel c in
    let* s := get in
    let* summ := interference (size s.(channels_heap)) node.(prev) (of_Z 0) in
    do* choose_power c summ;
    do* fading_recheck;
    ret index.
End Channel.
