(* ===== verification/ChannelInv.v ===== *)
(** * The list and the bitmap of channels

    The invariant of the channels of a cell, and what allocation and
    deallocation do to it. *)

From S2P Require Import Prelude Double Trace Numerical Calqueue Channel.

(** ** The doubly linked list *)

(** What of a node makes the list: its number, [next] and [prev]. *)
Definition links (h : gmap Z channel) : gmap Z (Z * Z * Z) :=
  (fun c => (c.(channel_id), c.(next), c.(prev))) <$> h.

(** From [p], whose [next] is [n], along [prev] to [q]: the nodes [l], addresses
    with channel numbers, of which [last] is the last one. *)
Fixpoint seg (m : gmap Z (Z * Z * Z)) (n p : Z) (l : list (Z * Z)) (last q : Z) : Prop :=
  match l with
  | [] => p = q /\ last = n
  | (a, i) :: l => p = a /\ a <> 0 /\ exists p', m !! a = Some (i, n, p') /\ seg m a p' l last q
  end.

Lemma seg_app m n p l1 l2 last q :
  seg m n p (l1 ++ l2) last q <-> exists last1 p2, seg m n p l1 last1 p2 /\ seg m last1 p2 l2 last q.
Proof.
  revert n p. induction l1 as [|[a i] l1 IH]; intros n p; cbn.
  - split; [intros H; by exists n, p|]. by intros (? & ? & [<- ->] & H).
  - setoid_rewrite IH. naive_solver.
Qed.

Lemma seg_frame m m' n p l last q :
  (forall a, a ∈ l.*1 -> m' !! a = m !! a) -> seg m n p l last q -> seg m' n p l last q.
Proof.
  revert n p. induction l as [|[a i] l IH]; intros n p Hm; [done|].
  intros (-> & Ha & p' & Hl & Hs). split_and!; [done|done|]. exists p'. split.
  - rewrite Hm; [done|]. left.
  - apply IH; [|done]. intros b Hb. apply Hm. by right.
Qed.

Lemma seg_member m n p l last q a i : seg m n p l last q -> (a, i) ∈ l -> a <> 0 /\ exists n' p', m !! a = Some (i, n', p').
Proof.
  revert n p. induction l as [|[b j] l IH]; intros n p; [set_solver|].
  intros (-> & Hb & p' & Hl & Hs) [[= -> ->]|Hin]%elem_of_cons; [eauto|]. by eapply IH.
Qed.

(** The last node is in the list; its [prev] can be changed. *)
Lemma seg_last m n p l last q :
  seg m n p l last q -> l <> [] -> NoDup (l.*1) ->
  exists i n', last ∈ l.*1 /\ m !! last = Some (i, n', q) /\
    forall q', seg (<[last := (i, n', q')]> m) n p l last q'.
Proof.
  revert n p. induction l as [|[a i] l IH]; intros n p; [done|].
  intros (-> & Ha & p' & Hl & Hs) _ [Hnin Hnd]%NoDup_cons. cbn in Hnin.
  destruct l as [|b l].
  - destruct Hs as [-> ->]. exists i, n. split_and!; [left|done|].
    intros q'. split_and!; [done|done|]. exists q'. by rewrite lookup_insert_eq.
  - destruct (IH _ _ Hs) as (j & n' & Hin & Hlast & Hset); [done|done|].
    exists j, n'. split_and!; [by right|done|]. intros q'. split_and!; [done|done|].
    exists p'. split; [|apply Hset]. rewrite lookup_insert_ne; [done|]. intros ->. done.
Qed.

(** The [next] of the first node can be changed. *)
Lemma seg_first m n p a i l last q n' :
  seg m n p ((a, i) :: l) last q -> NoDup (((a, i) :: l).*1) ->
  exists p', m !! a = Some (i, n, p') /\ seg (<[a := (i, n', p')]> m) n' p ((a, i) :: l) last q.
Proof.
  intros (-> & Ha & p' & Hl & Hs) [Hnin _]%NoDup_cons. exists p'. split; [done|].
  split_and!; [done|done|]. exists p'. rewrite lookup_insert_eq. split; [done|].
  eapply seg_frame; [|exact Hs]. intros b Hb. apply lookup_insert_ne. intros ->. done.
Qed.

(** ** The bitmap *)

Definition bit_of (m : gmap Z Z) (i : Z) : option bool :=
  (fun w => Z.testbit w (Z.rem i BITS)) <$> m !! Z.quot i BITS.

Lemma mask_testbit i k : 0 <= i -> 0 <= k < 32 -> Z.testbit (channel_mask i) k = bool_decide (k = Z.rem i BITS).
Proof.
  intros Hi Hk. unfold channel_mask, BITS. pose proof (Z.rem_bound_pos i 32).
  rewrite uw_small.
  - rewrite Z.shiftl_1_l. rewrite Z.pow2_bits_eqb by lia.
    destruct (Z.eqb_spec (Z.rem i 32) k), (bool_decide_reflect (k = Z.rem i 32)); congruence || lia.
  - rewrite Z.shiftl_1_l. split; [lia|]. apply Z.pow_lt_mono_r; lia.
Qed.

Lemma rem_bits i : 0 <= i -> 0 <= Z.rem i BITS < 32.
Proof. intros. apply Z.rem_bound_pos; unfold BITS; lia. Qed.

Lemma land_mask w i :
  0 <= i -> negb (Z.land w (channel_mask i) =? 0) = Z.testbit w (Z.rem i BITS).
Proof.
  intros Hi. pose proof (rem_bits i Hi) as Hr.
  assert (Hm : channel_mask i = 2 ^ Z.rem i BITS).
  { unfold channel_mask. rewrite Z.shiftl_1_l. apply uw_small. split; [lia|].
    apply Z.pow_lt_mono_r; lia. }
  rewrite Hm. destruct (Z.testbit w (Z.rem i BITS)) eqn:Hb.
  - apply negb_true_iff, Z.eqb_neq. intros H0.
    assert (Hc : Z.testbit (Z.land w (2 ^ Z.rem i BITS)) (Z.rem i BITS) = true)
      by (rewrite Z.land_spec, Hb, Z.pow2_bits_true by lia; done).
    by rewrite H0, Z.testbit_0_l in Hc.
  - apply negb_false_iff, Z.eqb_eq, Z.bits_inj'. intros k Hk.
    rewrite Z.land_spec, Z.testbit_0_l, Z.pow2_bits_eqb by lia.
    destruct (Z.eqb_spec (Z.rem i BITS) k) as [<-|]; [by rewrite Hb|apply andb_false_r].
Qed.

(** The word of another channel, or another bit of the same word. *)
Lemma bit_of_update m i w w' j :
  0 <= i -> 0 <= j -> m !! Z.quot i BITS = Some w ->
  (forall k, 0 <= k < 32 -> k <> Z.rem i BITS -> Z.testbit w' k = Z.testbit w k) ->
  bit_of (<[Z.quot i BITS := w']> m) j =
    if decide (j = i) then Some (Z.testbit w' (Z.rem i BITS)) else bit_of m j.
Proof.
  intros Hi Hj Hw Hbits. unfold bit_of. case_decide as Hji.
  - subst. by rewrite lookup_insert_eq.
  - destruct (decide (Z.quot j BITS = Z.quot i BITS)) as [Hq|Hq].
    + rewrite Hq, lookup_insert_eq, Hw. cbn. f_equal. apply Hbits; [by apply rem_bits|].
      intros Hr. apply Hji. rewrite (Z.quot_rem' j BITS), (Z.quot_rem' i BITS). congruence.
    + by rewrite lookup_insert_ne.
Qed.

Lemma bit_of_set m i w j :
  0 <= i -> 0 <= j -> m !! Z.quot i BITS = Some w ->
  bit_of (<[Z.quot i BITS := Z.lor w (channel_mask i)]> m) j =
    if decide (j = i) then Some true else bit_of m j.
Proof.
  intros Hi Hj Hw. pose proof (rem_bits i Hi) as Hr. rewrite (bit_of_update m i w); [|done|done|done|].
  - rewrite Z.lor_spec, mask_testbit, bool_decide_true, orb_true_r by done. done.
  - intros k Hk Hne. rewrite Z.lor_spec, mask_testbit, bool_decide_false by done.
    apply orb_false_r.
Qed.

Lemma bit_of_reset m i w j :
  0 <= i -> 0 <= j -> m !! Z.quot i BITS = Some w ->
  bit_of (<[Z.quot i BITS := Z.land w (u32 (Z.lnot (channel_mask i)))]> m) j =
    if decide (j = i) then Some false else bit_of m j.
Proof.
  intros Hi Hj Hw. pose proof (rem_bits i Hi) as Hr.
  assert (Hbit : forall k, 0 <= k < 32 ->
    Z.testbit (u32 (Z.lnot (channel_mask i))) k = negb (bool_decide (k = Z.rem i BITS))).
  { intros k Hk. unfold uw. rewrite Z.mod_pow2_bits_low by lia.
    by rewrite Z.lnot_spec, mask_testbit by lia. }
  rewrite (bit_of_update m i w); [|done|done|done|].
  - by rewrite Z.land_spec, Hbit, bool_decide_true, andb_false_r by done.
  - intros k Hk Hne. rewrite Z.land_spec, Hbit, bool_decide_false by done. apply andb_true_r.
Qed.

(** ** Commands that leave the list as it is *)

Record evolves (s s' : world) : Prop := Evolves {
  ev_state : s'.(state) = s.(state);
  ev_msgs : s'.(msgs) = s.(msgs);
  ev_queue : s'.(queue) = s.(queue);
  ev_links : links s'.(channels_heap) = links s.(channels_heap);
  ev_power a c : s.(channels_heap) !! a = Some c -> is_Some c.(power) ->
    exists c', s'.(channels_heap) !! a = Some c' /\ is_Some c'.(power)
}.

#[export] Instance evolves_preorder : PreOrder evolves.
Proof.
  split; [by constructor; eauto|].
  intros s1 s2 s3 [? ? ? ? H1] [? ? ? ? H2]. constructor; try congruence.
  intros a c Ha Hc. destruct (H1 a c Ha Hc) as (c' & Ha' & Hc'). eauto.
Qed.

Lemma links_lookup h a i n p :
  links h !! a = Some (i, n, p) ->
  exists c, h !! a = Some c /\ c.(channel_id) = i /\ c.(next) = n /\ c.(prev) = p.
Proof.
  unfold links. rewrite lookup_fmap. destruct (h !! a) as [c|]; [|done].
  intros [= <- <- <-]. by exists c.
Qed.

Lemma get_channel_run c s n :
  s.(channels_heap) !! c = Some n -> get_channel c s = (Ok n, s, []).
Proof. intros H. unfold get_channel. by rewrite bind_get, H. Qed.

Lemma alter_channel_run a f s c :
  s.(channels_heap) !! a = Some c ->
  alter_channel a f s = (Ok tt, set_heap (<[a := f c]> s.(channels_heap)) s, []).
Proof.
  intros H. unfold alter_channel. rewrite (bind_ok _ _ _ _ _ (get_channel_run _ _ _ H)).
  by rewrite bind_get.
Qed.

Lemma alter_channel_evolves a f s c :
  s.(channels_heap) !! a = Some c ->
  (f c).(channel_id) = c.(channel_id) -> (f c).(next) = c.(next) -> (f c).(prev) = c.(prev) ->
  (is_Some c.(power) -> is_Some (f c).(power)) ->
  evolves s (set_heap (<[a := f c]> s.(channels_heap)) s).
Proof.
  intros Ha Hi Hn Hp Hpow. constructor; try done.
  - cbn. unfold links. rewrite fmap_insert, Hi, Hn, Hp.
    apply insert_id. by rewrite lookup_fmap, Ha.
  - intros b cb Hb Hs. cbn. destruct (decide (b = a)) as [->|].
    + rewrite lookup_insert_eq. simplify_eq. eauto.
    + rewrite lookup_insert_ne by done. eauto.
Qed.

Section Loops.
Context {L : Libc} {HL : LibcOk L}.

Lemma draw_Random_safe s : safe (draw_Random s) (fun _ s' => evolves s s' /\ s'.(channels_heap) = s.(channels_heap)).
Proof.
  unfold draw_Random, safe. rewrite bind_get. destruct (Random _) as [x g].
  rewrite bind_modify. eexists _, _. split; [done|]. split; [|done]. constructor; eauto.
Qed.

Lemma draw_Expent_safe mean s :
  mean_ok mean ->
  safe (draw_Expent mean s) (fun x s' => evolves s s' /\ s'.(channels_heap) = s.(channels_heap) /\
    dle (of_Z 0) x = true).
Proof.
  intros Hm. unfold draw_Expent, safe. rewrite bind_get.
  destruct (Expent_ok mean s.(generator) Hm) as (x & g & -> & Hx).
  rewrite bind_modify. eexists _, _. split; [done|]. split_and!; [constructor; eauto|done|done].
Qed.

Lemma generate_gain_safe gain s :
  safe (generate_gain gain s)
    (fun _ s' => evolves s s' /\ s'.(channels_heap) = s.(channels_heap)).
Proof.
  unfold generate_gain. apply safe_bind. eapply safe_mono; [apply draw_Random_safe|].
  intros r s' He. by eapply safe_ok.
Qed.

Lemma one_ok : mean_ok (of_Z 1).
Proof. split; [done|discriminate]. Qed.

(** One turn of the loops: a new fading for the node at [a]. *)
Lemma fade_one a s c :
  s.(channels_heap) !! a = Some c ->
  forall A (k : simM A) Q,
  (forall s' x, evolves s s' -> s'.(channels_heap) !! a = Some (set_fading x c) -> safe (k s') Q) ->
  safe ((let* x := draw_Expent (of_Z 1) in do* alter_channel a (set_fading x); k) s) Q.
Proof.
  intros Ha A k Q Hk. apply safe_bind.
  eapply safe_mono; [apply draw_Expent_safe, one_ok|]. intros x s1 (He & Hh & _). cbv beta.
  rewrite <- Hh in Ha. rewrite (bind_ok _ _ _ _ _ (alter_channel_run _ _ _ _ Ha)).
  apply (Hk _ x).
  - trans s1; [done|]. by apply alter_channel_evolves.
  - cbn. by rewrite lookup_insert_eq.
Qed.

Lemma fade_safe fuel n p l last s :
  seg (links s.(channels_heap)) n p l last 0 -> (length l <= fuel)%nat ->
  safe (fade fuel p s) (fun _ s' => evolves s s').
Proof.
  revert n p l s. induction fuel as [|fuel IH]; intros n p [|[a i] l] s Hs Hlen; cbn in Hlen; try lia.
  - destruct Hs as [-> _]. by eapply safe_ok.
  - destruct Hs as [-> _]. by eapply safe_ok.
  - destruct Hs as (-> & Ha & p' & Hl & Hs). cbn [fade].
    rewrite (proj2 (Z.eqb_neq a 0)) by done.
    apply links_lookup in Hl as (c & Hc & Hi & Hn & Hp).
    apply (fade_one a s c Hc). intros s' x He Hc'.
    rewrite (bind_ok _ _ _ _ _ (get_channel_run _ _ _ Hc')). cbn [prev set_fading]. rewrite Hp.
    eapply safe_mono; [apply (IH a p' l s'); [by rewrite (ev_links _ _ He)|lia]|].
    intros [] s'' He'. by trans s'.
Qed.

Lemma interference_safe fuel n p l last s summ :
  seg (links s.(channels_heap)) n p l last 0 -> (length l <= fuel)%nat ->
  (forall a, a ∈ l.*1 -> exists c, s.(channels_heap) !! a = Some c /\ is_Some c.(power)) ->
  safe (interference fuel p summ s) (fun _ s' => evolves s s').
Proof.
  revert n p l s summ.
  induction fuel as [|fuel IH]; intros n p [|[a i] l] s summ Hs Hlen Hpow; cbn in Hlen; try lia.
  - destruct Hs as [-> _]. by eapply safe_ok.
  - destruct Hs as [-> _]. by eapply safe_ok.
  - destruct Hs as (-> & Ha & p' & Hl & Hs). cbn [interference].
    rewrite (proj2 (Z.eqb_neq a 0)) by done.
    apply links_lookup in Hl as (c & Hc & Hi & Hn & Hp).
    apply (fade_one a s c Hc). intros s1 x He1 Hc1.
    apply safe_bind. eapply safe_mono; [apply generate_gain_safe|]. intros g s2 [He2 Hh2].
    cbv beta. assert (He : evolves s s2) by (by trans s1). rewrite <- Hh2 in Hc1.
    destruct (Hpow a) as (c0 & Hc0 & [pw Hpw]); [left|]. rewrite Hc in Hc0. simplify_eq.
    rewrite (bind_ok _ _ _ _ _ (get_channel_run _ _ _ Hc1)).
    rewrite (bind_access pw), (bind_access x) by done. cbn [prev set_fading].
    eapply safe_mono; [eapply (IH a c0.(prev) l s2)|].
    + by rewrite (ev_links _ _ He).
    + lia.
    + intros b Hb. destruct (Hpow b) as (cb & Hcb & Hpb); [by right|].
      by apply (ev_power _ _ He b cb).
    + intros y s3 He3. by trans s2.
Qed.

Lemma choose_power_safe a summ s c :
  s.(channels_heap) !! a = Some c ->
  safe (choose_power a summ s) (fun _ s' => evolves s s' /\
    exists c', s'.(channels_heap) !! a = Some c' /\ is_Some c'.(power)).
Proof.
  intros Hc. unfold choose_power. destruct (deq _ _).
  - eapply safe_ok; [by apply alter_channel_run|]. split.
    + by apply alter_channel_evolves.
    + eexists. cbn. by rewrite lookup_insert_eq.
  - apply safe_bind. eapply safe_mono; [apply draw_Expent_safe, one_ok|].
    intros x s1 (He & Hh & _). cbv beta. rewrite <- Hh in Hc.
    rewrite (bind_ok _ _ _ _ _ (alter_channel_run _ _ _ _ Hc)).
    set (s2 := set_heap _ s1).
    assert (He2 : evolves s1 s2) by (by apply alter_channel_evolves).
    assert (Hc2 : s2.(channels_heap) !! a = Some (set_fading x c)) by (cbn; by rewrite lookup_insert_eq).
    apply safe_bind. eapply safe_mono; [apply generate_gain_safe|].
    intros g s3 [He3 Hh3]. cbv beta zeta. rewrite <- Hh3 in Hc2.
    eapply safe_ok; [by apply alter_channel_run|]. split.
    + trans s3; [by trans s1; [done|trans s2]|]. by apply alter_channel_evolves.
    + eexists. cbn. by rewrite lookup_insert_eq.
Qed.
End Loops.

(** ** The invariant *)

(** [l]: the busy channels, newest first, with the addresses of their nodes. *)
Record list_ok (s : world) (p : lp_state_type) (l : list (Z * Z)) : Prop := ListOk {
  lo_state : s.(state) = Some p;
  lo_seg : exists last, seg (links s.(channels_heap)) 0 p.(channels) l last 0;
  lo_dom : dom s.(channels_heap) = list_to_set (l.*1);
  lo_ptrs : NoDup (l.*1);
  lo_ids : NoDup (l.*2);
  lo_range i : i ∈ l.*2 -> 0 <= i < p.(channels_per_cell);
  lo_bits i : 0 <= i < p.(channels_per_cell) ->
    bit_of p.(channel_state) i = Some (bool_decide (i ∈ l.*2))
}.

Definition powered (s : world) : Prop :=
  forall a c, s.(channels_heap) !! a = Some c -> is_Some c.(power).

Definition channels_ok (s : world) (p : lp_state_type) (l : list (Z * Z)) : Prop :=
  list_ok s p l /\ powered s.

Lemma dom_links h : dom (links h) = dom h.
Proof. apply dom_fmap_L. Qed.

Lemma list_ok_evolves s s' p l : evolves s s' -> list_ok s p l -> list_ok s' p l.
Proof.
  intros [Hst Hm Hq Hl Hp] []. constructor; try done.
  - congruence.
  - by rewrite Hl.
  - by rewrite <- dom_links, Hl, dom_links.
Qed.

Lemma powered_evolves s s' : evolves s s' -> powered s -> powered s'.
Proof.
  intros He Hp a c Ha.
  assert (Hd : a ∈ dom s.(channels_heap)).
  { rewrite <- dom_links, <- (ev_links _ _ He), dom_links. by apply elem_of_dom. }
  apply elem_of_dom in Hd as [c0 Hc0].
  destruct (ev_power _ _ He a c0 Hc0 (Hp a c0 Hc0)) as (c' & Hc' & Hs). congruence.
Qed.

Lemma list_size s p l : list_ok s p l -> size s.(channels_heap) = length l.
Proof.
  intros Hok. rewrite <- size_dom, (lo_dom _ _ _ Hok), size_list_to_set by apply Hok.
  apply length_fmap.
Qed.

Lemma get_state_run s p : s.(state) = Some p -> get_state s = (Ok p, s, []).
Proof. intros H. unfold get_state. by rewrite bind_get, H. Qed.

Lemma alter_state_run f s p :
  s.(state) = Some p -> alter_state f s = (Ok tt, set_state (Some (f p)) s, []).
Proof. intros H. unfold alter_state. by rewrite (bind_ok _ _ _ _ _ (get_state_run _ _ H)). Qed.

Lemma fading_recheck_safe {L : Libc} {HL : LibcOk L} s p l :
  list_ok s p l -> safe (fading_recheck s) (fun _ s' => evolves s s').
Proof.
  intros Hok. unfold fading_recheck.
  rewrite (bind_ok _ _ _ _ _ (get_state_run _ _ (lo_state _ _ _ Hok))), bind_get.
  destruct (lo_seg _ _ _ Hok) as [last Hs]. eapply fade_safe; [exact Hs|].
  by rewrite (list_size _ _ _ Hok).
Qed.

(** *** The bitmap *)

Lemma channel_word_run s p i w :
  s.(state) = Some p -> p.(channel_state) !! Z.quot i BITS = Some w ->
  channel_word i s = (Ok w, s, []).
Proof.
  intros Hp Hw. unfold channel_word.
  by rewrite (bind_ok _ _ _ _ _ (get_state_run _ _ Hp)), Hw.
Qed.

Lemma bit_word m i b : bit_of m i = Some b -> exists w, m !! Z.quot i BITS = Some w /\ Z.testbit w (Z.rem i BITS) = b.
Proof. unfold bit_of. destruct (m !! _) as [w|]; [|done]. intros [= <-]. eauto. Qed.

Lemma CHECK_CHANNEL_run s p l i :
  list_ok s p l -> 0 <= i < p.(channels_per_cell) ->
  CHECK_CHANNEL i s = (Ok (bool_decide (i ∈ l.*2)), s, []).
Proof.
  intros Hok Hi. destruct (bit_word _ _ _ (lo_bits _ _ _ Hok i Hi)) as (w & Hw & <-).
  unfold CHECK_CHANNEL.
  rewrite (bind_ok _ _ _ _ _ (channel_word_run _ _ _ _ (lo_state _ _ _ Hok) Hw)).
  by rewrite land_mask by lia.
Qed.

Lemma find_free_run s p l k :
  list_ok s p l -> (forall i, i ∈ k -> 0 <= i < p.(channels_per_cell)) ->
  (find_free k s = (Ok (-1), s, []) /\ forall i, i ∈ k -> i ∈ l.*2) \/
  exists k1 i k2, k = k1 ++ i :: k2 /\ find_free k s = (Ok i, s, []) /\ i ∉ l.*2 /\
    forall j, j ∈ k1 -> j ∈ l.*2.
Proof.
  intros Hok. induction k as [|i k IH]; intros Hk; [left; split; [done|set_solver]|].
  cbn [find_free]. rewrite (bind_ok _ _ _ _ _ (CHECK_CHANNEL_run _ _ _ _ Hok (Hk i ltac:(left)))).
  case_bool_decide as Hb.
  - destruct IH as [[Hr Hall]|(k1 & j & k2 & -> & Hr & Hj & Hall)]; [intros; apply Hk; by right| |].
    + left. split; [done|]. intros j [->|Hj]%elem_of_cons; auto.
    + right. exists (i :: k1), j, k2. split_and!; [done|done|done|].
      intros x [->|Hx]%elem_of_cons; auto.
  - right. exists [], i, k. split_and!; [done|done|done|set_solver].
Qed.

Lemma SET_CHANNEL_run s p l i :
  list_ok s p l -> 0 <= i < p.(channels_per_cell) ->
  exists m, SET_CHANNEL i s = (Ok tt, set_state (Some (set_channel_state m p)) s, []) /\
    forall j, 0 <= j -> bit_of m j = if decide (j = i) then Some true else bit_of p.(channel_state) j.
Proof.
  intros Hok Hi. destruct (bit_word _ _ _ (lo_bits _ _ _ Hok i Hi)) as (w & Hw & _).
  pose proof (lo_state _ _ _ Hok) as Hp.
  exists (<[Z.quot i BITS := Z.lor w (channel_mask i)]> p.(channel_state)). split.
  - unfold SET_CHANNEL. rewrite (bind_ok _ _ _ _ _ (channel_word_run _ _ _ _ Hp Hw)).
    unfold write_word. by rewrite (alter_state_run _ _ p).
  - intros j Hj. apply bit_of_set; [lia|done|done].
Qed.

Lemma RESET_CHANNEL_run s p i w :
  s.(state) = Some p -> 0 <= i -> p.(channel_state) !! Z.quot i BITS = Some w ->
  exists m, RESET_CHANNEL i s = (Ok tt, set_state (Some (set_channel_state m p)) s, []) /\
    forall j, 0 <= j -> bit_of m j = if decide (j = i) then Some false else bit_of p.(channel_state) j.
Proof.
  intros Hp Hi Hw.
  exists (<[Z.quot i BITS := Z.land w (u32 (Z.lnot (channel_mask i)))]> p.(channel_state)). split.
  - unfold RESET_CHANNEL. rewrite (bind_ok _ _ _ _ _ (channel_word_run _ _ _ _ Hp Hw)).
    unfold write_word. by rewrite (alter_state_run _ _ p).
  - intros j Hj. by apply bit_of_reset.
Qed.

(** *** A new node *)

Section Allocation.
Context {L : Libc} {HL : LibcOk L}.

Lemma links_insert h a c :
  links (<[a := c]> h) = <[a := (c.(channel_id), c.(next), c.(prev))]> (links h).
Proof. unfold links. by rewrite fmap_insert. Qed.

(** The node is new: [next] of the old first node is the only change. *)
Lemma link_channel_safe s p l i last :
  s.(state) = Some p -> seg (links s.(channels_heap)) 0 p.(channels) l last 0 ->
  dom s.(channels_heap) = list_to_set (l.*1) -> NoDup (l.*1) -> powered s ->
  safe (link_channel i s) (fun a s' =>
    a ∉ l.*1 /\ s'.(state) = Some (set_channels a p) /\ s'.(msgs) = s.(msgs) /\
    s'.(queue) = s.(queue) /\
    dom s'.(channels_heap) = {[a]} ∪ dom s.(channels_heap) /\
    (exists last', seg (links s'.(channels_heap)) 0 a ((a, i) :: l) last' 0) /\
    s'.(channels_heap) !! a = Some (Channel i None None 0 p.(channels)) /\
    forall b c, b <> a -> s'.(channels_heap) !! b = Some c -> is_Some c.(power)).
Proof.
  intros Hp Hs Hdom Hnd Hpow. unfold link_channel.
  rewrite (bind_ok _ _ _ _ _ (get_state_run _ _ Hp)).
  set (a := malloc (dom s.(channels_heap) ∪ dom s.(msgs))).
  assert (Ha : a ∉ dom s.(channels_heap)) by (pose proof (malloc_fresh (dom s.(channels_heap) ∪ dom s.(msgs))); set_solver).
  assert (Ha0 : a <> 0) by apply malloc_not_null.
  assert (Hal : a ∉ l.*1) by (rewrite Hdom in Ha; by rewrite elem_of_list_to_set in Ha).
  rewrite (bind_ok _ _ s a s) by done. rewrite bind_modify.
  set (node := Channel i None None 0 p.(channels)).
  set (s1 := set_heap _ s).
  assert (Hs1 : seg (links s1.(channels_heap)) 0 p.(channels) l last 0).
  { cbn. rewrite links_insert. eapply seg_frame; [|exact Hs].
    intros b Hb. apply lookup_insert_ne. intros ->. done. }
  assert (Hpow1 : forall b c, b <> a -> s1.(channels_heap) !! b = Some c -> is_Some c.(power)).
  { intros b c Hb. cbn. rewrite lookup_insert_ne by done. apply Hpow. }
  assert (Hdom1 : dom s1.(channels_heap) = {[a]} ∪ dom s.(channels_heap)) by (cbn; apply dom_insert_L).
  assert (Hl1 : s1.(channels_heap) !! a = Some node) by (cbn; by rewrite lookup_insert_eq).
  destruct l as [|[b j] l].
  - destruct Hs as [Hp0 _]. rewrite Hp0, Z.eqb_refl, bind_ret.
    rewrite (bind_ok _ _ _ _ _ (alter_state_run _ s1 p Hp)).
    eexists a, _. split; [done|]. split_and!; try done.
    exists a. split_and!; [done|done|]. exists 0. split; [|done].
    cbn. rewrite links_insert, lookup_insert_eq. unfold node. cbn. by rewrite Hp0.
  - pose proof Hs as (Hpb & Hb0 & _). rewrite Hpb in *.
    rewrite (proj2 (Z.eqb_neq b 0)) by done.
    destruct (seg_first _ 0 b b j l last 0 a Hs1 Hnd) as (pb & Hlb & Hs2).
    pose proof (links_lookup _ _ _ _ _ Hlb) as (c & Hc & Hcj & Hcn & Hcp).
    assert (Hab : a <> b) by (intros ->; apply Hal; left).
    rewrite (bind_ok _ _ _ _ _ (alter_channel_run _ _ _ _ Hc)).
    set (s2 := set_heap _ s1).
    rewrite (bind_ok _ _ _ _ _ (alter_state_run _ s2 p Hp)).
    eexists a, _. split; [done|]. split_and!; try done.
    + rewrite <- Hdom1. cbn. rewrite dom_insert_L. apply elem_of_dom_2 in Hc. set_solver.
    + exists last. split_and!; [done|done|]. exists b. split.
      * cbn. rewrite !links_insert, lookup_insert_ne, lookup_insert_eq by congruence. cbn. congruence.
      * unfold s2. cbn [channels_heap set_heap set_state]. rewrite links_insert.
        cbn [channel_id next prev set_next]. by rewrite Hcj, Hcp.
    + cbn. rewrite lookup_insert_ne by done. exact Hl1.
    + intros d cd Hd. cbn. destruct (decide (d = b)) as [->|].
      * rewrite lookup_insert_eq. intros [= <-]. cbn. by eapply Hpow1.
      * rewrite lookup_insert_ne by done. by apply Hpow1.
Qed.

Lemma seqZ_split n k1 i k2 :
  seqZ 0 n = k1 ++ i :: k2 -> 0 <= i < n /\ forall j, 0 <= j < i -> j ∈ k1.
Proof.
  intros Heq.
  assert (Hi : seqZ 0 n !! length k1 = Some i) by (rewrite Heq; by apply list_lookup_middle).
  apply lookup_seqZ in Hi as [Hi Hn]. split; [lia|].
  intros j Hj. apply list_elem_of_lookup. exists (Z.to_nat j).
  assert (Hlj : seqZ 0 n !! Z.to_nat j = Some j) by (apply lookup_seqZ; lia).
  rewrite Heq, lookup_app_l in Hlj by lia. done.
Qed.

Lemma allocation_safe s p l :
  channels_ok s p l -> (exists i, 0 <= i < p.(channels_per_cell) /\ i ∉ l.*2) ->
  safe (allocation s) (fun i s' => exists a m,
    channels_ok s' (set_channels a (set_channel_state m p)) ((a, i) :: l) /\
    0 <= i < p.(channels_per_cell) /\ i ∉ l.*2 /\ (forall j, 0 <= j < i -> j ∈ l.*2) /\
    s'.(msgs) = s.(msgs) /\ s'.(queue) = s.(queue)).
Proof.
  intros [Hok Hpow] (i0 & Hi0 & Hfree). pose proof (lo_state _ _ _ Hok) as Hp.
  unfold allocation. rewrite (bind_ok _ _ _ _ _ (get_state_run _ _ Hp)).
  destruct (find_free_run s p l (seqZ 0 p.(channels_per_cell)) Hok)
    as [[_ Hall]|(k1 & i & k2 & Hk & Hrun & Hil & Hbusy)].
  { intros j Hj%elem_of_seqZ. lia. }
  { exfalso. apply Hfree, Hall, elem_of_seqZ. lia. }
  destruct (seqZ_split _ _ _ _ Hk) as [Hi Hleast].
  rewrite (bind_ok _ _ _ _ _ Hrun), (proj2 (Z.eqb_neq i (-1))) by lia.
  destruct (SET_CHANNEL_run s p l i Hok Hi) as (m & Hset & Hbits).
  rewrite (bind_ok _ _ _ _ _ Hset). set (s1 := set_state _ s).
  destruct (lo_seg _ _ _ Hok) as [last Hseg].
  apply safe_bind. eapply safe_mono; [apply (link_channel_safe s1 (set_channel_state m p) l i last); [done|exact Hseg|apply Hok|apply Hok|exact Hpow]|].
  intros a s2 (Ha & Hst2 & Hm2 & Hq2 & Hdom2 & [last2 Hseg2] & Hnode & Hpow2). cbv beta.
  rewrite (bind_ok _ _ _ _ _ (get_channel_run _ _ _ Hnode)), bind_get. cbn [prev].
  assert (Hok2 : list_ok s2 (set_channels a (set_channel_state m p)) ((a, i) :: l)).
  { constructor; cbn.
    - exact Hst2.
    - by exists last2.
    - rewrite Hdom2. cbn. by rewrite (lo_dom _ _ _ Hok).
    - by constructor; [|apply Hok].
    - by constructor; [|apply Hok].
    - intros j [->|Hj]%elem_of_cons; [done|]. by apply (lo_range _ _ _ Hok).
    - intros j Hj. rewrite Hbits by lia. case_decide as Hji.
      + subst. by rewrite bool_decide_true by left.
      + rewrite (lo_bits _ _ _ Hok j Hj). f_equal. apply bool_decide_ext.
        rewrite elem_of_cons. naive_solver. }
  destruct Hseg2 as (_ & Ha0 & p' & Hla & Hseg2).
  assert (Hp' : p' = p.(channels)).
  { unfold links in Hla. rewrite lookup_fmap, Hnode in Hla. by injection Hla. }
  subst p'. apply safe_bind. eapply safe_mono.
  { apply (interference_safe _ a _ l last2); [exact Hseg2| |].
    - rewrite (list_size _ _ _ Hok2). cbn. lia.
    - intros b Hb. assert (Hd : b ∈ dom s2.(channels_heap)).
      { rewrite (lo_dom _ _ _ Hok2). cbn. set_solver. }
      apply elem_of_dom in Hd as [c Hc]. exists c. split; [done|].
      apply (Hpow2 b c); [intros ->; done|done]. }
  intros summ s3 He3. cbv beta.
  assert (Hn3 : exists c, s3.(channels_heap) !! a = Some c).
  { apply elem_of_dom. rewrite <- dom_links, (ev_links _ _ He3), dom_links.
    by apply elem_of_dom_2 in Hnode. }
  destruct Hn3 as [c3 Hc3].
  apply safe_bind. eapply safe_mono; [by apply (choose_power_safe a summ s3 c3)|].
  intros [] s4 (He4 & c4 & Hc4 & Hp4). cbv beta.
  assert (He24 : evolves s2 s4) by (by trans s3).
  assert (Hok4 := list_ok_evolves _ _ _ _ He24 Hok2).
  assert (Hpow4 : powered s4).
  { intros b c Hb. destruct (decide (b = a)) as [->|Hba]; [congruence|].
    assert (Hd : b ∈ dom s2.(channels_heap)).
    { rewrite <- dom_links, <- (ev_links _ _ He24), dom_links. by apply elem_of_dom_2 in Hb. }
    apply elem_of_dom in Hd as [c2 Hc2].
    destruct (ev_power _ _ He24 b c2 Hc2 (Hpow2 b c2 Hba Hc2)) as (c' & Hc' & Hs). congruence. }
  apply safe_bind. eapply safe_mono; [by apply (fading_recheck_safe s4 _ _ Hok4)|].
  intros [] s5 He5. cbv beta. eapply safe_ok; [done|]. exists a, m.
  split; [split; [by eapply list_ok_evolves|by eapply powered_evolves]|].
  split; [done|]. split; [done|]. split; [intros j Hj; by apply Hbusy, Hleast|]. split.
  - rewrite (ev_msgs _ _ He5), (ev_msgs _ _ He24). done.
  - rewrite (ev_queue _ _ He5), (ev_queue _ _ He24). done.
Qed.

Lemma allocation_full s p l :
  channels_ok s p l -> (forall i, 0 <= i < p.(channels_per_cell) -> i ∈ l.*2) ->
  allocation s = (Fault Aborted, s, []).
Proof.
  intros [Hok _] Hfull. unfold allocation.
  rewrite (bind_ok _ _ _ _ _ (get_state_run _ _ (lo_state _ _ _ Hok))).
  destruct (find_free_run s p l (seqZ 0 p.(channels_per_cell)) Hok)
    as [[Hrun _]|(k1 & i & k2 & Hk & _ & Hil & _)].
  { intros j Hj%elem_of_seqZ. lia. }
  - by rewrite (bind_ok _ _ _ _ _ Hrun).
  - exfalso. apply Hil, Hfull. by apply seqZ_split in Hk as [? _].
Qed.
End Allocation.

(** *** Removing a node *)

Lemma find_channel_run fuel n p l last s ch :
  seg (links s.(channels_heap)) n p l last 0 -> (length l <= fuel)%nat ->
  (ch ∉ l.*2 /\ find_channel fuel p ch s = (Ok 0, s, [])) \/
  exists l1 a l2, l = l1 ++ (a, ch) :: l2 /\ find_channel fuel p ch s = (Ok a, s, []).
Proof.
  revert n p l. induction fuel as [|fuel IH]; intros n p [|[a i] l] Hs Hlen; cbn in Hlen; try lia.
  - destruct Hs as [-> _]. left. split; [set_solver|done].
  - destruct Hs as [-> _]. left. split; [set_solver|done].
  - destruct Hs as (-> & Ha & p' & Hl & Hs). cbn [find_channel].
    rewrite (proj2 (Z.eqb_neq a 0)) by done.
    apply links_lookup in Hl as (c & Hc & <- & Hn & <-).
    rewrite (bind_ok _ _ _ _ _ (get_channel_run _ _ _ Hc)).
    destruct (Z.eqb_spec c.(channel_id) ch) as [<-|Hne]; [right; by exists [], a, l|].
    destruct (IH _ _ _ Hs) as [[Hnin Hrun]|(l1 & b & l2 & -> & Hrun)]; [lia| |].
    + left. split; [|done]. cbn. intros [->|?]%elem_of_cons; done.
    + right. by exists ((a, c.(channel_id)) :: l1), b, l2.
Qed.

(** The next node is told of its new neighbour [n], if there is one. *)
Lemma relink_next s n n' p l last :
  seg (links s.(channels_heap)) n p l last 0 -> NoDup (l.*1) ->
  exists h last', (if p =? 0 then ret tt else alter_channel p (set_next n')) s = (Ok tt, set_heap h s, []) /\
    seg (links h) n' p l last' 0 /\ dom h = dom s.(channels_heap) /\
    (forall b, b ∉ l.*1 -> h !! b = s.(channels_heap) !! b) /\
    (powered s -> powered (set_heap h s)).
Proof.
  intros Hs Hnd. destruct l as [|[b j] l].
  - destruct Hs as [-> _]. exists s.(channels_heap), n'. rewrite Z.eqb_refl.
    split_and!; try done. by destruct s.
  - destruct (seg_first _ n p b j l last 0 n' Hs Hnd) as (pb & Hlb & Hs').
    destruct Hs as (-> & Hb0 & _). rewrite (proj2 (Z.eqb_neq b 0)) by done.
    apply links_lookup in Hlb as (c & Hc & Hcj & Hcn & Hcp).
    exists (<[b := set_next n' c]> s.(channels_heap)), last. split_and!.
    + by apply alter_channel_run.
    + rewrite links_insert. cbn [channel_id next prev set_next]. by rewrite Hcj, Hcp.
    + rewrite dom_insert_L. apply elem_of_dom_2 in Hc. set_solver.
    + intros d Hd. apply lookup_insert_ne. intros ->. apply Hd. left.
    + intros Hpow d cd. cbn. destruct (decide (d = b)) as [->|].
      * rewrite lookup_insert_eq. intros [= <-]. by apply (Hpow b c).
      * rewrite lookup_insert_ne by done. apply Hpow.
Qed.

(** Likewise the node before. *)
Lemma relink_prev s n p l last q q' :
  seg (links s.(channels_heap)) n p l last q -> l <> [] -> NoDup (l.*1) ->
  exists h, (if last =? 0 then ret tt else alter_channel last (set_prev q')) s = (Ok tt, set_heap h s, []) /\
    seg (links h) n p l last q' /\ dom h = dom s.(channels_heap) /\
    (forall b, b ∉ l.*1 -> h !! b = s.(channels_heap) !! b) /\
    (powered s -> powered (set_heap h s)).
Proof.
  intros Hs Hl Hnd.
  destruct (seg_last _ _ _ _ _ _ Hs Hl Hnd) as (i & n' & Hin & Hlast & Hset).
  apply list_elem_of_fmap in Hin as ([a j] & Ha & Hin). cbn in Ha. subst a.
  destruct (seg_member _ _ _ _ _ _ _ _ Hs Hin) as [Hl0 _].
  rewrite (proj2 (Z.eqb_neq last 0)) by done.
  apply links_lookup in Hlast as (c & Hc & Hci & Hcn & Hcp).
  exists (<[last := set_prev q' c]> s.(channels_heap)). split_and!.
  - by apply alter_channel_run.
  - rewrite links_insert. cbn [channel_id next prev set_prev]. rewrite Hci, Hcn. apply Hset.
  - rewrite dom_insert_L. apply elem_of_dom_2 in Hc. set_solver.
  - intros d Hd. apply lookup_insert_ne. intros ->. apply Hd.
    apply list_elem_of_fmap. by exists (d, j).
  - intros Hpow d cd. cbn. destruct (decide (d = last)) as [->|].
    + rewrite lookup_insert_eq. intros [= <-]. by apply (Hpow last c).
    + rewrite lookup_insert_ne by done. apply Hpow.
Qed.

Lemma unlink_safe s p l1 a i l2 :
  channels_ok s p (l1 ++ (a, i) :: l2) ->
  safe (unlink a s) (fun _ s' => exists c last,
    s'.(state) = Some (set_channels c p) /\ s'.(msgs) = s.(msgs) /\ s'.(queue) = s.(queue) /\
    seg (links s'.(channels_heap)) 0 c (l1 ++ l2) last 0 /\
    dom s'.(channels_heap) = dom s.(channels_heap) /\ powered s').
Proof.
  intros [Hok Hpow]. pose proof (lo_state _ _ _ Hok) as Hp.
  destruct (lo_seg _ _ _ Hok) as [last Hseg].
  pose proof (lo_ptrs _ _ _ Hok) as Hnd. rewrite fmap_app, fmap_cons in Hnd. cbn in Hnd.
  apply NoDup_app in Hnd as (Hnd1 & Hdis & [Ha2 Hnd2]%NoDup_cons).
  assert (Ha1 : a ∉ l1.*1) by (intros H; apply (Hdis a H); left).
  apply seg_app in Hseg as (m1 & r & Hs1 & -> & Ha0 & q' & Hla & Hs2).
  apply links_lookup in Hla as (c & Hc & Hci & Hcn & Hcp). subst m1 q'.
  unfold unlink. rewrite (bind_ok _ _ _ _ _ (get_state_run _ _ Hp)).
  rewrite (bind_ok _ _ _ _ _ (get_channel_run _ _ _ Hc)).
  destruct l1 as [|[b j] l1].
  - destruct Hs1 as [Hpa Hn0]. rewrite Hpa, Z.eqb_refl.
    rewrite (bind_ok _ _ _ _ _ (alter_state_run _ s p Hp)). set (s1 := set_state _ s).
    destruct (relink_next s1 a 0 c.(prev) l2 last Hs2 Hnd2) as (h & last' & Hrun & Hsh & Hdom & _ & Hpw).
    eapply safe_ok; [exact Hrun|]. exists c.(prev), last'. split_and!; try done. by apply Hpw.
  - assert (Hne : (a =? p.(channels)) = false).
    { apply Z.eqb_neq. destruct Hs1 as (-> & _). intros ->. apply Ha1. left. }
    rewrite Hne.
    destruct (relink_prev s 0 _ ((b, j) :: l1) c.(next) a c.(prev) Hs1)
      as (h & Hrun & Hsh & Hdom & Hout & Hpw); [done|done|].
    rewrite (bind_ok _ _ _ _ _ Hrun). set (s1 := set_heap h s).
    assert (Hs2' : seg (links s1.(channels_heap)) a c.(prev) l2 last 0).
    { eapply seg_frame; [|exact Hs2]. intros d Hd. cbn. unfold links. rewrite !lookup_fmap, Hout; [done|].
      intros H. apply (Hdis d H). by right. }
    destruct (relink_next s1 a c.(next) c.(prev) l2 last Hs2' Hnd2)
      as (h2 & last' & Hrun2 & Hsh2 & Hdom2 & Hout2 & Hpw2).
    eapply safe_ok; [exact Hrun2|]. exists p.(channels), last'. split_and!; try done.
    + cbn. rewrite Hp. by destruct p.
    + apply seg_app. exists c.(next), c.(prev). split; [|exact Hsh2].
      eapply seg_frame; [|exact Hsh]. intros d Hd. cbn. unfold links. rewrite !lookup_fmap, Hout2; [done|].
      intros H. apply (Hdis d Hd). by right.
    + cbn. by rewrite Hdom2, <- Hdom.
    + by apply Hpw2, Hpw.
Qed.

Section Deallocation.
Context {L : Libc} {HL : LibcOk L}.

Lemma deallocation_safe s p l ch :
  channels_ok s p l -> ch ∈ l.*2 ->
  safe (deallocation ch s) (fun _ s' => exists a c m l1 l2,
    l = l1 ++ (a, ch) :: l2 /\
    channels_ok s' (set_channels c (set_channel_state m p)) (l1 ++ l2) /\
    s'.(msgs) = s.(msgs) /\ s'.(queue) = s.(queue)).
Proof.
  intros Hok0 Hch. pose proof Hok0 as [Hok Hpow]. pose proof (lo_state _ _ _ Hok) as Hp.
  unfold deallocation. rewrite (bind_ok _ _ _ _ _ (get_state_run _ _ Hp)), bind_get.
  destruct (lo_seg _ _ _ Hok) as [last Hseg].
  destruct (find_channel_run (size s.(channels_heap)) 0 p.(channels) l last s ch Hseg)
    as [[Hnin _]|(l1 & a & l2 & -> & Hrun)]; [by rewrite (list_size _ _ _ Hok)|done|].
  rewrite (bind_ok _ _ _ _ _ Hrun).
  destruct (seg_member _ _ _ _ _ _ a ch Hseg) as [Ha0 _]; [set_solver|].
  rewrite (proj2 (Z.eqb_neq a 0)) by done.
  apply safe_bind. eapply safe_mono; [by apply (unlink_safe s p l1 a ch l2)|].
  intros [] s1 (c & last1 & Hst1 & Hm1 & Hq1 & Hseg1 & Hdom1 & Hpow1). cbv beta.
  pose proof (lo_range _ _ _ Hok ch Hch) as Hrange.
  destruct (bit_word _ _ _ (lo_bits _ _ _ Hok ch Hrange)) as (w & Hw & _).
  destruct (RESET_CHANNEL_run s1 (set_channels c p) ch w Hst1) as (m & Hreset & Hbits); [lia|done|].
  rewrite (bind_ok _ _ _ _ _ Hreset), bind_modify. cbn [channels_heap set_state].
  set (s2 := set_heap _ _).
  pose proof (lo_ptrs _ _ _ Hok) as Hptrs. pose proof (lo_ids _ _ _ Hok) as Hids.
  pose proof (lo_dom _ _ _ Hok) as Hdom.
  rewrite !fmap_app, !fmap_cons in *. cbn [fst snd] in *.
  rewrite <- Permutation_middle in Hptrs, Hids.
  apply NoDup_cons in Hptrs as [Ha Hptrs]. apply NoDup_cons in Hids as [Hc Hids].
  assert (Hok2 : list_ok s2 (set_channels c (set_channel_state m p)) (l1 ++ l2)).
  { constructor; cbn.
    - done.
    - exists last1. eapply seg_frame; [|exact Hseg1].
      intros b Hb. unfold links. rewrite fmap_delete, lookup_delete_ne; [done|].
      intros <-. apply Ha. by rewrite <- fmap_app.
    - rewrite dom_delete_L, Hdom1, Hdom, fmap_app. rewrite !list_to_set_app_L in *. cbn. 
      rewrite <- list_to_set_app_L. set_solver.
    - by rewrite fmap_app.
    - by rewrite fmap_app.
    - intros i Hi. apply (lo_range _ _ _ Hok). rewrite fmap_app, fmap_cons in *. set_solver.
    - intros i Hi. rewrite Hbits by lia. case_decide as Hic.
      + subst. rewrite bool_decide_false; [done|]. by rewrite fmap_app.
      + cbn. rewrite (lo_bits _ _ _ Hok i Hi). f_equal. apply bool_decide_ext.
        rewrite !fmap_app, fmap_cons. set_solver. }
  assert (Hpow2 : powered s2).
  { intros b cb. cbn. intros [_ Hb]%lookup_delete_Some. by apply (Hpow1 b). }
  eapply safe_mono; [by apply (fading_recheck_safe s2 _ _ Hok2)|].
  intros [] s3 He3. exists a, c, m, l1, l2. split; [done|].
  split; [split; [by eapply list_ok_evolves|by eapply powered_evolves]|]. split.
  - by rewrite (ev_msgs _ _ He3).
  - by rewrite (ev_queue _ _ He3).
Qed.

Lemma deallocation_unknown s p l ch :
  channels_ok s p l -> ch ∉ l.*2 -> deallocation ch s = (Fault Aborted, s, []).
Proof.
  intros [Hok _] Hch. unfold deallocation.
  rewrite (bind_ok _ _ _ _ _ (get_state_run _ _ (lo_state _ _ _ Hok))), bind_get.
  destruct (lo_seg _ _ _ Hok) as [last Hseg].
  destruct (find_channel_run (size s.(channels_heap)) 0 p.(channels) l last s ch Hseg)
    as [[_ Hrun]|(l1 & a & l2 & -> & _)]; [by rewrite (list_size _ _ _ Hok)| |].
  - by rewrite (bind_ok _ _ _ _ _ Hrun).
  - exfalso. apply Hch. rewrite fmap_app, fmap_cons. set_solver.
Qed.
End Deallocation.

(** ** The operations *)

(** C37: On a cell whose list and bitmap agree, [allocation] gives the least free
    channel and links it in front of the list, and [deallocation] of a busy
    channel unlinks it from where it is and clears its bit; list and bitmap
    agree again, no memory is accessed that is not allocated and initialised,
    and nothing else changes.  [allocation] aborts exactly when no channel is
    free, [deallocation] when the channel is not busy. *)
Theorem channel_operations {L : Libc} (HL : LibcOk L) s p l :
  channels_ok s p l ->
  ((exists i, 0 <= i < p.(channels_per_cell) /\ i ∉ l.*2) ->
   safe (allocation s) (fun i s' => exists a m,
     channels_ok s' (set_channels a (set_channel_state m p)) ((a, i) :: l) /\
     0 <= i < p.(channels_per_cell) /\ i ∉ l.*2 /\ (forall j, 0 <= j < i -> j ∈ l.*2) /\
     s'.(msgs) = s.(msgs) /\ s'.(queue) = s.(queue))) /\
  ((forall i, 0 <= i < p.(channels_per_cell) -> i ∈ l.*2) ->
   allocation s = (Fault Aborted, s, [])) /\
  (forall ch, ch ∈ l.*2 -> safe (deallocation ch s) (fun _ s' => exists a c m l1 l2,
     l = l1 ++ (a, ch) :: l2 /\
     channels_ok s' (set_channels c (set_channel_state m p)) (l1 ++ l2) /\
     s'.(msgs) = s.(msgs) /\ s'.(queue) = s.(queue))) /\
  (forall ch, ch ∉ l.*2 -> deallocation ch s = (Fault Aborted, s, [])).
Proof.
  intros Hok. split_and!.
  - by apply allocation_safe.
  - by apply allocation_full.
  - intros ch. by apply deallocation_safe.
  - intros ch. by apply (deallocation_unknown s p l).
Qed.

(** A cell with two channels, both free. *)
Definition two_channels : lp_state_type :=
  LpState 2 0 0 0 0 (of_Z 0) TA TA TA_DURATION TA_CHANGE 2 {[0 := 0]} 0.
Definition two_free : world := World (Some two_channels) ∅ (Rng 0 0 []) ∅ uninitialised.

Lemma two_free_ok : channels_ok two_free two_channels [].
Proof.
  split; [|intros a c; cbn; by rewrite lookup_empty].
  constructor; cbn; [done|by exists 0|apply dom_empty_L|constructor|constructor|set_solver|].
  intros i Hi. assert (i = 0 \/ i = 1) as [->| ->] by lia; reflexivity.
Qed.

Lemma channel_operations_witness :
  (exists i s', @allocation ReferenceLibc.libc two_free = (Ok i, s', [])) /\
  @deallocation ReferenceLibc.libc 1 two_free = (Fault Aborted, two_free, []).
Proof.
  destruct (@channel_operations ReferenceLibc.libc ReferenceLibc.libc_ok
              two_free two_channels [] two_free_ok) as (Halloc & _ & _ & Hunknown).
  split.
  - destruct Halloc as (i & s' & H & _); [exists 0; split; [cbn; lia|apply not_elem_of_nil]|].
    exists i, s'. exact H.
  - apply Hunknown. apply not_elem_of_nil.
Defined.
