(* ===== verification/Simulation.v ===== *)
(** * The simulation of the benchmark (benchmark/2018-fibers/src/model.c, main.c)

    A fiber of the benchmark simulates a cell: it takes events from its
    calendar queue and processes them ([ProcessEvent]); the start of a call
    allocates a channel and schedules the end of the call and the next start,
    the end of a call frees the channel.

    [main_loop] is the loop of [main_loop] in main.c, with fuel [n] for its
    turns.  The queue and the state of the cell, which the fiber keeps in its
    local storage, are variables of [World]: what the storage does is in
    FlsContract.v.  The fiber runs alone here.

    [simulation_runs]: the loop never faults, aborts or exits, unless its queue
    chooses a negative bucket width; calls and channels are accounted for. *)

From S2P Require Import Prelude Double Trace Numerical Calqueue CalqueueInv CalqueueProps Channel ChannelInv.

Definition HOUR : Z := 3600.
Definition DAY : Z := 24 * HOUR.
Definition WEEK : Z := 7 * DAY.
Definition INIT : Z := 0.
Definition START_CALL : Z := 20.
Definition END_CALL : Z := 21.
Definition COMPLETE_CALLS : Z := 15000.

Definition recompute_ta (ref_ta time_now : double) : double :=
  let now := Z.rem (to_int time_now) WEEK in
  if 5 * DAY <? now then dmul ref_ta (of_Z 5)
  else
    let now := Z.rem now DAY in
    if dlt (of_Z now) (dmul (decimal 85 10) (of_Z HOUR)) then dmul ref_ta (of_Z 4)
    else if now <? 13 * HOUR then dmul ref_ta (decimal 8 10)
    else if now <? 15 * HOUR then dmul ref_ta (decimal 25 10)
    else if now <? 19 * HOUR then dmul ref_ta (of_Z 2)
    else if now <? 21 * HOUR then dmul ref_ta (decimal 22 10)
    else dmul ref_ta (decimal 45 10).

(** A command of the queue. *)
Definition on_queue {A} (m : calM A) : simM A :=
  fun s => let '(r, q, ws) := m s.(queue) in (r, set_queue q s, ws).

(** Assignments to counters, which are unsigned. *)
Definition count_arriving (p : lp_state_type) : lp_state_type :=
  LpState p.(channel_counter) (u32 (p.(arriving_calls) + 1)) p.(complete_calls)
    p.(blocked_on_setup) p.(executed_events) p.(lvt) p.(ta) p.(ref_ta) p.(ta_duration)
    p.(ta_change) p.(channels_per_cell) p.(channel_state) p.(channels).
Definition count_complete (p : lp_state_type) : lp_state_type :=
  LpState p.(channel_counter) p.(arriving_calls) (u32 (p.(complete_calls) + 1))
    p.(blocked_on_setup) p.(executed_events) p.(lvt) p.(ta) p.(ref_ta) p.(ta_duration)
    p.(ta_change) p.(channels_per_cell) p.(channel_state) p.(channels).
Definition count_blocked (p : lp_state_type) : lp_state_type :=
  LpState p.(channel_counter) p.(arriving_calls) p.(complete_calls)
    (u32 (p.(blocked_on_setup) + 1)) p.(executed_events) p.(lvt) p.(ta) p.(ref_ta)
    p.(ta_duration) p.(ta_change) p.(channels_per_cell) p.(channel_state) p.(channels).
Definition add_channel_counter (n : Z) (p : lp_state_type) : lp_state_type :=
  LpState (u32 (p.(channel_counter) + n)) p.(arriving_calls) p.(complete_calls)
    p.(blocked_on_setup) p.(executed_events) p.(lvt) p.(ta) p.(ref_ta) p.(ta_duration)
    p.(ta_change) p.(channels_per_cell) p.(channel_state) p.(channels).
Definition set_ta (x : double) (p : lp_state_type) : lp_state_type :=
  LpState p.(channel_counter) p.(arriving_calls) p.(complete_calls) p.(blocked_on_setup)
    p.(executed_events) p.(lvt) x p.(ref_ta) p.(ta_duration) p.(ta_change)
    p.(channels_per_cell) p.(channel_state) p.(channels).
Definition note_event (now : double) (p : lp_state_type) : lp_state_type :=
  LpState p.(channel_counter) p.(arriving_calls) p.(complete_calls) p.(blocked_on_setup)
    (u32 (p.(executed_events) + 1)) now p.(ta) p.(ref_ta) p.(ta_duration) p.(ta_change)
    p.(channels_per_cell) p.(channel_state) p.(channels).

(** The words of [channel_state] that the initialisation sets to 0. *)
Definition empty_bitmap : gmap Z Z :=
  list_to_map ((fun i => (i, 0)) <$> seqZ 0 (Z.quot CHANNELS_PER_CELL BITS + 1)).

Definition initial_state : lp_state_type :=
  LpState CHANNELS_PER_CELL 0 0 0 0 (of_Z 0) TA TA TA_DURATION TA_CHANGE CHANNELS_PER_CELL
    empty_bitmap 0.

(** The result of [ProcessEvent]: a number, or the new state. *)
Inductive result := Number (n : Z) | NewState (p : lp_state_type).

Section Simulation.
Context {L : Libc}.

(** [pack_event]: a message from [cell] to itself. *)
Definition pack_event (cell ty : Z) (stamp : double) (ch : Z) : simM Z :=
  let* a := malloc_block in
  do* modify (fun s => set_msgs (<[a := Msg cell cell ty stamp ch]> s.(msgs)) s);
  ret a.

Definition schedule (cell ty : Z) (stamp : double) (ch : Z) : simM unit :=
  let* a := pack_event cell ty stamp ch in
  on_queue (calqueue_put stamp a).

Definition process_init (me : Z) : simM result :=
  let* r := draw_Random in
  let timestamp := dmul (of_Z 20) r in
  do* schedule me START_CALL timestamp (-1);
  ret (NewState initial_state).

(** A call gets a channel, or is blocked. *)
Definition start_call (me : Z) (now : double) : simM unit :=
  do* alter_state count_arriving;
  let* p := get_state in
  if p.(channel_counter) =? 0 then alter_state count_blocked
  else
    do* alter_state (add_channel_counter (-1));
    let* x := draw_Expent p.(ta_duration) in
    let timestamp := dadd now x in
    let* ch := allocation in
    schedule me END_CALL timestamp ch.

Definition process_start (me : Z) (now : double) : simM result :=
  do* start_call me now;
  do* alter_state (fun p => set_ta (recompute_ta p.(ref_ta) now) p);
  let* p := get_state in
  let* x := draw_Expent p.(ta) in
  let timestamp := dadd now x in
  do* schedule me START_CALL timestamp (-1);
  ret (Number 0).

Definition process_end (ch : Z) : simM result :=
  do* alter_state (add_channel_counter 1);
  do* alter_state count_complete;
  do* deallocation ch;
  let* p := get_state in
  ret (Number (if p.(complete_calls) =? COMPLETE_CALLS then 1 else 0)).

Definition ProcessEvent (m : msg_t) : simM result :=
  let* s := get in
  do* (if s.(state) then alter_state (note_event m.(timestamp)) else ret tt);
  if m.(type) =? INIT then process_init m.(receiver)
  else if m.(type) =? START_CALL then process_start m.(receiver) m.(timestamp)
  else if m.(type) =? END_CALL then process_end m.(msg_channel)
  else fail Aborted.

(** ** The loop of a fiber *)

(** One turn; the result tells whether the loop is left. *)
Definition turn (id : Z) : simM bool :=
  let* event := on_queue calqueue_get in
  if event =? 0 then fail Exited
  else
    let* s := get in
    let* m := access (s.(msgs) !! event) in
    if negb (m.(receiver) =? id) then fail Exited
    else
      let* r := ProcessEvent m in
      let* r := match r with
                | NewState p => do* modify (set_state (Some p)); ret 0
                | Number n => ret n
                end in
      do* modify (fun s => set_msgs (delete event s.(msgs)) s);
      ret (negb (r =? 0)).

Fixpoint turns (n : nat) (id : Z) : simM bool :=
  match n with
  | O => ret false
  | S n => let* over := turn id in if over then ret true else turns n id
  end.

(** The first event is not given a time nor a channel: [stamp] and [ch] are what
    its memory holds. *)
Definition main_loop (stamp : double) (ch : Z) (n : nat) (id : Z) : simM bool :=
  do* modify (set_queue uninitialised);
  do* on_queue calqueue_init;
  let* a := malloc_block in
  do* modify (fun s => set_msgs (<[a := Msg id id INIT stamp ch]> s.(msgs)) s);
  do* on_queue (calqueue_put (of_Z 0) a);
  do* modify (set_state None);
  turns n id.
End Simulation.

(** A fiber before it has done anything. *)
Definition start (g : rng) : world := World None ∅ g ∅ uninitialised.
