(* ===== verification/SimulationProps.v ===== *)
(** * The simulation of the benchmark runs

    The invariant of a turn of the loop: the queue holds one event for the next
    start of a call and, for each busy channel, one for the end of its call
    ([pending]); the counters agree with the channels ([cell_ok]). *)

From S2P Require Import Prelude Double Trace Numerical Calqueue CalqueueInv CalqueueProps Channel ChannelInv Simulation.

(** ** The events in the queue *)

Definition kind (ms : gmap Z msg_t) (n : calqueue_node) : option (Z * Z) :=
  (fun m => (m.(type), m.(msg_channel))) <$> ms !! n.(payload).

Definition event_ok (id : Z) (ms : gmap Z msg_t) (n : calqueue_node) : Prop :=
  n.(payload) <> 0 /\ exists m, ms !! n.(payload) = Some m /\ m.(receiver) = id /\
    (m.(type) <> INIT -> m.(timestamp) = n.(priority)).

(** The queue holds events of the kinds [K]; the events [cur] are being
    processed. *)
Definition pending (id : Z) (cur : list Z) (K : list (Z * Z)) (s : world) : Prop :=
  exists bs, holds s.(queue) bs /\
    NoDup (cur ++ (payload <$> concat bs)) /\
    (forall x, x ∈ cur -> x ∈ dom s.(msgs)) /\
    Forall (event_ok id s.(msgs)) (concat bs) /\
    kind s.(msgs) <$> concat bs ≡ₚ Some <$> K.

Lemma pending_frame id cur K s s' :
  s'.(msgs) = s.(msgs) -> s'.(queue) = s.(queue) -> pending id cur K s -> pending id cur K s'.
Proof. intros Hm Hq (bs & H). exists bs. by rewrite Hm, Hq. Qed.

Lemma pending_perm id cur K K' s : K ≡ₚ K' -> pending id cur K s -> pending id cur K' s.
Proof. intros HK (bs & ? & ? & ? & ? & H). exists bs. split_and!; try done. by rewrite H, HK. Qed.

Lemma on_queue_steady {A} (m : calM A) s (Q : A -> calqueue -> Prop) :
  steady (m s.(queue)) Q ->
  steady (on_queue m s) (fun a s' => exists q, s' = set_queue q s /\ Q a q).
Proof.
  unfold steady, on_queue. destruct (m s.(queue)) as [[r q] ws].
  intros H Hw. destruct (H Hw) as (a & -> & Ha). eauto.
Qed.

Lemma pending_size id cur K s : pending id cur K s -> s.(queue).(qsize) = Z.of_nat (length K).
Proof.
  intros (bs & Hq & _ & _ & _ & HK). rewrite (co_qsize _ _ (proj1 Hq)). f_equal.
  rewrite <- (length_fmap (kind s.(msgs))), HK. apply length_fmap.
Qed.

(** A fresh message changes nothing for the others. *)
Lemma event_ok_fresh id ms a m n :
  ms !! a = None -> event_ok id ms n -> event_ok id (<[a := m]> ms) n.
Proof.
  intros Ha (H0 & m0 & Hm & H). split; [done|]. exists m0. split; [|done].
  rewrite lookup_insert_ne; [done|congruence].
Qed.

Lemma kinds_fresh id ms a m E :
  ms !! a = None -> Forall (event_ok id ms) E -> kind (<[a := m]> ms) <$> E = kind ms <$> E.
Proof.
  intros Ha HE. apply list_fmap_ext. intros i n Hn. unfold kind.
  rewrite Forall_lookup in HE. destruct (HE i n Hn) as (_ & m0 & Hm & _).
  rewrite lookup_insert_ne; [done|congruence].
Qed.

Lemma kinds_delete id ms a E :
  a ∉ payload <$> E -> Forall (event_ok id ms) E ->
  Forall (event_ok id (delete a ms)) E /\ kind (delete a ms) <$> E = kind ms <$> E.
Proof.
  intros Ha HE.
  assert (Hd : forall n, n ∈ E -> delete a ms !! n.(payload) = ms !! n.(payload)).
  { intros n Hn. apply lookup_delete_ne. intros ->. apply Ha, list_elem_of_fmap. eauto. }
  split.
  - rewrite Forall_forall in *. intros n Hn. destruct (HE n Hn) as (H0 & m & Hm & H).
    split; [done|]. exists m. by rewrite (Hd n Hn).
  - apply list_fmap_ext. intros i n Hn. unfold kind. rewrite Hd; [done|].
    by eapply list_elem_of_lookup_2.
Qed.

Section Schedule.
Context {L : Libc} {HL : LibcOk L}.

Lemma put_message_steady id cur K s a m prio :
  pending id cur K s -> nonneg prio -> Z.of_nat (length K) < 100000 ->
  s.(msgs) !! a = None -> a <> 0 -> m.(receiver) = id ->
  (m.(type) <> INIT -> m.(timestamp) = prio) ->
  steady (on_queue (calqueue_put prio a) (set_msgs (<[a := m]> s.(msgs)) s)) (fun _ s' =>
    pending id cur ((m.(type), m.(msg_channel)) :: K) s' /\
    s'.(state) = s.(state) /\ s'.(channels_heap) = s.(channels_heap)).
Proof.
  intros Hpend Hp Hlen Ha Ha0 Hid Hst. pose proof (pending_size _ _ _ _ Hpend) as Hsz.
  destruct Hpend as (bs & Hq & Hnd & Hcur & HE & HK).
  eapply steady_mono; [apply on_queue_steady, (put_steady _ bs); [exact Hq|done|cbn [queue set_msgs]; lia]|].
  intros [] s' (q & -> & bs' & Hq' & Hperm). split; [|done].
  exists bs'. cbn [msgs queue set_queue set_msgs]. split_and!; [done| | | |].
  - rewrite Hperm. cbn. rewrite <- Permutation_middle. constructor; [|done].
    intros [Hc|Hin]%elem_of_app.
    + apply Hcur in Hc. by apply not_elem_of_dom in Ha.
    + apply list_elem_of_fmap in Hin as (n & -> & Hn). rewrite Forall_forall in HE.
      destruct (HE n Hn) as (_ & m0 & Hm & _). congruence.
  - intros x Hx. rewrite dom_insert_L. apply Hcur in Hx. set_solver.
  - rewrite Hperm. constructor.
    + split; [done|]. exists m. cbn. by rewrite lookup_insert_eq.
    + eapply Forall_impl; [exact HE|]. intros n. by apply event_ok_fresh.
  - rewrite Hperm. cbn [fmap list_fmap].
    rewrite (kinds_fresh id) by done. rewrite HK. unfold kind at 1. cbn [payload].
    by rewrite lookup_insert_eq.
Qed.

Lemma schedule_steady id cur K s ty stamp ch :
  pending id cur K s -> nonneg stamp -> Z.of_nat (length K) < 100000 ->
  steady (schedule id ty stamp ch s) (fun _ s' =>
    pending id cur ((ty, ch) :: K) s' /\
    s'.(state) = s.(state) /\ s'.(channels_heap) = s.(channels_heap)).
Proof.
  intros Hpend Hp Hlen. unfold schedule, pack_event.
  set (a := malloc (dom s.(channels_heap) ∪ dom s.(msgs))).
  assert (Ha : s.(msgs) !! a = None).
  { apply not_elem_of_dom. pose proof (malloc_fresh (dom s.(channels_heap) ∪ dom s.(msgs))). set_solver. }
  erewrite bind_ok; [|rewrite (bind_ok _ _ s a s) by done; by rewrite bind_modify].
  by apply (put_message_steady id cur K s a (Msg id id ty stamp ch) stamp); try done;
    apply malloc_not_null.
Qed.

Lemma take_steady id K s :
  pending id [] K s -> K <> [] ->
  steady (on_queue calqueue_get s) (fun a s' => exists m K',
    K ≡ₚ (m.(type), m.(msg_channel)) :: K' /\ a <> 0 /\ s'.(msgs) !! a = Some m /\
    m.(receiver) = id /\ (m.(type) <> INIT -> nonneg m.(timestamp)) /\
    pending id [a] K' s' /\
    s'.(state) = s.(state) /\ s'.(channels_heap) = s.(channels_heap)).
Proof.
  intros Hpend HK0. pose proof (pending_size _ _ _ _ Hpend) as Hsz.
  destruct Hpend as (bs & Hq & Hnd & _ & HE & HK).
  eapply steady_mono.
  { apply on_queue_steady, (get_steady _ bs Hq). rewrite Hsz. by destruct K. }
  intros a s' (q & -> & e & bs' & -> & _ & Hq' & Hperm).
  pose proof (calendar_nonneg _ _ (proj1 Hq)) as Hnn.
  rewrite Hperm in HE, HK, Hnd, Hnn. apply Forall_cons in HE as [(H0 & m & Hm & Hid & Ht) HE].
  apply Forall_cons in Hnn as [Hnn _].
  cbn [fmap list_fmap] in HK, Hnd. unfold kind at 1 in HK. rewrite Hm in HK. cbn in HK.
  destruct (Permutation_cons_inv_l _ _ _ HK) as (K1 & K2 & HKeq & HK').
  apply fmap_app_inv in HKeq as (K1' & K2' & -> & HKeq & ->).
  symmetry in HKeq. apply fmap_cons_inv in HKeq as (k & K2'' & [= Hk] & -> & ->).
  exists m, (K1' ++ K2''). split_and!; [|done|done|done| | |done|done].
  - rewrite <- Hk. by rewrite Permutation_middle.
  - intros Hi. by rewrite (Ht Hi).
  - exists bs'. cbn [queue msgs set_queue]. split_and!; [done|done| |done|].
    + intros x ->%list_elem_of_singleton. by apply elem_of_dom.
    + by rewrite HK', fmap_app.
Qed.
End Schedule.

Lemma pending_finish id a K s :
  pending id [a] K s -> pending id [] K (set_msgs (delete a s.(msgs)) s).
Proof.
  intros (bs & Hq & Hnd & _ & HE & HK). apply NoDup_cons in Hnd as [Ha Hnd].
  destruct (kinds_delete id _ a _ Ha HE) as [HE' HK']. exists bs. cbn.
  split_and!; [done|done|set_solver|done|by rewrite HK'].
Qed.

(** ** The state of the cell *)

Record cell_ok (s : world) (p : lp_state_type) (l : list (Z * Z)) : Prop := CellOk {
  ce_channels : channels_ok s p l;
  ce_cpc : p.(channels_per_cell) = CHANNELS_PER_CELL;
  ce_counter : p.(channel_counter) = CHANNELS_PER_CELL - Z.of_nat (length l);
  ce_duration : p.(ta_duration) = TA_DURATION;
  ce_ref_ta : p.(ref_ta) = TA;
  ce_arriving : p.(arriving_calls)
    = u32 (p.(complete_calls) + p.(blocked_on_setup) + Z.of_nat (length l))
}.

Lemma channels_ok_state s p p' l :
  p'.(channels) = p.(channels) -> p'.(channel_state) = p.(channel_state) ->
  p'.(channels_per_cell) = p.(channels_per_cell) ->
  channels_ok s p l -> channels_ok (set_state (Some p') s) p' l.
Proof.
  intros Hc Hb Hn [Hok Hpow]. split; [|done]. destruct Hok.
  constructor; cbn; rewrite ?Hc, ?Hb, ?Hn; done.
Qed.

Lemma channels_ok_frame s s' p l :
  s'.(state) = s.(state) -> s'.(channels_heap) = s.(channels_heap) ->
  channels_ok s p l -> channels_ok s' p l.
Proof.
  intros Hs Hh [[] Hpow]. split; [constructor; rewrite ?Hs, ?Hh; done|].
  unfold powered. by rewrite Hh.
Qed.

Lemma busy_bound s p l :
  cell_ok s p l -> Z.of_nat (length l) <= CHANNELS_PER_CELL.
Proof.
  intros Hc. pose proof (proj1 (ce_channels _ _ _ Hc)) as Hok.
  assert (Hsub : l.*2 ⊆+ seqZ 0 CHANNELS_PER_CELL).
  { apply NoDup_submseteq; [apply Hok|]. intros i Hi. apply elem_of_seqZ.
    pose proof (lo_range _ _ _ Hok i Hi) as Hr. rewrite (ce_cpc _ _ _ Hc) in Hr. lia. }
  apply submseteq_length in Hsub. rewrite length_fmap, length_seqZ in Hsub.
  unfold CHANNELS_PER_CELL in *. lia.
Qed.

Lemma free_channel s p l :
  cell_ok s p l -> Z.of_nat (length l) < CHANNELS_PER_CELL ->
  exists i, 0 <= i < p.(channels_per_cell) /\ i ∉ l.*2.
Proof.
  intros Hc Hlt. rewrite (ce_cpc _ _ _ Hc).
  destruct (decide (Exists (fun i => i ∉ l.*2) (seqZ 0 CHANNELS_PER_CELL))) as [He|Hn].
  { apply Exists_exists in He as (i & Hi%elem_of_seqZ & Hfree). exists i. split; [lia|done]. }
  exfalso. apply not_Exists_Forall in Hn; [|intros i; apply _].
  assert (Hsub : seqZ 0 CHANNELS_PER_CELL ⊆+ l.*2).
  { apply NoDup_submseteq; [apply NoDup_seqZ|]. intros i Hi.
    rewrite Forall_forall in Hn. by apply dec_stable, Hn. }
  apply submseteq_length in Hsub. rewrite length_fmap, length_seqZ in Hsub.
  unfold CHANNELS_PER_CELL in *. lia.
Qed.

Lemma u32_add_l x y : u32 (u32 x + y) = u32 (x + y).
Proof. apply uw_add_idemp_l. Qed.

Lemma u32_add_m x y z : u32 (x + u32 y + z) = u32 (x + y + z).
Proof.
  replace (x + u32 y + z) with (u32 y + (x + z)) by lia. rewrite u32_add_l. f_equal. lia.
Qed.

Definition ends (l : list (Z * Z)) : list (Z * Z) := (fun i => (END_CALL, i)) <$> l.*2.

Lemma recompute_ta_ok now : mean_ok (recompute_ta TA now).
Proof.
  unfold recompute_ta.
  repeat case_match; (split; [vm_compute; reflexivity|vm_compute; congruence]).
Qed.

Lemma TA_DURATION_ok : mean_ok TA_DURATION.
Proof. split; [reflexivity|discriminate]. Qed.

(** What [note_event], [count_arriving] and the other assignments leave. *)
Lemma cell_note s p l now :
  cell_ok s p l -> cell_ok (set_state (Some (note_event now p)) s) (note_event now p) l.
Proof. intros []. constructor; try done. by apply (channels_ok_state s p). Qed.

Section Process.
Context {L : Libc} {HL : LibcOk L}.

(** A number drawn by [Expent], as a time after [now]. *)
Lemma later_safe mean now s A (k : double -> simM A) Q :
  mean_ok mean -> nonneg now ->
  (forall t g, nonneg t -> steady (k t (set_generator g s)) Q) ->
  steady ((let* x := draw_Expent mean in k (dadd now x)) s) Q.
Proof.
  intros Hm Hn Hk. unfold draw_Expent. destruct (Expent_ok mean s.(generator) Hm) as (x & g & He & Hx).
  erewrite bind_ok; [|rewrite bind_get, He; by rewrite bind_modify].
  apply Hk. by apply dadd_nonneg.
Qed.

(** The call that starts: it gets a channel, or is blocked. *)
Lemma start_call_steady id cur K s p l now :
  cell_ok s p l -> pending id cur K s -> K ≡ₚ ends l -> nonneg now ->
  steady (start_call id now s)
    (fun _ s' => exists p' l' K', cell_ok s' p' l' /\ pending id cur K' s' /\ K' ≡ₚ ends l').
Proof.
  unfold start_call.
  intros Hc Hpend HK Hnow. pose proof (busy_bound _ _ _ Hc) as Hbusy.
  destruct Hc as [Hch Hcpc Hcnt Hdur Href Harr].
  pose proof (lo_state _ _ _ (proj1 Hch)) as Hp.
  rewrite (bind_ok _ _ _ _ _ (alter_state_run _ _ p Hp)).
  set (s1 := set_state _ s).
  rewrite (bind_ok _ _ _ _ _ (get_state_run s1 (count_arriving p) eq_refl)).
  cbn [channel_counter count_arriving ta_duration]. rewrite Hcnt.
  destruct (Z.eqb_spec (CHANNELS_PER_CELL - Z.of_nat (length l)) 0) as [H0|H0].
  - rewrite (alter_state_run _ s1 (count_arriving p) eq_refl). apply steady_result.
    exists (count_blocked (count_arriving p)), l, K.
    split; [|split; [by eapply pending_frame|done]].
    constructor; try done.
    + apply (channels_ok_state s p); try done.
    + cbn. rewrite Harr, u32_add_m, u32_add_l. f_equal. lia.
  - rewrite (bind_ok _ _ _ _ _ (alter_state_run _ s1 (count_arriving p) eq_refl)).
    set (p2 := add_channel_counter (-1) (count_arriving p)). set (s2 := set_state (Some p2) s1).
    assert (Hch2 : channels_ok s2 p2 l) by (by apply (channels_ok_state s p)).
    rewrite Hdur.
    apply (later_safe TA_DURATION now s2 _ (fun t => let* ch := allocation in schedule id END_CALL t ch));
      [apply TA_DURATION_ok|done|]. intros t g Ht.
    set (s3 := set_generator g s2).
    assert (Hch3 : channels_ok s3 p2 l) by (by apply (channels_ok_frame s2)).
    assert (Hfree : exists i, 0 <= i < p2.(channels_per_cell) /\ i ∉ l.*2).
    { apply (free_channel s p); [by constructor|unfold CHANNELS_PER_CELL in *; lia]. }
    apply steady_bind. eapply steady_mono; [apply safe_steady, (allocation_safe s3 p2 l Hch3 Hfree)|].
    intros i s4 (a & m & Hch4 & Hi & Hil & _ & Hm4 & Hq4). cbv beta.
    eapply steady_mono; [apply (schedule_steady id cur K s4); [|done|]|].
    + apply (pending_frame id cur K s); [by rewrite Hm4|by rewrite Hq4|done].
    + rewrite HK. unfold ends. rewrite !length_fmap. unfold CHANNELS_PER_CELL in *. lia.
    + intros [] s5 (Hpend5 & Hst5 & Hh5).
      exists (set_channels a (set_channel_state m p2)), ((a, i) :: l), ((END_CALL, i) :: K).
      split; [|split; [done|by rewrite HK]].
      constructor; try done.
      * by apply (channels_ok_frame s4).
      * cbn. rewrite Hcnt, uw_small by (unfold CHANNELS_PER_CELL in *; lia). lia.
      * cbn. rewrite Harr, u32_add_l. f_equal. lia.
Qed.

Lemma ends_small l s p : cell_ok s p l -> Z.of_nat (length ((START_CALL, -1) :: ends l)) < 100000.
Proof.
  intros Hc. pose proof (busy_bound _ _ _ Hc). unfold ends, CHANNELS_PER_CELL in *.
  cbn [length]. rewrite !length_fmap. lia.
Qed.

(** The state between two turns of the loop. *)
Definition turn_ok (id : Z) (cur : list Z) (s : world) : Prop :=
  exists p l K, cell_ok s p l /\ pending id cur K s /\ K ≡ₚ (START_CALL, -1) :: ends l.

Lemma process_start_steady id cur K s p l now :
  cell_ok s p l -> pending id cur K s -> K ≡ₚ ends l -> nonneg now ->
  steady (process_start id now s) (fun r s' => r = Number 0 /\ turn_ok id cur s').
Proof.
  intros Hc Hpend HK Hnow. unfold process_start.
  apply steady_bind.
  eapply steady_mono; [by apply (start_call_steady id cur K s p l now)|].
  intros [] s1 (p1 & l1 & K1 & Hc1 & Hpend1 & HK1). cbv beta.
  destruct Hc1 as [Hch Hcpc Hcnt Hdur Href Harr].
  pose proof (lo_state _ _ _ (proj1 Hch)) as Hp.
  rewrite (bind_ok _ _ _ _ _ (alter_state_run _ s1 p1 Hp)).
  set (p2 := set_ta (recompute_ta (ref_ta p1) now) p1). set (s2 := set_state _ s1).
  assert (Hc2 : cell_ok s2 p2 l1).
  { constructor; try done. by apply (channels_ok_state s1 p1). }
  rewrite (bind_ok _ _ _ _ _ (get_state_run s2 p2 eq_refl)).
  apply (later_safe _ now s2 _ (fun t => do* schedule id START_CALL t (-1); ret (Number 0)));
    [cbn; rewrite Href; apply recompute_ta_ok|done|].
  intros t g Ht. apply steady_bind.
  eapply steady_mono; [apply (schedule_steady id cur K1); [by eapply pending_frame; [..|exact Hpend1]|done|]|].
  - pose proof (ends_small _ _ _ Hc2). rewrite HK1. cbn [length] in *. lia.
  - intros [] s3 (Hpend3 & Hst3 & Hh3). eapply steady_ok; [done|]. split; [done|].
    exists p2, l1, ((START_CALL, -1) :: K1). split; [|split; [done|by rewrite HK1]].
    destruct Hc2. constructor; try done. by apply (channels_ok_frame s2).
Qed.

(** The number of completed calls at which the simulation ends. *)
Definition calls_completed (s : world) : Prop :=
  exists p, s.(state) = Some p /\ p.(complete_calls) = COMPLETE_CALLS.

(** What [ProcessEvent] gives for a call: not 0 only when the simulation ends. *)
Definition call_result (r : result) (s : world) : Prop :=
  exists n, r = Number n /\ (n <> 0 -> calls_completed s).

Lemma process_end_steady id cur K s p l ch :
  cell_ok s p l -> pending id cur K s -> (END_CALL, ch) :: K ≡ₚ (START_CALL, -1) :: ends l ->
  steady (process_end ch s) (fun r s' => call_result r s' /\ turn_ok id cur s').
Proof.
  intros Hc Hpend HK. pose proof (busy_bound _ _ _ Hc) as Hbusy.
  destruct Hc as [Hch Hcpc Hcnt Hdur Href Harr].
  pose proof (lo_state _ _ _ (proj1 Hch)) as Hp.
  assert (Hin : ch ∈ l.*2).
  { assert (Hc : (END_CALL, ch) ∈ (START_CALL, -1) :: ends l) by (rewrite <- HK; left).
    apply elem_of_cons in Hc as [[=]|Hc]. unfold ends in Hc.
    apply list_elem_of_fmap in Hc as (i & [= ->] & Hi). done. }
  unfold process_end.
  rewrite (bind_ok _ _ _ _ _ (alter_state_run _ s p Hp)).
  rewrite (bind_ok _ _ _ _ _ (alter_state_run _ (set_state (Some (add_channel_counter 1 p)) s) (add_channel_counter 1 p) eq_refl)).
  set (p1 := count_complete (add_channel_counter 1 p)). set (s1 := set_state (Some p1) _).
  assert (Hch1 : channels_ok s1 p1 l) by (by apply (channels_ok_state s p)).
  apply steady_bind. eapply steady_mono; [apply safe_steady, (deallocation_safe s1 p1 l ch Hch1 Hin)|].
  intros [] s2 (a & c & m & l1 & l2 & -> & Hch2 & Hm2 & Hq2). cbv beta.
  set (p2 := set_channels c (set_channel_state m p1)) in *.
  rewrite (bind_ok _ _ _ _ _ (get_state_run s2 p2 (lo_state _ _ _ (proj1 Hch2)))).
  eapply steady_ok; [done|]. split.
  { eexists. split; [done|]. destruct (Z.eqb_spec (complete_calls p2) COMPLETE_CALLS) as [He|]; [|done].
    intros _. exists p2. split; [apply (lo_state _ _ _ (proj1 Hch2))|done]. }
  exists p2, (l1 ++ l2), K. rewrite length_app in *. cbn [length] in *.
  split; [|split].
  - constructor; try done.
    + cbn. rewrite Hcnt, uw_small, length_app by (unfold CHANNELS_PER_CELL in *; lia). lia.
    + cbn. rewrite Harr, length_app. rewrite <- (Z.add_assoc (u32 _)), u32_add_l. f_equal. lia.
  - by apply (pending_frame id cur K s).
  - unfold ends in *. rewrite !fmap_app, !fmap_cons in HK. cbn [snd] in HK.
    rewrite !fmap_app. apply (Permutation_cons_inv (a := (END_CALL, ch))). rewrite HK.
    rewrite <- !Permutation_middle. apply perm_swap.
Qed.

Lemma initial_ok s :
  s.(channels_heap) = ∅ -> cell_ok (set_state (Some initial_state) s) initial_state [].
Proof.
  intros Hh. constructor; try done. split; [|intros a c; cbn; by rewrite Hh].
  constructor; cbn; try done.
  - by exists 0.
  - by rewrite Hh, dom_empty_L.
  - constructor.
  - constructor.
  - set_solver.
  - intros i Hi. rewrite bool_decide_false by set_solver.
    unfold bit_of, empty_bitmap.
    assert (Hw : (list_to_map ((fun j => (j, 0)) <$> seqZ 0 (Z.quot CHANNELS_PER_CELL BITS + 1)) : gmap Z Z)
                   !! Z.quot i BITS = Some 0).
    { apply elem_of_list_to_map.
      - rewrite <- list_fmap_compose. change (fst ∘ _) with (id : Z -> Z). rewrite list_fmap_id. apply NoDup_seqZ.
      - apply list_elem_of_fmap. exists (Z.quot i BITS). split; [done|]. apply elem_of_seqZ.
        change (Z.quot CHANNELS_PER_CELL BITS) with 31. unfold CHANNELS_PER_CELL, BITS in *.
        rewrite Z.quot_div_nonneg by lia. pose proof (Z.div_pos i 32).
        assert (i / 32 < 32) by (apply Z.div_lt_upper_bound; lia). lia. }
    rewrite Hw. cbn. by rewrite Z.testbit_0_l.
Qed.

Lemma process_init_steady id cur s :
  pending id cur [] s -> s.(channels_heap) = ∅ ->
  steady (process_init id s) (fun r s' => r = NewState initial_state /\
    turn_ok id cur (set_state (Some initial_state) s')).
Proof.
  intros Hpend Hh. unfold process_init, draw_Random.
  destruct (Random_range s.(generator)) as (Hr & _ & _).
  destruct (Random s.(generator)) as [x g] eqn:Hrand. cbn [fst] in Hr.
  erewrite bind_ok; [|rewrite bind_get, Hrand; by rewrite bind_modify].
  set (s1 := set_generator g s).
  assert (Ht : nonneg (dmul (of_Z 20) x)).
  { apply dmul_nonneg; [done|by apply dlt_le|].
    destruct (Random_range s.(generator)) as (_ & Hr1 & _). rewrite Hrand in Hr1. cbn [fst] in Hr1.
    destruct x as [[]|[]| |[] m e]; try discriminate Hr; try discriminate Hr1.
    apply round_aux_number. lia. }
  apply steady_bind. eapply steady_mono; [apply (schedule_steady id cur [] s1); [done|done|cbn; lia]|].
  intros [] s2 (Hpend2 & Hst2 & Hh2). eapply steady_ok; [done|]. split; [done|].
  exists initial_state, [], [(START_CALL, -1)]. split; [apply initial_ok; by rewrite Hh2|].
  split; [|done]. by eapply pending_frame; [..|exact Hpend2].
Qed.

(** ** A turn of the loop *)

(** The event is processed, and its message is freed. *)
Lemma process_event_steady id a K s m p l :
  cell_ok s p l -> pending id [a] K s -> (m.(type), m.(msg_channel)) :: K ≡ₚ (START_CALL, -1) :: ends l ->
  m.(receiver) = id -> (m.(type) <> INIT -> nonneg m.(timestamp)) ->
  steady (ProcessEvent m s) (fun r s' => call_result r s' /\ turn_ok id [a] s').
Proof.
  intros Hc Hpend HK Hid Ht. pose proof (lo_state _ _ _ (proj1 (ce_channels _ _ _ Hc))) as Hp.
  unfold ProcessEvent. rewrite bind_get, Hp.
  rewrite (bind_ok _ _ _ _ _ (alter_state_run _ s p Hp)).
  pose proof (cell_note s p l m.(timestamp) Hc) as Hc'. set (s1 := set_state _ s) in *.
  assert (Hpend1 : pending id [a] K s1) by (by apply (pending_frame id [a] K s)).
  assert (Hk : (m.(type), m.(msg_channel)) ∈ (START_CALL, -1) :: ends l) by (rewrite <- HK; left).
  apply elem_of_cons in Hk as [[= Htype Hch]|Hk].
  - rewrite Htype, Hch in *. cbn [Z.eqb INIT START_CALL Pos.eqb].
    apply Permutation_cons_inv in HK. rewrite Hid.
    eapply steady_mono; [apply (process_start_steady id [a] K s1 (note_event m.(timestamp) p) l); [exact Hc'|done|done|by apply Ht]|].
    intros r s2 [-> H]. split; [|done]. by exists 0.
  - unfold ends in Hk. apply list_elem_of_fmap in Hk as (i & [= Htype Hch] & _).
    rewrite Htype, Hch in *. cbn [Z.eqb INIT START_CALL END_CALL Pos.eqb].
    by apply (process_end_steady id [a] K s1 (note_event m.(timestamp) p) l).
Qed.

Lemma turn_ok_freed id a s :
  turn_ok id [a] s -> turn_ok id [] (set_msgs (delete a s.(msgs)) s).
Proof.
  intros (p & l & K & Hc & Hpend & HK). exists p, l, K. split; [|split; [by apply pending_finish|done]].
  destruct Hc. constructor; try done. by apply (channels_ok_frame s).
Qed.

Lemma finish_turn id a s (b : bool) :
  turn_ok id [a] s ->
  steady ((do* modify (fun s => set_msgs (delete a s.(msgs)) s); ret b) s)
    (fun over s' => over = b /\ turn_ok id [] s').
Proof.
  intros Hs. rewrite bind_modify. apply steady_result. split; [done|]. by apply turn_ok_freed.
Qed.

Lemma turn_steady id s : turn_ok id [] s -> steady (turn id s) (fun _ s' => turn_ok id [] s').
Proof.
  intros (p & l & K & Hc & Hpend & HK). unfold turn. apply steady_bind.
  eapply steady_mono; [apply (take_steady id K s Hpend)|].
  { intros ->. by apply Permutation_nil_cons in HK. }
  intros a s1 (m & K' & HK' & Ha & Hm & Hid & Ht & Hpend1 & Hst1 & Hh1). cbv beta.
  rewrite (proj2 (Z.eqb_neq a 0)), bind_get, (bind_access m), Hid, Z.eqb_refl by done. cbn [negb].
  apply steady_bind. eapply steady_mono; [apply (process_event_steady id a K' s1 m p l)|].
  - destruct Hc. constructor; try done. by apply (channels_ok_frame s).
  - done.
  - by rewrite <- HK'.
  - done.
  - done.
  - intros r s2 ((n & -> & _) & Hok). cbv beta iota. rewrite bind_ret.
    eapply steady_mono; [by apply finish_turn|]. by intros over s3 [_ H].
Qed.

Lemma turns_steady n id s :
  turn_ok id [] s -> steady (turns n id s) (fun _ s' => turn_ok id [] s').
Proof.
  revert s. induction n as [|n IH]; intros s Hs; cbn [turns]; [by eapply steady_ok|].
  apply steady_bind. eapply steady_mono; [by apply turn_steady|].
  intros [] s1 Hs1; [by eapply steady_ok|by apply IH].
Qed.

(** The first turn processes the event that makes the state. *)
Lemma first_turn id s ch0 :
  pending id [] [(INIT, ch0)] s -> s.(state) = None -> s.(channels_heap) = ∅ ->
  steady (turn id s) (fun over s' => over = false /\ turn_ok id [] s').
Proof.
  intros Hpend Hst Hh. unfold turn. apply steady_bind.
  eapply steady_mono; [by apply (take_steady id _ s Hpend)|].
  intros a s1 (m & K' & HK' & Ha & Hm & Hid & _ & Hpend1 & Hst1 & Hh1). cbv beta.
  assert (m.(type) = INIT /\ K' = []) as [Htype ->].
  { apply Permutation_singleton_l in HK'. injection HK' as Ht _ HK'. by rewrite <- Ht. }
  rewrite (proj2 (Z.eqb_neq a 0)), bind_get, (bind_access m), Hid, Z.eqb_refl by done. cbn [negb].
  apply steady_bind. unfold ProcessEvent. rewrite bind_get, Hst1, Hst, bind_ret, Htype, Hid.
  rewrite Z.eqb_refl. eapply steady_mono; [apply (process_init_steady id [a] s1 Hpend1); congruence|].
  intros r s2 (-> & Hok). cbv beta iota.
  rewrite (bind_ok _ _ s2 0 (set_state (Some initial_state) s2)) by done.
  by apply finish_turn.
Qed.

(** [main_loop] in a fiber that has no memory yet. *)
Lemma main_loop_steady stamp ch n id g :
  steady (main_loop stamp ch (S n) id (start g)) (fun _ s' => turn_ok id [] s').
Proof.
  unfold main_loop. rewrite bind_modify.
  destruct (init_holds uninitialised) as (q & Hinit & Hq).
  assert (Hrun : on_queue calqueue_init (set_queue uninitialised (start g))
               = (Ok tt, set_queue q (start g), [])) by (unfold on_queue; cbn [queue set_queue]; by rewrite Hinit).
  rewrite (bind_ok _ _ _ _ _ Hrun). set (s0 := set_queue q (start g)).
  set (a := malloc (dom s0.(channels_heap) ∪ dom s0.(msgs))).
  rewrite (bind_ok _ _ s0 a s0) by done. rewrite bind_modify. cbn [msgs].
  assert (Hpend0 : pending id [] [] s0).
  { exists [[]; []]. split_and!; [done|constructor|set_solver|constructor|done]. }
  apply steady_bind. eapply steady_mono.
  { apply (put_message_steady id [] [] s0 a (Msg id id INIT stamp ch) (of_Z 0) Hpend0);
      [done|cbn; lia|done|apply malloc_not_null|done|done]. }
  intros [] s1 (Hpend & Hst & Hh). cbv beta. rewrite bind_modify. cbn [turns].
  apply steady_bind. eapply steady_mono.
  { apply (first_turn id (set_state None s1) ch); [by apply (pending_frame id [] _ s1)|done|done]. }
  intros over s2 [-> Hok]. cbv beta iota. by apply turns_steady.
Qed.
End Process.

(** C34: The loop of a benchmark fiber, for any number of turns after the first:
    unless its queue chooses a negative bucket width, it does not fault, abort
    or exit.  The queue holds one event for the next start of a call and one
    for the end of each call in progress, whose channels are those of the list
    and the bitmap; the counter of channels is that of the free ones, and the
    calls that arrived are those completed, blocked and in progress. *)
Theorem simulation_runs {L : Libc} (HL : LibcOk L) stamp ch n id g :
  let '(r, s, ws) := main_loop stamp ch (S n) id (start g) in
  Forall (fun w => not_negative w) ws ->
  (exists over, r = Ok over) /\
  exists p l, channels_ok s p l /\ pending id [] ((START_CALL, -1) :: ends l) s /\
    p.(channel_counter) = CHANNELS_PER_CELL - Z.of_nat (length l) /\
    p.(arriving_calls) = u32 (p.(complete_calls) + p.(blocked_on_setup) + Z.of_nat (length l)).
Proof.
  generalize (main_loop_steady stamp ch n id g).
  generalize (main_loop stamp ch (S n) id (start g)). intros [[r s] ws] H Hw.
  destruct (H Hw) as (over & -> & p & l & K & Hc & Hpend & HK). split; [by eexists|].
  exists p, l. split; [apply Hc|]. split; [by apply (pending_perm id [] K)|].
  split; [exact (ce_counter _ _ _ Hc)|exact (ce_arriving _ _ _ Hc)].
Qed.

Lemma simulation_runs_witness :
  exists over, (@main_loop ReferenceLibc.libc (of_Z 0) 0 4 1 (start (Rng 0 0 []))).1.1 = Ok over.
Proof.
  pose proof (@simulation_runs ReferenceLibc.libc ReferenceLibc.libc_ok (of_Z 0) 0 3 1 (Rng 0 0 [])) as H.
  destruct (@main_loop ReferenceLibc.libc (of_Z 0) 0 4 1 (start (Rng 0 0 []))) as [[r s] ws] eqn:Hrun.
  assert (Hws : ws = []) by (change ws with (r, s, ws).2; rewrite <- Hrun; vm_compute; reflexivity).
  destruct H as [H _]; [rewrite Hws; constructor|]. exact H.
Defined.
