(* ===== verification/Threads.v ===== *)
(** * The threads of the benchmark (benchmark/2018-fibers/src/thread.c)

    [create_threads] starts [n] threads on one argument block; each draws a
    number from [thread_counter] with a compare-and-swap loop
    ([__helper_create_thread]), calls the routine in the block and, when that
    returns, frees the block.  The threads are interleaved access by access.

    [helper_threads]: the numbers drawn are 1, 2, ... without gap, each by one
    thread; the block is safe as long as no routine returns, as in the benchmark,
    and with two threads whose routines return it is freed twice, or read after
    it is freed. *)

From S2P Require Import Prelude.

(** Where a thread is, with its thread-local [tid]. *)
Inductive position :=
  | Loop                                (* before it reads the counter *)
  | Swap (old_counter tid : Z)
  | Numbered (tid : Z)                  (* before it reads the argument block *)
  | Running (tid : Z)                   (* in the routine *)
  | Returned (tid : Z)                  (* before it frees the block *)
  | Ended (tid : Z).

(** [arg_alive]: the argument block is allocated; [to_start]: the threads that
    [create_threads] has still to start. *)
Record pool := Pool { thread_counter : Z; arg_alive : bool; to_start : Z; threads : list position }.

(** [create_threads(n, ...)], once it has filled the block. *)
Definition create_threads (n : Z) : pool := Pool 0 true (uw 16 n) [].

Definition set_thread (i : nat) (p : position) (s : pool) : pool :=
  Pool s.(thread_counter) s.(arg_alive) s.(to_start) (<[i := p]> s.(threads)).

(** The access a thread makes next; [None]: memory that is not allocated. *)
Definition helper_step (i : nat) (p : position) (s : pool) : option pool :=
  match p with
  | Loop => Some (set_thread i (Swap s.(thread_counter) (u32 (s.(thread_counter) + 1))) s)
  | Swap old_counter tid =>
      if s.(thread_counter) =? old_counter
      then Some (set_thread i (Numbered tid) (Pool tid s.(arg_alive) s.(to_start) s.(threads)))
      else Some (set_thread i Loop s)
  | Numbered tid => if s.(arg_alive) then Some (set_thread i (Running tid) s) else None
  | Running tid => Some (set_thread i (Returned tid) s)
  | Returned tid =>
      if s.(arg_alive)
      then Some (set_thread i (Ended tid) (Pool s.(thread_counter) false s.(to_start) s.(threads)))
      else None
  | Ended _ => Some s
  end.

(** A step of the pool: a thread is started, or thread [i] makes an access. *)
Inductive move := Start | Access (i : nat).

Definition pool_step (m : move) (s : pool) : option pool :=
  match m with
  | Start =>
      if 0 <? s.(to_start)
      then Some (Pool s.(thread_counter) s.(arg_alive) (s.(to_start) - 1) (s.(threads) ++ [Loop])) else Some s
  | Access i => match s.(threads) !! i with Some p => helper_step i p s | None => Some s end
  end.

Definition pool_run (ms : list move) (s : pool) : option pool :=
  foldl (fun o m => o ≫= pool_step m) (Some s) ms.

Definition tid_of (p : position) : option Z :=
  match p with
  | Loop | Swap _ _ => None
  | Numbered t | Running t | Returned t | Ended t => Some t
  end.
Definition tids (s : pool) : list Z := omap tid_of s.(threads).

(** ** The numbers *)

(** A thread that is about to swap knows a number that has been drawn. *)
Definition position_ok (p : position) : Prop :=
  match p with Swap old_counter tid => tid = u32 (old_counter + 1) | _ => True end.

Record pool_ok (n : Z) (s : pool) : Prop := {
  po_tids : tids s ≡ₚ seqZ 1 s.(thread_counter);
  po_counter : 0 <= s.(thread_counter) <= Z.of_nat (length s.(threads));
  po_threads : 0 <= s.(to_start) /\ Z.of_nat (length s.(threads)) + s.(to_start) = uw 16 n;
  po_positions : Forall position_ok s.(threads)
}.

Lemma tids_insert l i p q :
  l !! i = Some p -> omap tid_of (<[i := q]> l) ++ option_list (tid_of p) ≡ₚ omap tid_of l ++ option_list (tid_of q).
Proof.
  intros Hi. pose proof (lookup_lt_Some _ _ _ Hi) as Hlt.
  rewrite insert_take_drop by done. rewrite <- (take_drop_middle l i p Hi) at 3.
  rewrite !omap_app. csimpl. destruct (tid_of p), (tid_of q); simpl; solve_Permutation.
Qed.

(** A thread goes on; [c], [b]: the counter and whether the block is there. *)
Lemma position_step n s i p q c b :
  pool_ok n s -> s.(threads) !! i = Some p -> position_ok q ->
  c = s.(thread_counter) /\ tid_of q = tid_of p \/
  c = s.(thread_counter) + 1 /\ tid_of p = None /\ tid_of q = Some c ->
  pool_ok n (set_thread i q (Pool c b s.(to_start) s.(threads))).
Proof.
  intros [Ht Hc Hn Hp] Hi Hq Hcase. unfold tids in Ht. pose proof (tids_insert _ i p q Hi) as Hperm.
  assert (Hlen : length (<[i := q]> s.(threads)) = length s.(threads)) by apply length_insert.
  assert (Htids : omap tid_of (<[i := q]> s.(threads)) ≡ₚ seqZ 1 c).
  { destruct Hcase as [[-> He]|(-> & Hno & He)].
    - rewrite He in Hperm. apply Permutation_app_inv_r in Hperm. by rewrite Hperm.
    - rewrite Hno, He in Hperm. simpl in Hperm. rewrite app_nil_r in Hperm. rewrite Hperm, Ht.
      by rewrite seqZ_app, (Z.add_comm 1) by lia. }
  split; simpl; try done.
  - rewrite Hlen. apply Permutation_length in Htids. rewrite length_seqZ in Htids.
    pose proof (length_omap_le tid_of (<[i := q]> s.(threads))) as Hle. rewrite Htids, Hlen in Hle.
    destruct Hcase as [[-> _]|(-> & _)]; lia.
  - by rewrite Hlen.
  - by apply Forall_insert.
Qed.

Lemma create_threads_ok n : pool_ok n (create_threads n).
Proof. pose proof (uw_range 16 n). split; simpl; try done; lia. Qed.

Lemma helper_step_ok n s i p s' :
  pool_ok n s -> s.(threads) !! i = Some p -> helper_step i p s = Some s' -> pool_ok n s'.
Proof.
  intros Hs Hi Hstep. pose proof (po_positions _ _ Hs) as Hp. rewrite Forall_lookup in Hp. specialize (Hp i p Hi).
  assert (Hsmall : s.(thread_counter) < 2 ^ 32 - 1).
  { pose proof (po_counter _ _ Hs). pose proof (po_threads _ _ Hs). pose proof (uw_range 16 n). lia. }
  assert (Hfresh : forall q b, position_ok q -> tid_of q = tid_of p ->
            pool_ok n (set_thread i q (Pool s.(thread_counter) b s.(to_start) s.(threads)))).
  { intros q b Hq He. eapply position_step; [done|exact Hi|done|by left]. }
  destruct p as [|old t|t|t|t|t]; simpl in Hstep; repeat case_match; simplify_eq;
    try by (apply Hfresh || by apply (Hfresh _ s.(arg_alive)) || done).
  - simpl in Hp. subst t. pose proof (po_counter _ _ Hs). assert (old = s.(thread_counter)) as -> by lia.
    eapply position_step; [done|exact Hi|done|]. right. rewrite uw_small by lia. done.
Qed.

Lemma pool_step_ok n m s s' : pool_ok n s -> pool_step m s = Some s' -> pool_ok n s'.
Proof.
  intros Hs Hstep. destruct m as [|i]; simpl in Hstep.
  - case_match; simplify_eq; [|done]. destruct Hs as [Ht Hc Hn Hp]. split; simpl.
    + unfold tids. simpl. by rewrite omap_app, app_nil_r.
    + rewrite length_app. simpl. lia.
    + rewrite length_app. simpl. lia.
    + apply Forall_app. by split; [|constructor].
  - case_match; simplify_eq; [by eapply helper_step_ok|done].
Qed.

Lemma pool_run_snoc ms m s : pool_run (ms ++ [m]) s = pool_run ms s ≫= pool_step m.
Proof. unfold pool_run. by rewrite foldl_app. Qed.

Lemma pool_run_ok n ms s : pool_run ms (create_threads n) = Some s -> pool_ok n s.
Proof.
  revert s. induction ms as [|m ms IH] using rev_ind; intros s Hrun.
  - injection Hrun as <-. apply create_threads_ok.
  - rewrite pool_run_snoc in Hrun. apply bind_Some in Hrun as (s1 & Hs1 & Hstep).
    eapply pool_step_ok; [by apply IH|done].
Qed.

(** ** The argument block *)

Lemma step_fault m s : pool_step m s = None -> s.(arg_alive) = false.
Proof. destruct m; simpl; repeat case_match; try done. destruct p; simpl; repeat case_match; done. Qed.

(** Only the end of a thread frees it. *)
Definition some_ended (s : pool) : Prop := exists i t, s.(threads) !! i = Some (Ended t).

Lemma freed_by_end m s s' :
  (s.(arg_alive) = false -> some_ended s) -> pool_step m s = Some s' -> s'.(arg_alive) = false -> some_ended s'.
Proof.
  intros Hs Hstep Hfree. destruct m as [|i]; simpl in Hstep.
  - case_match; simplify_eq; [|by apply Hs]. destruct (Hs Hfree) as (i & t & Hi).
    exists i, t. simpl. by apply lookup_app_l_Some.
  - destruct (s.(threads) !! i) as [p|] eqn:Hi; [|by simplify_eq; apply Hs].
    assert (Hkeep : forall q, (forall t, p <> Ended t) -> s.(arg_alive) = false ->
              exists k t, <[i := q]> s.(threads) !! k = Some (Ended t)).
    { intros q Hp (k & t & Hk)%Hs. exists k, t. rewrite list_lookup_insert_ne; [done|]. intros ->. congruence. }
    destruct p as [|old t|t|t|t|t]; simpl in Hstep; repeat case_match; simplify_eq/=; try congruence; try (by apply Hkeep).
    + exists i, t. simpl. apply list_lookup_insert_eq. by eapply lookup_lt_Some.
    + by apply Hs.
Qed.

Lemma run_freed n ms s :
  pool_run ms (create_threads n) = Some s -> s.(arg_alive) = false -> some_ended s.
Proof.
  revert s. induction ms as [|m ms IH] using rev_ind; intros s Hrun.
  - by injection Hrun as <-.
  - rewrite pool_run_snoc in Hrun. apply bind_Some in Hrun as (s1 & Hs1 & Hstep).
    eapply freed_by_end; [by apply IH|done].
Qed.

(** C38: The threads of the benchmark.  However they are interleaved, the numbers
    drawn are at every time 1, 2, ... up to the counter, each drawn by one thread.
    An access faults only after a thread has ended, and so has freed the argument
    block; two threads whose routines return can free it twice, and one can read
    it after the other has freed it. *)
Theorem helper_threads n :
  (forall ms s, pool_run ms (create_threads n) = Some s ->
     tids s ≡ₚ seqZ 1 s.(thread_counter) /\ s.(thread_counter) <= uw 16 n) /\
  (forall ms m s, pool_run ms (create_threads n) = Some s -> pool_step m s = None ->
     exists i t, s.(threads) !! i = Some (Ended t)) /\
  (uw 16 n = 2 ->
     (exists ms s t, pool_run ms (create_threads n) = Some s /\ s.(threads) = [Ended 1; Returned t] /\
        pool_step (Access 1) s = None) /\
     (exists ms s t, pool_run ms (create_threads n) = Some s /\ s.(threads) = [Ended 1; Numbered t] /\
        pool_step (Access 1) s = None)).
Proof.
  split_and!.
  - intros ms s Hs%pool_run_ok. split; [apply Hs|]. pose proof (po_counter _ _ Hs). pose proof (po_threads _ _ Hs). lia.
  - intros ms m s Hs Hm. eapply run_freed; [done|by eapply step_fault].
  - intros Hn. unfold create_threads. rewrite Hn. split.
    + exists [Start; Start; Access 0; Access 0; Access 0; Access 0; Access 1; Access 1; Access 1; Access 1; Access 0].
      eexists _, 2. split_and!; [reflexivity|reflexivity|reflexivity].
    + exists [Start; Start; Access 0; Access 0; Access 0; Access 0; Access 0; Access 1; Access 1].
      eexists _, 2. split_and!; [reflexivity|reflexivity|reflexivity].
Qed.

Lemma helper_threads_witness :
  exists ms s t, pool_run ms (create_threads 2) = Some s /\ s.(threads) = [Ended 1; Returned t] /\
    pool_step (Access 1) s = None.
Proof. destruct (helper_threads 2) as (_ & _ & H). destruct (H eq_refl) as [H1 _]. exact H1. Defined.
