(* ===== verification/Benchmark.v ===== *)
(** * The program of the benchmark (benchmark/2018-fibers/src/main.c, thread.c)

    [main] makes a thread per processor and the fibers, of which its own is the
    first; each fiber simulates a cell (Simulation.v) with its queue and its
    state in its local storage; the threads, and an alarm that interrupts
    whatever runs, switch to fibers at random; a fiber that is done counts
    itself, and the first one reports when the count says that all are.

    It is a program of Client.v.  The points are labels between its statements;
    statements that read variables in memory or call [random] are chains of
    [Fetch], [Guess], [Step] and [Switch], and so is the handler of the alarm,
    which may come once [main] has asked for it, at any point, also inside
    itself.  A fiber's own objects (its queue, its events, the state of its cell) are the
    [world] of Simulation.v, kept with the addresses of the queue and of the
    state; a pointer that is neither, read from the local storage, leads to
    [F_stray].

    What a fiber does with its objects (a call of [ProcessEvent], of the queue)
    is a function of Simulation.v that runs through any number of steps
    ([on_objects]), at each of which the alarm may come and take the fiber to
    another thread.  Nobody else has a pointer to these objects, so all that
    this changes for the fiber is the seed of the random numbers, which is the
    thread's: [generators] gives, for each event, any seed, and any changes of
    it before each single access (Numerical.v).  What is one step is a call of
    the C library, and of the module: the alarm does not come inside them. *)

From S2P Require Import Prelude Kernel State CStr Fibers Heap Runs Kprobes Safety Fls Outcome System Views Scenario Exclusion Switching Spec Refinement Client Double Trace Numerical Calqueue Channel Simulation.

Definition STACK_SIZE : Z := 4096 * 2.
Definition EINVAL : Z := 22.
Definition ERANGE : Z := 34.

(** What a fiber knows: its number, its indices of local storage, the addresses
    of its queue and (0 before there is one) of its state, its objects, and the
    bucket widths its queue has chosen so far. *)
Record job := Job {
  number : Z;
  q_idx : Z;
  state_idx : Z;
  queue_at : Z;
  state_at : Z;
  objects : world;
  widths : list double
}.

Definition set_state_at (a : Z) (j : job) : job :=
  Job j.(number) j.(q_idx) j.(state_idx) j.(queue_at) a j.(objects) j.(widths).
Definition set_objects (w : world) (j : job) : job :=
  Job j.(number) j.(q_idx) j.(state_idx) j.(queue_at) j.(state_at) w j.(widths).
Definition add_widths (ws : list double) (j : job) : job :=
  Job j.(number) j.(q_idx) j.(state_idx) j.(queue_at) j.(state_at) j.(objects) (j.(widths) ++ ws).

Inductive point :=
  | Fetch (addr : Z) (k : Z -> point)
  | Guess (q : Z -> bool) (k : Z -> point)
  | Say (ln : line) (l : point)
  | Step (l : point)
  | Switch (id : Z) (l : point)
  (* main *)
  | M_start
  | M_cpus
  | M_argc
  | M_parse
  | M_zero
  | M_enough
  | M_threads
  | M_malloc_arg
  | M_routine (new_arg : Z)
  | M_arg (new_arg : Z)
  | M_new_threads (new_arg i : Z)
  | M_completed
  | M_set_completed (n : Z)
  | M_malloc
  | M_malloc_n (n : Z)
  | M_set_fibers (a : Z)
  | M_convert
  | M_converted (fiber : Z)
  | M_first (fiber fibers : Z)
  | M_for (i : Z)
  | M_create (i : Z)
  | M_created (i fiber : Z)
  | M_set_fiber (i fiber fibers : Z)
  | M_timer
  | M_set_timer (millis : Z)
  | M_alarm
  | M_ready
  | M_main_loop
  | M_failed
  (* __helper_create_thread and thread_initialization *)
  | W_start (arg : Z)
  | W_swap (arg old_counter : Z)
  | W_call (routine : Z)
  | W_convert
  | W_wait
  | W_loop
  (* main_loop *)
  | F_start (args : Z)
  | F_alloc (id q : Z)
  | F_test (id q s : Z)
  | F_no_storage
  | F_malloc (id q s : Z)
  | F_set_queue (j : job)
  | F_init (j : job)
  | F_put (j : job)
  | F_set_state (j : job)
  | F_get (j : job)
  | F_no_events (j : job)
  | F_check (j : job) (event : Z)
  | F_wrong (j : job) (receiver : Z)
  | F_args (j : job) (event : Z) (m : msg_t)
  | F_args2 (j : job) (event : Z) (m : msg_t) (state : Z)
  | F_new (j : job) (event type : Z) (p : lp_state_type)
  | F_result (j : job) (event type ret : Z)
  | F_free (j : job) (event ret : Z)
  | F_count (j : job) (millis : Z)
  | F_completed (j : job)
  | F_done (j : job)
  | F_idle (j : job)
  | F_wait (j : job)
  | F_report (j : job)
  | F_succeeded (j : job)
  | F_failed (j : job)
  | F_fault (j : job) (f : fault)
  | F_stray (j : job).

Section Benchmark.
Context {Lc : Libc}.

(** The addresses of [main_loop], [thread_initialization] and the variables, the
    arguments, the answer of [sysconf], and [errno] after [strtoll]. *)
Context (main_loop_address thread_initialization data : Z).
Context (argv : list cstring) (online errno : Z).
(** What the memory of an event may hold at first: a time and a channel. *)
Context (unset : Z -> double * Z).
(** What the thread's seed may be when an event is processed, and what may become
    of it meanwhile. *)
Context (generators : Z -> rng).

Definition variable (i : Z) : Z := data + 8 * i.
Definition completed_fibers : Z := variable 0.
Definition num_fibers : Z := variable 1.
Definition fibers_variable : Z := variable 2.
Definition init_millis : Z := variable 3.
Definition exec_millis : Z := variable 4.
Definition init_complete : Z := variable 5.
Definition thread_counter : Z := variable 6.
(** Whether [SIGALRM] has got its handler. *)
Definition alarm_handler : Z := variable 7.

Definition initial_memory : gmap Z Z := list_to_map ((fun i => (variable i, 0)) <$> seqZ 0 8).

Definition cpus : Z := u32 online.
(** The number of fibers asked for. *)
Definition number_of_fibers : Z := u32 (strtol (nth 1 argv [])).

(** An element of the array [fibers]. *)
Definition element (fibers i : Z) : Z := fibers + 8 * i.

Definition say (s : string) (l : point) : action (L := point) := Print (Line s []) l.

Definition a_random (r : Z) : bool := (0 <=? r) && (r <? 2 ^ 31).
Definition a_time (t : Z) : bool := (- 2 ^ 31 <=? t) && (t <? 2 ^ 31).
Definition a_block (a : Z) : bool := (0 <? a) && (a <? 2 ^ 64).

(** [random() % num_fibers], as an [int]. *)
Definition get_random_fiber (k : Z -> point) : point :=
  Fetch num_fibers (fun n => Guess a_random (fun r => k (s32 (Z.rem r n)))).

(** [SwitchToFiber(fibers[f])] *)
Definition switch_to (f : Z) (l : point) : point :=
  Fetch fibers_variable (fun a => Fetch (element a (u32 f)) (fun fiber => Switch (s32 fiber) l)).

(** [schedule], which returns to [l]. *)
Definition schedule (l : point) : point := get_random_fiber (fun f => Step (switch_to f l)).

(** [n] steps on the way to [l]. *)
Fixpoint steps (n : nat) (l : point) : point :=
  match n with O => l | S n => Step (steps n l) end.

(** A function of Simulation.v on the objects of a fiber, in any number of steps. *)
Definition on_objects {A} (m : simM A) (j : job) (k : A -> job -> point) : point :=
  Guess (fun n => 0 <=? n) (fun n => steps (Z.to_nat n) (
    let '(r, w, ws) := m j.(objects) in
    let j := add_widths ws (set_objects w j) in
    match r with Ok a => k a j | Fault f => F_fault j f end)).

(** The queue at the address [v]. *)
Definition at_queue {A} (v : Z) (m : calM A) (j : job) (k : A -> job -> point) : point :=
  if v =? j.(queue_at) then on_objects (on_queue m) j k else F_stray j.

(** [ProcessEvent], with pointers to the state and to the queue. *)
Definition process_event (state queue : Z) (event : Z) (m : msg_t) (j : job) : point :=
  if negb (state =? j.(state_at)) || negb (queue =? j.(queue_at)) then F_stray j
  else
    Guess (fun _ => true) (fun x =>
      on_objects (do* modify (set_generator (generators x)); ProcessEvent m) j (fun r j =>
        match r with
        | NewState p => F_new j event m.(type) p
        | Number n => F_result j event m.(type) n
        end)).

(** The first event; what it does not set is what its memory holds. *)
Definition first_event (v : Z) (garbage : double * Z) (j : job) : point :=
  if v =? j.(queue_at) then
    on_objects
      (let* a := malloc_block in
       do* modify (fun s => set_msgs (<[a := Msg j.(number) j.(number) INIT garbage.1 garbage.2]> s.(msgs)) s);
       on_queue (calqueue_put (of_Z 0) a)) j (fun _ j => F_set_state j)
  else F_stray j.

(** The event is freed: the next turn, or the end of the loop. *)
Definition next_turn (event ret : Z) (j : job) : point :=
  let j := set_objects (set_msgs (delete event j.(objects).(msgs)) j.(objects)) j in
  if ret =? 0 then F_get j else Guess a_time (fun t => F_count j (u32 t)).

Definition get_value (i : Z) : event := EFls (FlsGetValue i).
Definition set_value (i v : Z) : event := EFls (FlsSetValue i v).

Definition no_events : string := "No events to process!\n".
Definition wrong_fiber : string := "Something went wrong! Fiber %d is getting data from fiber %d, which is impossible. Aborting...\n".
Definition all_done : string := "All fibers are done!\n".

(** [create_threads(cpus - 1, thread_initialization, NULL)], whose [n] is a short. *)
Definition create_threads_act (l : point) : action :=
  match l with
  | M_malloc_arg => Alloc 2 M_routine
  | M_routine new_arg => Store new_arg thread_initialization (M_arg new_arg)
  | M_arg new_arg => Store (new_arg + 8) 0 (M_new_threads new_arg 0)
  | M_new_threads new_arg i =>
      if i <? uw 16 (cpus - 1) then Spawn (W_start new_arg) (M_new_threads new_arg (i + 1)) else Tau M_completed
  | _ => Exit
  end.

Definition main_act (l : point) : action :=
  match l with
  | M_start => Tau M_cpus
  | M_cpus => if cpus <? 1 then say "Cannot determine the number of online CPUs\n" M_failed else Tau M_argc
  | M_argc =>
      if Z.of_nat (length argv) <? 2
      then Print (Line "Usage: %s <num_fibers>\n" [AText (nth 0 argv [])]) M_failed else Tau M_parse
  | M_parse => Store num_fibers number_of_fibers M_zero
  | M_zero =>
      Load num_fibers (fun n =>
        if n =? 0 then
          if errno =? EINVAL then Say (Line "Invalid number of fibers: %s\n" [AText (nth 1 argv [])]) M_failed
          else if errno =? ERANGE
          then Say (Line "Warning: number of fibers is out of range. Continuing with %d fibers...\n" [AInt (s32 n)]) M_enough
          else M_enough
        else M_enough)
  | M_enough =>
      Load num_fibers (fun n =>
        if n <=? cpus
        then Say (Line "On %d cores you need at least %d fibers for this program to run\n"
               [AInt (s32 cpus); AInt (s32 (cpus + 1))]) M_failed
        else M_threads)
  | M_threads => if 1 <? cpus then Tau M_malloc_arg else Tau M_completed
  | M_completed => Load num_fibers M_set_completed
  | M_set_completed n => Store completed_fibers n M_malloc
  | M_malloc => Load num_fibers M_malloc_n
  | M_malloc_n n => Alloc (Z.to_nat n) M_set_fibers
  | M_set_fibers a => Store fibers_variable a M_convert
  | M_convert => Call EConvert (fun r => M_converted (s32 r))
  | M_converted fiber => Load fibers_variable (M_first fiber)
  | M_first fiber fibers => Store (element fibers 0) (u64 fiber) (M_for 1)
  | M_for i => Load num_fibers (fun n => if i <? n then M_create i else M_timer)
  | M_create i => Create main_loop_address STACK_SIZE (u32 (i + 1)) (fun r => M_created i (s32 r))
  | M_created i fiber => Load fibers_variable (M_set_fiber i fiber)
  | M_set_fiber i fiber fibers => Store (element fibers i) (u64 fiber) (M_for (u32 (i + 1)))
  | M_timer => Any a_time M_set_timer
  | M_set_timer millis => Store init_millis (u64 millis) M_alarm
  | M_alarm => Store alarm_handler 1 M_ready
  | M_ready => Store init_complete 1 M_main_loop
  | M_main_loop => Tau (F_start 1)
  | _ => Exit
  end.

Definition helper_act (l : point) : action :=
  match l with
  | W_start arg => Load thread_counter (W_swap arg)
  | W_swap arg old_counter =>
      Atomic thread_counter (fun v => if v =? old_counter then u32 (old_counter + 1) else v)
        (fun v => if v =? old_counter
                  then Fetch arg (fun routine => Fetch (arg + 8) (fun _ => W_call routine))
                  else W_start arg)
  | W_call routine => if routine =? thread_initialization then Tau W_convert else Wait
  | _ => Exit
  end.

Definition initialization_act (l : point) : action :=
  match l with
  | W_convert => Call EConvert (fun _ => W_wait)
  | W_wait => Load init_complete (fun v => if v =? 0 then W_wait else W_loop)
  | W_loop => Tau (get_random_fiber (fun f => switch_to f W_loop))
  | _ => Exit
  end.

Definition main_loop_act (l : point) : action :=
  match l with
  | F_start args => Call (EFls FlsAlloc) (fun r => F_alloc (u32 args) (s32 r))
  | F_alloc id q => Call (EFls FlsAlloc) (fun r => F_test id q (s32 r))
  | F_test id q s => if (q =? -1) || (s =? -1) then Tau F_no_storage else Tau (F_malloc id q s)
  | F_no_storage => say "No more FLS storage available, aborting...\n" M_failed
  | F_malloc id q s => Any a_block (fun a => F_set_queue (Job id q s a 0 (start (Rng 0 0 [])) []))
  | F_set_queue j => Call (set_value j.(q_idx) j.(queue_at)) (fun _ => F_init j)
  | F_init j => Call (get_value j.(q_idx)) (fun v => at_queue v calqueue_init j (fun _ j => F_put j))
  | F_put j =>
      Call (get_value j.(q_idx)) (fun v => Guess (fun _ => true) (fun x => first_event v (unset x) j))
  | F_set_state j => Call (set_value j.(state_idx) 0) (fun _ => F_get j)
  | F_get j =>
      Call (get_value j.(q_idx)) (fun v => at_queue v calqueue_get j (fun event j =>
        if event =? 0 then F_no_events j else F_check j event))
  | F_no_events j => say no_events (F_failed j)
  | F_check j event =>
      Tau match j.(objects).(msgs) !! event with
          | None => F_fault j BadAccess
          | Some m => if m.(receiver) =? j.(number) then F_args j event m else F_wrong j m.(receiver)
          end
  | F_wrong j receiver => Print (Line wrong_fiber [AInt (s32 j.(number)); AInt (s32 receiver)]) (F_failed j)
  | F_args j event m => Call (get_value j.(state_idx)) (F_args2 j event m)
  | F_args2 j event m state => Call (get_value j.(q_idx)) (fun v => process_event state v event m j)
  | F_new j event type p =>
      Any a_block (fun a =>
        F_result (set_state_at a (set_objects (set_state (Some p) j.(objects)) j)) event type a)
  | F_result j event type ret =>
      if type =? INIT then Call (set_value j.(state_idx) ret) (fun _ => F_free j event 0)
      else Tau (F_free j event ret)
  | F_free j event ret => Tau (next_turn event ret j)
  | F_count j millis => Atomic exec_millis (fun v => u64 (v + millis)) (fun _ => F_completed j)
  | F_completed j => Atomic completed_fibers (fun v => u32 (v - 1)) (fun _ => F_done j)
  | F_done j => if j.(number) =? 1 then Tau (F_wait j) else Tau (F_idle j)
  | F_idle j => Tau (schedule (F_idle j))
  | F_wait j => Load completed_fibers (fun v => if 0 <? v then F_wait j else F_report j)
  | F_report j =>
      Print (Line all_done [])
        (Fetch init_millis (fun init =>
           Say (Line "Time to initialize fibers: %f\n" [ADouble (ddiv (of_Z init) (of_Z 1000))])
             (Fetch exec_millis (fun exec => Fetch num_fibers (fun n =>
                Say (Line "Time to run do the work (per-fiber): %f\n"
                       [ADouble (ddiv (ddiv (of_Z exec) (of_Z 1000)) (of_Z n))]) (F_succeeded j))))))
  | _ => Exit
  end.

Definition benchmark_act (l : point) : action :=
  match l with
  | Fetch a k => Load a k
  | Guess q k => Any q k
  | Say ln l => Print ln l
  | Step l => Tau l
  | Switch id l => Call (ESwitch id) (fun _ => l)
  | M_malloc_arg | M_routine _ | M_arg _ | M_new_threads _ _ => create_threads_act l
  | W_start _ | W_swap _ _ | W_call _ => helper_act l
  | W_convert | W_wait | W_loop => initialization_act l
  | F_start _ | F_alloc _ _ | F_test _ _ _ | F_no_storage | F_malloc _ _ _ | F_set_queue _ | F_init _
  | F_put _ | F_set_state _ | F_get _ | F_no_events _ | F_check _ _ | F_wrong _ _ | F_args _ _ _
  | F_args2 _ _ _ _ | F_new _ _ _ _ | F_result _ _ _ _ | F_free _ _ _ | F_count _ _ | F_completed _
  | F_done _ | F_idle _ | F_wait _ | F_report _ | F_succeeded _ | F_failed _ | F_fault _ _ | F_stray _ =>
      main_loop_act l
  | _ => main_act l
  end.

Definition benchmark_entry (a : Z) : option (Z -> point) :=
  if a =? main_loop_address then Some F_start else None.

Definition alarm_comes (l : point) : point :=
  Fetch alarm_handler (fun installed => if installed =? 0 then l else schedule l).

#[export] Instance benchmark_program : Program (L := point).
Proof.
  refine {| act := benchmark_act; entry := benchmark_entry;
            on_signal l := Some (alarm_comes l); globals := initial_memory |}.
  - intros l fn size param k Ha. destruct l; simpl in Ha; unfold say in Ha; repeat case_match; simplify_eq.
    unfold benchmark_entry. by rewrite Z.eqb_refl.
  - intros used. destruct (exist_fresh (used ∪ {[ main_loop_address ]})) as [t Ht].
    exists t. split; [set_solver|]. unfold benchmark_entry.
    replace (t =? main_loop_address) with false; [done|]. symmetry. apply Z.eqb_neq. set_solver.
Defined.
End Benchmark.
