(* ===== verification/BenchmarkJobs.v ===== *)
(** * The fibers of the benchmark, one at a time

    What each step of [main_loop] does with the objects of its fiber: whatever
    point follows a step, its queue, its events and the state of its cell are as
    SimulationProps.v says, unless its queue has chosen a negative width. *)

From S2P Require Import Prelude Kernel State CStr Fibers Heap Runs Kprobes Safety Fls Outcome System Views Scenario Exclusion Switching Spec Refinement Client Double Trace Numerical Calqueue CalqueueInv CalqueueProps Channel ChannelInv Simulation SimulationProps Benchmark.

(** No bucket width of its queue has been negative. *)
Definition lucky (j : job) : Prop := Forall (fun w => not_negative w) j.(widths).

(** ** The kind of a result of [ProcessEvent] *)

Lemma bind_ok_inv {S A B} (m : traceM S A) (f : A -> traceM S B) s b s' ws :
  bind m f s = (Ok b, s', ws) -> exists a s1 ws1, f a s1 = (Ok b, s', ws1).
Proof.
  unfold bind. destruct (m s) as [[[a|x] s1] ws1]; [|done].
  destruct (f a s1) as [[r s2] ws2] eqn:Hf. intros [= -> -> _]. eauto.
Qed.

Section BenchmarkJobs.
Context {Lc : Libc} {HL : LibcOk Lc}.

Definition of_type (r : result) (ty : Z) : Prop :=
  match r with NewState _ => ty = INIT | Number _ => ty <> INIT end.

Lemma result_type m s r s' ws : ProcessEvent m s = (Ok r, s', ws) -> of_type r m.(type).
Proof.
  unfold ProcessEvent, process_init, process_start, process_end.
  intros (? & ? & ? & (? & ? & ? & H)%bind_ok_inv)%bind_ok_inv. revert H.
  destruct (Z.eqb_spec m.(type) INIT) as [|Hne].
  - intros (? & ? & ? & (? & ? & ? & [= <- _ _])%bind_ok_inv)%bind_ok_inv. done.
  - destruct (m.(type) =? START_CALL); [|destruct (m.(type) =? END_CALL); [|done]].
    + intros (? & ? & ? & (? & ? & ? & (? & ? & ? & (? & ? & ? & (? & ? & ? & [= <- _ _])
        %bind_ok_inv)%bind_ok_inv)%bind_ok_inv)%bind_ok_inv)%bind_ok_inv. done.
    + intros (? & ? & ? & (? & ? & ? & (? & ? & ? & (? & ? & ? & [= <- _ _])
        %bind_ok_inv)%bind_ok_inv)%bind_ok_inv)%bind_ok_inv. done.
Qed.

(** ** Steps on the objects *)

(** An assertion about points that does not notice steps and free choices. *)
Class Patient (C : point -> Prop) : Prop := {
  patient_step l : C l -> C (Step l);
  patient_guess q k : (exists x, q x = true) -> (forall x, q x = true -> C (k x)) -> C (Guess q k)
}.

Lemma steps_patient (C : point -> Prop) {HC : Patient C} n l : C l -> C (steps n l).
Proof. intros Hl. induction n; [done|]. by apply patient_step. Qed.

Lemma on_objects_elim {A} (m : simM A) j k (Q : A -> world -> Prop) (C : point -> Prop) {HC : Patient C} :
  (lucky j -> steady (m j.(objects)) Q) ->
  (forall a w ws, m j.(objects) = (Ok a, w, ws) ->
     (lucky (add_widths ws (set_objects w j)) -> Q a w) -> C (k a (add_widths ws (set_objects w j)))) ->
  (forall f w ws, ~ lucky (add_widths ws (set_objects w j)) -> C (F_fault (add_widths ws (set_objects w j)) f)) ->
  C (on_objects m j k).
Proof.
  intros Hs Hok Hfault. apply patient_guess; [by exists 0|]. intros n _. apply (steps_patient C).
  destruct (m j.(objects)) as [[r w] ws].
  assert (Hl : lucky (add_widths ws (set_objects w j)) -> exists a, r = Ok a /\ Q a w).
  { unfold lucky. simpl. intros [Hw Hws]%Forall_app. by apply Hs. }
  destruct r as [a|f].
  - apply (Hok a w ws); [done|]. intros (a' & [= <-] & HQ)%Hl. exact HQ.
  - apply Hfault. by intros (a & [=] & _)%Hl.
Qed.

(** Before the first event. *)
Definition no_call (w : world) : Prop := w.(state) = None /\ w.(channels_heap) = ∅.

Definition empty (id : Z) (w : world) : Prop := pending id [] [] w /\ no_call w.
Definition fresh (id : Z) (w : world) : Prop :=
  (exists ch, pending id [] [(INIT, ch)] w) /\ no_call w.
(** Between two turns. *)
Definition ready (id : Z) (w : world) : Prop := fresh id w \/ turn_ok id [] w.

Lemma init_steady id :
  steady (on_queue calqueue_init (start (Rng 0 0 []))) (fun _ w => empty id w).
Proof.
  unfold on_queue. destruct (init_holds (start (Rng 0 0 [])).(queue)) as (q & -> & Hq).
  apply steady_result. split; [|done]. exists [[]; []]. split_and!; [done|constructor|set_solver|constructor|done].
Qed.

Lemma first_event_steady id w g :
  empty id w ->
  steady ((let* a := malloc_block in
           do* modify (fun s => set_msgs (<[a := Msg id id INIT g.1 g.2]> s.(msgs)) s);
           on_queue (calqueue_put (of_Z 0) a)) w) (fun _ w' => fresh id w').
Proof.
  intros [Hpend [Hst Hh]]. set (a := malloc (dom w.(channels_heap) ∪ dom w.(msgs))).
  rewrite (bind_ok _ _ w a w) by done. rewrite bind_modify.
  assert (Ha : w.(msgs) !! a = None).
  { apply not_elem_of_dom. pose proof (malloc_fresh (dom w.(channels_heap) ∪ dom w.(msgs))). set_solver. }
  eapply steady_mono.
  { apply (put_message_steady id [] [] w a (Msg id id INIT g.1 g.2) (of_Z 0) Hpend);
      [done|cbn; lia|done|apply malloc_not_null|done|done]. }
  intros [] w' (Hp & Hs' & Hh'). split; [by exists g.2|]. split; congruence.
Qed.

(** An event has been taken out of the queue: its message, and what is left. *)
Definition taken (id : Z) (w : world) (e : Z) (m : msg_t) : Prop :=
  w.(msgs) !! e = Some m /\ m.(receiver) = id /\
  (m.(type) = INIT /\ pending id [e] [] w /\ no_call w \/
   (m.(type) <> INIT -> nonneg m.(timestamp)) /\ exists p l K, cell_ok w p l /\ pending id [e] K w /\
     (m.(type), m.(msg_channel)) :: K ≡ₚ (START_CALL, -1) :: ends l).

Lemma get_event_steady id w :
  ready id w -> steady (on_queue calqueue_get w) (fun e w' => e <> 0 /\ exists m, taken id w' e m).
Proof.
  intros [[[ch Hpend] [Hst Hh]]|(p & l & K & Hc & Hpend & HK)].
  - eapply steady_mono; [by apply (take_steady id _ w Hpend)|].
    intros e w' (m & K' & HK' & He & Hm & Hid & _ & Hp & Hs' & Hh'). split; [done|].
    apply Permutation_singleton_l in HK'. injection HK' as Ht _ HK'. rewrite <- HK' in Hp.
    exists m. unfold taken. split_and!; [done|done|]. left. split_and!; [done|done|split; congruence].
  - eapply steady_mono; [apply (take_steady id K w Hpend)|].
    { intros ->. by apply Permutation_nil_cons in HK. }
    intros e w' (m & K' & HK' & He & Hm & Hid & Ht & Hp & Hs' & Hh'). split; [done|].
    exists m. unfold taken. split_and!; [done|done|]. right. split; [done|]. exists p, l, K'. split_and!.
    + destruct Hc. constructor; try done. by apply (channels_ok_frame w).
    + done.
    + by rewrite <- HK'.
Qed.

(** What [ProcessEvent] leaves; the event is not freed yet. *)
Definition processed (id : Z) (e : Z) (r : result) (w : world) : Prop :=
  match r with
  | NewState p => turn_ok id [e] (set_state (Some p) w)
  | Number n => (n <> 0 -> calls_completed w) /\ turn_ok id [e] w
  end.

Lemma set_generator_taken id g w e m : taken id w e m -> taken id (set_generator g w) e m.
Proof.
  unfold taken. intros (Hm & Hid & [(Ht & Hp & Hn)|(Ht & p & l & K & Hc & Hp & HK)]); split_and!; [done|done| |done|done|].
  - left. split_and!; [done|by eapply pending_frame; [..|exact Hp]|exact Hn].
  - right. split; [done|]. exists p, l, K. split_and!; [|by eapply pending_frame; [..|exact Hp]|done].
    destruct Hc. constructor; try done. by apply (channels_ok_frame w).
Qed.

Lemma process_steady id e m g w :
  taken id w e m ->
  steady ((do* modify (set_generator g); ProcessEvent m) w) (fun r w' => processed id e r w').
Proof.
  rewrite bind_modify. intros (_ & Hid & [(Ht & Hp & Hst & Hh)|(Ht & p & l & K & Hc & Hp & HK)])%(set_generator_taken _ g).
  - unfold ProcessEvent. rewrite bind_get, Hst, bind_ret, Ht, Hid. change (INIT =? INIT) with true. cbv iota.
    eapply steady_mono; [by apply (process_init_steady id [e])|]. intros r w' [-> Hok]. exact Hok.
  - eapply steady_mono; [by apply (process_event_steady id e K _ m p l)|].
    intros r w' [(n & -> & Hn) Hok]. by split.
Qed.
End BenchmarkJobs.
