(* ===== verification/BenchmarkProps.v ===== *)
(** * The benchmark computes what it should

    Two theorems about every run of the program of Benchmark.v on the module,
    whatever threads run its fibers and wherever the alarm interrupts them
    between its steps.
    [benchmark_isolation]: a fiber finds its own queue and its own state in its
    local storage, always, and unless its queue has chosen a negative bucket
    width its simulation is as SimulationProps.v says, and reports no error.
    [benchmark_completion]: the counter in memory tells how many fibers have not
    counted themselves, a fiber counts itself when its simulation has completed
    its calls, and the program reports the end only when all have.

    They are proved in the logic of FiberLogic.v: [point_ok] is the assertion
    about a point; what is shared ([ghost]) is how far [main] is and which
    fibers simulate, and which are done. *)

From S2P Require Import Prelude Kernel State CStr Fibers Heap Runs Kprobes Safety Fls Outcome System Views Scenario Exclusion Switching Spec Refinement Client Double Trace Numerical Calqueue CalqueueInv CalqueueProps Channel ChannelInv Simulation SimulationProps Benchmark BenchmarkJobs FiberLogic.

(** What a thread does that is not a fiber; a fiber before its simulation, or of
    a thread that does not simulate; a fiber that simulates; and after it. *)
Inductive phase := InThread | Outside | Working | Done.

(** What a point may rely on: its phase; for the one that runs [main], how many
    of the variables [num_fibers], [completed_fibers] and [fibers] are set, and
    the number of fibers that simulate; whether all are done. *)
Record view := View { v_phase : phase; v_main : option (nat * Z); v_over : bool }.

Record ghost := Ghost {
  g_main : owner;
  g_stage : nat;
  g_jobs : gset Z;
  g_done : gset Z;
  g_over : bool
}.

Definition phase_of (g : ghost) (o : owner) : phase :=
  match o with
  | Thread _ => InThread
  | Fiber id => if decide (id ∈ g.(g_done)) then Done else if decide (id ∈ g.(g_jobs)) then Working else Outside
  end.
Definition view_of (g : ghost) (o : owner) : view :=
  View (phase_of g o)
    (if decide (g.(g_main) = o) then Some (g.(g_stage), Z.of_nat (size g.(g_jobs))) else None) g.(g_over).

(** ** The assertion about a point *)

Definition queue_stored (j : job) (m : gmap Z Z) : Prop :=
  j.(q_idx) <> j.(state_idx) /\ m !! j.(q_idx) = Some j.(queue_at) /\ is_Some (m !! j.(state_idx)).
Definition stored (j : job) (m : gmap Z Z) : Prop :=
  queue_stored j m /\ m !! j.(state_idx) = Some j.(state_at).
Definition two_slots (q s : Z) (m : gmap Z Z) : Prop :=
  q <> s /\ is_Some (m !! q) /\ is_Some (m !! s).

Definition job_ok (v : view) (l : point) (m : gmap Z Z) : Prop :=
  match l with
  | F_start _ => v.(v_phase) = Working /\ m = ∅
  | F_alloc _ q => v.(v_phase) = Working /\ q <> -1 /\ exists x, m = {[ q := x ]}
  | F_test _ q s => v.(v_phase) = Working /\ q <> -1 /\ s <> -1 /\ two_slots q s m
  | F_malloc _ q s => v.(v_phase) = Working /\ two_slots q s m
  | F_set_queue j =>
      v.(v_phase) = Working /\ two_slots j.(q_idx) j.(state_idx) m /\ j.(state_at) = 0 /\
      j.(objects) = start (Rng 0 0 [])
  | F_init j =>
      v.(v_phase) = Working /\ queue_stored j m /\ j.(state_at) = 0 /\ j.(objects) = start (Rng 0 0 [])
  | F_put j =>
      v.(v_phase) = Working /\ queue_stored j m /\ j.(state_at) = 0 /\
      (lucky j -> empty j.(number) j.(objects))
  | F_set_state j =>
      v.(v_phase) = Working /\ queue_stored j m /\ j.(state_at) = 0 /\
      (lucky j -> fresh j.(number) j.(objects))
  | F_get j => v.(v_phase) = Working /\ stored j m /\ (lucky j -> ready j.(number) j.(objects))
  | F_check j e =>
      v.(v_phase) = Working /\ stored j m /\ (lucky j -> exists c, taken j.(number) j.(objects) e c)
  | F_args j e c =>
      v.(v_phase) = Working /\ stored j m /\ (lucky j -> taken j.(number) j.(objects) e c)
  | F_args2 j e c st =>
      v.(v_phase) = Working /\ stored j m /\ st = j.(state_at) /\
      (lucky j -> taken j.(number) j.(objects) e c)
  | F_new j e ty p =>
      v.(v_phase) = Working /\ queue_stored j m /\ ty = INIT /\
      (lucky j -> turn_ok j.(number) [e] (set_state (Some p) j.(objects)))
  | F_result j e ty r =>
      v.(v_phase) = Working /\ queue_stored j m /\
      (if ty =? INIT then r = j.(state_at) else m !! j.(state_idx) = Some j.(state_at)) /\
      (lucky j -> turn_ok j.(number) [e] j.(objects) /\ (ty <> INIT -> r <> 0 -> calls_completed j.(objects)))
  | F_free j e r =>
      v.(v_phase) = Working /\ stored j m /\
      (lucky j -> turn_ok j.(number) [e] j.(objects) /\ (r <> 0 -> calls_completed j.(objects)))
  | F_count j _ | F_completed j => v.(v_phase) = Working /\ (lucky j -> calls_completed j.(objects))
  | F_done j | F_idle j | F_wait j => v.(v_phase) = Done /\ (lucky j -> calls_completed j.(objects))
  | F_report j | F_succeeded j =>
      v.(v_phase) = Done /\ v.(v_over) = true /\ (lucky j -> calls_completed j.(objects))
  | F_no_events j | F_wrong j _ | F_failed j | F_fault j _ => v.(v_phase) = Working /\ ~ lucky j
  | _ => False
  end.

Definition worker_ok (v : view) (l : point) : Prop :=
  match l with
  | W_start _ | W_swap _ _ | W_call _ | W_convert => v.(v_phase) = InThread
  | W_wait | W_loop => v.(v_phase) = Outside
  | _ => False
  end.

Section BenchmarkProps.
Context {Lc : Libc} {HL : LibcOk Lc}.
Context (main_loop_address thread_initialization data : Z).
Context (argv : list cstring) (online errno : Z) (unset : Z -> double * Z) (generators : Z -> rng).

Notation variable := (variable data).
Notation num_fibers := (num_fibers data).
Notation completed_fibers := (completed_fibers data).
Notation fibers_variable := (fibers_variable data).
Notation init_complete := (init_complete data).
Notation N := (number_of_fibers argv).
Notation act_of := (benchmark_act main_loop_address thread_initialization data argv online errno unset generators).
#[local] Existing Instance benchmark_program.
#[local] Instance program : Program (L := point) :=
  benchmark_program main_loop_address thread_initialization data argv online errno unset generators.

(** Not the address of a variable. *)
Definition clear (x : Z) : Prop := forall i, 0 <= i < 8 -> x <> variable i.
Definition array_clear (a : Z) : Prop := forall i, 0 <= i < N -> clear (element a i).

(** [main] is in the phase [p], has set [st] variables and made [n] fibers that
    simulate. *)
Definition main_at (v : view) (p : phase) (st : nat) (n : Z) : Prop :=
  v.(v_phase) = p /\ v.(v_main) = Some (st, n).

Definition main_ok (v : view) (l : point) : Prop :=
  match l with
  | M_start | M_cpus | M_argc | M_parse => main_at v InThread 0 0
  | M_zero | M_enough => main_at v InThread 1 0
  | M_threads | M_malloc_arg | M_new_threads _ _ | M_completed => main_at v InThread 1 0 /\ 0 < N
  | M_routine a | M_arg a => main_at v InThread 1 0 /\ 0 < N /\ clear a /\ clear (a + 8)
  | M_set_completed n => main_at v InThread 1 0 /\ 0 < N /\ n = N
  | M_malloc => main_at v InThread 2 0
  | M_malloc_n n => main_at v InThread 2 0 /\ n = N
  | M_set_fibers a => main_at v InThread 2 0 /\ array_clear a
  | M_convert => main_at v InThread 3 0
  | M_converted _ => main_at v Outside 3 0 /\ 0 < N
  | M_first _ a => main_at v Outside 3 0 /\ 0 < N /\ array_clear a
  | M_for i => main_at v Outside 3 (i - 1) /\ 1 <= i <= N
  | M_create i => main_at v Outside 3 (i - 1) /\ 1 <= i < N
  | M_created i _ => main_at v Outside 3 i /\ 1 <= i < N
  | M_set_fiber i _ a => main_at v Outside 3 i /\ 1 <= i < N /\ array_clear a
  | M_timer | M_set_timer _ | M_alarm | M_ready | M_main_loop => main_at v Outside 3 (N - 1) /\ 0 < N
  | M_failed => v.(v_phase) = InThread
  | _ => False
  end.

Fixpoint point_ok (v : view) (l : point) (m : gmap Z Z) : Prop :=
  match l with
  | Fetch _ k => forall x, point_ok v (k x) m
  | Guess q k => (exists x, q x = true) /\ forall x, q x = true -> point_ok v (k x) m
  | Say ln l => ln.(fmt) <> all_done /\ point_ok v l m
  | Step l | Switch _ l => point_ok v l m
  | _ => (main_ok v l /\ m = ∅) \/ worker_ok v l \/ job_ok v l m
  end.

(** ** What is shared *)

Record shared (g : ghost) (last : Z) (mem : gmap Z Z) : Prop := Shared {
  sh_last : 0 <= last;
  sh_mapped i : 0 <= i < 8 -> is_Some (mem !! variable i);
  sh_jobs id : id ∈ g.(g_jobs) -> 0 < id <= last;
  sh_done : g.(g_done) ⊆ g.(g_jobs);
  sh_size : Z.of_nat (size g.(g_jobs)) <= N;
  sh_early : (g.(g_stage) < 3)%nat -> g.(g_jobs) = ∅;
  sh_num : (1 <= g.(g_stage))%nat -> mem !! num_fibers = Some N;
  sh_positive : (2 <= g.(g_stage))%nat -> 0 < N;
  sh_completed : (2 <= g.(g_stage))%nat ->
    mem !! completed_fibers = Some (u32 (N - Z.of_nat (size g.(g_done))));
  sh_fibers : (3 <= g.(g_stage))%nat -> exists a, mem !! fibers_variable = Some a /\ array_clear a;
  sh_ready : (g.(g_stage) < 3)%nat -> mem !! init_complete = Some 0;
  sh_over : g.(g_over) = true -> Z.of_nat (size g.(g_done)) = N
}.

Definition fiber_assertion (g : ghost) (id : Z) (l : point) (m : gmap Z Z) (o : list line) : Prop :=
  point_ok (view_of g (Fiber id)) l m /\ (Line all_done [] ∈ o -> g.(g_over) = true).
Definition thread_assertion (g : ghost) (pid : Z) (l : point) : Prop := point_ok (view_of g (Thread pid)) l ∅.

Lemma N_range : 0 <= N < 2 ^ 32.
Proof. apply uw_range. lia. Qed.

Lemma variable_inj i k : variable i = variable k -> i = k.
Proof. unfold Benchmark.variable. lia. Qed.

(** *** Changes of the view *)

Lemma point_ok_mono v v' l m :
  v'.(v_phase) = v.(v_phase) -> v'.(v_main) = v.(v_main) ->
  (v.(v_over) = true -> v'.(v_over) = true) -> point_ok v l m -> point_ok v' l m.
Proof.
  intros Hp Hm Ho. induction l; simpl; unfold main_at; rewrite ?Hp, ?Hm; try done;
    intros Hl; repeat (destruct Hl as [Hl|Hl]); try done; naive_solver.
Qed.

(** Only the owners [A] notice that [g] becomes [g']. *)
Definition unnoticed (A : list owner) (g g' : ghost) : Prop :=
  (g.(g_over) = true -> g'.(g_over) = true) /\
  forall o, o ∉ A -> phase_of g' o = phase_of g o /\ (view_of g' o).(v_main) = (view_of g o).(v_main).

Lemma unnoticed_keeps A g g' : unnoticed A g g' -> keeps fiber_assertion thread_assertion A g g'.
Proof.
  intros [Ho Hv]. split.
  - intros id l m o Hid [Hl Hout]. destruct (Hv _ Hid) as [Hp Hm]. split; [|auto].
    by eapply point_ok_mono; [..|exact Hl].
  - intros pid l Hid Hl. destruct (Hv _ Hid) as [Hp Hm]. by eapply point_ok_mono; [..|exact Hl].
Qed.

Lemma unnoticed_refl A g : unnoticed A g g.
Proof. done. Qed.

(** *** Changes of the memory *)

Lemma shared_memory g last mem mem' :
  shared g last mem -> (forall i, 0 <= i < 8 -> is_Some (mem' !! variable i)) ->
  mem' !! num_fibers = mem !! num_fibers -> mem' !! completed_fibers = mem !! completed_fibers ->
  mem' !! fibers_variable = mem !! fibers_variable ->
  ((g.(g_stage) < 3)%nat -> mem' !! init_complete = mem !! init_complete) -> shared g last mem'.
Proof.
  intros [] Hm Hn Hc Hf Hr. split; rewrite ?Hn, ?Hc, ?Hf; try done. intros Hst. rewrite Hr; auto.
Qed.

Lemma store_mapped g last mem x w i :
  shared g last mem -> 0 <= i < 8 -> is_Some (<[x := w]> mem !! variable i).
Proof. intros Hs Hi. apply lookup_insert_is_Some'. right. by apply (sh_mapped _ _ _ Hs). Qed.

Lemma shared_store_clear g last mem x w : shared g last mem -> clear x -> shared g last (<[x := w]> mem).
Proof.
  intros Hs Hx. eapply shared_memory; [done|intros; by eapply store_mapped|..];
    try intros _; (apply lookup_insert_ne, Hx; lia).
Qed.

Lemma shared_store_variable g last mem i w :
  shared g last mem -> 3 <= i < 8 -> (i = 5 -> (3 <= g.(g_stage))%nat) ->
  shared g last (<[variable i := w]> mem).
Proof.
  intros Hs Hx H5. eapply shared_memory; [done|intros; by eapply store_mapped|..];
    try intros ?; (apply lookup_insert_ne; intros ?%variable_inj; lia).
Qed.

Lemma shared_alloc g last mem x vs :
  shared g last mem -> words_at x vs ##ₘ mem -> shared g last (words_at x vs ∪ mem).
Proof.
  intros Hs Hd.
  assert (Heq : forall i, 0 <= i < 8 -> (words_at x vs ∪ mem) !! variable i = mem !! variable i).
  { intros i Hi. destruct (sh_mapped _ _ _ Hs i Hi) as [w Hw]. rewrite Hw.
    apply lookup_union_Some_r; done. }
  eapply shared_memory; [done| |by apply (Heq 1)|by apply (Heq 0)|by apply (Heq 2)|intros _; by apply (Heq 5)].
  intros i Hi. rewrite Heq by done. by apply (sh_mapped _ _ _ Hs).
Qed.

(** The words of a new block are not variables. *)
Lemma alloc_clear g last mem x vs i :
  shared g last mem -> words_at x vs ##ₘ mem -> 0 <= i < Z.of_nat (length vs) -> clear (x + 8 * i).
Proof.
  intros Hs Hd Hi k Hk Heq. destruct (sh_mapped _ _ _ Hs k Hk) as [w Hw].
  assert (is_Some (words_at x vs !! (x + 8 * i))) as [w' Hw'].
  { destruct (lookup_lt_is_Some_2 vs (Z.to_nat i)) as [y Hy]; [lia|].
    apply not_eq_None_Some. unfold words_at. intros Hno%not_elem_of_list_to_map. apply Hno.
    apply list_elem_of_fmap. exists (x + 8 * i, y). split; [done|].
    apply elem_of_lookup_imap. exists (Z.to_nat i), y. split; [do 2 f_equal; lia|done]. }
  rewrite Heq in Hw'. by eapply map_disjoint_spec in Hd.
Qed.

(** ** The steps of a thread or fiber *)

Definition made (o : owner) (last : Z) : Prop :=
  match o with Thread _ => True | Fiber id => 0 < id <= last end.

(** The step to [l'] that leaves the memory [mem'] and prints [lns] is fine. *)
Definition fine (g : ghost) (o : owner) (last : Z) (m mem' : gmap Z Z) (lns : list line) (l' : point) : Prop :=
  exists g', unnoticed [o] g g' /\ shared g' last mem' /\ point_ok (view_of g' o) l' m /\
    (Line all_done [] ∈ lns -> g'.(g_over) = true).

Lemma fine_same g o last m mem' l' :
  shared g last mem' -> point_ok (view_of g o) l' m -> fine g o last m mem' [] l'.
Proof. intros Hs Hl. exists g. split_and!; [done..|]. by intros ?%elem_of_nil. Qed.

Lemma fine_print g o last m mem' ln l' :
  shared g last mem' -> ln.(fmt) <> all_done -> point_ok (view_of g o) l' m -> fine g o last m mem' [ln] l'.
Proof.
  intros Hs Hne Hl. exists g. split_and!; [done..|]. intros Hin%list_elem_of_singleton. by rewrite <- Hin in Hne.
Qed.

Lemma main_at_inv g o p st n :
  main_at (view_of g o) p st n ->
  phase_of g o = p /\ g.(g_main) = o /\ g.(g_stage) = st /\ Z.of_nat (size g.(g_jobs)) = n.
Proof. unfold main_at, view_of. simpl. case_decide; naive_solver. Qed.

Lemma main_at_intro g o p st n :
  phase_of g o = p -> g.(g_main) = o -> g.(g_stage) = st -> Z.of_nat (size g.(g_jobs)) = n ->
  main_at (view_of g o) p st n.
Proof. intros <- Hm <- <-. unfold main_at, view_of. simpl. by rewrite decide_True. Qed.

(** [main] has set one more variable. *)
Definition set_stage (st : nat) (g : ghost) : ghost :=
  Ghost g.(g_main) st g.(g_jobs) g.(g_done) g.(g_over).

Lemma set_stage_unnoticed g o st : g.(g_main) = o -> unnoticed [o] g (set_stage st g).
Proof.
  intros Hm. split; [done|]. intros o' Ho'. split; [done|]. simpl.
  assert (g.(g_main) <> o') by (rewrite Hm; set_solver). by rewrite !decide_False.
Qed.

Lemma fine_stage g o last m mem' l' st :
  g.(g_main) = o -> shared (set_stage st g) last mem' ->
  point_ok (view_of (set_stage st g) o) l' m -> fine g o last m mem' [] l'.
Proof.
  intros Hm Hs Hl. exists (set_stage st g). split_and!; [by apply set_stage_unnoticed|done|done|].
  by intros ?%elem_of_nil.
Qed.

(** A fiber begins to simulate. *)
Definition join (id : Z) (g : ghost) : ghost :=
  Ghost g.(g_main) g.(g_stage) (g.(g_jobs) ∪ {[ id ]}) g.(g_done) g.(g_over).

Lemma join_size id g : id ∉ g.(g_jobs) -> Z.of_nat (size (join id g).(g_jobs)) = Z.of_nat (size g.(g_jobs)) + 1.
Proof. intros Hid. simpl. rewrite size_union, size_singleton by set_solver. lia. Qed.

Lemma join_phase id g o : o <> Fiber id -> phase_of (join id g) o = phase_of g o.
Proof.
  intros Ho. destruct o as [|id']; [done|]. simpl. assert (id' <> id) by congruence.
  case_decide; [done|]. destruct (decide (id' ∈ g_jobs g)); [by rewrite decide_True by set_solver|].
  by rewrite decide_False by set_solver.
Qed.

Lemma join_phase_eq id g : id ∉ g.(g_done) -> phase_of (join id g) (Fiber id) = Working.
Proof. intros Hid. simpl. by rewrite decide_False, decide_True by set_solver. Qed.

Lemma join_unnoticed id o g : g.(g_main) = o -> unnoticed [o; Fiber id] g (join id g).
Proof.
  intros Hm. split; [done|]. intros o' Ho'. rewrite join_phase by set_solver. split; [done|]. simpl.
  assert (g.(g_main) <> o') by (rewrite Hm; set_solver). by rewrite !decide_False.
Qed.

Lemma shared_join g last last' mem id :
  shared g last mem -> last <= last' -> 0 < id <= last' -> id ∉ g.(g_jobs) -> (3 <= g.(g_stage))%nat ->
  Z.of_nat (size g.(g_jobs)) < N -> shared (join id g) last' mem.
Proof.
  intros Hs Hl Hid Hno Hst Hn. pose proof (join_size id g Hno). destruct Hs.
  split; [lia|done| | |lia|simpl; lia|done..]; simpl.
  - intros id' [Hid'%sh_jobs0| ->%elem_of_singleton]%elem_of_union; lia.
  - set_solver.
Qed.

Lemma phase_not_job g id : phase_of g (Fiber id) = Outside -> id ∉ g.(g_jobs) /\ id ∉ g.(g_done).
Proof. simpl. repeat case_decide; done. Qed.
Lemma phase_job g id : g.(g_done) ⊆ g.(g_jobs) -> phase_of g (Fiber id) = Working -> id ∈ g.(g_jobs) /\ id ∉ g.(g_done).
Proof. simpl. intros ?. repeat case_decide; try done. Qed.
Lemma phase_done g o : phase_of g o = Done -> exists id, o = Fiber id /\ id ∈ g.(g_done).
Proof. destruct o; simpl; repeat case_decide; eauto; done. Qed.

(** *** [main] *)

Lemma lookup_other (mem : gmap Z Z) i k w : i <> k -> <[variable i := w]> mem !! variable k = mem !! variable k.
Proof. intros Hne. apply lookup_insert_ne. by intros ?%variable_inj. Qed.

Lemma shared_stage g last mem i w st :
  shared g last mem -> (g.(g_stage) < 3)%nat -> mem !! variable i = Some w ->
  forall w',
  ((1 <= st)%nat -> <[variable i := w']> mem !! num_fibers = Some N) ->
  ((2 <= st)%nat -> 0 < N /\ <[variable i := w']> mem !! completed_fibers = Some N) ->
  ((3 <= st)%nat -> i = 2 /\ array_clear w') -> i <> 5 ->
  shared (set_stage st g) last (<[variable i := w']> mem).
Proof.
  intros Hs Hst Hi w' H1 H2 H3 H5. pose proof (sh_early _ _ _ Hs Hst) as Hj. pose proof N_range as HN.
  assert (Hd : g.(g_done) = ∅) by (pose proof (sh_done _ _ _ Hs); set_solver).
  split; simpl; try (apply Hs; done).
  - intros k Hk. by eapply store_mapped.
  - intros _. done.
  - done.
  - intros Hp. by apply H2.
  - intros Hp. destruct (H2 Hp) as [? ->]. rewrite Hd, size_empty, Z.sub_0_r, uw_small by lia. done.
  - intros Hp. destruct (H3 Hp) as [-> Ha]. exists w'. split; [apply lookup_insert_eq|done].
  - intros _. etrans; [by apply (lookup_other _ i 5)|]. by apply (sh_ready _ _ _ Hs).
Qed.

(** A point of [main] that is a thread. *)
Ltac at_main := left; split; [|reflexivity]; repeat first [assumption | reflexivity | lia | split].

Lemma main_thread_step g o last mem l lns l' mem' :
  main_ok (view_of g o) l -> phase_of g o = InThread ->
  shared g last mem -> effect mem (act_of l) lns l' mem' -> fine g o last ∅ mem' lns l'.
Proof.
  intros Hl Hp Hs He. pose proof N_range as HN.
  assert (Hcpu : 0 <= cpus online) by (apply uw_range; lia).
  destruct l; try done; simpl in Hl, He; unfold say in He;
    try (exfalso; destruct Hl as [[Hl _] _]; simpl in Hl; congruence).
  - destruct He as (-> & -> & ->). apply fine_same; [done|]. at_main.
  - case_match; destruct He as (-> & -> & ->); [apply fine_print|apply fine_same]; try done; at_main.
  - case_match; destruct He as (-> & -> & ->); [apply fine_print|apply fine_same]; try done; at_main.
  - destruct He as ([w Hw] & -> & -> & ->). apply main_at_inv in Hl as (Hph & Hm & Hst & Hn).
    apply (fine_stage g o last ∅ _ _ 1 Hm).
    + eapply shared_stage; [done|lia|done| |lia|lia|done]. intros _. apply lookup_insert_eq.
    + left. split; [by apply main_at_intro|done].
  - destruct He as (n & Hn & -> & -> & ->). apply fine_same; [done|].
    repeat case_match; simpl; try (split; [done|]); at_main.
  - destruct He as (n & Hn & -> & -> & ->). apply fine_same; [done|].
    pose proof Hl as Hl'. apply main_at_inv in Hl' as (_ & _ & Hst & _).
    rewrite (sh_num _ _ _ Hs) in Hn by lia. injection Hn as <-.
    case_match; [simpl; split; [done|]; at_main|]. left. split; [split; [done|lia]|done].
  - destruct Hl as [Hl H0]. case_match; destruct He as (-> & -> & ->); apply fine_same; try done; at_main.
  - destruct Hl as [Hl H0]. destruct He as (a & vs & Hlen & Hd & -> & -> & ->).
    apply fine_same; [by apply shared_alloc|]. left. split; [|done]. split_and!; [done|done| |].
    + rewrite <- (Z.add_0_r a). apply (alloc_clear _ _ _ _ vs 0 Hs Hd). lia.
    + apply (alloc_clear _ _ _ _ vs 1 Hs Hd). lia.
  - destruct Hl as (Hl & H0 & Ha & Ha8). destruct He as (_ & -> & -> & ->).
    apply fine_same; [by apply shared_store_clear|]. at_main.
  - destruct Hl as (Hl & H0 & Ha & Ha8). destruct He as (_ & -> & -> & ->).
    apply fine_same; [by apply shared_store_clear|]. at_main.
  - destruct Hl as [Hl H0]. case_match; destruct He as (-> & -> & ->); apply fine_same; try done; at_main.
  - destruct Hl as [Hl H0]. destruct He as (n & Hn & -> & -> & ->). apply fine_same; [done|].
    pose proof Hl as Hl'. apply main_at_inv in Hl' as (_ & _ & Hst & _).
    rewrite (sh_num _ _ _ Hs) in Hn by lia. injection Hn as <-. at_main.
  - destruct Hl as (Hl & H0 & ->). destruct He as ([w Hw] & -> & -> & ->).
    apply main_at_inv in Hl as (Hph & Hm & Hst & Hn). apply (fine_stage g o last ∅ _ _ 2 Hm).
    + eapply shared_stage; [done|lia|done| | |lia|done].
      * intros _. rewrite (lookup_other _ 0 1) by done. apply (sh_num _ _ _ Hs). lia.
      * intros _. split; [done|]. apply lookup_insert_eq.
    + left. split; [by apply main_at_intro|done].
  - destruct He as (n & Hn & -> & -> & ->). apply fine_same; [done|].
    pose proof Hl as Hl'. apply main_at_inv in Hl' as (_ & _ & Hst & _).
    rewrite (sh_num _ _ _ Hs) in Hn by lia. injection Hn as <-. at_main.
  - destruct Hl as [Hl ->]. destruct He as (a & vs & Hlen & Hd & -> & -> & ->).
    apply fine_same; [by apply shared_alloc|]. left. split; [|done]. split; [done|].
    intros i Hi. apply (alloc_clear _ _ _ _ vs i Hs Hd). lia.
  - destruct Hl as [Hl Ha]. destruct He as ([w Hw] & -> & -> & ->).
    apply main_at_inv in Hl as (Hph & Hm & Hst & Hn). apply (fine_stage g o last ∅ _ _ 3 Hm).
    + eapply shared_stage; [done|lia|done| | |done|done].
      * intros _. rewrite (lookup_other _ 2 1) by done. apply (sh_num _ _ _ Hs). lia.
      * intros _. split; [apply (sh_positive _ _ _ Hs); lia|]. etrans; [by apply (lookup_other _ 2 0)|].
        etrans; [apply (sh_completed _ _ _ Hs); lia|]. f_equal.
        assert (g.(g_done) = ∅) as ->.
        { pose proof (sh_early _ _ _ Hs ltac:(lia)). pose proof (sh_done _ _ _ Hs). set_solver. }
        rewrite size_empty, uw_small; lia.
    + left. split; [by apply main_at_intro|done].
Qed.

(** The variables [main] reads when it is a fiber. *)
Lemma main_reads g last mem :
  shared g last mem -> (3 <= g.(g_stage))%nat ->
  mem !! num_fibers = Some N /\ exists a, mem !! fibers_variable = Some a /\ array_clear a.
Proof. intros Hs Hst. split; [apply (sh_num _ _ _ Hs); lia|by apply (sh_fibers _ _ _ Hs)]. Qed.

Lemma begin_to_simulate g id last mem :
  main_at (view_of g (Fiber id)) Outside 3 (N - 1) -> 0 < id <= last -> shared g last mem ->
  fine g (Fiber id) last ∅ mem [] (F_start 1).
Proof.
  intros Hl Hid Hs. apply main_at_inv in Hl as (Hp & Hm & Hst & Hn).
  destruct (phase_not_job _ _ Hp) as [Hj Hd]. exists (join id g). split_and!.
  - split; [done|]. intros o' Ho'. apply (join_unnoticed id (Fiber id) g Hm). set_solver.
  - apply (shared_join g last); try done; lia.
  - simpl. right. right. split; [by apply join_phase_eq|done].
  - by intros ?%elem_of_nil.
Qed.

Lemma main_fiber_step g o last mem l lns l' mem' :
  main_ok (view_of g o) l -> phase_of g o = Outside -> made o last ->
  shared g last mem -> effect mem (act_of l) lns l' mem' -> fine g o last ∅ mem' lns l'.
Proof.
  intros Hl Hp Ho Hs He. pose proof N_range as HN.
  assert (Hat : forall n, main_at (view_of g o) Outside 3 n -> (3 <= g.(g_stage))%nat).
  { intros n (_ & _ & -> & _)%main_at_inv. done. }
  destruct l; try done; simpl in Hl, He; unfold say in He;
    try (exfalso; destruct Hl as [Hl _]; simpl in Hl; congruence);
    try (exfalso; destruct Hl as [[Hl _] _]; simpl in Hl; congruence).
  - destruct Hl as [Hl H0]. destruct He as (a & Ha & -> & -> & ->). apply fine_same; [done|].
    destruct (main_reads _ _ _ Hs (Hat _ Hl)) as (_ & a' & Ha' & Hc). rewrite Ha in Ha'. injection Ha' as <-.
    at_main.
  - destruct Hl as (Hl & H0 & Ha). destruct He as (_ & -> & -> & ->).
    apply fine_same; [apply shared_store_clear; [done|]; apply Ha; lia|]. at_main.
  - destruct Hl as [Hl Hi]. destruct He as (n & Hn & -> & -> & ->). apply fine_same; [done|].
    destruct (main_reads _ _ _ Hs (Hat _ Hl)) as (Hn' & _). rewrite Hn in Hn'. injection Hn' as ->.
    case_match; [at_main|]. left. split; [|done]. split; [|lia]. by replace (N - 1) with (i - 1) by lia.
  - destruct Hl as [Hl Hi]. destruct He as (a & Ha & -> & -> & ->). apply fine_same; [done|].
    destruct (main_reads _ _ _ Hs (Hat _ Hl)) as (_ & a' & Ha' & Hc). rewrite Ha in Ha'. injection Ha' as <-.
    at_main.
  - destruct Hl as (Hl & Hi & Ha). destruct He as (_ & -> & -> & ->).
    apply fine_same; [apply shared_store_clear; [done|]; apply Ha; lia|].
    rewrite uw_small by lia. left. split; [|done]. split; [|lia]. by replace (i + 1 - 1) with i by lia.
  - destruct Hl as [Hl H0]. destruct He as (t & _ & -> & -> & ->). apply fine_same; [done|]. at_main.
  - destruct Hl as [Hl H0]. destruct He as (_ & -> & -> & ->).
    apply fine_same; [by apply (shared_store_variable _ _ _ 3)|]. at_main.
  - destruct Hl as [Hl H0]. destruct He as (_ & -> & -> & ->).
    apply fine_same; [by apply (shared_store_variable _ _ _ 7)|]. at_main.
  - destruct Hl as [Hl H0]. destruct He as (_ & -> & -> & ->).
    apply fine_same; [apply (shared_store_variable _ _ _ 5); [done|done|intros _; by eapply Hat]|]. at_main.
  - destruct Hl as [Hl H0]. destruct He as (-> & -> & ->). destruct o as [|id]; [done|].
    by apply begin_to_simulate.
Qed.

(** *** The other threads *)

Lemma schedule_ok v l m : point_ok v l m -> point_ok v (schedule data l) m.
Proof. intros Hl. simpl. intros. split; [by exists 0|]. intros. exact Hl. Qed.

Lemma alarm_ok v l m : point_ok v l m -> point_ok v (alarm_comes data l) m.
Proof. intros Hl i. case_match; [done|]. by apply schedule_ok. Qed.

Lemma worker_step g o last mem m l lns l' mem' :
  worker_ok (view_of g o) l -> shared g last mem -> effect mem (act_of l) lns l' mem' ->
  fine g o last m mem' lns l'.
Proof.
  intros Hl Hs He. destruct l; try done; simpl in Hl, He.
  - destruct He as (v & _ & -> & -> & ->). apply fine_same; [done|]. by right; left.
  - destruct He as (v & _ & -> & -> & ->). apply fine_same; [by apply (shared_store_variable _ _ _ 6)|].
    case_match; [intros ??|]; by right; left.
  - case_match; [|done]. destruct He as (-> & -> & ->). apply fine_same; [done|]. by right; left.
  - destruct He as (v & _ & -> & -> & ->). apply fine_same; [done|]. case_match; by right; left.
  - destruct He as (-> & -> & ->). apply fine_same; [done|]. intros ?. split; [by exists 0|]. intros ? _ ??. by right; left.
Qed.

(** *** The counter of the fibers that are not done *)

Definition finish (id : Z) (g : ghost) : ghost :=
  Ghost g.(g_main) g.(g_stage) g.(g_jobs) (g.(g_done) ∪ {[ id ]}) g.(g_over).

Lemma finish_unnoticed id g : unnoticed [Fiber id] g (finish id g).
Proof.
  split; [done|]. intros o Ho. split; [|done]. destruct o as [|id']; [done|]. simpl.
  assert (id' <> id) by set_solver. destruct (decide (id' ∈ g_done g)).
  - by rewrite decide_True by set_solver.
  - by rewrite decide_False by set_solver.
Qed.

Lemma finish_phase id g : phase_of (finish id g) (Fiber id) = Done.
Proof. simpl. by rewrite decide_True by set_solver. Qed.

Lemma done_size g last mem id :
  shared g last mem -> id ∈ g.(g_jobs) -> id ∉ g.(g_done) -> Z.of_nat (size g.(g_done)) < N.
Proof.
  intros Hs Hj Hd. pose proof (sh_done _ _ _ Hs). pose proof (sh_size _ _ _ Hs).
  assert (Hsub : g.(g_done) ∪ {[ id ]} ⊆ g.(g_jobs)) by set_solver.
  apply subseteq_size in Hsub. rewrite size_union, size_singleton in Hsub by set_solver. lia.
Qed.

Lemma shared_finish g last mem id v :
  shared g last mem -> id ∈ g.(g_jobs) -> id ∉ g.(g_done) -> mem !! completed_fibers = Some v ->
  shared (finish id g) last (<[completed_fibers := u32 (v - 1)]> mem).
Proof.
  intros Hs Hj Hd Hv. pose proof (done_size _ _ _ _ Hs Hj Hd) as Hsize.
  assert (Hst : ~ (g.(g_stage) < 3)%nat).
  { intros Hst%(sh_early _ _ _ Hs). set_solver. }
  assert (Hn : size (g.(g_done) ∪ {[ id ]}) = S (size g.(g_done))).
  { rewrite size_union, size_singleton by set_solver. lia. }
  pose proof (sh_completed _ _ _ Hs ltac:(lia)) as Hc. rewrite Hv in Hc. injection Hc as ->.
  split; simpl; try (apply Hs; done).
  - intros i Hi. by eapply store_mapped.
  - pose proof (sh_done _ _ _ Hs). set_solver.
  - intros _. etrans; [by apply (lookup_other _ 0 1)|]. apply (sh_num _ _ _ Hs). lia.
  - intros _. rewrite lookup_insert_eq, Hn. f_equal.
    rewrite <- Z.add_opp_r, uw_add_idemp_l. f_equal. lia.
  - intros _. destruct (sh_fibers _ _ _ Hs) as (a & Ha & Hcl); [lia|]. exists a. split; [|done].
    etrans; [by apply (lookup_other _ 0 2)|done].
  - done.
  - intros Ho%(sh_over _ _ _ Hs). lia.
Qed.

Lemma completed_step g id last mem m j v :
  phase_of g (Fiber id) = Working -> shared g last mem -> mem !! completed_fibers = Some v ->
  (lucky j -> calls_completed j.(objects)) ->
  fine g (Fiber id) last m (<[completed_fibers := u32 (v - 1)]> mem) [] (F_done j).
Proof.
  intros Hp Hs Hv Hj. destruct (phase_job _ _ (sh_done _ _ _ Hs) Hp) as [Hjob Hd].
  exists (finish id g). split_and!.
  - apply finish_unnoticed.
  - by apply shared_finish.
  - simpl. right. right. split; [apply finish_phase|done].
  - by intros ?%elem_of_nil.
Qed.

Definition set_over (g : ghost) : ghost := Ghost g.(g_main) g.(g_stage) g.(g_jobs) g.(g_done) true.

Lemma wait_step g o last mem m j v :
  phase_of g o = Done -> shared g last mem -> mem !! completed_fibers = Some v ->
  (lucky j -> calls_completed j.(objects)) ->
  fine g o last m mem [] (if 0 <? v then F_wait j else F_report j).
Proof.
  intros Hp Hs Hv Hj. destruct (Z.ltb_spec 0 v) as [Hpos|Hv0]; [apply fine_same; [done|]; by right; right|].
  destruct (phase_done _ _ Hp) as (id & -> & Hid). pose proof N_range as HN.
  assert (Hst : ~ (g.(g_stage) < 3)%nat).
  { intros Hst%(sh_early _ _ _ Hs). pose proof (sh_done _ _ _ Hs). set_solver. }
  pose proof (sh_completed _ _ _ Hs ltac:(lia)) as Hc. rewrite Hv in Hc. injection Hc as ->.
  pose proof (sh_size _ _ _ Hs) as Hsz. pose proof (subseteq_size _ _ (sh_done _ _ _ Hs)) as Hds.
  rewrite uw_small in Hv0 by lia.
  exists (set_over g). split_and!; [done| | |by intros ?%elem_of_nil].
  - destruct Hs. split; try done. simpl. intros _. lia.
  - simpl. right. right. by split_and!.
Qed.

(** *** The fibers that simulate *)

Ltac at_job := apply fine_same; [done|]; simpl; right; right.

Lemma report_ok v j m :
  v.(v_phase) = Done -> v.(v_over) = true -> (lucky j -> calls_completed j.(objects)) ->
  forall l' lns mem mem', effect mem (act_of (F_report j)) lns l' mem' -> point_ok v l' m.
Proof.
  intros Hp Ho Hj l' lns mem mem' (_ & -> & _). simpl. intros init. split; [done|].
  intros exec n. split; [done|]. by right; right.
Qed.

Lemma job_step g o last mem m l lns l' mem' :
  job_ok (view_of g o) l m -> shared g last mem -> effect mem (act_of l) lns l' mem' ->
  fine g o last m mem' lns l'.
Proof.
  intros Hl Hs He. destruct l as
    [| | | | | | | | | | | | | | | | | | | | | | | | | | | | | | | | | | | | | | | | | |id q s| |id q s|
    | | | | |j|j e|j r| | |j e ty p|j e ty r|j e r|j t|j|j|j|j|j| | | |];
    try done; simpl in Hl, He; unfold say in He.
  - destruct Hl as (Hp & Hq & Hs' & Hslots). rewrite !(proj2 (Z.eqb_neq _ _)) in He by done.
    destruct He as (-> & -> & ->). by at_job.
  - destruct Hl as (Hp & Hslots). destruct He as (a & _ & -> & -> & ->). by at_job.
  - destruct He as (-> & -> & ->). apply fine_print; [done|done|]. by right; right.
  - destruct Hl as (Hp & Hst & Ht). destruct He as (-> & -> & ->). apply fine_same; [done|].
    destruct (msgs (objects j) !! e) as [c|] eqn:Hc.
    + destruct (Z.eqb_spec c.(receiver) j.(number)) as [|Hne]; right; right; simpl.
      * split_and!; [done|done|]. intros (c' & Hc' & Hrest)%Ht. rewrite Hc in Hc'. injection Hc' as <-. by split.
      * split; [done|]. intros (c' & Hc' & Hr & _)%Ht. rewrite Hc in Hc'. injection Hc' as <-. done.
    + right; right; simpl. split; [done|]. intros (c' & Hc' & _)%Ht. congruence.
  - destruct He as (-> & -> & ->). apply fine_print; [done|done|]. by right; right.
  - destruct Hl as (Hp & Hst & -> & Ht). destruct He as (a & _ & -> & -> & ->). at_job. by split_and!; [| | |intros H%Ht; split].
  - destruct Hl as (Hp & Hst & Hr & Ht). destruct (Z.eqb_spec ty INIT) as [|Hne]; [done|].
    destruct He as (-> & -> & ->). at_job. split_and!; [done|by split|]. intros [Hok Hc]%Ht. auto.
  - destruct Hl as (Hp & Hst & Ht). destruct He as (-> & -> & ->). apply fine_same; [done|].
    unfold next_turn. destruct (Z.eqb_spec r 0) as [|Hne].
    + right; right. simpl. split_and!; [done|done|]. intros [Hok _]%Ht. right. by apply turn_ok_freed.
    + split; [by exists 0|]. intros t _. right; right. simpl. split; [done|]. intros [_ Hc]%Ht. by apply Hc.
  - destruct Hl as (Hp & Hc). destruct He as (v & _ & -> & -> & ->).
    apply fine_same; [by apply (shared_store_variable _ _ _ 4)|]. by right; right.
  - destruct Hl as (Hp & Hc). destruct He as (v & Hv & -> & -> & ->). destruct o as [|id]; [done|].
    by apply completed_step.
  - destruct Hl as (Hp & Hc). case_match; destruct He as (-> & -> & ->); by at_job.
  - destruct Hl as (Hp & Hc). destruct He as (-> & -> & ->). apply fine_same; [done|].
    apply schedule_ok. by right; right.
  - destruct Hl as (Hp & Hc). destruct He as (v & Hv & -> & -> & ->). by apply wait_step.
  - destruct Hl as (Hp & Ho & Hc). exists g. pose proof He as (-> & _ & ->). split_and!; [done|done| |done].
    apply (report_ok (view_of g o) j m Hp Ho Hc l' [Line all_done []] mem mem He).
Qed.

(** *** Local storage *)

Lemma storage_get_inv i r m m' v : fls_step (FlsGetValue i) r m m' -> m !! i = Some v -> r = v /\ m' = m.
Proof. inversion 1; naive_solver. Qed.

Lemma storage_set_inv i w r m m' : fls_step (FlsSetValue i w) r m m' -> is_Some (m !! i) -> m' = <[i := w]> m.
Proof. intros Hs [v Hv]. inversion Hs; naive_solver. Qed.

Lemma storage_alloc_inv r m m' :
  fls_step FlsAlloc r m m' -> (size m < 4096)%nat ->
  0 <= r < 4096 /\ m !! r = None /\ exists v, m' = <[r := v]> m.
Proof.
  intros [(Hr & Hno & _ & Hv)|(_ & _ & Hall)]%fls_step_alloc_inv Hsize; [done|exfalso].
  assert (Hsub : (list_to_set (seqZ 0 4096) : gset Z) ⊆ dom m).
  { intros i Hi%elem_of_list_to_set%elem_of_seqZ. apply elem_of_dom, Hall. unfold MAX_FLS_POINTERS. lia. }
  apply subseteq_size in Hsub. rewrite size_dom, size_list_to_set, length_seqZ in Hsub by apply NoDup_seqZ. lia.
Qed.

#[export] Instance point_ok_patient v m : Patient (fun l => point_ok v l m).
Proof. by split. Qed.

(** What follows when the objects of a fiber have been used. *)
Lemma after_objects {A} v m (f : simM A) j k (Q : A -> world -> Prop) :
  v.(v_phase) = Working -> (lucky j -> steady (f j.(objects)) Q) ->
  (forall a w ws, f j.(objects) = (Ok a, w, ws) ->
     (lucky (add_widths ws (set_objects w j)) -> Q a w) ->
     point_ok v (k a (add_widths ws (set_objects w j))) m) ->
  point_ok v (on_objects f j k) m.
Proof.
  intros Hp Hs Hk. apply (on_objects_elim f j k Q (fun l => point_ok v l m)); [done|done|].
  intros x w ws Hl. by right; right.
Qed.

Lemma process_ok v m j e c :
  v.(v_phase) = Working -> stored j m -> (lucky j -> taken j.(number) j.(objects) e c) ->
  point_ok v (process_event generators j.(state_at) j.(queue_at) e c j) m.
Proof.
  intros Hp Hst Ht. unfold process_event. rewrite !Z.eqb_refl. simpl negb. cbn [orb]. split; [by exists 0|]. intros g _.
  apply (after_objects v m _ j _ (processed j.(number) e)); [done|intros Hl; by apply process_steady, Ht|].
  intros r w ws Hrun Hr. rewrite bind_modify in Hrun. apply result_type in Hrun. destruct Hst as [Hq Hs].
  destruct r as [n|p]; simpl in Hrun; right; right; simpl.
  - rewrite (proj2 (Z.eqb_neq _ _) Hrun). split_and!; [done|done|done|]. intros [Hc Hok]%Hr. auto.
  - by split_and!.
Qed.

Lemma job_fls v l m op k r m' :
  job_ok v l m -> act_of l = Call (EFls op) k -> fls_step op r m m' -> point_ok v (k r) m'.
Proof.
  intros Hl Ha Hs. destruct l as
    [| | | | | | | | | | | | | | | | | | | | | | | | | | | | | | | | | | | | | | | |a|id q| | |
    |j|j|j|j|j| | | |j e c|j e c st| |j e ty x| | | | | | | | | | |];
    try done; simpl in Hl, Ha; unfold say in Ha; try (repeat case_match; congruence).
  - injection Ha as <- <-. destruct Hl as [Hp ->]. apply storage_alloc_inv in Hs as (Hr & _ & x & ->); [|by rewrite map_size_empty; lia].
    right; right. simpl. rewrite s32_small by lia. split_and!; [done|lia|]. exists x. by rewrite insert_empty.
  - injection Ha as <- <-. destruct Hl as (Hp & Hq & x & ->).
    apply storage_alloc_inv in Hs as (Hr & Hno & y & ->); [|by rewrite map_size_singleton; lia].
    assert (q <> r) by (intros ->; by rewrite lookup_singleton_eq in Hno).
    right; right. simpl. rewrite s32_small by lia. unfold two_slots. split_and!; [done|done|lia|done| |].
    + rewrite lookup_insert_ne, lookup_singleton_eq by done. eauto.
    + rewrite lookup_insert_eq. eauto.
  - injection Ha as <- <-. destruct Hl as (Hp & (Hne & Hq & Hs') & Hst & Ho). apply storage_set_inv in Hs as ->; [|done].
    right; right. simpl. unfold queue_stored. rewrite lookup_insert_eq, lookup_insert_ne by done. by split_and!.
  - injection Ha as <- <-. destruct Hl as (Hp & (Hne & Hq & Hs') & Hst & Ho).
    destruct (storage_get_inv _ _ _ _ _ Hs Hq) as [-> ->]. unfold at_queue. rewrite Z.eqb_refl.
    apply (after_objects v m _ j _ (fun _ w => empty j.(number) w)); [done|rewrite Ho; intros _; apply init_steady|].
    intros a w ws _ Hw. by right; right.
  - injection Ha as <- <-. destruct Hl as (Hp & (Hne & Hq & Hs') & Hst & Ho).
    destruct (storage_get_inv _ _ _ _ _ Hs Hq) as [-> ->]. simpl. split; [by exists 0|]. intros x _. unfold first_event. rewrite Z.eqb_refl.
    apply (after_objects v m _ j _ (fun _ w => fresh j.(number) w)); [done|intros Hl; by apply first_event_steady, Ho|].
    intros a w ws _ Hw. by right; right.
  - injection Ha as <- <-. destruct Hl as (Hp & (Hne & Hq & Hs') & Hst & Ho). apply storage_set_inv in Hs as ->; [|done].
    right; right. simpl. unfold stored, queue_stored. rewrite lookup_insert_eq, lookup_insert_ne by done.
    rewrite Hst. split_and!; try done. intros Hl. left. auto.
  - injection Ha as <- <-. destruct Hl as (Hp & ((Hne & Hq & Hs') & Hst) & Ho).
    destruct (storage_get_inv _ _ _ _ _ Hs Hq) as [-> ->]. unfold at_queue. rewrite Z.eqb_refl.
    eapply (after_objects v m _ j); [done|intros Hl; by apply get_event_steady, Ho|]. cbv beta.
    intros e w ws _ Hw. destruct (Z.eqb_spec e 0) as [->|]; right; right; simpl.
    + split; [done|]. intros [? _]%Hw. done.
    + split_and!; [done|done|]. by intros [_ ?]%Hw.
  - injection Ha as <- <-. destruct Hl as (Hp & Hst & Ht). pose proof Hst as [_ Hv].
    destruct (storage_get_inv _ _ _ _ _ Hs Hv) as [-> ->]. by right; right.
  - injection Ha as <- <-. destruct Hl as (Hp & Hst & -> & Ht). pose proof Hst as [(_ & Hv & _) _].
    destruct (storage_get_inv _ _ _ _ _ Hs Hv) as [-> ->]. by apply process_ok.
  - destruct Hl as (Hp & (Hne & Hq & Hs') & Hr & Ht). destruct (ty =? INIT) eqn:Hty; [|done].
    injection Ha as <- <-. apply storage_set_inv in Hs as ->; [|done]. right; right. simpl.
    unfold stored, queue_stored. rewrite lookup_insert_eq, lookup_insert_ne, Hr by done.
    split_and!; try done. intros [Hok _]%Ht. done.
Qed.

(** ** The logic *)

Lemma main_phase v l : main_ok v l -> v.(v_phase) = InThread \/ v.(v_phase) = Outside.
Proof. intros Hl. destruct l; simpl in Hl; unfold main_at in Hl; naive_solver. Qed.

Lemma job_phase v l m : job_ok v l m -> v.(v_phase) = Working \/ v.(v_phase) = Done.
Proof. intros Hl. destruct l; simpl in Hl; try done; destruct Hl as [? _]; auto. Qed.

Lemma point_step g o last mem m l lns l' mem' :
  point_ok (view_of g o) l m -> made o last -> shared g last mem ->
  effect mem (act_of l) lns l' mem' -> fine g o last m mem' lns l'.
Proof.
  intros Hl Ho Hs He.
  assert (Hgo : main_ok (view_of g o) l /\ m = ∅ \/ worker_ok (view_of g o) l \/ job_ok (view_of g o) l m ->
                fine g o last m mem' lns l').
  { intros [[Hm ->]|[Hw|Hj]]; [|by eapply worker_step|by eapply job_step].
    destruct (main_phase _ _ Hm); [by eapply main_thread_step|by eapply main_fiber_step]. }
  destruct l; simpl in Hl; try exact (Hgo Hl); simpl in He.
  - destruct He as (v & _ & -> & -> & ->). by apply fine_same.
  - destruct He as (v & Hv & -> & -> & ->). apply fine_same; [done|]. by apply (proj2 Hl).
  - destruct He as (-> & -> & ->), Hl as [? Hl]. by apply fine_print.
  - destruct He as (-> & -> & ->). by apply fine_same.
  - done.
Qed.

Lemma next_fine g o last mem m l lns l' mem' :
  point_ok (view_of g o) l m -> made o last -> shared g last mem -> next mem l lns l' mem' ->
  fine g o last m mem' lns l'.
Proof.
  intros Hl Ho Hs [([= <-] & -> & ->)|He]%next_effect; [|by eapply point_step].
  apply fine_same; [done|]. by apply alarm_ok.
Qed.

(** A point at which [e] is called. *)
Lemma call_cases v l m e k :
  point_ok v l m -> act_of l = Call e k ->
  (exists id l', e = ESwitch id /\ k = (fun _ => l') /\ point_ok v l' m) \/
  (e = EConvert /\ (l = M_convert \/ l = W_convert)) \/
  (exists op, e = EFls op /\ job_ok v l m).
Proof.
  intros Hl Ha. destruct l; simpl in Ha; unfold say in Ha; repeat case_match; simplify_eq;
    try (by left; eexists _, _); try (by right; left; eauto);
    destruct Hl as [[Hm _]|[Hw|Hj]]; try done; right; right; eexists; (split; [reflexivity|exact Hj]).
Qed.

Lemma in_thread_fiber g id : phase_of g (Fiber id) <> InThread.
Proof. simpl. repeat case_decide; done. Qed.

Lemma convert_phase v l m : point_ok v l m -> l = M_convert \/ l = W_convert -> v.(v_phase) = InThread.
Proof. intros Hl [-> | ->]; simpl in Hl; unfold main_at in Hl; naive_solver. Qed.

Lemma create_point v l m fn size param k :
  point_ok v l m -> act_of l = Create fn size param k ->
  exists i, l = M_create i /\ param = u32 (i + 1) /\ k = (fun r => M_created i (s32 r)) /\
    main_at v Outside 3 (i - 1) /\ 1 <= i < N /\ m = ∅.
Proof.
  intros Hl Ha. destruct l; simpl in Hl, Ha; unfold say in Ha; repeat case_match; simplify_eq.
  naive_solver.
Qed.

Lemma create_ok g last mem id m i :
  main_at (view_of g (Fiber id)) Outside 3 (i - 1) -> 1 <= i < N -> 0 < id <= last -> shared g last mem -> m = ∅ ->
  exists g', unnoticed [Fiber id; Fiber (last + 1)] g g' /\ shared g' (last + 1) mem /\ g'.(g_over) = g.(g_over) /\
    (forall r, point_ok (view_of g' (Fiber id)) (M_created i r) m) /\
    forall param, point_ok (view_of g' (Fiber (last + 1))) (F_start param) ∅.
Proof.
  intros Hl Hi Hid Hs ->. apply main_at_inv in Hl as (Hp & Hm & Hst & Hn).
  assert (Hno : last + 1 ∉ g.(g_jobs)) by (intros Hin%(sh_jobs _ _ _ Hs); lia).
  assert (Hnd : last + 1 ∉ g.(g_done)) by (pose proof (sh_done _ _ _ Hs); set_solver).
  exists (join (last + 1) g). split_and!; [by apply join_unnoticed| |done| |].
  - apply (shared_join g last); try done; lia.
  - intros r. left. split; [|done]. split; [|lia]. apply main_at_intro; try done.
    + rewrite join_phase; [done|]. intros [= ?]. lia.
    + rewrite join_size by done. lia.
  - intros param. right; right. split; [by apply join_phase_eq|done].
Qed.

(** A thread becomes a fiber; [main] does so as the fiber that goes on with it. *)
Definition set_main (o : owner) (g : ghost) : ghost :=
  Ghost o g.(g_stage) g.(g_jobs) g.(g_done) g.(g_over).

Lemma shared_last g last mem : shared g last mem -> shared g (last + 1) mem.
Proof. intros []. split; try done; [lia|]. intros id Hid%sh_jobs0. lia. Qed.

Lemma new_fiber_phase g last mem : shared g last mem -> phase_of g (Fiber (last + 1)) = Outside.
Proof.
  intros Hs. assert (Hno : last + 1 ∉ g.(g_jobs)) by (intros Hin%(sh_jobs _ _ _ Hs); lia).
  pose proof (sh_done _ _ _ Hs). simpl. rewrite !decide_False by set_solver. done.
Qed.

Lemma convert_ok g last mem pid l k :
  point_ok (view_of g (Thread pid)) l ∅ -> shared g last mem -> act_of l = Call EConvert k ->
  exists g', unnoticed [Thread pid; Fiber (last + 1)] g g' /\ shared g' (last + 1) mem /\
    forall r, point_ok (view_of g' (Fiber (last + 1))) (k r) ∅.
Proof.
  intros Hl Hs Ha. pose proof (new_fiber_phase _ _ _ Hs) as Hph.
  destruct (call_cases _ _ _ _ _ Hl Ha) as [(? & ? & [=] & _)|[(_ & [-> | ->])|(? & [=] & _)]].
  - destruct Hl as [[Hl _]|[[]|[]]]. apply main_at_inv in Hl as (Hp & Hm & Hst & Hn).
    injection Ha as <-. exists (set_main (Fiber (last + 1)) g). split_and!.
    + split; [done|]. intros o Ho. split; [done|]. simpl. rewrite Hm, !decide_False by set_solver. done.
    + apply shared_last in Hs as []. by split.
    + intros r. left. split; [|done]. split; [by apply main_at_intro|]. apply (sh_positive _ _ _ Hs). lia.
  - injection Ha as <-. exists g. split_and!; [done|by apply shared_last|]. intros r. by right; left.
Qed.

#[export] Instance benchmark_logic : SharedLogic fiber_assertion thread_assertion shared.
Proof.
  split.
  - intros g last mem id l m o lns l' mem' [Hl Ho] Hid Hs Hn.
    destruct (next_fine g (Fiber id) last mem m l lns l' mem' Hl Hid Hs Hn) as (g' & Hu & Hs' & Hl' & Ho').
    exists g'. split; [by apply unnoticed_keeps|]. split; [done|]. split; [done|].
    intros [Hin|Hin]%elem_of_app; [|by apply Ho']. by apply (proj1 Hu), Ho.
  - intros g id l m o k [Hl Ho] Ha. exfalso.
    destruct (call_cases _ _ _ _ _ Hl Ha) as [(? & ? & [=] & _)|[(_ & Hc)|(? & [=] & _)]].
    by apply (in_thread_fiber g id), (convert_phase _ _ _ Hl).
  - intros g last mem id l m o fn size param k f [Hl Ho] Hid Hs Ha He.
    destruct (create_point _ _ _ _ _ _ _ Hl Ha) as (i & -> & -> & -> & Hm & Hi & Hempty).
    destruct (create_ok g last mem id m i Hm Hi Hid Hs Hempty) as (g' & Hu & Hs' & Hov & H1 & H2).
    simpl in Ha. injection Ha as <- <-. unfold entry in He. simpl in He. unfold benchmark_entry in He.
    rewrite Z.eqb_refl in He. injection He as <-.
    exists g'. split; [by apply unnoticed_keeps|]. split; [done|]. split; (split; [|]).
    + apply H1.
    + rewrite Hov. exact Ho.
    + apply H2.
    + by intros ?%elem_of_nil.
  - intros g id l m o id' k r [Hl Ho] Ha _. split; [|done].
    destruct (call_cases _ _ _ _ _ Hl Ha) as [(? & ? & _ & -> & Hl')|[([=] & _)|(? & [=] & _)]]. done.
  - intros g id l m o op k r m' [Hl Ho] Ha Hs. split; [|done].
    destruct (call_cases _ _ _ _ _ Hl Ha) as [(? & ? & [=] & _)|[([=] & _)|(? & _ & Hj)]].
    by eapply job_fls.
  - intros g q l l1 l' Ha. destruct l; simpl in Ha; unfold say in Ha; repeat case_match; simplify_eq.
    by right; left.
  - intros g last mem pid l lns l' mem' Hl Hs Hn.
    destruct (next_fine g (Thread pid) last mem ∅ l lns l' mem' Hl Logic.I Hs Hn) as (g' & Hu & Hs' & Hl' & _).
    exists g'. split; [by apply unnoticed_keeps|done].
  - intros g last mem pid l k Hl Hs Ha.
    destruct (convert_ok g last mem pid l k Hl Hs Ha) as (g' & Hu & Hs' & Hk).
    exists g'. split; [by apply unnoticed_keeps|]. split; [done|]. intros r. split; [done|].
    by intros ?%elem_of_nil.
  - intros g pid l fn size param k Hl Ha. exfalso.
    destruct (create_point _ _ _ _ _ _ _ Hl Ha) as (i & _ & _ & _ & [Hp _] & _). done.
  - intros g pid l id k Hl Ha.
    destruct (call_cases _ _ _ _ _ Hl Ha) as [(? & ? & _ & -> & Hl')|[([=] & _)|(? & [=] & _)]]. done.
  - intros g pid l op k Hl Ha. exfalso.
    destruct (call_cases _ _ _ _ _ Hl Ha) as [(? & ? & [=] & _)|[([=] & _)|(? & _ & Hj)]].
    by destruct (job_phase _ _ _ Hj).
Qed.

(** ** The behaviour of the program *)

Lemma initial_mapped i : 0 <= i < 8 -> initial_memory data !! variable i = Some 0.
Proof.
  intros Hi. unfold initial_memory. apply elem_of_list_to_map.
  - rewrite <- list_fmap_compose. apply NoDup_fmap; [|apply NoDup_seqZ].
    intros x y Hxy. by apply variable_inj.
  - apply list_elem_of_fmap. exists i. split; [done|]. by apply elem_of_seqZ.
Qed.

Lemma benchmark_holds n pid u :
  fiber_run n (start_fibers pid M_start) u ->
  exists g, holds fiber_assertion thread_assertion shared g u.
Proof.
  apply (shared_logic_sound _ _ _ (Ghost (Thread pid) 0 ∅ ∅ false)).
  - left. split; [|done]. by apply main_at_intro.
  - pose proof N_range. split; simpl; try done; try lia.
    + intros i Hi. eexists. by apply initial_mapped.
    + change (Z.of_nat (size (∅ : gset Z)) <= N). rewrite size_empty. lia.
    + intros _. by apply (initial_mapped 5).
Qed.

Lemma thread_point g u pid l :
  holds fiber_assertion thread_assertion shared g u -> u.(u_user).(locals) !! pid = Some l ->
  exists v m, point_ok v l m.
Proof.
  intros [Hh _] Hl. pose proof (h_thread _ _ _ _ _ Hh pid l ltac:(done) Hl) as Ht.
  unfold thread_holds in Ht. destruct (u_running u !! pid) as [id|]; [|by eexists _, _].
  destruct Ht as (f & _ & Ht & _). by eexists _, _.
Qed.

(** The simulation that has failed at a point. *)
Definition failing (l : point) : option job :=
  match l with F_no_events j | F_wrong j _ | F_failed j | F_fault j _ => Some j | _ => None end.

Lemma failing_unlucky v l m j : point_ok v l m -> failing l = Some j -> ~ lucky j.
Proof. intros Hl Hj. destruct l; simplify_eq/=; by destruct Hl as [[[] _]|[[]|[_ Hl]]]. Qed.

(** The point of a fiber: where its thread is, or where it goes on. *)
Definition fiber_point (u : ustate) (id : Z) (l : point) : Prop :=
  (exists pid, u.(u_running) !! pid = Some id /\ u.(u_user).(locals) !! pid = Some l) \/
  (forall pid, u.(u_running) !! pid <> Some id) /\ exists f, u.(u_fibers) !! id = Some f /\ f.(u_code) 0 = l.

Lemma fiber_point_ok g u id l :
  holds fiber_assertion thread_assertion shared g u -> fiber_point u id l ->
  exists m, point_ok (view_of g (Fiber id)) l m.
Proof.
  intros [Hh _] [(pid & Hr & Hl)|(Hp & f & Hf & <-)].
  - pose proof (h_thread _ _ _ _ _ Hh pid l ltac:(done) Hl) as Ht. unfold thread_holds in Ht. rewrite Hr in Ht.
    destruct Ht as (f & _ & Ht & _). by eexists.
  - destruct (h_parked _ _ _ _ _ Hh id f Hf Hp) as [Ht _]. by eexists.
Qed.

Lemma fiber_has_point g u id :
  holds fiber_assertion thread_assertion shared g u -> is_Some (u.(u_fibers) !! id) ->
  exists l, fiber_point u id l.
Proof.
  intros [Hh _] [f Hf]. destruct (decide (map_Exists (fun _ x => x = id) u.(u_running))) as [(pid & x & Hr & ->)|Hno].
  - destruct (h_locals _ _ _ _ _ Hh pid id Hr) as [l Hl]. exists l. left. by exists pid.
  - exists (f.(u_code) 0). right. split; [|by exists f]. intros pid Hr. apply Hno. by exists pid, id.
Qed.

(** The fiber at the point has counted itself; it has ended its simulation with
    the objects of the job. *)
Inductive counted : point -> job -> Prop :=
  | counted_done j : counted (F_done j) j
  | counted_idle j : counted (F_idle j) j
  | counted_wait j : counted (F_wait j) j
  | counted_report j : counted (F_report j) j
  | counted_succeeded j : counted (F_succeeded j) j
  | counted_fetch a k x j : counted (k x) j -> counted (Fetch a k) j
  | counted_guess q k x j : q x = true -> counted (k x) j -> counted (Guess q k) j
  | counted_say ln l j : counted l j -> counted (Say ln l) j
  | counted_step l j : counted l j -> counted (Step l) j
  | counted_switch id l j : counted l j -> counted (Switch id l) j.

#[local] Hint Constructors counted : core.

Lemma counted_ok v l m j :
  counted l j -> point_ok v l m -> v.(v_phase) = Done /\ (lucky j -> calls_completed j.(objects)).
Proof.
  induction 1; simpl; try (intros [[[] _]|[[]|Hj]]; by destruct_and?); naive_solver.
Qed.

Lemma done_default v l m :
  main_ok v l /\ m = ∅ \/ worker_ok v l \/ job_ok v l m -> v.(v_phase) = Done -> exists j, counted l j.
Proof.
  intros [[Hm _]|[Hw|Hj]] Hp.
  - destruct (main_phase _ _ Hm); congruence.
  - destruct l; simpl in Hw; first [done|congruence].
  - destruct l; simpl in Hj; try done; try (destruct Hj as [Hj _]; congruence); eauto.
Qed.

Lemma done_counted v l m : point_ok v l m -> v.(v_phase) = Done -> exists j, counted l j.
Proof.
  intros Hl Hp. induction l; simpl in Hl; try (apply (done_default v _ m); [exact Hl|exact Hp]).
  - destruct (H 0 (Hl 0)). eauto.
  - destruct Hl as [[x Hx] Hl]. destruct (H x (Hl x Hx)). eauto.
  - destruct (IHl (proj2 Hl)). eauto.
  - destruct (IHl Hl). eauto.
  - destruct (IHl Hl). eauto.
Qed.

Lemma working_not_done v l m j :
  point_ok v l m -> l = F_get j \/ failing l = Some j -> v.(v_phase) = Working.
Proof.
  intros Hl [-> |Hj]; [by destruct Hl as [[[] _]|[[]|[Hp _]]]|].
  destruct l; simplify_eq/=; by destruct Hl as [[[] _]|[[]|[Hp _]]].
Qed.

(** The fibers that are done are those that have counted themselves. *)
Lemma done_iff_counted g u id :
  holds fiber_assertion thread_assertion shared g u ->
  id ∈ g.(g_done) <-> exists l j, fiber_point u id l /\ counted l j.
Proof.
  intros Hh. pose proof Hh as [Hb Hs]. split.
  - intros Hid. destruct (fiber_has_point g u id Hh) as [l Hl].
    { by apply (h_fibers _ _ _ _ _ Hb), (sh_jobs _ _ _ Hs), (sh_done _ _ _ Hs). }
    destruct (fiber_point_ok g u id l Hh Hl) as [m Hp].
    destruct (done_counted _ _ _ Hp) as [j Hj]; [simpl; by rewrite decide_True|eauto].
  - intros (l & j & Hl & Hj). destruct (fiber_point_ok g u id l Hh Hl) as [m Hp].
    destruct (counted_ok _ _ _ _ Hj Hp) as [Hph _]. simpl in Hph. by repeat case_decide.
Qed.

Context {K : Kernel} {KOk : KernelOk K} (grp : Z).

Lemma benchmark_on_module n s pid s' c :
  initial s -> 2 * Z.of_nat n < INT_MAX ->
  @client_run _ _ _ _ (module_service grp) n (s, start_client pid M_start) (s', c) ->
  exists u g, fiber_run n (start_fibers pid M_start) u /\ u.(u_user) = c.(cl_user) /\
    holds fiber_assertion thread_assertion shared g u.
Proof.
  intros Hi Hn Hrun. destruct (run_continues grp n s pid M_start s' c Hi Hn Hrun) as (a & u & _ & _ & Hc & Hf).
  destruct (benchmark_holds _ _ _ Hf) as [g Hh]. exists u, g. split_and!; [done|apply Hc|done].
Qed.

(** C39: The fibers of the benchmark do not disturb each other.  On the module,
    whatever threads run them and wherever the alarm interrupts them, also while
    an event is processed or the queue changed, and between two accesses to the
    seed of the random numbers, but not inside a call of the module or of the C
    library: no fiber runs out of storage, and what a fiber reads from its local
    storage is its own queue and its own state.  It finds no event missing, no
    event of another fiber, no memory fault and no reason to abort, and between
    two turns its events, channels and counters agree, unless its queue has
    chosen a negative bucket width. *)
Theorem benchmark_isolation n s pid s' c q l :
  initial s -> 2 * Z.of_nat n < INT_MAX ->
  @client_run _ _ _ _ (module_service grp) n (s, start_client pid M_start) (s', c) ->
  c.(cl_user).(locals) !! q = Some l ->
  l <> F_no_storage /\ (forall j, l <> F_stray j) /\
  (forall j, failing l = Some j -> exists w, w ∈ j.(widths) /\ dlt w (of_Z 0) = true) /\
  (forall j, l = F_get j -> Forall (fun w => not_negative w) j.(widths) -> ready j.(number) j.(objects)).
Proof.
  intros Hi Hn Hrun Hl. destruct (benchmark_on_module n s pid s' c Hi Hn Hrun) as (u & g & _ & Hu & Hh).
  rewrite <- Hu in Hl. destruct (thread_point g u q l Hh Hl) as (v & m & Hp). split_and!.
  - intros ->. by destruct Hp as [[[] _]|[[]|[]]].
  - intros j ->. by destruct Hp as [[[] _]|[[]|[]]].
  - intros j Hj. pose proof (failing_unlucky _ _ _ _ Hp Hj) as Hun. unfold lucky in Hun.
    apply not_Forall_Exists in Hun; [|intros w; apply _]. apply Exists_exists in Hun as (w & Hw & Hneg).
    exists w. split; [done|]. by apply not_false_is_true.
  - intros j ->. by destruct Hp as [[[] _]|[[]|(_ & _ & Hr)]].
Qed.

(** C40: The benchmark counts its fibers rightly.  On the module (whose calls are
    one step each), in every state of every run: the fibers that have counted
    themselves, which are exactly those at a point after the end of their
    simulation, have completed their calls (unless their queues have chosen a
    negative bucket width), and those that take events or have failed are not
    among them.  As soon as there is one of them, or [main] has set
    [init_complete], the variable [completed_fibers] is the number of the others
    of the fibers asked for; and a fiber has reported that all are done only when
    they are as many as were asked for. *)
Theorem benchmark_completion n s pid s' c :
  initial s -> 2 * Z.of_nat n < INT_MAX ->
  @client_run _ _ _ _ (module_service grp) n (s, start_client pid M_start) (s', c) ->
  exists (u : ustate) (D : gset Z),
    fiber_run n (start_fibers pid M_start) u /\ u.(u_user) = c.(cl_user) /\
    (forall id, id ∈ D <-> exists l j, fiber_point u id l /\ counted l j) /\
    (forall id l j, fiber_point u id l -> counted l j ->
       Forall (fun w => not_negative w) j.(widths) -> calls_completed j.(objects)) /\
    (forall id l j, fiber_point u id l -> l = F_get j \/ failing l = Some j -> id ∉ D) /\
    (D <> ∅ \/ c.(cl_user).(memory) !! init_complete <> Some 0 ->
     c.(cl_user).(memory) !! completed_fibers = Some (N - Z.of_nat (size D))) /\
    (forall id, Line all_done [] ∈ printed id c.(cl_user) -> Z.of_nat (size D) = N).
Proof.
  intros Hi Hn Hrun. destruct (benchmark_on_module n s pid s' c Hi Hn Hrun) as (u & g & Hf & Hu & Hh).
  pose proof Hh as [Hb Hs]. exists u, g.(g_done). rewrite <- Hu. split_and!; [done|done|..].
  - intros id. by apply done_iff_counted.
  - intros id l j Hl Hj. destruct (fiber_point_ok g u id l Hh Hl) as [m Hp]. by apply (counted_ok _ _ m _ Hj Hp).
  - intros id l j Hl Hj Hid. destruct (fiber_point_ok g u id l Hh Hl) as [m Hp].
    pose proof (working_not_done _ _ _ _ Hp Hj) as Hw. simpl in Hw. by rewrite decide_True in Hw.
  - intros Hne. rewrite (sh_completed _ _ _ Hs).
    + pose proof (sh_size _ _ _ Hs). pose proof (subseteq_size _ _ (sh_done _ _ _ Hs)). pose proof N_range.
      rewrite uw_small; [done|lia].
    + destruct (decide (g_stage g < 3)%nat) as [Hst|]; [exfalso|lia]. destruct Hne as [Hne|Hne].
      * apply (sh_early _ _ _ Hs) in Hst. pose proof (sh_done _ _ _ Hs). set_solver.
      * by apply Hne, (sh_ready _ _ _ Hs).
  - intros id Hin. destruct (decide (printed id u.(u_user) = [])) as [He|Hne].
    { rewrite He in Hin. by apply elem_of_nil in Hin. }
    destruct (holds_printed _ _ _ _ _ _ Hh Hne) as (l & m & _ & Ho). by apply (sh_over _ _ _ Hs), Ho.
Qed.
End BenchmarkProps.

Import Reference.

(** One processor and two fibers; [main_loop] is at 5000.  The thread 10 makes
    the fibers, and its own processes two events; every use of its objects and
    every other free choice takes the number 1, all else an address.  In the
    middle of [Random] the thread's seed becomes 5. *)
Definition two_fibers : list cstring := [["b"%char]; ["2"%char]].
Definition choices : list nat := [31; 34; 35; 39; 44; 45; 51; 56; 57]%nat.
Definition first_turns : list (Z * Z) :=
  imap (fun i pid => (pid, if decide (i ∈ choices) then 1 else 1000 * (Z.of_nat i + 20))) (replicate 61 10).
Definition garbage (_ : Z) : double * Z := (of_Z 0, 0).
Definition seeds (x : Z) : rng := Rng x 0 [None; None; Some (5, 3%nat)].
Definition example_program : Program (L := point) :=
  @benchmark_program ReferenceLibc.libc 5000 6000 100000 two_fibers 1 0 garbage seeds.

(** Thread 10 is between two turns, and no width has been chosen. *)
Definition between_turns (c : client (L := point)) : bool :=
  match c.(cl_user).(locals) !! 10 with
  | Some (F_get j) => match j.(widths) with [] => true | _ => false end
  | _ => false
  end.

Lemma between_turns_inv c :
  between_turns c = true -> exists j, c.(cl_user).(locals) !! 10 = Some (F_get j) /\ j.(widths) = [].
Proof. unfold between_turns. repeat case_match; try done. eauto. Qed.

Lemma benchmark_isolation_witness :
  exists (c : client (L := point)) j, c.(cl_user).(locals) !! 10 = Some (F_get j) /\ ready j.(number) j.(objects).
Proof.
  pose (P := example_program).
  computed (client_execs 10 first_turns (boot, start_client 10 M_start)) x Hx. destruct x as [s' c].
  pose proof (client_execs_run 10 _ _ _ Hx) as Hrun. exists c.
  destruct (between_turns_inv c) as (j & Hj & Hw).
  { apply (fmap_field (fun x => between_turns x.2) _ _ _ Hx). vm_compute. reflexivity. }
  exists j. split; [exact Hj|].
  destruct (@benchmark_isolation ReferenceLibc.libc ReferenceLibc.libc_ok 5000 6000 100000 two_fibers 1 0 garbage seeds
    _ _ 10 61 boot 10 s' c 10 _ ltac:(repeat split) ltac:(done) Hrun Hj) as (_ & _ & _ & H).
  apply (H j eq_refl). rewrite Hw. constructor.
Defined.

(** Then the counter has its first value, no fiber has counted itself, and none
    has reported the end. *)
Lemma benchmark_completion_witness :
  exists (c : client (L := point)) (u : ustate),
    c.(cl_user).(memory) !! 100000 = Some 2 /\
    (forall id l j, fiber_point u id l -> ~ counted l j) /\
    forall id, Line all_done [] ∉ printed id c.(cl_user).
Proof.
  pose (P := example_program).
  computed (client_execs 10 first_turns (boot, start_client 10 M_start)) x Hx. destruct x as [s' c].
  pose proof (client_execs_run 10 _ _ _ Hx) as Hrun. exists c.
  assert (Hm : c.(cl_user).(memory) !! 100000 = Some 2).
  { apply (fmap_field (fun x => (x.2).(cl_user).(memory) !! 100000) _ _ _ Hx). vm_compute. reflexivity. }
  assert (Hr : c.(cl_user).(memory) !! 100040 = Some 1).
  { apply (fmap_field (fun x => (x.2).(cl_user).(memory) !! 100040) _ _ _ Hx). vm_compute. reflexivity. }
  destruct (@benchmark_completion ReferenceLibc.libc ReferenceLibc.libc_ok 5000 6000 100000 two_fibers 1 0 garbage
    seeds _ _ 10 61 boot 10 s' c ltac:(repeat split) ltac:(done) Hrun) as (u & D & _ & _ & HD & _ & _ & Hc & Hall).
  change (init_complete 100000) with 100040 in Hc. change (completed_fibers 100000) with 100000 in Hc.
  change (number_of_fibers two_fibers) with 2 in *.
  assert (He : size D = 0%nat).
  { rewrite Hr in Hc. specialize (Hc ltac:(by right)). rewrite Hm in Hc. injection Hc as Hc. lia. }
  exists u. split; [exact Hm|]. split.
  - intros id l j Hl Hj. apply size_empty_iff in He. apply (not_elem_of_empty (C := gset Z) id), He, HD. eauto.
  - intros id Hin. specialize (Hall id Hin). rewrite He in Hall. discriminate Hall.
Defined.
